(* ===== verification/_CoqProject ===== *)
-Q . S2P
Prelude.v
Machine.v
Task.v
TaskProps.v
Scheduler.v
Fs.v
Calc.v
CalcProps.v
Memory.v
Frames.v
Paging.v
Syscall.v
Heap.v
Devices.v
Input.v
InputProps.v
Vga.v
VgaProps.v
Text.v
Shell.v
ShellProps.v
Allocation.v
ShellFiles.v
Display.v
Console.v
Descriptors.v
Interrupts.v
Exceptions.v
UserProg.v
Preemption.v
Kernel.v
BootHeap.v
System.v
Locks.v
