(* ===== verification/Prelude.v ===== *)
(** * ENOS: a verification library of the kernel

    ENOS is a 32-bit x86 teaching kernel: a Multiboot image that sets up segments,
    paging, interrupts and a timer, runs one generated program in ring 3 beside a
    ring 0 background thread that serves a shell, and schedules the two preemptively.
    This library models the kernel's Rust and assembly ([src/*.rs]) as executable
    definitions and proves what makes it correct.  Paths below are relative to the
    crate root.

    ** Conventions

    Rust code that can panic is a function into [outcome] (this file): [Ret] is a
    return, [Panic msg] a panic with its message, [OutOfFuel] a loop given too little
    fuel.  A theorem that ends in [Ret _] therefore says that the code returns.  Fuel
    only occurs where the recursion is not structural, and each such function gets an
    amount proved to be enough: [cleanup_loop] one step per task ([cleanup_exact]),
    the parser [4 * length + 3] ([calc_total]), [allocate_loop] and [print_loop] a
    number of steps computed from the length of the memory map
    ([allocate_frame_terminates], [print_memory_map_exact]); [poll_input] is bounded
    in the code itself.  [write_byte] of the serial port waits for the device, and
    [serial_transmits] assumes that the device gets ready.

    Machine integers are [Z] with their width written out: [build.sh] builds in the
    dev profile, so [+] on a [u32] is [add_u32], which panics on overflow, and the
    [wrapping_], [saturating_] and [checked_] methods and the [as] casts have their
    own definitions.  [usize] is 32 bits wide.  [Vec] accesses go through [vec_index],
    [vec_set] and [vec_remove], which panic out of range.  Output is returned as the
    list of what was sent to the screen and the serial port, port writes as a list of
    port and value.  A null pointer from the heap is a panic too ([box_new]).

    ** Files

    - [Prelude]: outcomes, integers, [Vec] operations, automation ([rust_simpl],
      [case_bool], [lia_div], the hint database [enos]).
    - [Machine]: physical memory in bytes, little-endian access, output, number
      formatting.
    - [Task] ([src/task.rs]): [Task], [TaskManager] and every operation of it;
      [TaskProps]: its invariant [sched_wf] and what each operation does; [Scheduler]:
      theorems over sequences of events, and what they do to a task that waits.
    - [Fs] ([src/fs.rs]): the file table, its invariant, and the bounded finite map it
      implements.
    - [Calc], [CalcProps] ([CalcParser] of [src/shell.rs]): the evaluating parser, a
      grammar with an evaluator of its trees, and their exact relation.
    - [Memory], [Frames] ([src/memory.rs]): the memory map as bytes, its listing and
      the frame allocator, against the list of frames that may be handed out.
    - [Paging] ([src/paging.rs]): the page tables and the processor's translation;
      the class [UserMemory] is what [user_range_contains] promises its clients, and
      [paging_user_memory] the instance that discharges it.
    - [Syscall] ([src/syscall.rs]): the dispatcher, proved against [UserMemory].
    - [Heap] ([src/allocator.rs]): the bump allocator.
    - [Devices] ([src/pic.rs], [src/pit.rs], [src/serial.rs]): the drivers as port
      writes, and the chips that receive them.
    - [Input], [InputProps] ([src/shell.rs]): scan code queue, key map, history.
    - [Vga], [VgaProps] ([src/vga_buffer.rs]): the text buffer, refining a terminal
      that only knows lines.
    - [Text], [Shell], [ShellProps], [ShellFiles] ([src/shell.rs]): the string methods
      used, every command in a state-and-output monad over [World] (the shell's
      statics with the scheduler, files and heap they reach), and its theorems;
      [Allocation]: the same shell with its requests to the heap; [Display]: what the
      shell prints, rendered by the text screen.
    - [Console]: the screen, cursor and serial port behind [print!] and
      [serial_print!] while the kernel boots.
    - [Descriptors] ([src/gdt.rs], [src/idt.rs], [init_idt]): the tables as bytes and
      the processor's decoding of them.
    - [Interrupts] ([src/interrupts.rs]): the assembly wrappers instruction by
      instruction over registers and stack words, with the processor's own pushes and
      pops; [Exceptions]: the [x86-interrupt] handlers; [Preemption]: processor, stacks
      and scheduler together, with several tasks running through the wrappers.
    - [UserProg] ([install_user_program] of [src/main.rs]): the bytes of the ring 3
      program and their execution.
    - [Kernel] ([src/main.rs]): Multiboot header, [_start], [kernel_main], the switch
      to ring 3, the background thread; [BootHeap]: [kernel_main] with its boxes taken
      from the heap.
    - [System]: the running kernel as a step relation over all of the above.
    - [Locks]: the [spin::Mutex] statics and the interrupt flag, with interrupts
      possible between any two lock operations.

    ** What is proved

    The whole kernel.  [kernel_boots] and [boot_structures_protected]: from a valid
    memory map [kernel_main] reaches the program in ring 3, with interrupts wired to
    their handlers, user access limited to the user pages, and the structures the
    processor trusts disjoint and out of ring 3's reach.
    [kernel_panics_only_out_of_memory]: from there on no interleaving of interrupts,
    thread turns, system calls and faults breaks an invariant, and the one panic is
    the allocation error handler's, for a request that no longer fits in the heap.
    [first_tick_starts_thread], [user_program_behaves]: what the two tasks do.

    Scheduling.  [sched_never_stalls], [ready_task_runs] (bounded waiting),
    [schedule_next_round_robin], [sleep_duration], [sys_sleep_exact],
    [kill_task_by_pid_branches], and at the level of registers
    [preempted_task_resumes] (every register, across whatever the other tasks do),
    [new_task_starts], [syscall_returns], [page_fault_kills_program],
    [exceptions_reported].

    Isolation.  [init_address_space], [user_range_contains_accessible] and
    [syscall_isolated]: ring 3 accesses exactly the user pages, and a system call
    reads only what its caller could.  [gdt_segments], [idt_gates]: what the selectors
    and vectors mean to the processor.

    Storage.  [allocated_frames_free] and [heap_blocks_safe] (no overlap, in bounds),
    [fs_refines_map] (the file table is a bounded map).

    The user's view.  [vga_shows_text], [queue_refines_fifo], [typed_line_on_screen]
    (the characters typed are the command run and the text shown), [file_commands_roundtrip],
    [guest_cannot_destroy], [calc_evaluates] and [calc_accepts_only_written] (the
    calculator computes exactly the grammar's expressions), [sys_print_exact],
    [serial_transmits].

    Locks.  [locks_never_hang]: all functions but two take a lock a handler may need
    only with interrupts off, and then no interleaving reaches a state without a next
    step; the heap's lock, which the thread takes with interrupts on, the handlers
    only take before the thread has run.  [unguarded_locks_hang]: the two functions
    that break the rule can hang the kernel.

    Where the code does not do what it means to, the theorem states what it does:
    [io_permission_open] (the I/O permission map is misplaced in the task state
    segment, so ring 3 can reach several ports), [allocate_frame_top_page] (the last
    page below 4 GiB), [print_memory_map_exact] (the high words of a region are not
    listed), [backspace_undoes_within_row] (erasing stops at the left margin) and
    [unguarded_locks_hang].

    ** What code outside the crate does

    The processor is modelled after the Intel manuals as far as the code uses it
    (descriptors, gates, [iretd], [pushad], paging, the I/O permission check, four
    instructions of the program), the chips after their data sheets.  Rust's standard
    library is modelled where the source uses it ([Vec], [String] methods,
    formatting, [from_utf8]).  Addresses chosen by the linker, the boot loader's
    memory map and the behaviour of compiled code around an [x86-interrupt] function
    are parameters with the documented guarantees as hypotheses ([boot_map],
    [paging_boot], [bootable], [loaded], [spill]); each hypothesis has a concrete
    instance in a witness.

    ** Not modelled

    - The instructions the compiler generates for Rust functions: a function called
      from a wrapper is a [callee] that leaves a result, the registers the calling
      convention lets it change and memory; stack depth is not bounded.
    - Interruption in the middle of a turn of the background thread: [System] runs a
      turn, a system call and an interrupt handler each as one step; what interrupts
      between their lock operations can do is the subject of [Locks].
    - Which layouts [Vec] and [String] ask the heap for: the requests of a turn and of
      [tasks.insert] are parameters, and [kernel_panics_only_out_of_memory] holds for
      all of them.  The theorems about single commands ([typed_line_on_screen],
      [file_commands_roundtrip], [guest_cannot_destroy]) are about [Shell], in which
      no request is made; [no_demands] is the connection.  The heap reclaims nothing,
      so enough commands exhaust it and the kernel then panics.
    - The initialization of the [lazy_static] values, which [Locks] takes as done.
    - What code does to memory: [Preemption] assumes that a task does not write to
      another task's ring 0 stack and does not overflow its own.
    - How [write_fmt] cuts a formatted text into pieces: a text is one [write_str], so
      the cursor moves between its pieces are not listed.
    - Timing of the devices, and faults of the kernel's own code (a page fault in
      ring 0 panics, see [page_fault_kills_program]).
    - Texts the core library renders for a panic ([PanicInfo], [Layout]).

    ** Outcomes, integers and vectors

    The rest of this file is the vocabulary the components share. *)

From Stdlib Require Export ZArith Lia Ascii ZifyNat.
From stdpp Require Export base numbers strings gmap list.

#[global] Set Default Goal Selector "!".

(** ** Outcomes

    Rust code either returns, panics with a message, or (for a loop modelled
    with fuel) runs out of fuel.  A theorem that concludes [Ret _] therefore
    states that the code returns. *)

Inductive outcome (A : Type) : Type :=
| Ret (a : A)
| Panic (msg : string)
| OutOfFuel.
Arguments Ret {A} a.
Arguments Panic {A} msg.
Arguments OutOfFuel {A}.

#[global] Instance outcome_ret : MRet outcome := λ A a, Ret a.
#[global] Instance outcome_bind : MBind outcome := λ A B f m,
  match m with
  | Ret a => f a
  | Panic msg => Panic msg
  | OutOfFuel => OutOfFuel
  end.
#[global] Instance outcome_fmap : FMap outcome := λ A B f m,
  match m with
  | Ret a => Ret (f a)
  | Panic msg => Panic msg
  | OutOfFuel => OutOfFuel
  end.

(** [returns m P]: the code returns, with a value satisfying [P]. *)
Definition returns {A} (m : outcome A) (P : A → Prop) : Prop :=
  ∃ a, m = Ret a ∧ P a.

(** Rust's [Result<T, E>]. *)
Inductive result (T E : Type) : Type :=
| Ok (t : T)
| Err (e : E).
Arguments Ok {T E} t.
Arguments Err {T E} e.

#[global] Instance result_eq_dec {T E} `{EqDecision T} `{EqDecision E} :
  EqDecision (result T E).
Proof. solve_decision. Defined.

Definition result_bind {T U E} (m : result T E) (f : T → result U E) : result U E :=
  match m with
  | Ok t => f t
  | Err e => Err e
  end.
Declare Scope rust_scope.
Delimit Scope rust_scope with rust.
(** Rust's [let x = m?; k]. *)
Notation "'try!' x ':=' m 'in' k" :=
  (result_bind m (λ x, k))
  (at level 10, x pattern, m at level 100, k at level 200) : rust_scope.
(** Rust's [option.ok_or(e)]. *)
Definition ok_or {T E} (o : option T) (e : E) : result T E :=
  match o with
  | Some t => Ok t
  | None => Err e
  end.

(** ** Machine integers

    A [w]-bit unsigned integer is a [Z] in [0, 2^w).  The kernel is built by
    [build.sh] in the [dev] profile, where [+], [-] and [*] panic on overflow;
    the [wrapping_], [saturating_] and [checked_] methods are written out. *)

Definition U32_MAX : Z := 4294967295.
Definition U64_MAX : Z := 18446744073709551615.
Definition I64_MIN : Z := -9223372036854775808.
Definition I64_MAX : Z := 9223372036854775807.

Definition is_u8 (z : Z) : Prop := (0 ≤ z < 256)%Z.
Definition is_u16 (z : Z) : Prop := (0 ≤ z < 65536)%Z.
Definition is_u32 (z : Z) : Prop := (0 ≤ z ≤ U32_MAX)%Z.
Definition is_u64 (z : Z) : Prop := (0 ≤ z ≤ U64_MAX)%Z.
Definition is_i64 (z : Z) : Prop := (I64_MIN ≤ z ≤ I64_MAX)%Z.

(** Truncating casts [as u8], [as u16], [as u32] and wrap-around at 64 bits. *)
Definition as_u8 (z : Z) : Z := z `mod` 256.
Definition as_u16 (z : Z) : Z := z `mod` 65536.
Definition as_u32 (z : Z) : Z := z `mod` 4294967296.
Definition wrap64 (z : Z) : Z := z `mod` 18446744073709551616.

Definition add_u32 (a b : Z) : outcome Z :=
  if (a + b <=? U32_MAX)%Z then Ret (a + b)%Z
  else Panic "attempt to add with overflow".
Definition add_u64 (a b : Z) : outcome Z :=
  if (a + b <=? U64_MAX)%Z then Ret (a + b)%Z
  else Panic "attempt to add with overflow".
Definition checked_add_u32 (a b : Z) : option Z :=
  if (a + b <=? U32_MAX)%Z then Some (a + b)%Z else None.
Definition saturating_add_u32 (a b : Z) : Z := Z.min (a + b) U32_MAX.
Definition saturating_add_u64 (a b : Z) : Z := Z.min (a + b) U64_MAX.
Definition saturating_mul_u32 (a b : Z) : Z := Z.min (a * b) U32_MAX.
Definition saturating_mul_u64 (a b : Z) : Z := Z.min (a * b) U64_MAX.
Definition saturating_sub (a b : Z) : Z := Z.max (a - b) 0.

(** ** [Vec] and iterator operations *)

(** [v[i]]: panics out of range. *)
Definition vec_index {A} (l : list A) (i : nat) : outcome A :=
  match l !! i with
  | Some x => Ret x
  | None => Panic "index out of bounds"
  end.

(** [v.remove(i)]: panics out of range. *)
Definition vec_remove {A} (l : list A) (i : nat) : outcome (list A) :=
  match l !! i with
  | Some _ => Ret (delete i l)
  | None => Panic "removal index should be < len"
  end.

(** [v[i] = x]: panics out of range. *)
Definition vec_set {A} (l : list A) (i : nat) (x : A) : outcome (list A) :=
  match l !! i with
  | Some _ => Ret (<[i := x]> l)
  | None => Panic "index out of bounds"
  end.

(** [iter.position(f)]. *)
Fixpoint position {A} (f : A → bool) (l : list A) : option nat :=
  match l with
  | [] => None
  | x :: l => if f x then Some 0 else S <$> position f l
  end.

(** [iter.find_map(f)], which also models a [for] loop with an early return. *)
Fixpoint find_map {A B} (f : A → option B) (l : list A) : option B :=
  match l with
  | [] => None
  | x :: l => match f x with Some y => Some y | None => find_map f l end
  end.

(** [opt.or_else(|| o)]. *)
Definition or_else {A} (o1 o2 : option A) : option A :=
  match o1 with Some x => Some x | None => o2 end.

(** ** Lemmas on outcomes *)

Lemma bind_Ret {A B} (a : A) (f : A → outcome B) : (Ret a ≫= f) = f a.
Proof. reflexivity. Qed.

Lemma returns_Ret {A} (a : A) (P : A → Prop) : P a → returns (Ret a) P.
Proof. intros. by exists a. Qed.

Lemma returns_bind {A B} (m : outcome A) (f : A → outcome B) (P : A → Prop) (Q : B → Prop) :
  returns m P → (∀ a, P a → returns (f a) Q) → returns (m ≫= f) Q.
Proof. intros (a & -> & Ha) Hf. by apply Hf. Qed.

(** ** Lemmas on machine integers *)

Lemma add_u32_Ret a b : (a + b ≤ U32_MAX)%Z → add_u32 a b = Ret (a + b)%Z.
Proof. intros H. unfold add_u32. by rewrite (proj2 (Z.leb_le _ _) H). Qed.

Lemma add_u32_inv a b c : add_u32 a b = Ret c → c = (a + b)%Z ∧ (c ≤ U32_MAX)%Z.
Proof. unfold add_u32. destruct (Z.leb_spec (a + b) U32_MAX); intros [= <-]. done. Qed.

Lemma add_u32_fuel a b : add_u32 a b ≠ OutOfFuel.
Proof. unfold add_u32. by destruct (_ <=? _)%Z. Qed.

(** ** Lemmas on the [Vec] operations *)

Lemma vec_index_Some {A} (l : list A) i x : l !! i = Some x → vec_index l i = Ret x.
Proof. unfold vec_index. by intros ->. Qed.

Lemma vec_set_lt {A} (l : list A) i x : i < length l → vec_set l i x = Ret (<[i := x]> l).
Proof. unfold vec_set. intros [y ->]%lookup_lt_is_Some. done. Qed.

Lemma vec_remove_lt {A} (l : list A) i : i < length l → vec_remove l i = Ret (delete i l).
Proof. unfold vec_remove. intros [x ->]%lookup_lt_is_Some. done. Qed.

Lemma position_Some {A} (f : A → bool) l i :
  position f l = Some i ↔
  (∃ x, l !! i = Some x ∧ f x = true) ∧ (∀ j y, j < i → l !! j = Some y → f y = false).
Proof.
  revert i. induction l as [|x l IH]; intros i; simpl.
  { split; [done|]. by intros [(?&?&?) _]. }
  destruct (f x) eqn:Hx.
  - split.
    + intros [= <-]. split; [by eauto|]. intros j y Hj. lia.
    + intros [(y&Hi&Hy) Hmin]. destruct i as [|i]; [done|].
      specialize (Hmin 0 x). rewrite Hmin in Hx; [done|lia|done].
  - rewrite fmap_Some. split.
    + intros (k & [Hk Hmin]%IH & ->). split; [done|].
      intros [|j] y Hj Hy; simpl in *; [by simplify_eq|]. eapply Hmin; [|done]. lia.
    + intros [(y&Hi&Hy) Hmin]. destruct i as [|i]; simpl in Hi; [congruence|].
      exists i. split; [|done]. apply IH. split; [by eauto|].
      intros j z Hj Hz. apply (Hmin (S j)); [lia|done].
Qed.

Lemma position_None {A} (f : A → bool) l :
  position f l = None ↔ ∀ x, x ∈ l → f x = false.
Proof.
  induction l as [|x l IH]; simpl; [set_solver|].
  destruct (f x) eqn:Hx; [split; [done|]; intros H; by rewrite H in Hx; [|left]|].
  rewrite fmap_None, IH. set_solver.
Qed.

Lemma position_lt {A} (f : A → bool) l i : position f l = Some i → i < length l.
Proof. intros [(x & Hx & _) _]%position_Some. by eapply lookup_lt_Some. Qed.

Lemma find_map_Some {A B} (f : A → option B) l y :
  find_map f l = Some y →
  ∃ i x, l !! i = Some x ∧ f x = Some y ∧ ∀ j z, j < i → l !! j = Some z → f z = None.
Proof.
  induction l as [|x l IH]; simpl; [done|].
  destruct (f x) eqn:Hx.
  - intros [= <-]. exists 0, x. split_and!; [done..|]. intros; lia.
  - intros (i & z & Hi & Hz & Hmin)%IH. exists (S i), z. split_and!; [done..|].
    intros [|j] w Hj Hw; simpl in *; [by simplify_eq|]. eapply Hmin; [|done]. lia.
Qed.

Lemma find_map_None {A B} (f : A → option B) l :
  find_map f l = None ↔ ∀ x, x ∈ l → f x = None.
Proof.
  induction l as [|x l IH]; simpl; [set_solver|].
  destruct (f x) eqn:Hx; [|set_solver].
  split; [done|]. intros H. rewrite H in Hx; [done|left].
Qed.

Lemma list_lookup_delete {A} (l : list A) i j :
  delete i l !! j = if decide (j < i) then l !! j else l !! S j.
Proof.
  case_decide.
  - by apply list_lookup_delete_lt.
  - apply list_lookup_delete_ge. lia.
Qed.

Lemma elem_of_delete {A} (l : list A) i x : x ∈ delete i l → x ∈ l.
Proof.
  rewrite !list_elem_of_lookup. intros (j & Hj). rewrite list_lookup_delete in Hj.
  case_decide; by eauto.
Qed.

Lemma fmap_delete_list {A B} (f : A → B) (l : list A) i : f <$> delete i l = delete i (f <$> l).
Proof. revert i. induction l as [|x l IH]; intros [|i]; [done..|]. csimpl. by rewrite IH. Qed.

Lemma NoDup_delete_list {A} (l : list A) i : NoDup l → NoDup (delete i l).
Proof. intros H. eapply sublist_NoDup; [done|]. apply sublist_delete. Qed.

(** ** Lemmas on strings *)

Lemma string_app_cons c a b : String.String c a +:+ b = String.String c (a +:+ b).
Proof. done. Qed.

Lemma string_app_nil a : a +:+ "" = a.
Proof. induction a as [|c a IH]; [done|]. by rewrite string_app_cons, IH. Qed.

Lemma string_app_assoc a b c : a +:+ (b +:+ c) = (a +:+ b) +:+ c.
Proof. induction a as [|d a IH]; [done|]. by rewrite !string_app_cons, IH. Qed.

(** ** Automation

    [rust_simpl] unfolds the outcome monad; the [enos] hint database carries
    the lemmas the components share. *)

Create HintDb enos.
Create Rewrite HintDb enos.
#[export] Hint Resolve vec_index_Some vec_set_lt vec_remove_lt position_lt elem_of_delete
  NoDup_delete_list returns_Ret : enos.
#[export] Hint Rewrite @bind_Ret @list_lookup_fmap @length_fmap @length_app @length_insert : enos.

Ltac rust_simpl :=
  repeat first
    [ progress cbn [mbind outcome_bind mret outcome_ret fmap outcome_fmap result_bind ok_or] in *
    | progress simplify_eq ].

(** Split a boolean comparison on [Z] or [nat] occurring in the goal. *)
Ltac case_bool :=
  match goal with
  | |- context [Z.leb ?a ?b] => destruct (Z.leb_spec a b)
  | |- context [Z.ltb ?a ?b] => destruct (Z.ltb_spec a b)
  | |- context [Z.eqb ?a ?b] => destruct (Z.eqb_spec a b)
  | |- context [Nat.leb ?a ?b] => destruct (Nat.leb_spec a b)
  | |- context [Nat.ltb ?a ?b] => destruct (Nat.ltb_spec a b)
  | |- context [Nat.eqb ?a ?b] => destruct (Nat.eqb_spec a b)
  end.

Ltac case_bool_in H :=
  match type of H with
  | context [Z.leb ?a ?b] => destruct (Z.leb_spec a b)
  | context [Z.ltb ?a ?b] => destruct (Z.ltb_spec a b)
  | context [Z.eqb ?a ?b] => destruct (Z.eqb_spec a b)
  | context [Nat.leb ?a ?b] => destruct (Nat.leb_spec a b)
  | context [Nat.ltb ?a ?b] => destruct (Nat.ltb_spec a b)
  | context [Nat.eqb ?a ?b] => destruct (Nat.eqb_spec a b)
  end.

(** [lia] with division and modulo by constants. *)
Ltac lia_div := zify; Z.to_euclidean_division_equations; lia.
