(* ===== verification/Machine.v ===== *)
(** * The machine the kernel runs on

    Physical memory as bytes, little-endian reads and writes of wider words,
    and the text the kernel prints: what the code under [src/] uses of the
    processor and of Rust's formatting, shared by the component files. *)

From S2P Require Import Prelude.
From stdpp Require Export pretty.
Local Open Scope Z_scope.

(** ** Memory *)

(** The byte at each physical address. *)
Definition memory : Type := Z → Z.

Definition mem_bytes (m : memory) : Prop := ∀ a, is_u8 (m a).

Definition write_u8 (a v : Z) (m : memory) : memory := λ b, if b =? a then v else m b.

(** Little-endian composition of the [n] bytes at [a]. *)
Fixpoint read_le (n : nat) (m : memory) (a : Z) : Z :=
  match n with
  | O => 0
  | S n => m a + 256 * read_le n m (a + 1)
  end.

Definition read_u16 : memory → Z → Z := read_le 2.
Definition read_u32 : memory → Z → Z := read_le 4.

Fixpoint write_le (n : nat) (a v : Z) (m : memory) : memory :=
  match n with
  | O => m
  | S n => write_le n (a + 1) (v / 256) (write_u8 a (v mod 256) m)
  end.

(** Memory holding the bytes [l] from address [a] on and zero elsewhere. *)
Definition memory_of (a : Z) (l : list Z) : memory :=
  λ b, if b <? a then 0 else default 0 (l !! Z.to_nat (b - a)).

(** The four little-endian bytes of a [u32]. *)
Definition bytes_of_u32 (v : Z) : list Z :=
  [v mod 256; v / 256 mod 256; v / 65536 mod 256; v / 16777216 mod 256].

(** ** Text output

    [print!] and [println!] write to the screen, [serial_print!] and
    [serial_println!] to the serial port, and [clear_screen] blanks the screen; a
    component that prints returns what it sent, in order. *)

Inductive output :=
| Vga (text : string)
| ClearScreen
| Serial (text : string).

#[global] Instance output_eq_dec : EqDecision output.
Proof. solve_decision. Defined.

Definition newline : string := String.String (ascii_of_nat 10) String.EmptyString.

Definition println (s : string) : output := Vga (s +:+ newline).
Definition serial_println (s : string) : output := Serial (s +:+ newline).

Definition byte_of (c : ascii) : Z := Z.of_N (N_of_ascii c).

(** [s.bytes()]. *)
Definition bytes_of_string (s : string) : list Z :=
  byte_of <$> String.list_ascii_of_string s.

(** Rust's [{}] on an integer. *)
Definition dec (z : Z) : string := pretty z.

Definition hex_digit (d : Z) : ascii :=
  if d <? 10 then ascii_of_N (Z.to_N (48 + d)) else ascii_of_N (Z.to_N (55 + d)).

(** The [n] low hexadecimal digits of [v], most significant first. *)
Fixpoint hex_digits (n : nat) (v : Z) (rest : string) : string :=
  match n with
  | O => rest
  | S n => hex_digits n (v / 16) (String.String (hex_digit (v mod 16)) rest)
  end.

(** Rust's [{:#010X}] on a [u32]: the prefix and eight digits fill the width. *)
Definition hex10 (v : Z) : string := "0x" +:+ hex_digits 8 v "".

(** ** Lemmas *)

Lemma read_le_bounds n m a : mem_bytes m → 0 ≤ read_le n m a < 256 ^ Z.of_nat n.
Proof.
  intros Hm. revert a. induction n as [|n IH]; intros a; [cbn; lia|].
  rewrite Nat2Z.inj_succ, Z.pow_succ_r by lia. cbn [read_le].
  specialize (IH (a + 1)). specialize (Hm a). unfold is_u8 in Hm. lia.
Qed.

Lemma read_u32_bounds m a : mem_bytes m → is_u32 (read_u32 m a).
Proof. intros Hm. pose proof (read_le_bounds 4 m a Hm). unfold is_u32, U32_MAX, read_u32. lia. Qed.

Lemma write_le_outside n m a v b : b < a ∨ a + Z.of_nat n ≤ b → write_le n a v m b = m b.
Proof.
  revert m a v. induction n as [|n IH]; intros m a v Hb; [done|]. cbn [write_le].
  rewrite IH by lia. unfold write_u8. case_bool; [lia|done].
Qed.

Lemma read_le_ext n m m' a :
  (∀ b, a ≤ b < a + Z.of_nat n → m b = m' b) → read_le n m a = read_le n m' a.
Proof.
  revert a. induction n as [|n IH]; intros a H; [done|]. cbn [read_le].
  rewrite H by lia. rewrite (IH (a + 1)); [done|]. intros b Hb. apply H. lia.
Qed.

Lemma read_write_le n m a v : read_le n (write_le n a v m) a = v mod 256 ^ Z.of_nat n.
Proof.
  revert m a v. induction n as [|n IH]; intros m a v; [by rewrite Z.mod_1_r|].
  cbn [read_le write_le]. rewrite IH, write_le_outside by lia.
  unfold write_u8. rewrite Z.eqb_refl, Nat2Z.inj_succ, Z.pow_succ_r by lia.
  by rewrite Z.rem_mul_r by (try apply Z.pow_pos_nonneg; lia).
Qed.

Lemma memory_of_bytes a l : Forall is_u8 l → mem_bytes (memory_of a l).
Proof.
  intros Hl b. unfold memory_of, is_u8. case_bool; [lia|].
  destruct (l !! _) as [x|] eqn:Hx; simpl; [|lia]. by eapply Forall_lookup_1 in Hl.
Qed.

#[export] Hint Resolve read_u32_bounds memory_of_bytes : enos.
