(* ===== verification/Task.v ===== *)
(** * The scheduler: [src/task.rs]

    [Task], [TaskManager] and every operation on it, with the entry points the
    interrupt handlers and the shell call.  The task list is a list, an index
    into it a [nat]; ids are [usize], [stack_ptr] is a [u32], tick counts and
    wake-up times are [u64]. *)

From S2P Require Import Prelude.

(** ** Data *)

Definition STACK_SIZE : Z := 8192.

Inductive TaskPrivilege := Kernel | User.
Inductive TaskState := Ready | Sleeping (wake_at : Z) | Terminated.

#[global] Instance TaskPrivilege_eq_dec : EqDecision TaskPrivilege.
Proof. solve_decision. Defined.
#[global] Instance TaskState_eq_dec : EqDecision TaskState.
Proof. solve_decision. Defined.

Definition privilege_label (p : TaskPrivilege) : string :=
  match p with Kernel => "kernel" | User => "user" end.

Definition is_ready (s : TaskState) : bool :=
  match s with Ready => true | _ => false end.

(** [stack] is the address of the boxed 8 KiB array. *)
Record Task := mkTask {
  id : Z;
  name : string;
  privilege : TaskPrivilege;
  state : TaskState;
  stack : Z;
  stack_ptr : Z;
  run_ticks : Z;
}.

Definition set_state (s : TaskState) (t : Task) : Task :=
  mkTask (id t) (name t) (privilege t) s (stack t) (stack_ptr t) (run_ticks t).
Definition set_stack_ptr (sp : Z) (t : Task) : Task :=
  mkTask (id t) (name t) (privilege t) (state t) (stack t) sp (run_ticks t).
Definition set_run_ticks (n : Z) (t : Task) : Task :=
  mkTask (id t) (name t) (privilege t) (state t) (stack t) (stack_ptr t) n.

(** [sp -= 4; ptr::write(sp, v)], on a memory of 32-bit words; [sp] starts
    [STACK_SIZE] bytes above an allocated object, so the subtraction does not
    underflow. *)
Definition push_word (v : Z) (m : Z * gmap Z Z) : Z * gmap Z Z :=
  ((m.1 - 4)%Z, <[(m.1 - 4)%Z := v]> m.2).

(** [Task::new]: builds the interrupt frame and the [pushad] frame at the top
    of the new stack.  [stack_box] is the address the allocator returned for
    the boxed stack and [cs] the value read from the [cs] register. *)
Definition Task_new (tid : Z) (nm : string) (p : TaskPrivilege) (entry_point : Z)
    (stack_box cs : Z) (mem : gmap Z Z) : Task * gmap Z Z :=
  let stack_top := (stack_box + STACK_SIZE)%Z in
  let m := push_word 0x202 (as_u32 stack_top, mem) in
  let m := push_word cs m in
  let m := push_word entry_point m in
  let m := Nat.iter 8 (push_word 0) m in
  (mkTask tid nm p Ready stack_box m.1 0, m.2).

(** [Task::placeholder_main]. *)
Definition placeholder_main (stack_box sp : Z) : Task :=
  mkTask 1 "user_main" User Ready stack_box sp 0.

Definition state_label (t : Task) (is_current : bool) : string :=
  match state t with
  | Ready => if is_current then "running" else "ready"
  | Sleeping _ => "sleep"
  | Terminated => "dead"
  end.

Record TaskManager := mkTM {
  tasks : list Task;
  current_task_idx : nat;
  next_task_id : Z;
  tick_count : Z;
  main_task_tracked : bool;
}.

Record SchedulerStats := mkStats {
  total_ticks : Z;
  total_tasks : nat;
  current_task_id : Z;
}.

Record ProcessSnapshot := mkSnapshot {
  ps_id : Z;
  ps_name : string;
  ps_state : string;
  ps_privilege : string;
  ps_run_ticks : Z;
}.

Inductive KillTaskResult := KilledNow | MarkedForTermination.

Definition set_tasks (l : list Task) (tm : TaskManager) : TaskManager :=
  mkTM l (current_task_idx tm) (next_task_id tm) (tick_count tm) (main_task_tracked tm).
Definition set_current (i : nat) (tm : TaskManager) : TaskManager :=
  mkTM (tasks tm) i (next_task_id tm) (tick_count tm) (main_task_tracked tm).
Definition set_tick_count (n : Z) (tm : TaskManager) : TaskManager :=
  mkTM (tasks tm) (current_task_idx tm) (next_task_id tm) n (main_task_tracked tm).

(** ** Operations *)

Definition TaskManager_new : TaskManager := mkTM [] 0 2 0 false.

(** [tasks.is_empty()]. *)
Definition no_tasks (tm : TaskManager) : bool :=
  match tasks tm with [] => true | _ => false end.

(** [if self.current_task_idx >= self.tasks.len() { self.current_task_idx = 0 }]. *)
Definition clamp_current (tm : TaskManager) : TaskManager :=
  if length (tasks tm) <=? current_task_idx tm then set_current 0 tm else tm.

Definition wake_task (now : Z) (t : Task) : Task :=
  match state t with
  | Sleeping wake_at => if (wake_at <=? now)%Z then set_state Ready t else t
  | _ => t
  end.

Definition wake_sleeping_tasks (tm : TaskManager) : TaskManager :=
  set_tasks (wake_task (tick_count tm) <$> tasks tm) tm.

(** The [while] loop of [cleanup_terminated_non_current]. *)
Fixpoint cleanup_loop (fuel idx : nat) (tm : TaskManager) : outcome TaskManager :=
  if length (tasks tm) <=? idx then Ret tm else
  match fuel with
  | O => OutOfFuel
  | S fuel =>
    if idx =? current_task_idx tm then cleanup_loop fuel (S idx) tm else
    t ← vec_index (tasks tm) idx;
    if decide (state t = Terminated) then
      tasks' ← vec_remove (tasks tm) idx;
      let tm' := set_tasks tasks' tm in
      cleanup_loop fuel idx
        (if (idx <? current_task_idx tm) && (0 <? current_task_idx tm)
         then set_current (current_task_idx tm - 1) tm' else tm')
    else cleanup_loop fuel (S idx) tm
  end.

(** Every iteration advances [idx] or shortens the list, so [length tasks]
    iterations are enough. *)
Definition cleanup_terminated_non_current (tm : TaskManager) : outcome TaskManager :=
  tm ← cleanup_loop (length (tasks tm)) 0 tm;
  Ret (if (length (tasks tm) <=? current_task_idx tm) && negb (no_tasks tm)
       then set_current 0 tm else tm).

Definition first_ready_index (tm : TaskManager) : option nat :=
  position (λ t, is_ready (state t)) (tasks tm).

(** [self.tasks[idx].state.is_ready()]; [idx] is reduced modulo the length. *)
Definition ready_at (l : list Task) (idx : nat) : bool :=
  match l !! idx with Some t => is_ready (state t) | None => false end.

Definition next_ready_after (tm : TaskManager) (start_idx : nat) : option nat :=
  if no_tasks tm then None else
  find_map (λ offset,
    let idx := (start_idx + offset) `mod` length (tasks tm) in
    if ready_at (tasks tm) idx then Some idx else None)
    (seq 1 (length (tasks tm))).

(** The [next_ready_after(..).or_else(..).or_else(first_ready_index)] chain. *)
Definition pick_next (tm : TaskManager) : option nat :=
  or_else (next_ready_after tm (current_task_idx tm))
    (or_else
      (match tasks tm !! current_task_idx tm with
       | Some t => if is_ready (state t) then Some (current_task_idx tm) else None
       | None => None
       end)
      (first_ready_index tm)).

(** [self.current_task_idx = next_idx; self.tasks[next_idx].stack_ptr]. *)
Definition switch_to_next (stalled : string) (tm : TaskManager) : outcome (Z * TaskManager) :=
  match pick_next tm with
  | None => Panic stalled
  | Some next_idx =>
    t ← vec_index (tasks tm) next_idx;
    Ret (stack_ptr t, set_current next_idx tm)
  end.

Section Scheduler.
(** The address of the boxed stack that [ensure_main_task_tracked] allocates
    for the placeholder task; it is allocated at most once. *)
Context (main_stack : Z).

Definition ensure_main_task_tracked (tm : TaskManager) (current_esp : Z) : TaskManager :=
  if main_task_tracked tm then tm else
  mkTM (placeholder_main main_stack current_esp :: tasks tm) 0
    (next_task_id tm) (tick_count tm) true.

(** Removal of the task at [current_task_idx], as [schedule_next] and the fault
    path do it: [all_gone] is the panic message when no task is left. *)
Definition remove_current (all_gone : string) (tm : TaskManager) : outcome TaskManager :=
  tasks' ← vec_remove (tasks tm) (current_task_idx tm);
  let tm := set_tasks tasks' tm in
  if no_tasks tm then Panic all_gone else Ret (clamp_current tm).

(** Saving the interrupted context of the task at [current_task_idx]. *)
Definition save_current (current_esp : Z) (tm : TaskManager) : TaskManager :=
  set_tasks (alter (λ t, set_run_ticks (wrap64 (run_ticks t + 1)) (set_stack_ptr current_esp t))
               (current_task_idx tm) (tasks tm)) tm.

Definition schedule_next (tm : TaskManager) (current_esp : Z) : outcome (Z * TaskManager) :=
  let tm := set_tick_count (wrap64 (tick_count tm + 1)) tm in
  if no_tasks tm then Ret (current_esp, tm) else
  let tm := ensure_main_task_tracked tm current_esp in
  let tm := wake_sleeping_tasks tm in
  tm ← cleanup_terminated_non_current tm;
  if no_tasks tm then Panic "Scheduler stalled: no tasks available" else
  let tm := clamp_current tm in
  current ← vec_index (tasks tm) (current_task_idx tm);
  tm ← (if decide (state current = Terminated)
        then remove_current "All tasks terminated" tm
        else Ret (save_current current_esp tm));
  tm ← cleanup_terminated_non_current tm;
  switch_to_next "Scheduler stalled: no runnable tasks" tm.

Definition sleep_current_task (tm : TaskManager) (current_esp ticks : Z) : bool * TaskManager :=
  if no_tasks tm then (false, tm) else
  let tm := ensure_main_task_tracked tm current_esp in
  match tasks tm !! current_task_idx tm with
  | None => (false, tm)
  | Some current =>
    if decide (privilege current ≠ User) then (false, tm) else
    if decide (state current = Terminated) then (false, tm) else
    let sleep_ticks := Z.max 1 ticks in
    let wake_at := wrap64 (tick_count tm + sleep_ticks) in
    (true, set_tasks
      (alter (λ t, set_state (Sleeping wake_at) (set_stack_ptr current_esp t))
         (current_task_idx tm) (tasks tm)) tm)
  end.

Definition terminate_current_user_task_from_fault (tm : TaskManager) (current_esp : Z) :
    outcome (Z * TaskManager) :=
  let tm := ensure_main_task_tracked tm current_esp in
  if no_tasks tm then Panic "Task list empty while handling user fault" else
  let tm := clamp_current tm in
  current ← vec_index (tasks tm) (current_task_idx tm);
  if decide (privilege current ≠ User)
  then Panic "User-fault path invoked while current task is not user" else
  tm ← remove_current "All tasks terminated after user fault" tm;
  let tm := wake_sleeping_tasks tm in
  tm ← cleanup_terminated_non_current tm;
  switch_to_next "No runnable task after user fault termination" tm.

End Scheduler.

(** [register_named_task]: [self.next_task_id += 1] panics on overflow. *)
Definition register_named_task (tm : TaskManager) (nm : string) (entry_point : Z)
    (stack_box cs : Z) (mem : gmap Z Z) : outcome (TaskManager * gmap Z Z) :=
  let '(task, mem) := Task_new (next_task_id tm) nm Kernel entry_point stack_box cs mem in
  next ← add_u32 (next_task_id tm) 1;
  Ret (mkTM (tasks tm ++ [task]) (current_task_idx tm) next
         (tick_count tm) (main_task_tracked tm), mem).

Definition kill_task_by_pid (tm : TaskManager) (pid : Z) :
    outcome (result KillTaskResult string * TaskManager) :=
  if (pid =? 0)%Z then Ret (Err "cannot kill kernel task", tm) else
  match position (λ t, (id t =? pid)%Z) (tasks tm) with
  | None => Ret (Err "pid not found", tm)
  | Some idx =>
    t ← vec_index (tasks tm) idx;
    if decide (privilege t ≠ User) then Ret (Err "cannot kill kernel task", tm) else
    if idx =? current_task_idx tm then
      Ret (Ok MarkedForTermination, set_tasks (alter (set_state Terminated) idx (tasks tm)) tm)
    else
      tasks' ← vec_remove (tasks tm) idx;
      let tm := set_tasks tasks' tm in
      let tm := if (idx <? current_task_idx tm) && (0 <? current_task_idx tm)
                then set_current (current_task_idx tm - 1) tm else tm in
      let tm := if (length (tasks tm) <=? current_task_idx tm) && negb (no_tasks tm)
                then set_current 0 tm else tm in
      Ret (Ok KilledNow, tm)
  end.

Definition stats (tm : TaskManager) : SchedulerStats :=
  mkStats (tick_count tm)
    (if main_task_tracked tm then length (tasks tm) + 1 else length (tasks tm) + 2)
    (if main_task_tracked tm
     then match tasks tm !! current_task_idx tm with Some t => id t | None => 0%Z end
     else 0%Z).

Definition snapshot_of (is_current : bool) (t : Task) : ProcessSnapshot :=
  mkSnapshot (id t) (name t) (state_label t is_current) (privilege_label (privilege t)) (run_ticks t).

Definition process_snapshot (tm : TaskManager) : list ProcessSnapshot :=
  mkSnapshot 0 "kernel_idle" "idle" "kernel" 0 ::
  if main_task_tracked tm
  then imap (λ idx t, snapshot_of (idx =? current_task_idx tm) t) (tasks tm)
  else mkSnapshot 1 "user_main" "running" "user" 0 :: (snapshot_of false <$> tasks tm).
