(* ===== verification/TaskProps.v ===== *)
(** * Scheduler correctness

    The invariant of [TaskManager], its preservation by every operation, and
    what each operation of [src/task.rs] does on it: the scheduler never stalls
    while a kernel task exists, picks tasks in cyclic order with bounded
    waiting, saves and restores stack pointers, and honours sleep times. *)

From S2P Require Import Prelude Task.

(** ** The clean-up loop *)

Definition alive (t : Task) : Prop := state t ≠ Terminated.
#[global] Instance alive_dec t : Decision (alive t).
Proof. unfold alive. apply _. Defined.

Lemma filter_alive_id (l : list Task) : Forall alive l → filter alive l = l.
Proof.
  induction 1 as [|t l Ht Hl IH]; [done|]. by rewrite filter_cons_True, IH.
Qed.

Lemma cleanup_loop_after fuel tm seen rest :
  tasks tm = seen ++ rest → current_task_idx tm < length seen → length rest ≤ fuel →
  cleanup_loop fuel (length seen) tm = Ret (set_tasks (seen ++ filter alive rest) tm).
Proof.
  revert tm seen rest. induction fuel as [|fuel IH]; intros tm seen [|t rest] Ht Hcur Hf;
    simpl in Hf; try lia; cbn [cleanup_loop]; rewrite Ht, length_app; simpl.
  1,2: rewrite (leb_correct (_ + 0)) by lia; rewrite app_nil_r in *; subst; by destruct tm.
  rewrite leb_correct_conv by lia. rewrite (proj2 (Nat.eqb_neq _ _)) by lia.
  erewrite vec_index_Some by (by rewrite lookup_app_r, Nat.sub_diag by lia). rust_simpl.
  case_decide as Hst.
  - erewrite vec_remove_lt by (rewrite length_app; simpl; lia). rust_simpl.
    rewrite (proj2 (Nat.ltb_ge _ _)) by lia. simpl.
    rewrite delete_middle, filter_cons_False by (by intros []).
    rewrite (IH _ seen rest) by (simpl; done || lia). by destruct tm.
  - rewrite filter_cons_True by done.
    replace (S (length seen)) with (length (seen ++ [t])) by (rewrite length_app; simpl; lia).
    rewrite (IH _ (seen ++ [t]) rest); [|by rewrite <- app_assoc|rewrite length_app; lia|lia].
    by rewrite <- app_assoc.
Qed.

Lemma cleanup_loop_before fuel tm seen pre c post :
  tasks tm = seen ++ pre ++ c :: post →
  current_task_idx tm = length seen + length pre →
  length (pre ++ c :: post) ≤ fuel →
  cleanup_loop fuel (length seen) tm =
    Ret (set_current (length seen + length (filter alive pre))
          (set_tasks (seen ++ filter alive pre ++ c :: filter alive post) tm)).
Proof.
  revert tm seen pre. induction fuel as [|fuel IH]; intros tm seen pre Ht Hcur Hf;
    rewrite length_app in Hf; simpl in Hf; [lia|].
  cbn [cleanup_loop]. rewrite Ht, !length_app, leb_correct_conv by (simpl; lia).
  destruct pre as [|t pre]; simpl in *.
  - rewrite (proj2 (Nat.eqb_eq _ _)) by lia.
    replace (S (length seen)) with (length (seen ++ [c])) by (rewrite length_app; simpl; lia).
    rewrite (cleanup_loop_after _ _ (seen ++ [c]) post);
      [|by rewrite <- app_assoc|rewrite length_app; simpl; lia|lia].
    rewrite <- app_assoc. destruct tm; simpl in *. by subst.
  - rewrite (proj2 (Nat.eqb_neq _ _)) by lia.
    erewrite vec_index_Some by (by rewrite lookup_app_r, Nat.sub_diag by lia). rust_simpl.
    case_decide as Hst.
    + erewrite vec_remove_lt by (rewrite length_app; simpl; lia). rust_simpl.
      rewrite (proj2 (Nat.ltb_lt _ _)), (proj2 (Nat.ltb_lt _ _)) by lia. simpl.
      rewrite delete_middle, filter_cons_False by (by intros []).
      by rewrite (IH _ seen pre) by (simpl; rewrite ?length_app; simpl; done || lia).
    + rewrite filter_cons_True by done.
      replace (S (length seen)) with (length (seen ++ [t])) by (rewrite length_app; simpl; lia).
      rewrite (IH _ (seen ++ [t]) pre);
        [|by rewrite <- app_assoc|rewrite length_app; simpl; lia|rewrite length_app; simpl; lia].
      rewrite <- app_assoc, length_app. simpl. do 2 f_equal. lia.
Qed.

(** The whole function: every terminated task but the current one is removed,
    the others keep their order, and the current index still points at the
    current task. *)
Lemma cleanup_spec tm pre c post :
  tasks tm = pre ++ c :: post → current_task_idx tm = length pre →
  cleanup_terminated_non_current tm =
    Ret (set_current (length (filter alive pre))
          (set_tasks (filter alive pre ++ c :: filter alive post) tm)).
Proof.
  intros Ht Hcur. unfold cleanup_terminated_non_current.
  rewrite (cleanup_loop_before _ _ [] pre c post) by (rewrite ?Ht; simpl; done || lia).
  rust_simpl. simpl. rewrite leb_correct_conv; [done|]. rewrite length_app. simpl. lia.
Qed.

(** Only the current task may be terminated. *)
Definition only_current_dead (tm : TaskManager) : Prop :=
  ∀ i t, tasks tm !! i = Some t → state t = Terminated → i = current_task_idx tm.

Lemma cleanup_noop tm :
  current_task_idx tm < length (tasks tm) → only_current_dead tm →
  cleanup_terminated_non_current tm = Ret tm.
Proof.
  intros [c Hc]%lookup_lt_is_Some Hdead.
  pose proof (take_drop_middle _ _ _ Hc) as Hsplit.
  assert (Hlen : length (take (current_task_idx tm) (tasks tm)) = current_task_idx tm).
  { apply length_take_le. apply lookup_lt_Some in Hc. lia. }
  rewrite (cleanup_spec _ _ _ _ (eq_sym Hsplit) (eq_sym Hlen)).
  assert (Forall alive (take (current_task_idx tm) (tasks tm))) as Hpre.
  { apply Forall_lookup. intros i t [Hi Hlt]%lookup_take_Some Hst.
    specialize (Hdead _ _ Hi Hst). lia. }
  assert (Forall alive (drop (S (current_task_idx tm)) (tasks tm))) as Hpost.
  { apply Forall_lookup. intros i t Hi Hst. rewrite lookup_drop in Hi.
    specialize (Hdead _ _ Hi Hst). lia. }
  rewrite !filter_alive_id, Hsplit, Hlen by done. by destruct tm.
Qed.

(** ** Choosing the next task *)

Lemma no_tasks_false tm : tasks tm ≠ [] → no_tasks tm = false.
Proof. unfold no_tasks. by destruct (tasks tm). Qed.

(** Every index is reached from [s] by some offset between 1 and the length. *)
Lemma cyclic_offset n s i : i < n → ∃ k, 1 ≤ k ≤ n ∧ (s + k) `mod` n = i.
Proof.
  intros Hi. pose proof (Nat.mod_upper_bound s n ltac:(lia)) as Hs.
  assert (∀ k, (s `mod` n + k) `mod` n = (s + k) `mod` n) as Hmod.
  { intros k. apply Nat.Div0.add_mod_idemp_l. }
  destruct (decide (s `mod` n < i)).
  - exists (i - s `mod` n). split; [lia|]. rewrite <- Hmod.
    replace (_ + _) with i by lia. by apply Nat.mod_small.
  - exists (n + i - s `mod` n). split; [lia|]. rewrite <- Hmod.
    replace (_ + _) with (i + 1 * n) by lia. rewrite Nat.Div0.mod_add. by apply Nat.mod_small.
Qed.

Lemma ready_at_Some l i t : l !! i = Some t → ready_at l i = is_ready (state t).
Proof. unfold ready_at. by intros ->. Qed.

Lemma next_ready_after_Some tm s i :
  next_ready_after tm s = Some i →
  ready_at (tasks tm) i = true ∧
  ∃ k, 1 ≤ k ≤ length (tasks tm) ∧ i = (s + k) `mod` length (tasks tm) ∧
    ∀ j, 1 ≤ j < k → ready_at (tasks tm) ((s + j) `mod` length (tasks tm)) = false.
Proof.
  unfold next_ready_after. destruct (no_tasks tm); [done|].
  intros (n & k & Hn & Hk & Hmin)%find_map_Some.
  apply lookup_seq in Hn as [-> Hn]. case_match eqn:Hr; simplify_eq.
  split; [done|]. exists (1 + n). split_and!; [lia|lia|done|].
  intros j Hj. specialize (Hmin (j - 1) j). rewrite lookup_seq in Hmin.
  specialize (Hmin ltac:(lia) ltac:(lia)). by case_match.
Qed.

Lemma next_ready_after_None tm s :
  next_ready_after tm s = None → ∀ i, ready_at (tasks tm) i = false.
Proof.
  unfold next_ready_after. intros H i. destruct (no_tasks tm) eqn:Ht.
  { unfold no_tasks in Ht. unfold ready_at. by destruct (tasks tm). }
  destruct (decide (i < length (tasks tm))) as [Hi|Hi].
  - destruct (cyclic_offset _ s i Hi) as (k & Hk & <-).
    rewrite find_map_None in H. specialize (H k). rewrite elem_of_seq in H.
    specialize (H ltac:(lia)). by case_match.
  - unfold ready_at. by rewrite lookup_ge_None_2 by lia.
Qed.

(** The two [or_else] fall-backs never find a task the cyclic search missed. *)
Lemma pick_next_eq tm : pick_next tm = next_ready_after tm (current_task_idx tm).
Proof.
  unfold pick_next. destruct (next_ready_after _ _) eqn:Hn; [done|]. simpl.
  pose proof (next_ready_after_None _ _ Hn) as Hnone.
  assert (first_ready_index tm = None) as ->.
  { apply position_None. intros t (i & Hi)%list_elem_of_lookup.
    by rewrite <- (ready_at_Some _ _ _ Hi). }
  destruct (tasks tm !! current_task_idx tm) as [t|] eqn:Hc; [|done].
  by rewrite <- (ready_at_Some _ _ _ Hc), Hnone.
Qed.

Lemma switch_to_next_ready msg tm i :
  ready_at (tasks tm) i = true →
  ∃ j t, next_ready_after tm (current_task_idx tm) = Some j ∧ tasks tm !! j = Some t ∧
    state t = Ready ∧ switch_to_next msg tm = Ret (stack_ptr t, set_current j tm).
Proof.
  intros Hi. unfold switch_to_next. rewrite pick_next_eq.
  destruct (next_ready_after _ _) as [j|] eqn:Hn.
  - destruct (next_ready_after_Some _ _ _ Hn) as [Hj _]. unfold ready_at in Hj.
    destruct (tasks tm !! j) as [t|] eqn:Ht; [|done]. exists j, t.
    rewrite (vec_index_Some _ _ _ Ht). split_and!; [done|done| |done].
    by destruct (state t).
  - by rewrite (next_ready_after_None _ _ Hn) in Hi.
Qed.

(** ** The invariant *)

(** Kernel tasks are always ready: only the user task sleeps or is killed. *)
Definition task_ok (t : Task) : Prop :=
  match privilege t with
  | Kernel => state t = Ready ∧ (2 ≤ id t)%Z
  | User => id t = 1%Z
  end.

Record sched_wf (tm : TaskManager) : Prop := {
  wf_index : current_task_idx tm < length (tasks tm) ∨ (tasks tm = [] ∧ current_task_idx tm = 0);
  wf_task : Forall task_ok (tasks tm);
  wf_dead : only_current_dead tm;
  wf_nodup : NoDup (id <$> tasks tm);
  wf_fresh : Forall (λ t, (id t < next_task_id tm)%Z) (tasks tm);
  wf_next : (2 ≤ next_task_id tm ≤ U32_MAX)%Z;
  wf_tick : is_u64 (tick_count tm);
  wf_untracked : main_task_tracked tm = false →
    current_task_idx tm = 0 ∧ Forall (λ t, privilege t = Kernel) (tasks tm);
}.

Lemma wf_current tm : sched_wf tm → tasks tm ≠ [] → current_task_idx tm < length (tasks tm).
Proof. intros Hwf Hne. by destruct (wf_index _ Hwf) as [?|[? _]]. Qed.

Definition has_kernel_task (tm : TaskManager) : Prop :=
  Exists (λ t, privilege t = Kernel) (tasks tm).

Lemma new_wf : sched_wf TaskManager_new.
Proof.
  split; try done; cbn; try (by constructor); unfold is_u64, U32_MAX, U64_MAX; auto; lia.
Qed.

Lemma kernel_task_ready tm :
  Forall task_ok (tasks tm) → has_kernel_task tm → ∃ i, ready_at (tasks tm) i = true.
Proof.
  intros Hok (t & (i & Hi)%list_elem_of_lookup & Hk)%Exists_exists.
  exists i. rewrite (ready_at_Some _ _ _ Hi).
  rewrite Forall_lookup in Hok. specialize (Hok _ _ Hi). unfold task_ok in Hok.
  rewrite Hk in Hok. by destruct Hok as [-> _].
Qed.

Lemma has_kernel_nonempty tm : has_kernel_task tm → tasks tm ≠ [].
Proof. unfold has_kernel_task. intros H E. rewrite E in H. by inversion H. Qed.

(** Updating one field of the tasks at a position keeps ids and privileges. *)
Definition same_identity (t t' : Task) : Prop :=
  id t' = id t ∧ privilege t' = privilege t ∧ name t' = name t ∧ stack t' = stack t.

Lemma wake_identity now t : same_identity t (wake_task now t).
Proof. unfold wake_task. destruct (state t); try case_match; done. Qed.

Lemma wake_state now t :
  state (wake_task now t) = Ready ∨ state (wake_task now t) = state t.
Proof. unfold wake_task. destruct (state t) eqn:?; try case_match; auto. Qed.

Lemma wake_ok now t : task_ok t → task_ok (wake_task now t).
Proof.
  unfold task_ok. destruct (wake_identity now t) as (-> & -> & _).
  destruct (wake_state now t) as [-> | ->]; by case_match; intuition.
Qed.

Lemma wake_dead now t : state (wake_task now t) = Terminated ↔ state t = Terminated.
Proof. unfold wake_task. destruct (state t) eqn:E; try case_match; simpl; by rewrite ?E. Qed.

(** ** Preservation: in-place updates and removals *)

Lemma wf_update tm tm' :
  sched_wf tm →
  Forall2 (λ t t', same_identity t t' ∧ (task_ok t → task_ok t')) (tasks tm) (tasks tm') →
  only_current_dead tm' →
  current_task_idx tm' = current_task_idx tm → next_task_id tm' = next_task_id tm →
  main_task_tracked tm' = main_task_tracked tm → is_u64 (tick_count tm') →
  sched_wf tm'.
Proof.
  intros Hwf H2 Hdead Hcur Hnext Htr Htick.
  assert (id <$> tasks tm' = id <$> tasks tm) as Hids.
  { clear -H2. induction H2 as [|t t' l l' [(Hid & _) _] _ IH]; csimpl; congruence. }
  split; rewrite ?Hcur, ?Hnext, ?Htr, ?Hids; try apply Hwf; try done.
  - rewrite <- (Forall2_length _ _ _ H2). destruct (wf_index _ Hwf) as [?|[E ?]]; [by left|right].
    split; [|done]. rewrite E in H2. by inversion H2.
  - pose proof (wf_task _ Hwf) as Hok. clear -H2 Hok.
    induction H2 as [|t t' l l' [_ Ht] _ IH]; inversion Hok; subst; constructor; auto.
  - pose proof (wf_fresh _ Hwf) as Hok. clear -H2 Hok.
    induction H2 as [|t t' l l' [(Hid & _) Ht] _ IH]; inversion Hok; subst; constructor; auto.
    by rewrite Hid.
  - intros Htr'. destruct (wf_untracked _ Hwf Htr') as [Hc Hk]. split; [done|].
    clear -H2 Hk.
    induction H2 as [|t t' l l' [(_ & Hp & _) Ht] _ IH]; inversion Hk; subst; constructor; auto.
    congruence.
Qed.

Lemma wf_delete tm tm' i :
  sched_wf tm → tasks tm' = delete i (tasks tm) →
  only_current_dead tm' → current_task_idx tm' < length (tasks tm') →
  next_task_id tm' = next_task_id tm → tick_count tm' = tick_count tm →
  main_task_tracked tm' = true →
  sched_wf tm'.
Proof.
  intros Hwf Ht Hdead Hcur Hnext Htick Htr.
  assert (∀ P, Forall P (tasks tm) → Forall P (tasks tm')) as Hall.
  { intros P. rewrite Ht, !Forall_forall. intros H t Hin. eauto with enos. }
  split; rewrite ?Hnext, ?Htick, ?Htr; try apply Hwf; try done.
  - by left.
  - apply Hall, Hwf.
  - rewrite Ht, fmap_delete_list. apply NoDup_delete_list, Hwf.
  - apply Hall, Hwf.
Qed.

Lemma ensure_wf ms tm esp : sched_wf tm → sched_wf (ensure_main_task_tracked ms tm esp).
Proof.
  intros Hwf. unfold ensure_main_task_tracked.
  destruct (main_task_tracked tm) eqn:Htr; [done|].
  destruct (wf_untracked _ Hwf Htr) as [_ Hk]. pose proof (wf_task _ Hwf) as Hok.
  pose proof (wf_next _ Hwf).
  assert (Forall (λ t, state t = Ready ∧ 2 ≤ id t)%Z (tasks tm)) as Hr.
  { rewrite Forall_forall in *. intros t Hin. specialize (Hok t Hin).
    unfold task_ok in Hok. by rewrite (Hk t Hin) in Hok. }
  split; simpl; try apply Hwf; try done.
  - lia.
  - by constructor.
  - intros [|i] t Hi Hst; [done|]. simpl in Hi.
    rewrite Forall_lookup in Hr. by rewrite (proj1 (Hr _ _ Hi)) in Hst.
  - constructor; [|apply Hwf]. intros (t & Hid & Hin)%list_elem_of_fmap.
    rewrite Forall_forall in Hr. destruct (Hr t Hin). simpl in *. lia.
  - constructor; [simpl; lia|apply Hwf].
Qed.

Lemma ensure_tracked ms tm esp : main_task_tracked (ensure_main_task_tracked ms tm esp) = true.
Proof. unfold ensure_main_task_tracked. by destruct (main_task_tracked tm) eqn:?. Qed.

Lemma ensure_kernel ms tm esp :
  has_kernel_task tm → has_kernel_task (ensure_main_task_tracked ms tm esp).
Proof. unfold ensure_main_task_tracked. case_match; [done|]. by right. Qed.

Lemma wake_wf tm : sched_wf tm → sched_wf (wake_sleeping_tasks tm).
Proof.
  intros Hwf. apply (wf_update tm); try done; [| |apply Hwf].
  - simpl. apply Forall2_fmap_r, Forall_Forall2_diag, Forall_true. intros t.
    split; [apply wake_identity|apply wake_ok].
  - intros i t. simpl. rewrite list_lookup_fmap. intros (t0 & Hi & ->)%fmap_Some.
    rewrite wake_dead. by apply Hwf.
Qed.

Lemma wake_kernel tm : has_kernel_task tm → has_kernel_task (wake_sleeping_tasks tm).
Proof.
  unfold has_kernel_task. simpl. rewrite Exists_fmap. intros H. eapply Exists_impl; [done|].
  intros t. simpl. by rewrite (proj1 (proj2 (wake_identity _ _))).
Qed.

Lemma tick_wf tm : sched_wf tm → sched_wf (set_tick_count (wrap64 (tick_count tm + 1)) tm).
Proof.
  intros Hwf. apply (wf_update tm); try done; [|apply Hwf|].
  - simpl. apply Forall_Forall2_diag, Forall_true. done.
  - unfold is_u64, wrap64, U64_MAX. simpl. pose proof (Z.mod_pos_bound (tick_count tm + 1) 18446744073709551616). lia.
Qed.

Lemma save_wf esp tm :
  sched_wf tm → sched_wf (save_current esp tm).
Proof.
  intros Hwf. apply (wf_update tm); try done; [| |apply Hwf]; simpl.
  - apply Forall2_same_length_lookup. split; [by rewrite length_alter|].
    intros i t t' Hi. rewrite list_lookup_alter. case_decide; subst; rewrite Hi; intros; by simplify_eq/=.
  - intros i t. simpl. rewrite list_lookup_alter.
    case_decide; [|by apply Hwf]. done.
Qed.

Lemma save_kernel esp tm : has_kernel_task tm → has_kernel_task (save_current esp tm).
Proof.
  unfold has_kernel_task. rewrite !Exists_exists.
  intros (t & (i & Hi)%list_elem_of_lookup & Hk).
  destruct (decide (i = current_task_idx tm)) as [->|Hne].
  - eexists. split; [apply list_elem_of_lookup; exists (current_task_idx tm); simpl;
      by rewrite list_lookup_alter_eq, Hi|]. done.
  - exists t. split; [|done]. apply list_elem_of_lookup. exists i. simpl.
    by rewrite list_lookup_alter_ne by done.
Qed.

(** ** The shape of a scheduling step *)

Lemma wf_all_alive tm t :
  sched_wf tm → tasks tm !! current_task_idx tm = Some t → alive t → Forall alive (tasks tm).
Proof.
  intros Hwf Ht Hal. apply Forall_lookup. intros i t' Hi Hst.
  pose proof (wf_dead _ Hwf _ _ Hi Hst). subst. by simplify_eq.
Qed.

Lemma all_alive_dead tm : Forall alive (tasks tm) → only_current_dead tm.
Proof. rewrite Forall_lookup. intros H i t Hi Hst. by destruct (H _ _ Hi). Qed.

Lemma clamp_noop tm : current_task_idx tm < length (tasks tm) → clamp_current tm = tm.
Proof. intros. unfold clamp_current. by rewrite leb_correct_conv. Qed.

Lemma clamp_lt tm : tasks tm ≠ [] → current_task_idx (clamp_current tm) < length (tasks tm).
Proof.
  intros Hne. unfold clamp_current. case_bool; [|done]. simpl.
  by destruct (tasks tm); simpl; [|lia].
Qed.

Lemma clamp_tasks tm : tasks (clamp_current tm) = tasks tm.
Proof. unfold clamp_current. by case_match. Qed.

(** Removing a user task at the current index leaves every kernel task. *)
Lemma remove_current_spec msg tm t :
  sched_wf tm → has_kernel_task tm → main_task_tracked tm = true →
  tasks tm !! current_task_idx tm = Some t → privilege t = User →
  remove_current msg tm =
    Ret (clamp_current (set_tasks (delete (current_task_idx tm) (tasks tm)) tm)) ∧
  sched_wf (clamp_current (set_tasks (delete (current_task_idx tm) (tasks tm)) tm)) ∧
  has_kernel_task (clamp_current (set_tasks (delete (current_task_idx tm) (tasks tm)) tm)) ∧
  Forall alive (delete (current_task_idx tm) (tasks tm)).
Proof.
  intros Hwf Hk Htr Ht Hu. set (l' := delete (current_task_idx tm) (tasks tm)).
  assert (Forall alive l') as Hal.
  { apply Forall_lookup. intros i t' Hi Hst. unfold l' in Hi.
    rewrite list_lookup_delete in Hi.
    case_decide; pose proof (wf_dead _ Hwf _ _ Hi Hst); lia. }
  assert (has_kernel_task (set_tasks l' tm)) as Hk'.
  { unfold has_kernel_task in *. rewrite Exists_exists in *.
    destruct Hk as (k & (i & Hi)%list_elem_of_lookup & Hkk). exists k. split; [|done].
    apply list_elem_of_lookup. simpl. unfold l'.
    destruct (decide (i < current_task_idx tm)).
    - exists i. rewrite list_lookup_delete. by rewrite decide_True.
    - destruct i as [|i]; [replace (current_task_idx tm) with 0 in * by lia; simplify_eq; congruence|].
      exists i. rewrite list_lookup_delete. rewrite decide_False; [done|].
      intros ?. assert (S i = current_task_idx tm) as E by lia. rewrite E in Hi. simplify_eq. congruence. }
  assert (l' ≠ []) as Hne by (apply (has_kernel_nonempty _ Hk')).
  unfold remove_current. rewrite vec_remove_lt by (by eapply lookup_lt_Some). rust_simpl.
  rewrite no_tasks_false by done. split_and!; [done| | |done].
  - apply (wf_delete tm _ (current_task_idx tm)); try done.
    + by rewrite clamp_tasks.
    + apply all_alive_dead. by rewrite clamp_tasks.
    + rewrite clamp_tasks. by apply clamp_lt.
    + unfold clamp_current. by case_match.
    + unfold clamp_current. by case_match.
    + unfold clamp_current. by case_match.
  - unfold has_kernel_task. by rewrite clamp_tasks.
Qed.

(** The state in which [schedule_next] looks at the current task. *)
Definition tick_prepare (ms : Z) (tm : TaskManager) (esp : Z) : TaskManager :=
  wake_sleeping_tasks (ensure_main_task_tracked ms (set_tick_count (wrap64 (tick_count tm + 1)) tm) esp).

Lemma tick_prepare_wf ms tm esp :
  sched_wf tm → has_kernel_task tm →
  sched_wf (tick_prepare ms tm esp) ∧ has_kernel_task (tick_prepare ms tm esp) ∧
  main_task_tracked (tick_prepare ms tm esp) = true.
Proof.
  intros Hwf Hk. unfold tick_prepare. split_and!.
  - by apply wake_wf, ensure_wf, tick_wf.
  - by apply wake_kernel, ensure_kernel.
  - apply ensure_tracked.
Qed.

Lemma set_current_wf tm j t :
  sched_wf tm → main_task_tracked tm = true → Forall alive (tasks tm) →
  tasks tm !! j = Some t → sched_wf (set_current j tm).
Proof.
  intros Hwf Htr Hal Hj.
  split; simpl; try apply Hwf; try congruence.
  - left. by eapply lookup_lt_Some.
  - by apply all_alive_dead.
Qed.

(** After the current task was saved or removed, the step always finds a task. *)
Lemma finish_step msg tm :
  sched_wf tm → has_kernel_task tm → main_task_tracked tm = true → Forall alive (tasks tm) →
  ∃ j t, next_ready_after tm (current_task_idx tm) = Some j ∧
    tasks tm !! j = Some t ∧ state t = Ready ∧
    (tm' ← cleanup_terminated_non_current tm; switch_to_next msg tm') =
      Ret (stack_ptr t, set_current j tm) ∧
    sched_wf (set_current j tm) ∧ has_kernel_task (set_current j tm).
Proof.
  intros Hwf Hk Htr Hal.
  rewrite cleanup_noop by (by apply wf_current, has_kernel_nonempty || by apply all_alive_dead).
  rust_simpl. destruct (kernel_task_ready tm (wf_task _ Hwf) Hk) as [i Hi].
  destruct (switch_to_next_ready msg _ _ Hi) as (j & t & Hj & Ht & Hst & Hsw).
  exists j, t. split_and!; try done. by eapply set_current_wf.
Qed.

Lemma schedule_next_spec ms tm esp :
  sched_wf tm → has_kernel_task tm →
  ∃ cur tm2 j t,
    tasks (tick_prepare ms tm esp) !! current_task_idx (tick_prepare ms tm esp) = Some cur ∧
    tm2 = (if decide (state cur = Terminated)
           then clamp_current (set_tasks (delete (current_task_idx (tick_prepare ms tm esp))
                  (tasks (tick_prepare ms tm esp))) (tick_prepare ms tm esp))
           else save_current esp (tick_prepare ms tm esp)) ∧
    next_ready_after tm2 (current_task_idx tm2) = Some j ∧
    tasks tm2 !! j = Some t ∧ state t = Ready ∧
    schedule_next ms tm esp = Ret (stack_ptr t, set_current j tm2) ∧
    sched_wf (set_current j tm2) ∧ has_kernel_task (set_current j tm2).
Proof.
  intros Hwf Hk. destruct (tick_prepare_wf ms tm esp Hwf Hk) as (Hwf1 & Hk1 & Htr1).
  unfold schedule_next. rewrite no_tasks_false by (by apply (has_kernel_nonempty tm)).
  fold (tick_prepare ms tm esp). set (tm1 := tick_prepare ms tm esp) in *.
  pose proof (has_kernel_nonempty _ Hk1) as Hne1. pose proof (wf_current _ Hwf1 Hne1) as Hlt.
  rewrite cleanup_noop by (done || apply Hwf1). rust_simpl.
  rewrite (no_tasks_false tm1 Hne1), (clamp_noop tm1 Hlt).
  destruct (lookup_lt_is_Some_2 _ _ Hlt) as [cur Hcur].
  rewrite (vec_index_Some _ _ _ Hcur). rust_simpl. exists cur.
  destruct (decide (state cur = Terminated)) as [Hst|Hst].
  - assert (privilege cur = User) as Hu.
    { pose proof (wf_task _ Hwf1) as Hok. rewrite Forall_lookup in Hok.
      specialize (Hok _ _ Hcur). unfold task_ok in Hok. destruct (privilege cur); [|done].
      destruct Hok. congruence. }
    destruct (remove_current_spec "All tasks terminated" _ _ Hwf1 Hk1 Htr1 Hcur Hu)
      as (-> & Hwf2 & Hk2 & Hal2). rust_simpl.
    edestruct finish_step as (j & t & Hj); [exact Hwf2|exact Hk2|..].
    + unfold clamp_current. by case_match.
    + by rewrite clamp_tasks.
    + exists (clamp_current (set_tasks (delete (current_task_idx tm1) (tasks tm1)) tm1)), j, t.
      destruct Hj as (? & ? & ? & ? & ? & ?). by split_and!.
  - rust_simpl.
    edestruct (finish_step "Scheduler stalled: no runnable tasks" (save_current esp tm1))
      as (j & t & Hj).
    + by apply save_wf.
    + by apply save_kernel.
    + done.
    + unfold save_current, set_tasks. cbn [tasks].
      apply Forall_alter; [by apply (wf_all_alive _ cur)|]. by intros.
    + exists (save_current esp tm1), j, t.
      destruct Hj as (? & ? & ? & ? & ? & ?). by split_and!.
Qed.

(** ** What a step does to each task *)

Definition now_after (tm : TaskManager) : Z := wrap64 (tick_count tm + 1).

Lemma tick_prepare_tracked ms tm esp :
  main_task_tracked tm = true →
  tick_prepare ms tm esp =
    set_tasks (wake_task (now_after tm) <$> tasks tm) (set_tick_count (now_after tm) tm).
Proof. intros Htr. unfold tick_prepare, ensure_main_task_tracked. simpl. by rewrite Htr. Qed.

(** A step while the current task is alive: the list keeps its length and
    order, every task may be woken, the current one is saved. *)
Lemma schedule_next_alive ms tm esp c :
  sched_wf tm → has_kernel_task tm → main_task_tracked tm = true →
  tasks tm !! current_task_idx tm = Some c → alive c →
  ∃ j t, let tm2 := save_current esp (tick_prepare ms tm esp) in
    next_ready_after tm2 (current_task_idx tm) = Some j ∧
    tasks tm2 !! j = Some t ∧ state t = Ready ∧
    schedule_next ms tm esp = Ret (stack_ptr t, set_current j tm2) ∧
    sched_wf (set_current j tm2) ∧ has_kernel_task (set_current j tm2).
Proof.
  intros Hwf Hk Htr Hc Hal.
  destruct (schedule_next_spec ms tm esp Hwf Hk) as (cur & tm2 & j & t & Hcur & -> & H).
  rewrite tick_prepare_tracked in * by done. simpl in Hcur.
  rewrite list_lookup_fmap, Hc in Hcur. simplify_eq/=.
  rewrite decide_False in H by (by rewrite wake_dead). by exists j, t.
Qed.

Lemma saved_lookup ms tm esp k t :
  main_task_tracked tm = true → tasks tm !! k = Some t →
  tasks (save_current esp (tick_prepare ms tm esp)) !! k =
    Some (let t' := wake_task (now_after tm) t in
          if decide (k = current_task_idx tm)
          then set_run_ticks (wrap64 (run_ticks t + 1)) (set_stack_ptr esp t') else t').
Proof.
  intros Htr Hk. rewrite tick_prepare_tracked by done. simpl.
  rewrite list_lookup_alter, !list_lookup_fmap. case_decide; subst; rewrite Hk; simpl.
  - rewrite decide_True by done. do 3 f_equal.
    unfold wake_task. destruct (state t); try case_match; done.
  - by rewrite decide_False by congruence.
Qed.

(** Every task other than the current one survives a step with its stack
    pointer and its accounting, only possibly woken. *)
Lemma schedule_next_other ms tm esp sp tm' k t :
  sched_wf tm → has_kernel_task tm → main_task_tracked tm = true →
  tasks tm !! k = Some t → k ≠ current_task_idx tm →
  schedule_next ms tm esp = Ret (sp, tm') →
  ∃ k', tasks tm' !! k' = Some (wake_task (now_after tm) t).
Proof.
  intros Hwf Hkt Htr Hk Hne Hs.
  destruct (schedule_next_spec ms tm esp Hwf Hkt) as (cur & tm2 & j & tj & Hcur & Htm2 & H).
  destruct H as (_ & _ & _ & Hs' & _). assert (tm' = set_current j tm2) as -> by congruence.
  clear Hs Hs'. change (tasks (set_current j tm2)) with (tasks tm2). subst tm2. case_decide.
  - rewrite clamp_tasks, !(tick_prepare_tracked ms tm esp Htr). simpl.
    destruct (decide (k < current_task_idx tm)).
    + exists k. rewrite list_lookup_delete, decide_True, list_lookup_fmap by done. by rewrite Hk.
    + exists (k - 1). rewrite list_lookup_delete, decide_False, list_lookup_fmap by lia.
      replace (S (k - 1)) with k by lia. by rewrite Hk.
  - exists k. rewrite (saved_lookup _ _ _ _ _ Htr Hk).
    by rewrite decide_False.
Qed.

Lemma wake_stack_ptr now t : stack_ptr (wake_task now t) = stack_ptr t.
Proof. unfold wake_task. destruct (state t); try case_match; done. Qed.

Lemma schedule_next_returned ms tm esp sp tm' :
  sched_wf tm → has_kernel_task tm → schedule_next ms tm esp = Ret (sp, tm') →
  sched_wf tm' ∧ has_kernel_task tm' ∧ main_task_tracked tm' = true ∧
  tick_count tm' = now_after tm ∧
  ∃ t, tasks tm' !! current_task_idx tm' = Some t ∧ state t = Ready ∧ stack_ptr t = sp.
Proof.
  intros Hwf Hk Hs.
  destruct (schedule_next_spec ms tm esp Hwf Hk) as (cur & tm2 & j & t & Hcur & Htm2 & H).
  destruct H as (_ & Ht & Hst & Hs' & Hwf' & Hk'). assert (tm' = set_current j tm2) as -> by congruence.
  assert (sp = stack_ptr t) as -> by congruence. subst tm2. split_and!; try done.
  - pose proof (ensure_tracked ms (set_tick_count (wrap64 (tick_count tm + 1)) tm) esp) as Htr.
    case_decide; [unfold clamp_current; case_match|]; exact Htr.
  - assert (tick_count (tick_prepare ms tm esp) = now_after tm) as Htick.
    { unfold tick_prepare, ensure_main_task_tracked. simpl. by destruct (main_task_tracked tm). }
    case_decide; [unfold clamp_current; case_match|]; exact Htick.
  - by exists t.
Qed.

(** ** The other operations *)

Lemma delete_user_kernel tm i t :
  has_kernel_task tm → tasks tm !! i = Some t → privilege t = User →
  Exists (λ t, privilege t = Kernel) (delete i (tasks tm)).
Proof.
  unfold has_kernel_task. rewrite !Exists_exists.
  intros (k & (j & Hj)%list_elem_of_lookup & Hk) Hi Hu. exists k. split; [|done].
  apply list_elem_of_lookup. destruct (decide (j < i)).
  - exists j. by rewrite list_lookup_delete, decide_True.
  - assert (j ≠ i) by (intros ->; congruence).
    exists (j - 1). rewrite list_lookup_delete, decide_False by lia.
    by replace (S (j - 1)) with j by lia.
Qed.

(** The state after a task other than the current one was removed. *)
Definition after_kill (tm : TaskManager) (idx : nat) : TaskManager :=
  set_current (if decide (idx < current_task_idx tm) then current_task_idx tm - 1
               else current_task_idx tm)
    (set_tasks (delete idx (tasks tm)) tm).

Lemma kill_other_eq tm pid idx t :
  (pid ≠ 0)%Z → position (λ t, (id t =? pid)%Z) (tasks tm) = Some idx →
  tasks tm !! idx = Some t → privilege t = User → idx ≠ current_task_idx tm →
  current_task_idx tm < length (tasks tm) →
  kill_task_by_pid tm pid = Ret (Ok KilledNow, after_kill tm idx).
Proof.
  intros Hpid Hpos Ht Hu Hne Hlt. unfold kill_task_by_pid, after_kill.
  rewrite (proj2 (Z.eqb_neq _ _) Hpid), Hpos. rewrite (vec_index_Some _ _ _ Ht). rust_simpl.
  rewrite decide_False by naive_solver. rewrite (proj2 (Nat.eqb_neq _ _) Hne).
  rewrite vec_remove_lt by (by eapply lookup_lt_Some). rust_simpl. simpl.
  assert (S (length (delete idx (tasks tm))) = length (tasks tm)) as Hlen.
  { rewrite length_delete by (by eexists). lia. }
  pose proof (lookup_lt_Some _ _ _ Ht). case_decide.
  - rewrite (proj2 (Nat.ltb_lt idx (current_task_idx tm))),
      (proj2 (Nat.ltb_lt 0 (current_task_idx tm))) by lia. simpl.
    by rewrite leb_correct_conv by lia.
  - rewrite (proj2 (Nat.ltb_ge _ _)) by lia. simpl. rewrite leb_correct_conv by lia.
    by destruct tm.
Qed.

Lemma after_kill_current tm idx :
  idx ≠ current_task_idx tm →
  tasks (after_kill tm idx) !! current_task_idx (after_kill tm idx) =
    tasks tm !! current_task_idx tm.
Proof.
  intros Hne. unfold after_kill. simpl. rewrite list_lookup_delete.
  repeat case_decide; try lia; f_equal; lia.
Qed.

Lemma after_kill_wf tm idx t :
  sched_wf tm → main_task_tracked tm = true → tasks tm !! idx = Some t →
  idx ≠ current_task_idx tm → sched_wf (after_kill tm idx).
Proof.
  intros Hwf Htr Ht Hne. assert (tasks tm ≠ []) as Hne' by (intros E; by rewrite E in Ht).
  pose proof (wf_current _ Hwf Hne') as Hlt.
  apply (wf_delete tm _ idx); try done.
  - intros i t' Hi Hst. unfold after_kill in *. simpl in *.
    rewrite list_lookup_delete in Hi. case_decide as Hd1;
      pose proof (wf_dead _ Hwf _ _ Hi Hst); case_decide; lia.
  - apply lookup_lt_is_Some. rewrite after_kill_current by done.
    by apply lookup_lt_is_Some.
Qed.

Lemma mark_dead_wf tm t :
  sched_wf tm → tasks tm !! current_task_idx tm = Some t → privilege t = User →
  sched_wf (set_tasks (alter (set_state Terminated) (current_task_idx tm) (tasks tm)) tm).
Proof.
  intros Hwf Ht Hu. apply (wf_update tm); try done; [| |apply Hwf]; simpl.
  - apply Forall2_same_length_lookup. split; [by rewrite length_alter|].
    intros i t1 t2 Hi. rewrite list_lookup_alter. case_decide; subst; rewrite Hi; intros; simplify_eq/=; [|done].
    split; [done|]. unfold task_ok. simpl. by rewrite Hu.
  - intros i t1. simpl. rewrite list_lookup_alter.
    case_decide; [done|]. by apply Hwf.
Qed.

Lemma alter_kernel tm f i :
  (∀ t, privilege (f t) = privilege t) → has_kernel_task tm →
  has_kernel_task (set_tasks (alter f i (tasks tm)) tm).
Proof.
  unfold has_kernel_task. rewrite !Exists_exists. intros Hf (k & (j & Hj)%list_elem_of_lookup & Hk).
  exists (if decide (i = j) then f k else k). split.
  - apply list_elem_of_lookup. exists j. simpl. rewrite list_lookup_alter.
    case_decide; subst; by rewrite Hj.
  - case_decide; by rewrite ?Hf.
Qed.

(** In the untracked state every task is a kernel task, so nothing is killed. *)
(** What runs on the processor: the privilege of the current task, or the boot
    program in ring 3 before the first interrupt put it in the task list. *)
Definition runs_as (tm : TaskManager) : option TaskPrivilege :=
  if main_task_tracked tm then privilege <$> tasks tm !! current_task_idx tm else Some User.

Lemma ensure_runs_as ms tm esp : runs_as (ensure_main_task_tracked ms tm esp) = runs_as tm.
Proof. unfold ensure_main_task_tracked, runs_as. by destruct (main_task_tracked tm) eqn:Htr; rewrite ?Htr. Qed.

Lemma kill_cases tm pid :
  sched_wf tm → has_kernel_task tm →
  ∃ r tm', kill_task_by_pid tm pid = Ret (r, tm') ∧ sched_wf tm' ∧ has_kernel_task tm' ∧ runs_as tm' = runs_as tm.
Proof.
  intros Hwf Hk. destruct (decide (pid = 0%Z)) as [->|Hpid]; [by do 2 eexists|].
  destruct (position (λ t, (id t =? pid)%Z) (tasks tm)) as [idx|] eqn:Hpos.
  2: { unfold kill_task_by_pid. rewrite (proj2 (Z.eqb_neq _ _) Hpid), Hpos. by do 2 eexists. }
  pose proof (position_lt _ _ _ Hpos) as [t Ht]%lookup_lt_is_Some.
  destruct (privilege t) eqn:Hu.
  { unfold kill_task_by_pid. rewrite (proj2 (Z.eqb_neq _ _) Hpid), Hpos.
    rewrite (vec_index_Some _ _ _ Ht). rust_simpl. rewrite decide_True by congruence. by do 2 eexists. }
  assert (main_task_tracked tm = true) as Htr.
  { destruct (main_task_tracked tm) eqn:Htr; [done|].
    destruct (wf_untracked _ Hwf Htr) as [_ Hall]. rewrite Forall_lookup in Hall.
    specialize (Hall _ _ Ht). simpl in Hall. congruence. }
  destruct (decide (idx = current_task_idx tm)) as [->|Hne].
  - unfold kill_task_by_pid. rewrite (proj2 (Z.eqb_neq _ _) Hpid), Hpos.
    rewrite (vec_index_Some _ _ _ Ht). rust_simpl. rewrite decide_False, Nat.eqb_refl by naive_solver.
    do 2 eexists. split; [done|]. split; [by eapply mark_dead_wf|]. split; [by apply alter_kernel|].
    unfold runs_as. cbn. rewrite Htr, list_lookup_alter_eq, Ht. done.
  - do 2 eexists. split; [eapply kill_other_eq; try done; by apply wf_current, has_kernel_nonempty|].
    split; [by eapply after_kill_wf|]. split; [by eapply delete_user_kernel|].
    unfold runs_as. by rewrite after_kill_current.
Qed.

Lemma sleep_runs_as ms tm esp n : runs_as (sleep_current_task ms tm esp n).2 = runs_as tm.
Proof.
  unfold sleep_current_task. case_match; [done|]. rewrite <- (ensure_runs_as ms tm esp).
  destruct (tasks _ !! _) as [t|] eqn:Ht; [|done]. do 2 (case_decide; [done|]). cbn [snd].
  unfold runs_as. cbn. destruct (main_task_tracked _); [|done]. by rewrite list_lookup_alter_eq, Ht.
Qed.

Lemma sleep_wf ms tm esp n :
  sched_wf tm → has_kernel_task tm →
  sched_wf (sleep_current_task ms tm esp n).2 ∧ has_kernel_task (sleep_current_task ms tm esp n).2.
Proof.
  intros Hwf Hk. unfold sleep_current_task.
  rewrite no_tasks_false by (by apply has_kernel_nonempty).
  pose proof (ensure_wf ms tm esp Hwf) as Hwf1. pose proof (ensure_kernel ms tm esp Hk) as Hk1.
  set (tm1 := ensure_main_task_tracked ms tm esp) in *.
  destruct (tasks tm1 !! current_task_idx tm1) as [t|] eqn:Ht; [|done].
  case_decide as Hu; [done|]. case_decide as Hst; [done|]. cbn [snd].
  assert (privilege t = User) as Hu' by (by destruct (privilege t); [destruct Hu|]).
  split; [|by apply alter_kernel].
  apply (wf_update tm1); try done; [| |apply Hwf1].
  - apply Forall2_same_length_lookup. unfold set_tasks. cbn [tasks].
    split; [by rewrite length_alter|]. intros i t1 t2 Hi. rewrite list_lookup_alter.
    case_decide as Hd; [rewrite Hd in *|rewrite Hi; intros; by simplify_eq]. rewrite Hi.
    intros [= <-]. assert (t1 = t) as -> by congruence.
    split; [done|]. unfold task_ok. simpl. by rewrite Hu'.
  - intros i t1. unfold set_tasks. cbn [tasks]. rewrite list_lookup_alter.
    case_decide as Hd; [by rewrite <- Hd|by apply Hwf1].
Qed.

(** A sleep call in one equation: [c] is the task the call finds current. *)
Lemma sleep_current_eq ms tm esp n c :
  has_kernel_task tm →
  let tm1 := ensure_main_task_tracked ms tm esp in
  tasks tm1 !! current_task_idx tm1 = Some c →
  sleep_current_task ms tm esp n =
    if decide (privilege c = User ∧ state c ≠ Terminated)
    then (true, set_tasks (<[current_task_idx tm1 := mkTask (id c) (name c) User
            (Sleeping (wrap64 (tick_count tm + Z.max 1 n))) (stack c) esp (run_ticks c)]> (tasks tm1)) tm1)
    else (false, tm1).
Proof.
  intros Hk tm1 Hc. unfold sleep_current_task. rewrite no_tasks_false by (by apply has_kernel_nonempty).
  fold tm1. rewrite Hc. destruct (decide (privilege c ≠ User)) as [Hp|Hp].
  { by rewrite decide_False by naive_solver. }
  destruct (decide (state c = Terminated)) as [Hst|Hst]; [by rewrite decide_False by naive_solver|].
  destruct (decide (privilege c = User)) as [Hu|]; [|done]. rewrite decide_True by done. do 2 f_equal.
  replace (tick_count tm1) with (tick_count tm) by (unfold tm1, ensure_main_task_tracked; by case_match).
  apply list_eq. intros i. rewrite list_lookup_alter. case_decide; subst; [|by rewrite list_lookup_insert_ne].
  rewrite Hc, list_lookup_insert_eq by (by eapply lookup_lt_Some). cbn. unfold set_state, set_stack_ptr. cbn. by rewrite Hu.
Qed.

(** A successful sleep: the current user task is asleep until the time asked for. *)
Lemma sleep_true ms tm esp n tm1 :
  sleep_current_task ms tm esp n = (true, tm1) →
  main_task_tracked tm1 = true ∧ tick_count tm1 = tick_count tm ∧
  ∃ c, tasks tm1 !! current_task_idx tm1 = Some c ∧ privilege c = User ∧
    state c = Sleeping (wrap64 (tick_count tm + Z.max 1 n)) ∧ stack_ptr c = esp.
Proof.
  unfold sleep_current_task. destruct (no_tasks tm); [done|].
  assert (tick_count (ensure_main_task_tracked ms tm esp) = tick_count tm) as Htick.
  { unfold ensure_main_task_tracked. by case_match. }
  pose proof (ensure_tracked ms tm esp) as Htr.
  set (tm0 := ensure_main_task_tracked ms tm esp) in *.
  destruct (tasks tm0 !! current_task_idx tm0) as [t|] eqn:Ht; [|done].
  case_decide as Hu; [done|]. case_decide; [done|]. intros [= <-]. split_and!; [done|done|].
  eexists. simpl. rewrite list_lookup_alter_eq, Ht. simpl. split; [done|]. simpl.
  rewrite Htick. by split_and!.
Qed.

(** The task the fault path finds at the current index. *)
Lemma fault_current ms tm esp :
  sched_wf tm → has_kernel_task tm →
  ∃ t, let tm1 := ensure_main_task_tracked ms tm esp in
    tasks tm1 !! current_task_idx tm1 = Some t ∧ clamp_current tm1 = tm1 ∧ no_tasks tm1 = false.
Proof.
  intros Hwf Hk. pose proof (ensure_wf ms tm esp Hwf) as Hwf1.
  pose proof (has_kernel_nonempty _ (ensure_kernel ms tm esp Hk)) as Hne.
  pose proof (wf_current _ Hwf1 Hne) as Hlt.
  destruct (lookup_lt_is_Some_2 _ _ Hlt) as [t Ht]. exists t.
  split_and!; [done|by apply clamp_noop|by apply no_tasks_false].
Qed.

Definition fault_not_user : string := "User-fault path invoked while current task is not user".

Lemma fault_spec ms tm esp t :
  sched_wf tm → has_kernel_task tm →
  tasks (ensure_main_task_tracked ms tm esp)
    !! current_task_idx (ensure_main_task_tracked ms tm esp) = Some t →
  (privilege t = Kernel ∧
     terminate_current_user_task_from_fault ms tm esp = Panic fault_not_user) ∨
  (privilege t = User ∧ ∃ tm2 j t',
     tasks tm2 = wake_task (tick_count tm) <$>
       delete (current_task_idx (ensure_main_task_tracked ms tm esp))
         (tasks (ensure_main_task_tracked ms tm esp)) ∧
     tasks tm2 !! j = Some t' ∧ state t' = Ready ∧ privilege t' = Kernel ∧
     terminate_current_user_task_from_fault ms tm esp = Ret (stack_ptr t', set_current j tm2) ∧
     sched_wf (set_current j tm2) ∧ has_kernel_task (set_current j tm2) ∧ main_task_tracked tm2 = true).
Proof.
  intros Hwf Hk Ht. pose proof (ensure_wf ms tm esp Hwf) as Hwf1.
  pose proof (ensure_kernel ms tm esp Hk) as Hk1. pose proof (ensure_tracked ms tm esp) as Htr1.
  destruct (fault_current ms tm esp Hwf Hk) as (t0 & Ht0 & Hcl & Hne). simplify_eq.
  assert (tick_count (ensure_main_task_tracked ms tm esp) = tick_count tm) as Htick.
  { unfold ensure_main_task_tracked. by case_match. }
  unfold terminate_current_user_task_from_fault. rewrite Hne, Hcl. clear Hcl Hne.
  set (tm1 := ensure_main_task_tracked ms tm esp) in *.
  rewrite (vec_index_Some _ _ _ Ht). rust_simpl.
  destruct (privilege t) eqn:Hu; [left; split; [done|]; by rewrite decide_True|right].
  split; [done|]. rewrite decide_False by (intros []; done).
  destruct (remove_current_spec "All tasks terminated after user fault" _ _ Hwf1 Hk1 Htr1 Ht Hu)
    as (-> & Hwf2 & Hk2 & Hal2). rust_simpl.
  set (tm2 := clamp_current (set_tasks (delete (current_task_idx tm1) (tasks tm1)) tm1)) in *.
  assert (main_task_tracked tm2 = true ∧ tick_count tm2 = tick_count tm) as [Htr2 Htick2].
  { unfold tm2, clamp_current. by case_match. }
  destruct (finish_step "No runnable task after user fault termination" (wake_sleeping_tasks tm2))
    as (j & t' & _ & Ht' & Hst' & Hstep & Hwf' & Hk');
    [by apply wake_wf|by apply wake_kernel|done| |].
  { unfold wake_sleeping_tasks, set_tasks. cbn [tasks]. unfold tm2 at 2. rewrite clamp_tasks.
    apply Forall_fmap. eapply Forall_impl; [exact Hal2|]. intros x Hx. unfold compose, alive.
    by rewrite wake_dead. }
  assert (tasks (wake_sleeping_tasks tm2) =
    wake_task (tick_count tm) <$> delete (current_task_idx tm1) (tasks tm1)) as Hts.
  { unfold wake_sleeping_tasks, set_tasks. cbn [tasks]. rewrite Htick2. unfold tm2.
    by rewrite clamp_tasks. }
  exists (wake_sleeping_tasks tm2), j, t'. split_and!; try done.
  destruct (privilege t') eqn:Hp; [done|].
  exfalso. rewrite Hts, list_lookup_fmap, list_lookup_delete in Ht'.
  apply fmap_Some in Ht' as (t1 & Ht1 & ->). clear Hstep.
  destruct (wake_identity (tick_count tm) t1) as (_ & Hp1 & _). rewrite Hp in Hp1.
  pose proof (wf_task _ Hwf1) as Hok. pose proof (wf_nodup _ Hwf1) as Hnd.
  rewrite Forall_lookup in Hok. unfold task_ok in Hok.
  assert (∃ k, k ≠ current_task_idx tm1 ∧ tasks tm1 !! k = Some t1) as (k & Hne' & Hk1').
  { case_decide; [exists j|exists (S j)]; split; try done; lia. }
  pose proof (Hok _ _ Ht) as Hid. pose proof (Hok _ _ Hk1') as Hid1.
  rewrite Hu in Hid. rewrite <- Hp1 in Hid1. apply Hne'.
  eapply (NoDup_lookup _ _ _ 1%Z Hnd); rewrite list_lookup_fmap; [rewrite Hk1'|rewrite Ht];
    simpl; by f_equal.
Qed.

Lemma register_wf tm nm entry sb cs mem tm' mem' :
  sched_wf tm → register_named_task tm nm entry sb cs mem = Ret (tm', mem') →
  (next_task_id tm < U32_MAX)%Z →
  sched_wf tm' ∧ has_kernel_task tm'.
Proof.
  intros Hwf. unfold register_named_task. unfold Task_new, add_u32.
  case_bool; [|done]. rust_simpl. intros [= <- <-] Hmax. pose proof (wf_next _ Hwf) as Hnext.
  pose proof (wf_fresh _ Hwf) as Hfresh. rewrite Forall_forall in Hfresh.
  split; [|apply Exists_app; right; by left].
  split; simpl; try apply Hwf.
  - left. rewrite length_app. simpl. destruct (wf_index _ Hwf) as [?|[-> ->]]; simpl; lia.
  - apply Forall_app. split; [apply Hwf|]. constructor; [|constructor]. split; simpl; [done|lia].
  - intros i t [Hi|[Hi1 Hi2]]%lookup_app_Some Hst; [by eapply Hwf|].
    apply list_lookup_singleton_Some in Hi2 as [_ <-]. done.
  - rewrite fmap_app. apply NoDup_app. split_and!; [apply Hwf| |apply NoDup_singleton].
    intros x (t & -> & Hin)%list_elem_of_fmap Hx. apply Hfresh in Hin.
    apply list_elem_of_singleton in Hx. simpl in Hx. lia.
  - apply Forall_app. split; [|constructor; [simpl; lia|constructor]].
    apply Forall_forall. intros t Hin. specialize (Hfresh _ Hin). lia.
  - lia.
  - intros Htr. destruct (wf_untracked _ Hwf Htr) as [? Hall]. split; [done|].
    apply Forall_app. by split; [|constructor].
Qed.
