(* ===== verification/Scheduler.v ===== *)
(** * Properties of the scheduler over event sequences

    The scheduler as a state machine driven by timer ticks, sleep system calls,
    kills from the shell and user page faults; what holds along every sequence
    of such events from boot. *)

From S2P Require Import Prelude Task TaskProps.

(** ** Events *)

Inductive sched_event :=
| Tick (esp : Z)
| SysSleep (esp ticks : Z)
| KillPid (pid : Z)
| UserFault (esp : Z).

Section Run.
Context (ms : Z).

Definition sched_exec (tm : TaskManager) (ev : sched_event) : outcome TaskManager :=
  match ev with
  | Tick esp => r ← schedule_next ms tm esp; Ret r.2
  | SysSleep esp ticks => Ret (sleep_current_task ms tm esp ticks).2
  | KillPid pid => r ← kill_task_by_pid tm pid; Ret r.2
  | UserFault esp => r ← terminate_current_user_task_from_fault ms tm esp; Ret r.2
  end.

Fixpoint sched_run (tm : TaskManager) (evs : list sched_event) : outcome TaskManager :=
  match evs with
  | [] => Ret tm
  | ev :: evs => tm ← sched_exec tm ev; sched_run tm evs
  end.

(** The id of the task at the current index. *)
Definition running (tm : TaskManager) : option Z := id <$> tasks tm !! current_task_idx tm.

End Run.

(** The state in which [kernel_main] leaves the scheduler: one registered
    kernel task. *)
Definition booted (tm : TaskManager) : Prop :=
  ∃ entry sb cs mem mem',
    register_named_task TaskManager_new "background_thread" entry sb cs mem = Ret (tm, mem').

(** A concrete boot state, for the witnesses. *)
Definition boot_tm : TaskManager :=
  mkTM [mkTask 2 "background_thread" Kernel Ready 0x20000 0x21FD4 0] 0 3 0 false.

Lemma boot_tm_booted : booted boot_tm.
Proof. exists 0x100000%Z, 0x20000%Z, 8%Z, ∅. eexists. reflexivity. Defined.

Lemma booted_wf tm : booted tm → sched_wf tm ∧ has_kernel_task tm.
Proof.
  intros (entry & sb & cs & mem & mem' & H).
  eapply register_wf; [apply new_wf|exact H|]. simpl. unfold U32_MAX. lia.
Qed.

(** ** Every event keeps the invariant *)

Lemma exec_wf ms tm ev :
  sched_wf tm → has_kernel_task tm →
  (∃ tm', sched_exec ms tm ev = Ret tm' ∧ sched_wf tm' ∧ has_kernel_task tm') ∨
  sched_exec ms tm ev = Panic fault_not_user.
Proof.
  intros Hwf Hk. destruct ev as [esp|esp n|pid|esp]; simpl.
  - destruct (schedule_next_spec ms tm esp Hwf Hk) as (c & tm2 & j & t & _ & _ & _ & _ & _ & -> & ? & ?).
    left. by eexists.
  - left. eexists. split; [done|]. by apply sleep_wf.
  - destruct (kill_cases tm pid Hwf Hk) as (r & tm' & -> & ? & ? & _). left. by eexists.
  - destruct (fault_current ms tm esp Hwf Hk) as (t & Ht & _).
    destruct (fault_spec ms tm esp t Hwf Hk Ht) as [(_ & ->)|(_ & tm2 & j & t' & _ & _ & _ & _ & -> & ? & ? & _)].
    + by right.
    + left. by eexists.
Qed.

Lemma run_wf ms tm evs :
  sched_wf tm → has_kernel_task tm →
  (∃ tm', sched_run ms tm evs = Ret tm' ∧ sched_wf tm' ∧ has_kernel_task tm') ∨
  sched_run ms tm evs = Panic fault_not_user.
Proof.
  revert tm. induction evs as [|ev evs IH]; intros tm Hwf Hk; simpl; [left; by eexists|].
  destruct (exec_wf ms tm ev Hwf Hk) as [(tm1 & -> & Hwf1 & Hk1)| ->]; [|by right].
  by apply IH.
Qed.

(** C4. from boot, whatever the sequence of timer ticks, sleep calls, kills and
    user faults, the scheduler returns with its invariant intact and a kernel
    task still present; the only panic reachable is the explicit check that a
    user fault was taken by a user task. *)
Theorem sched_never_stalls ms tm evs :
  booted tm →
  (∃ tm', sched_run ms tm evs = Ret tm' ∧ sched_wf tm' ∧ has_kernel_task tm') ∨
  sched_run ms tm evs = Panic fault_not_user.
Proof. intros [Hwf Hk]%booted_wf. by apply run_wf. Qed.

Lemma sched_never_stalls_witness :
  booted boot_tm ∧
  ((∃ tm', sched_run 0x30000 boot_tm [Tick 100; SysSleep 104 20; Tick 108; KillPid 1; Tick 112] = Ret tm' ∧
     sched_wf tm' ∧ has_kernel_task tm') ∨
   sched_run 0x30000 boot_tm [Tick 100; SysSleep 104 20; Tick 108; KillPid 1; Tick 112]
     = Panic fault_not_user).
Proof. split; [exact boot_tm_booted|]. apply sched_never_stalls. exact boot_tm_booted. Defined.

(** a timer tick returns the saved stack pointer of a ready task, which
    becomes the current one, and advances the tick counter modulo 2^64. *)
Theorem schedule_next_returns ms tm esp :
  sched_wf tm → has_kernel_task tm →
  ∃ tm' t, schedule_next ms tm esp = Ret (stack_ptr t, tm') ∧
    tasks tm' !! current_task_idx tm' = Some t ∧ state t = Ready ∧
    tick_count tm' = wrap64 (tick_count tm + 1) ∧ sched_wf tm'.
Proof.
  intros Hwf Hk.
  destruct (schedule_next_spec ms tm esp Hwf Hk) as (c & tm2 & j & t & _ & _ & _ & _ & _ & Hs & ? & ?).
  destruct (schedule_next_returned ms tm esp _ _ Hwf Hk Hs) as (? & ? & ? & Htick & t' & ? & ? & Hsp).
  exists (set_current j tm2), t'. by rewrite Hsp.
Qed.

Lemma schedule_next_returns_witness :
  ∃ tm' t, schedule_next 0x30000 boot_tm 100 = Ret (stack_ptr t, tm') ∧
    tasks tm' !! current_task_idx tm' = Some t ∧ state t = Ready ∧
    tick_count tm' = wrap64 (tick_count boot_tm + 1) ∧ sched_wf tm'.
Proof.
  apply schedule_next_returns; apply (booted_wf boot_tm boot_tm_booted).
Defined.

(** ** Round robin and bounded waiting *)

Lemma prepared_length ms tm esp :
  main_task_tracked tm = true →
  length (tasks (save_current esp (tick_prepare ms tm esp))) = length (tasks tm).
Proof. intros Htr. rewrite tick_prepare_tracked by done. simpl. by rewrite length_alter, length_fmap. Qed.

Lemma prepared_state ms tm esp k t :
  main_task_tracked tm = true → tasks tm !! k = Some t →
  ∃ t', tasks (save_current esp (tick_prepare ms tm esp)) !! k = Some t' ∧
    same_identity t t' ∧ state t' = state (wake_task (now_after tm) t).
Proof.
  intros Htr Hk. rewrite (saved_lookup _ _ _ _ _ Htr Hk). eexists. split; [done|].
  pose proof (wake_identity (now_after tm) t). by case_decide.
Qed.

(** A task that is ready, is not overtaken twice: one tick chooses a task at
    most as far away in cyclic order. *)
Lemma tick_progress ms tm esp c i t d :
  sched_wf tm → has_kernel_task tm → main_task_tracked tm = true →
  tasks tm !! current_task_idx tm = Some c → alive c →
  tasks tm !! i = Some t → state t = Ready →
  1 ≤ d ≤ length (tasks tm) → (current_task_idx tm + d) `mod` length (tasks tm) = i →
  ∃ k sp tm' c', schedule_next ms tm esp = Ret (sp, tm') ∧ 1 ≤ k ≤ d ∧
    current_task_idx tm' = (current_task_idx tm + k) `mod` length (tasks tm) ∧
    length (tasks tm') = length (tasks tm) ∧
    sched_wf tm' ∧ has_kernel_task tm' ∧ main_task_tracked tm' = true ∧
    tasks tm' !! current_task_idx tm' = Some c' ∧ alive c' ∧
    ∃ t', tasks tm' !! i = Some t' ∧ id t' = id t ∧ state t' = Ready.
Proof.
  intros Hwf Hk Htr Hc Hal Hi Hrdy Hd Hdi.
  destruct (schedule_next_alive ms tm esp c Hwf Hk Htr Hc Hal) as (j & tj & Hn & Hj & Hst & Hs & Hwf' & Hk').
  destruct (schedule_next_returned _ _ _ _ _ Hwf Hk Hs) as (_ & _ & Htr' & _).
  destruct (next_ready_after_Some _ _ _ Hn) as (_ & k & Hk1 & Hjk & Hmin).
  rewrite prepared_length in * by done.
  destruct (prepared_state ms tm esp i t Htr Hi) as (t' & Hi' & Hid & Hst').
  assert (state t' = Ready) as Hrdy'.
  { rewrite Hst'. unfold wake_task. by rewrite Hrdy. }
  assert (k ≤ d) as Hkd.
  { destruct (decide (k ≤ d)); [done|]. specialize (Hmin d ltac:(lia)).
    rewrite Hdi, (ready_at_Some _ _ _ Hi'), Hrdy' in Hmin. done. }
  exists k, (stack_ptr tj), (set_current j (save_current esp (tick_prepare ms tm esp))), tj.
  split_and!; try done; try lia.
  - by apply prepared_length.
  - intros E. congruence.
  - exists t'. split_and!; [done|apply Hid|done].
Qed.

Lemma ready_runs_within ms d : ∀ tm esps c i t,
  sched_wf tm → has_kernel_task tm → main_task_tracked tm = true →
  tasks tm !! current_task_idx tm = Some c → alive c →
  tasks tm !! i = Some t → state t = Ready →
  1 ≤ d ≤ length (tasks tm) → (current_task_idx tm + d) `mod` length (tasks tm) = i →
  d ≤ length esps →
  ∃ k tm', 1 ≤ k ≤ d ∧ sched_run ms tm (Tick <$> take k esps) = Ret tm' ∧
    running tm' = Some (id t).
Proof.
  induction (lt_wf d) as [d _ IH]. intros tm [|esp esps] c i t Hwf Hk Htr Hc Hal Hi Hrdy Hd Hdi Hesps;
    simpl in Hesps; [lia|].
  destruct (tick_progress ms tm esp c i t d Hwf Hk Htr Hc Hal Hi Hrdy Hd Hdi)
    as (k & sp & tm1 & c' & Hs & Hkd & Hcur & Hlen & Hwf1 & Hk1 & Htr1 & Hc1 & Hal1 & t1 & Hi1 & Hid1 & Hr1).
  destruct (decide (k = d)) as [->|Hne].
  - exists 1, tm1. split; [lia|]. cbn. rewrite Hs. split; [done|].
    unfold running. rewrite Hcur, Hdi, Hi1. simpl. by rewrite Hid1.
  - destruct (IH (d - k) ltac:(lia) tm1 esps c' i t1) as (k2 & tm2 & Hk2 & Hrun & Hfin); try done; try lia.
    + rewrite Hcur, Hlen, Nat.Div0.add_mod_idemp_l. rewrite <- Hdi. f_equal. lia.
    + exists (S k2), tm2. split; [lia|]. cbn. rewrite Hs. cbn. split; [done|]. by rewrite <- Hid1.
Qed.

(** C5. bounded waiting.  A ready task becomes the running one within as many
    timer ticks as there are tasks, wherever the ticks interrupt. *)
Theorem ready_task_runs ms tm esps c i t :
  sched_wf tm → has_kernel_task tm → main_task_tracked tm = true →
  tasks tm !! current_task_idx tm = Some c → state c ≠ Terminated →
  tasks tm !! i = Some t → state t = Ready → length (tasks tm) ≤ length esps →
  ∃ k tm', 1 ≤ k ≤ length (tasks tm) ∧ sched_run ms tm (Tick <$> take k esps) = Ret tm' ∧
    running tm' = Some (id t).
Proof.
  intros Hwf Hk Htr Hc Hal Hi Hr Hlen.
  destruct (cyclic_offset (length (tasks tm)) (current_task_idx tm) i) as (d & Hd & Hdi).
  { by eapply lookup_lt_Some. }
  destruct (ready_runs_within ms d tm esps c i t) as (k & tm' & Hk1 & ?); try done; try lia.
  exists k, tm'. split; [lia|done].
Qed.

(** The state after the first tick: both tasks present, the kernel task current. *)
Definition two_tasks : TaskManager :=
  mkTM [mkTask 1 "user_main" User Ready 0x30000 100 1;
        mkTask 2 "background_thread" Kernel Ready 0x20000 0x21FD4 0] 1 3 1 true.

Lemma two_tasks_reached : sched_run 0x30000 boot_tm [Tick 100] = Ret two_tasks.
Proof. reflexivity. Qed.

Lemma two_tasks_wf : sched_wf two_tasks ∧ has_kernel_task two_tasks.
Proof.
  destruct (booted_wf _ boot_tm_booted) as [Hwf Hk].
  destruct (run_wf 0x30000 boot_tm [Tick 100] Hwf Hk) as [(tm' & H & ? & ?)|H];
    rewrite two_tasks_reached in H; [|done]. by injection H as <-.
Qed.

Lemma ready_task_runs_witness :
  ∃ k tm', 1 ≤ k ≤ length (tasks two_tasks) ∧
    sched_run 0x30000 two_tasks (Tick <$> take k [200; 204]%Z) = Ret tm' ∧ running tm' = Some 1%Z.
Proof.
  apply (ready_task_runs 0x30000 two_tasks [200; 204]%Z
    (mkTask 2 "background_thread" Kernel Ready 0x20000 0x21FD4 0) 0
    (mkTask 1 "user_main" User Ready 0x30000 100 1)); try reflexivity; try apply two_tasks_wf; try discriminate.
Defined.

(** C6. round robin.  While the current task is alive, the next one is the
    first ready task after it in cyclic order, looking at the list in which the
    tasks whose wake-up time has come are ready. *)
Theorem schedule_next_round_robin ms tm esp c :
  sched_wf tm → has_kernel_task tm → main_task_tracked tm = true →
  tasks tm !! current_task_idx tm = Some c → state c ≠ Terminated →
  ∃ sp tm' k, let n := length (tasks tm) in
    schedule_next ms tm esp = Ret (sp, tm') ∧ 1 ≤ k ≤ n ∧
    current_task_idx tm' = (current_task_idx tm + k) `mod` n ∧
    ready_at (tasks tm') (current_task_idx tm') = true ∧
    ∀ j, 1 ≤ j < k → ready_at (tasks tm') ((current_task_idx tm + j) `mod` n) = false.
Proof.
  intros Hwf Hk Htr Hc Hal.
  destruct (schedule_next_alive ms tm esp c Hwf Hk Htr Hc Hal) as (j & tj & Hn & Hj & Hst & Hs & _).
  destruct (next_ready_after_Some _ _ _ Hn) as (Hr & k & Hk1 & Hjk & Hmin).
  rewrite prepared_length in * by done.
  eexists _, _, k. split; [exact Hs|]. by split_and!; try lia.
Qed.

Lemma schedule_next_round_robin_witness :
  ∃ sp tm' k, let n := length (tasks two_tasks) in
    schedule_next 0x30000 two_tasks 200 = Ret (sp, tm') ∧ 1 ≤ k ≤ n ∧
    current_task_idx tm' = (current_task_idx two_tasks + k) `mod` n ∧
    ready_at (tasks tm') (current_task_idx tm') = true ∧
    ∀ j, 1 ≤ j < k → ready_at (tasks tm') ((current_task_idx two_tasks + j) `mod` n) = false.
Proof.
  apply (schedule_next_round_robin _ _ _
    (mkTask 2 "background_thread" Kernel Ready 0x20000 0x21FD4 0));
    try reflexivity; try apply two_tasks_wf; try discriminate.
Defined.

Lemma running_index tm k t :
  sched_wf tm → tasks tm !! k = Some t →
  (running tm = Some (id t) ↔ k = current_task_idx tm).
Proof.
  intros Hwf Hk. unfold running. split.
  - intros H. eapply (NoDup_lookup _ _ _ (id t) (wf_nodup _ Hwf)); rewrite list_lookup_fmap; [by rewrite Hk|done].
  - intros ->. by rewrite Hk.
Qed.

Lemma kill_result tm pid r tm1 :
  kill_task_by_pid tm pid = Ret (r, tm1) → sched_wf tm → main_task_tracked tm = true →
  has_kernel_task tm →
  (tm1 = tm ∧ ∃ e, r = Err e) ∨
  (∃ t, tasks tm !! current_task_idx tm = Some t ∧ id t = pid ∧ privilege t = User ∧
     r = Ok MarkedForTermination ∧
     tm1 = set_tasks (alter (set_state Terminated) (current_task_idx tm) (tasks tm)) tm) ∨
  (∃ k t, tasks tm !! k = Some t ∧ id t = pid ∧ privilege t = User ∧
     k ≠ current_task_idx tm ∧ r = Ok KilledNow ∧ tm1 = after_kill tm k).
Proof.
  intros H Hwf Htr Hk. destruct (decide (pid = 0%Z)) as [->|Hpid].
  { left. injection H as <- <-. by eauto. }
  destruct (position (λ t, (id t =? pid)%Z) (tasks tm)) as [k|] eqn:Hpos.
  2: { unfold kill_task_by_pid in H. rewrite (proj2 (Z.eqb_neq _ _) Hpid), Hpos in H.
       left. injection H as <- <-. by eauto. }
  pose proof Hpos as [(t & Ht & Hid%Z.eqb_eq) _]%position_Some.
  destruct (decide (privilege t = User)) as [Hu|Hu].
  - destruct (decide (k = current_task_idx tm)) as [->|Hne].
    + right; left. exists t. unfold kill_task_by_pid in H.
      rewrite (proj2 (Z.eqb_neq _ _) Hpid), Hpos, (vec_index_Some _ _ _ Ht) in H. cbn in H.
      rewrite decide_False, Nat.eqb_refl in H by naive_solver. by injection H as <- <-.
    + right; right. exists k, t.
      rewrite (kill_other_eq _ _ _ _ Hpid Hpos Ht Hu Hne) in H.
      2: { by apply wf_current, has_kernel_nonempty. }
      by injection H as <- <-.
  - left. unfold kill_task_by_pid in H.
    rewrite (proj2 (Z.eqb_neq _ _) Hpid), Hpos, (vec_index_Some _ _ _ Ht) in H. cbn in H.
    rewrite decide_True in H by done. injection H as <- <-. by eauto.
Qed.

(** ** Sleeping *)

Lemma tick_keeps_alive ms tm esp sp tm' k t :
  sched_wf tm → has_kernel_task tm → main_task_tracked tm = true →
  tasks tm !! k = Some t → alive t → schedule_next ms tm esp = Ret (sp, tm') →
  ∃ k' t', tasks tm' !! k' = Some t' ∧ id t' = id t ∧ state t' = state (wake_task (now_after tm) t).
Proof.
  intros Hwf Hk Htr Ht Hal Hs. destruct (decide (k = current_task_idx tm)) as [->|Hne].
  - destruct (schedule_next_alive ms tm esp t Hwf Hk Htr Ht Hal) as (j & tj & _ & _ & _ & Hs' & _).
    assert (tm' = set_current j (save_current esp (tick_prepare ms tm esp))) as -> by congruence.
    destruct (prepared_state ms tm esp _ _ Htr Ht) as (t' & Ht' & Hid & Hst).
    exists (current_task_idx tm), t'. split_and!; [exact Ht'|apply Hid|done].
  - destruct (schedule_next_other _ _ _ _ _ _ _ Hwf Hk Htr Ht Hne Hs) as (k' & Hk').
    exists k', (wake_task (now_after tm) t). split_and!; [done|apply wake_identity|done].
Qed.

Lemma now_after_small tm : is_u64 (tick_count tm) → (tick_count tm < U64_MAX)%Z →
  now_after tm = (tick_count tm + 1)%Z.
Proof. unfold is_u64, now_after, wrap64, U64_MAX. intros. apply Z.mod_small. lia. Qed.

Lemma wake_task_due now w t : state t = Sleeping w →
  state (wake_task now t) = if (w <=? now)%Z then Ready else Sleeping w.
Proof. intros H. unfold wake_task. rewrite H. by case_match. Qed.

Lemma ticks_sleeping ms esps : ∀ tm k t w,
  sched_wf tm → has_kernel_task tm → main_task_tracked tm = true →
  tasks tm !! k = Some t → state t = Sleeping w →
  (tick_count tm < w)%Z → (tick_count tm + Z.of_nat (length esps) ≤ w)%Z → (w ≤ U64_MAX)%Z →
  ∃ tm2 k2 t2, sched_run ms tm (Tick <$> esps) = Ret tm2 ∧
    tasks tm2 !! k2 = Some t2 ∧ id t2 = id t ∧
    state t2 = (if (w <=? tick_count tm + Z.of_nat (length esps))%Z then Ready else Sleeping w) ∧
    (0 < length esps → state t2 = Sleeping w → running tm2 ≠ Some (id t)).
Proof.
  induction esps as [|esp esps IH]; intros tm k t w Hwf Hk Htr Ht Hst Hw Hlen Hmax.
  - exists tm, k, t. simpl. split_and!; try done; [|lia].
    rewrite (proj2 (Z.leb_gt _ _)); [done|]. simpl. lia.
  - destruct (schedule_next_spec ms tm esp Hwf Hk) as (c & tm2 & j & tj & _ & _ & _ & _ & _ & Hs & _).
    destruct (schedule_next_returned _ _ _ _ _ Hwf Hk Hs)
      as (Hwf1 & Hk1 & Htr1 & Htick & tc & Htc & Hrdy & _).
    assert (now_after tm = tick_count tm + 1)%Z as Hnow.
    { apply now_after_small; [apply Hwf|]. lia. }
    destruct (tick_keeps_alive _ _ _ _ _ _ _ Hwf Hk Htr Ht ltac:(unfold alive; by rewrite Hst) Hs)
      as (k1 & t1 & Ht1 & Hid1 & Hst1).
    rewrite (wake_task_due _ _ _ Hst), Hnow in Hst1. cbn [fmap list_fmap sched_run sched_exec].
    rewrite Hs. cbn [mbind outcome_bind snd]. simpl length in *. destruct esps as [|esp2 esps].
    + exists (set_current j tm2), k1, t1. split_and!; try done.
      intros _ Hsl Hrun. rewrite <- Hid1 in Hrun.
      apply (running_index _ _ _ Hwf1 Ht1) in Hrun. subst k1. congruence.
    + rewrite (proj2 (Z.leb_gt _ _)) in Hst1 by (simpl length in *; lia).
      destruct (IH _ k1 t1 w Hwf1 Hk1 Htr1 Ht1 Hst1) as (tm3 & k3 & t3 & Hrun & Ht3 & Hid3 & Hst3 & Hnr).
      { rewrite Htick, Hnow. simpl length in *. lia. }
      { rewrite Htick, Hnow. simpl length in *. lia. }
      { done. }
      exists tm3, k3, t3. rewrite Hid1 in *. split_and!; try done.
      * rewrite Hst3, Htick, Hnow. simpl length.
        by replace (tick_count tm + 1 + Z.of_nat (S (length esps)))%Z
          with (tick_count tm + Z.of_nat (S (S (length esps))))%Z by lia.
      * intros _. apply Hnr. simpl. lia.
Qed.

(** C27. a sleep of [n] ticks lasts [max 1 n] ticks.  The call itself does not
    switch: the caller, asleep in the table, keeps the processor until the next
    tick.  After one tick or more, as long as fewer than [max 1 n] have passed, it
    is still asleep and another task runs (for [n] up to 1 there is no such tick);
    at the tick number [max 1 n] it is ready again. *)
Theorem sleep_duration ms tm esp n tm1 c esps :
  sched_wf tm → has_kernel_task tm → (0 ≤ n)%Z →
  (tick_count tm + Z.max 1 n ≤ U64_MAX)%Z →
  sleep_current_task ms tm esp n = (true, tm1) →
  tasks tm1 !! current_task_idx tm1 = Some c →
  (Z.of_nat (length esps) ≤ Z.max 1 n)%Z →
  ∃ tm2 k t, sched_run ms tm1 (Tick <$> esps) = Ret tm2 ∧
    tasks tm2 !! k = Some t ∧ id t = id c ∧
    state t = (if (Z.max 1 n <=? Z.of_nat (length esps))%Z then Ready
               else Sleeping (tick_count tm + Z.max 1 n)) ∧
    (esps = [] → running tm2 = Some (id c)) ∧
    (0 < length esps → (Z.of_nat (length esps) < Z.max 1 n)%Z → running tm2 ≠ Some (id c)).
Proof.
  intros Hwf Hk Hn Hmax Hs Hc Hlen. pose proof (sleep_wf ms tm esp n Hwf Hk) as [Hwf1 Hk1].
  rewrite Hs in Hwf1, Hk1. simpl in Hwf1, Hk1. pose proof (wf_tick _ Hwf) as Ht64.
  destruct (sleep_true _ _ _ _ _ Hs) as (Htr & Htick & c' & Hc' & _ & Hst & _). simplify_eq.
  assert (wrap64 (tick_count tm + Z.max 1 n) = tick_count tm + Z.max 1 n)%Z as Hwrap.
  { apply Z.mod_small. unfold is_u64, U64_MAX in *. lia. }
  rewrite Hwrap in Hst.
  destruct (ticks_sleeping ms esps tm1 _ _ _ Hwf1 Hk1 Htr Hc Hst)
    as (tm2 & k & t & Hrun & Ht & Hid & Hst2 & Hnr); try lia.
  exists tm2, k, t. rewrite Htick in *. split_and!; try done.
  - rewrite Hst2. by repeat case_bool; try lia.
  - intros ->. injection Hrun as <-. unfold running. by rewrite Hc.
  - intros Hpos Hlt. apply Hnr; [done|]. rewrite Hst2.
    by rewrite (proj2 (Z.leb_gt _ _)) by lia.
Qed.

Definition user_current : TaskManager := set_current 0 two_tasks.

Lemma user_current_wf : sched_wf user_current ∧ has_kernel_task user_current.
Proof.
  split; [|apply two_tasks_wf]. eapply set_current_wf; [apply two_tasks_wf|done| |reflexivity].
  by repeat constructor.
Qed.

Lemma sleep_duration_witness :
  ∃ tm1 tm2 k t, sleep_current_task 0x30000 user_current 96 20 = (true, tm1) ∧
    sched_run 0x30000 tm1 (Tick <$> [1; 2; 3]%Z) = Ret tm2 ∧
    tasks tm2 !! k = Some t ∧ id t = 1%Z ∧
    state t = (if (Z.max 1 20 <=? Z.of_nat (length [1; 2; 3]%Z))%Z then Ready
               else Sleeping (tick_count user_current + Z.max 1 20)) ∧
    ([1; 2; 3]%Z = [] → running tm2 = Some 1%Z) ∧
    (0 < length [1; 2; 3]%Z → (Z.of_nat (length [1; 2; 3]%Z) < Z.max 1 20)%Z → running tm2 ≠ Some 1%Z).
Proof.
  eexists. edestruct (sleep_duration 0x30000 user_current 96 20) with (esps := [1; 2; 3]%Z)
    as (tm2 & k & t & H); [apply user_current_wf|apply user_current_wf|lia|
      vm_compute; discriminate|reflexivity|reflexivity|simpl; lia|].
  exists tm2, k, t. split; [reflexivity|exact H].
Defined.

(** ** Killing and faulting *)

Lemma position_of_id tm k t :
  sched_wf tm → tasks tm !! k = Some t →
  position (λ t', (id t' =? id t)%Z) (tasks tm) = Some k.
Proof.
  intros Hwf Hk. apply position_Some. split; [exists t; by rewrite Z.eqb_refl|].
  intros j t' Hj Ht'. apply Z.eqb_neq. intros Heq.
  assert (j = k); [|lia].
  eapply (NoDup_lookup _ _ _ (id t) (wf_nodup _ Hwf)); rewrite list_lookup_fmap; [rewrite Ht'|rewrite Hk];
    simpl; by f_equal.
Qed.

Lemma wf_id_pos tm k t : sched_wf tm → tasks tm !! k = Some t → (1 ≤ id t)%Z.
Proof.
  intros Hwf Hk. pose proof (wf_task _ Hwf) as Hok. rewrite Forall_lookup in Hok.
  specialize (Hok _ _ Hk). unfold task_ok in Hok. destruct (privilege t); lia.
Qed.

(** C28. what [kill] does on every branch: an unknown pid or a kernel task is
    refused and nothing changes; the running user task is only marked; any
    other user task is removed from the list and the running task stays the
    running task even though its index may shift. *)
Theorem kill_task_by_pid_branches tm pid :
  sched_wf tm → has_kernel_task tm →
  (pid = 0%Z → kill_task_by_pid tm pid = Ret (Err "cannot kill kernel task", tm)) ∧
  (pid ≠ 0%Z → pid ∉ (id <$> tasks tm) → kill_task_by_pid tm pid = Ret (Err "pid not found", tm)) ∧
  (∀ k t, tasks tm !! k = Some t → id t = pid → privilege t = Kernel →
     kill_task_by_pid tm pid = Ret (Err "cannot kill kernel task", tm)) ∧
  (∀ k t, tasks tm !! k = Some t → id t = pid → privilege t = User → k = current_task_idx tm →
     kill_task_by_pid tm pid = Ret (Ok MarkedForTermination,
       set_tasks (<[k := set_state Terminated t]> (tasks tm)) tm)) ∧
  (∀ k t, tasks tm !! k = Some t → id t = pid → privilege t = User → k ≠ current_task_idx tm →
     ∃ tm', kill_task_by_pid tm pid = Ret (Ok KilledNow, tm') ∧
       tasks tm' = delete k (tasks tm) ∧
       tasks tm' !! current_task_idx tm' = tasks tm !! current_task_idx tm).
Proof.
  intros Hwf Hk. split_and!.
  - by intros ->.
  - intros Hpid Hnin. unfold kill_task_by_pid. rewrite (proj2 (Z.eqb_neq _ _) Hpid).
    rewrite (proj2 (position_None _ _)); [done|]. intros t Hin. apply Z.eqb_neq. intros <-.
    apply Hnin. by apply list_elem_of_fmap_2.
  - intros k t Ht <- Hp. pose proof (wf_id_pos _ _ _ Hwf Ht). unfold kill_task_by_pid.
    rewrite (proj2 (Z.eqb_neq _ _)), (position_of_id _ _ _ Hwf Ht), (vec_index_Some _ _ _ Ht) by lia.
    cbn. by rewrite decide_True by congruence.
  - intros k t Ht <- Hp ->. pose proof (wf_id_pos _ _ _ Hwf Ht). unfold kill_task_by_pid.
    rewrite (proj2 (Z.eqb_neq _ _)), (position_of_id _ _ _ Hwf Ht), (vec_index_Some _ _ _ Ht) by lia.
    cbn. rewrite decide_False, Nat.eqb_refl by naive_solver. do 3 f_equal.
    apply list_eq. intros i. rewrite list_lookup_alter.
    case_decide; subst; [rewrite Ht, list_lookup_insert_eq by (by eapply lookup_lt_Some); done|].
    by rewrite list_lookup_insert_ne.
  - intros k t Ht <- Hp Hne. pose proof (wf_id_pos _ _ _ Hwf Ht). exists (after_kill tm k).
    split_and!; [|done|by apply after_kill_current].
    eapply kill_other_eq; [lia|by apply position_of_id|done..|]. by apply wf_current, has_kernel_nonempty.
Qed.

Lemma kill_task_by_pid_branches_witness :
  sched_wf two_tasks ∧
  ∃ tm', kill_task_by_pid two_tasks 1 = Ret (Ok KilledNow, tm') ∧
    tasks tm' = delete 0 (tasks two_tasks) ∧
    tasks tm' !! current_task_idx tm' = tasks two_tasks !! current_task_idx two_tasks.
Proof.
  split; [apply two_tasks_wf|].
  apply (kill_task_by_pid_branches two_tasks 1 (proj1 two_tasks_wf) (proj2 two_tasks_wf))
    with (k := 0) (t := mkTask 1 "user_main" User Ready 0x30000 100 1); try reflexivity.
  discriminate.
Defined.

Lemma tick_ids ms tm esp sp tm' :
  sched_wf tm → has_kernel_task tm → main_task_tracked tm = true →
  schedule_next ms tm esp = Ret (sp, tm') →
  ∃ c, tasks tm !! current_task_idx tm = Some c ∧
    id <$> tasks tm' = (if decide (state c = Terminated)
      then delete (current_task_idx tm) (id <$> tasks tm) else id <$> tasks tm).
Proof.
  intros Hwf Hk Htr Hs. assert (tasks tm ≠ []) as Hne by (by apply has_kernel_nonempty).
  pose proof (wf_current _ Hwf Hne) as Hlt. destruct (lookup_lt_is_Some_2 _ _ Hlt) as [c Hc].
  exists c. split; [done|].
  destruct (schedule_next_spec ms tm esp Hwf Hk) as (c' & tm2 & j & tj & Hc' & Htm2 & _ & _ & _ & Hs' & _).
  assert (tm' = set_current j tm2) as -> by congruence.
  change (tasks (set_current j tm2)) with (tasks tm2). subst tm2.
  rewrite !(tick_prepare_tracked ms tm esp Htr) in *. simpl in Hc'.
  rewrite list_lookup_fmap, Hc in Hc'. injection Hc' as <-.
  assert (id <$> (wake_task (now_after tm) <$> tasks tm) = id <$> tasks tm) as Hids.
  { rewrite <- list_fmap_compose. apply list_fmap_ext. intros i t _. apply wake_identity. }
  destruct (decide (state c = Terminated)) as [Hd|Hd].
  - rewrite decide_True by (by apply wake_dead). rewrite clamp_tasks.
    unfold set_tasks. cbn [tasks current_task_idx set_tick_count]. by rewrite fmap_delete_list, Hids.
  - rewrite decide_False by (by rewrite wake_dead). simpl. rewrite <- Hids.
    apply list_eq. intros i. rewrite !list_lookup_fmap, list_lookup_alter, !list_lookup_fmap.
    destruct (decide (current_task_idx tm = i)) as [<-|]; [by rewrite Hc|done].
Qed.

Lemma mem_delete_NoDup (l : list Z) k x : NoDup l → l !! k = Some x → x ∉ delete k l.
Proof.
  intros Hnd Hk (j & Hj)%list_elem_of_lookup. rewrite list_lookup_delete in Hj.
  case_decide; pose proof (NoDup_lookup _ _ _ _ Hnd Hj Hk); lia.
Qed.

(** a kill that reports success is effective by the next timer tick: the
    scheduler then returns and no task with that pid is left. *)
Theorem killed_task_gone ms tm pid r tm1 esp :
  sched_wf tm → has_kernel_task tm → main_task_tracked tm = true →
  kill_task_by_pid tm pid = Ret (Ok r, tm1) →
  ∃ sp tm2, schedule_next ms tm1 esp = Ret (sp, tm2) ∧ (pid ∉ (id <$> tasks tm2)) ∧
    running tm2 ≠ Some pid.
Proof.
  intros Hwf Hk Htr H. destruct (kill_cases tm pid Hwf Hk) as (r' & tm1' & H' & Hwf1 & Hk1 & _).
  rewrite H in H'. injection H' as <- <-.
  destruct (schedule_next_spec ms tm1 esp Hwf1 Hk1) as (c & tm2 & j & t & _ & _ & _ & _ & _ & Hs & _).
  exists (stack_ptr t), (set_current j tm2).
  assert (main_task_tracked tm1 = true ∧ pid ∉ (id <$> tasks (set_current j tm2))) as [_ Hgone].
  { destruct (kill_result _ _ _ _ H Hwf Htr Hk)
      as [[_ [e He]]|[(tc & Hc & <- & _ & _ & ->)|(k & tk & Hkk & <- & _ & Hne & _ & ->)]].
    - done.
    - split; [done|]. destruct (tick_ids _ _ _ _ _ Hwf1 Hk1 Htr Hs) as (c1 & Hc1 & ->).
      simpl in Hc1. rewrite list_lookup_alter_eq, Hc in Hc1. injection Hc1 as <-.
      rewrite decide_True by done. apply mem_delete_NoDup; [apply Hwf1|].
      rewrite list_lookup_fmap. simpl. by rewrite list_lookup_alter_eq, Hc.
    - split; [done|]. destruct (tick_ids _ _ _ _ _ Hwf1 Hk1 Htr Hs) as (c1 & Hc1 & ->).
      assert (id tk ∉ (id <$> tasks (after_kill tm k))) as Hn.
      { unfold after_kill. simpl. rewrite fmap_delete_list.
        apply mem_delete_NoDup; [apply Hwf|]. by rewrite list_lookup_fmap, Hkk. }
      case_decide; [|done]. by intros ?%elem_of_delete. }
  split_and!; [done|done|]. unfold running. intros (t' & Ht' & ->)%fmap_Some. apply Hgone.
  apply list_elem_of_fmap_2. by eapply list_elem_of_lookup_2.
Qed.

Lemma killed_task_gone_witness :
  ∃ sp tm2, schedule_next 0x30000
      (set_tasks (alter (set_state Terminated) 0 (tasks user_current)) user_current) 88 = Ret (sp, tm2) ∧
    (1%Z ∉ (id <$> tasks tm2)) ∧ running tm2 ≠ Some 1%Z.
Proof.
  apply (killed_task_gone 0x30000 user_current 1 MarkedForTermination);
    try apply user_current_wf; reflexivity.
Defined.

(** a page fault in the running user task removes exactly that task and
    hands the processor to a ready kernel task; the fault path panics exactly
    when the current task is a kernel task. *)
Theorem user_fault_terminates ms tm esp :
  sched_wf tm → has_kernel_task tm →
  let tm1 := ensure_main_task_tracked ms tm esp in
  ∃ t, tasks tm1 !! current_task_idx tm1 = Some t ∧
    (privilege t = Kernel →
       terminate_current_user_task_from_fault ms tm esp =
         Panic "User-fault path invoked while current task is not user") ∧
    (privilege t = User →
       ∃ tm' t', terminate_current_user_task_from_fault ms tm esp = Ret (stack_ptr t', tm') ∧
         tasks tm' !! current_task_idx tm' = Some t' ∧
         privilege t' = Kernel ∧ state t' = Ready ∧
         id <$> tasks tm' = delete (current_task_idx tm1) (id <$> tasks tm1) ∧
         (id t ∉ (id <$> tasks tm')) ∧ sched_wf tm').
Proof.
  intros Hwf Hk tm1. destruct (fault_current ms tm esp Hwf Hk) as (t & Ht & _). exists t.
  split; [done|].
  destruct (fault_spec ms tm esp t Hwf Hk Ht)
    as [(Hp & ->)|(Hp & tm2 & j & t' & Hts & Hj & Hst & Hp' & -> & Hwf' & _)];
    rewrite Hp; (split; [|]); try done.
  intros _. assert (id <$> tasks tm2 = delete (current_task_idx tm1) (id <$> tasks tm1)) as Hids.
  { rewrite Hts, <- fmap_delete_list, <- list_fmap_compose. apply list_fmap_ext.
    intros i x _. apply wake_identity. }
  exists (set_current j tm2), t'. split_and!; try done.
  change (tasks (set_current j tm2)) with (tasks tm2). rewrite Hids.
  apply mem_delete_NoDup; [apply (ensure_wf ms tm esp Hwf)|]. unfold tm1. by rewrite list_lookup_fmap, Ht.
Qed.

Lemma user_fault_terminates_witness :
  sched_wf boot_tm ∧ has_kernel_task boot_tm ∧
  let tm1 := ensure_main_task_tracked 0x30000 boot_tm 0x5000 in
  ∃ t, tasks tm1 !! current_task_idx tm1 = Some t ∧
    (privilege t = Kernel →
       terminate_current_user_task_from_fault 0x30000 boot_tm 0x5000 =
         Panic "User-fault path invoked while current task is not user") ∧
    (privilege t = User →
       ∃ tm' t', terminate_current_user_task_from_fault 0x30000 boot_tm 0x5000 = Ret (stack_ptr t', tm') ∧
         tasks tm' !! current_task_idx tm' = Some t' ∧
         privilege t' = Kernel ∧ state t' = Ready ∧
         id <$> tasks tm' = delete (current_task_idx tm1) (id <$> tasks tm1) ∧
         (id t ∉ (id <$> tasks tm')) ∧ sched_wf tm').
Proof.
  destruct (booted_wf _ boot_tm_booted) as [Hwf Hk]. split; [exact Hwf|]. split; [exact Hk|].
  exact (user_fault_terminates 0x30000 boot_tm 0x5000 Hwf Hk).
Defined.

(** ** Tasks that wait *)

(** Task [i] is in the list, not current, with saved stack pointer [sp]. *)
Definition parked (i sp : Z) (tm : TaskManager) : Prop :=
  ∃ k t, tasks tm !! k = Some t ∧ k ≠ current_task_idx tm ∧ id t = i ∧ stack_ptr t = sp.

(** It is, or it is no longer in the list at all. *)
Definition waiting (i sp : Z) (tm : TaskManager) : Prop := parked i sp tm ∨ i ∉ (id <$> tasks tm).

Lemma waiting_not_running i sp tm : sched_wf tm → waiting i sp tm → running tm ≠ Some i.
Proof.
  intros Hwf [(k & t & Hk & Hne & <- & _)|Hn] Hr.
  - by apply (running_index _ _ _ Hwf Hk) in Hr.
  - apply Hn. unfold running in Hr. apply fmap_Some in Hr as (t & Ht & ->).
    apply list_elem_of_fmap_2. by eapply list_elem_of_lookup_2.
Qed.

Lemma parked_tick ms tm esp sp1 tm1 i sp :
  sched_wf tm → has_kernel_task tm → main_task_tracked tm = true → parked i sp tm →
  schedule_next ms tm esp = Ret (sp1, tm1) →
  (running tm1 = Some i ∧ sp1 = sp) ∨ (running tm1 ≠ Some i ∧ parked i sp tm1).
Proof.
  intros Hwf Hk Htr (k & t & Hkt & Hne & <- & <-) Hs.
  destruct (schedule_next_other ms tm esp sp1 tm1 k t Hwf Hk Htr Hkt Hne Hs) as (k' & Hk').
  destruct (schedule_next_returned _ _ _ _ _ Hwf Hk Hs) as (Hwf1 & _ & _ & _ & tc & Htc & _ & Hsp).
  pose proof (running_index _ _ _ Hwf1 Hk') as Hrun.
  destruct (wake_identity (now_after tm) t) as (Hid & _). rewrite Hid in Hrun.
  destruct (decide (k' = current_task_idx tm1)) as [->|Hne'].
  - left. split; [by apply Hrun|]. simplify_eq. by rewrite wake_stack_ptr.
  - right. split; [by rewrite Hrun|]. exists k', (wake_task (now_after tm) t).
    by rewrite wake_stack_ptr.
Qed.

Lemma parked_kill tm pid r tm1 i sp :
  sched_wf tm → has_kernel_task tm → main_task_tracked tm = true → parked i sp tm → pid ≠ i →
  kill_task_by_pid tm pid = Ret (r, tm1) → parked i sp tm1.
Proof.
  intros Hwf Hk Htr (k & t & Hkt & Hne & <- & <-) Hpid H.
  destruct (kill_result _ _ _ _ H Hwf Htr Hk)
    as [[-> _]|[(tc & Hc & Hid & _ & _ & ->)|(k2 & t2 & Hk2 & Hid & Hu & Hne2 & _ & ->)]].
  - by exists k, t.
  - exists k, t. simpl. by rewrite list_lookup_alter_ne by done.
  - assert (k ≠ k2) by (intros ->; simplify_eq).
    unfold after_kill. destruct (decide (k < k2)).
    + exists k, t. simpl. rewrite list_lookup_delete, decide_True by done.
      split_and!; try done. case_decide; lia.
    + exists (k - 1), t. simpl. rewrite list_lookup_delete, decide_False by lia.
      replace (S (k - 1)) with k by lia. split_and!; try done. case_decide; lia.
Qed.

(** One step of the scheduler each: a waiting task goes on waiting with its stack
    pointer, unless the step makes it current with just that stack pointer. *)
Definition resumed_or_waiting (i sp sp1 : Z) (tm1 : TaskManager) : Prop :=
  (running tm1 = Some i ∧ sp1 = sp) ∨ waiting i sp tm1.

Lemma waiting_tick ms tm esp sp1 tm1 i sp :
  sched_wf tm → has_kernel_task tm → main_task_tracked tm = true → waiting i sp tm →
  schedule_next ms tm esp = Ret (sp1, tm1) → resumed_or_waiting i sp sp1 tm1.
Proof.
  intros Hwf Hk Htr [Hp|Hn] Hs.
  - destruct (parked_tick _ _ _ _ _ _ _ Hwf Hk Htr Hp Hs) as [?|[_ ?]]; [by left|by right; left].
  - right. right. destruct (tick_ids _ _ _ _ _ Hwf Hk Htr Hs) as (c & _ & ->).
    case_decide; [by intros ?%elem_of_delete|done].
Qed.

Lemma waiting_kill tm pid r tm1 i sp :
  sched_wf tm → has_kernel_task tm → main_task_tracked tm = true → waiting i sp tm →
  kill_task_by_pid tm pid = Ret (r, tm1) → waiting i sp tm1 ∧ main_task_tracked tm1 = true.
Proof.
  intros Hwf Hk Htr Hw H. pose proof Hwf as Hnd%wf_nodup.
  destruct (kill_result _ _ _ _ H Hwf Htr Hk)
    as [[-> _]|[(tc & Hc & _ & _ & _ & ->)|(k & t & Ht & Hid & _ & _ & _ & ->)]]; [done| |].
  - split; [|done]. assert (id <$> alter (set_state Terminated) (current_task_idx tm) (tasks tm) = id <$> tasks tm) as Hids.
    { apply list_eq. intros j. rewrite !list_lookup_fmap, list_lookup_alter. case_decide; subst; [|done].
      by destruct (tasks tm !! _). }
    destruct Hw as [(k & t & Ht & Hne & Hi)|Hn]; [left|right; by cbn; rewrite Hids].
    exists k, t. cbn. by rewrite list_lookup_alter_ne by done.
  - split; [|done]. destruct (decide (pid = i)) as [->|Hne].
    + right. cbn. rewrite fmap_delete_list, <- Hid. apply mem_delete_NoDup; [done|]. by rewrite list_lookup_fmap, Ht.
    + destruct Hw as [Hp|Hn]; [left; by eapply parked_kill|]. right. cbn. rewrite fmap_delete_list.
      by intros ?%elem_of_delete.
Qed.

Lemma waiting_sleep ms tm esp n i sp :
  sched_wf tm → has_kernel_task tm → main_task_tracked tm = true → waiting i sp tm →
  waiting i sp (sleep_current_task ms tm esp n).2 ∧ main_task_tracked (sleep_current_task ms tm esp n).2 = true.
Proof.
  intros Hwf Hk Htr Hw. destruct (fault_current ms tm esp Hwf Hk) as (c & Hc & _).
  rewrite (sleep_current_eq ms tm esp n c Hk Hc). unfold ensure_main_task_tracked in *. rewrite Htr in *.
  case_decide; [|done]. split; [|done]. cbn [snd]. destruct Hw as [(k & t & Ht & Hne & Hi)|Hn].
  - left. exists k, t. cbn. by rewrite list_lookup_insert_ne by done.
  - right. cbn. rewrite list_fmap_insert. rewrite list_insert_id; [done|]. by rewrite list_lookup_fmap, Hc.
Qed.

Lemma waiting_fault ms tm esp sp1 tm1 i sp :
  sched_wf tm → has_kernel_task tm → main_task_tracked tm = true → waiting i sp tm →
  terminate_current_user_task_from_fault ms tm esp = Ret (sp1, tm1) →
  resumed_or_waiting i sp sp1 tm1 ∧ sched_wf tm1 ∧ has_kernel_task tm1 ∧ main_task_tracked tm1 = true.
Proof.
  intros Hwf Hk Htr Hw H. destruct (fault_current ms tm esp Hwf Hk) as (c & Hc & _).
  destruct (fault_spec ms tm esp c Hwf Hk Hc)
    as [[_ H']|(_ & tm2 & j & t' & Hts & Hj & _ & _ & H' & Hwf1 & Hk1 & Htr1)]; [congruence|].
  rewrite H in H'. injection H' as -> ->. split; [|done].
  unfold ensure_main_task_tracked in *. rewrite Htr in *. destruct Hw as [(k & t & Ht & Hne & <- & <-)|Hn].
  - assert (∃ k', tasks tm2 !! k' = Some (wake_task (tick_count tm) t)) as (k' & Hk').
    { rewrite Hts. destruct (decide (k < current_task_idx tm)); [exists k|exists (k - 1)];
        rewrite list_lookup_fmap, list_lookup_delete.
      - rewrite decide_True by done. by rewrite Ht.
      - rewrite decide_False by lia. replace (S (k - 1)) with k by lia. by rewrite Ht. }
    pose proof (running_index (set_current j tm2) _ _ Hwf1 Hk') as Hrun.
    destruct (wake_identity (tick_count tm) t) as (Hid & _). rewrite Hid in Hrun. cbn in Hrun.
    destruct (decide (k' = j)) as [->|Hne'].
    + left. split; [by apply Hrun|]. simplify_eq. by rewrite wake_stack_ptr.
    + right. left. exists k', (wake_task (tick_count tm) t). by rewrite wake_stack_ptr.
  - right. right. cbn. rewrite Hts, <- list_fmap_compose.
    rewrite (list_fmap_ext _ id) by (intros; apply wake_identity).
    rewrite fmap_delete_list. by intros ?%elem_of_delete.
Qed.

(** The current task at a tick: saved with the stack pointer of the interruption,
    or removed if it was marked for termination. *)
Lemma tick_parks ms tm esp sp1 tm1 c :
  sched_wf tm → has_kernel_task tm → main_task_tracked tm = true →
  tasks tm !! current_task_idx tm = Some c →
  schedule_next ms tm esp = Ret (sp1, tm1) → resumed_or_waiting (id c) esp sp1 tm1.
Proof.
  intros Hwf Hk Htr Hc Hs. destruct (decide (state c = Terminated)) as [Hst|Hal].
  - right. right. destruct (tick_ids _ _ _ _ _ Hwf Hk Htr Hs) as (c' & Hc' & ->). simplify_eq.
    rewrite decide_True by done. apply mem_delete_NoDup; [by apply wf_nodup|]. by rewrite list_lookup_fmap, Hc.
  - destruct (schedule_next_returned _ _ _ _ _ Hwf Hk Hs) as (Hwf1 & _).
    destruct (schedule_next_alive ms tm esp c Hwf Hk Htr Hc Hal) as (j & tj & _ & Hj & _ & Hs' & _).
    rewrite Hs in Hs'. injection Hs' as -> Htm1.
    pose proof (saved_lookup ms tm esp _ _ Htr Hc) as Hsave. rewrite decide_True in Hsave by done.
    change (tasks (save_current esp (tick_prepare ms tm esp))) with
      (tasks (set_current j (save_current esp (tick_prepare ms tm esp)))) in Hsave, Hj.
    assert (current_task_idx tm1 = j) as Hcur by (by subst tm1).
    rewrite <- Htm1 in Hsave, Hj. cbn zeta in Hsave. pose proof (running_index _ _ _ Hwf1 Hsave) as Hr.
    destruct (wake_identity (now_after tm) c) as (Hid & _). simpl in Hr. rewrite Hid, Hcur in Hr.
    destruct (decide (current_task_idx tm = j)) as [Heq|Hne].
    + left. split; [by apply Hr|]. rewrite <- Heq, Hsave in Hj. by simplify_eq.
    + right. left. eexists _, _. split; [exact Hsave|]. rewrite Hcur. by split_and!.
Qed.

(** A tick that finds the ring 3 program untracked enters it first. *)
Lemma schedule_next_ensure ms tm esp :
  tasks tm ≠ [] → schedule_next ms tm esp = schedule_next ms (ensure_main_task_tracked ms tm esp) esp.
Proof.
  intros Hne. unfold ensure_main_task_tracked. destruct (main_task_tracked tm) eqn:Htr; [done|].
  unfold schedule_next. rewrite no_tasks_false by done. unfold ensure_main_task_tracked. cbn. by rewrite Htr.
Qed.

(** ** The process table *)

Lemma snapshot_ids_tracked tm f :
  (∀ i t, ps_id (f i t) = id t) → ps_id <$> imap f (tasks tm) = id <$> tasks tm.
Proof.
  intros Hf. apply list_eq. intros i. rewrite !list_lookup_fmap, list_lookup_imap.
  destruct (tasks tm !! i); simpl; [|done]. by rewrite Hf.
Qed.

(** [ps] and the statistics agree: the table has as many rows as
    [total_tasks], one per pid, and a row reads "running" only for the pid the
    statistics report as current. *)
Theorem process_snapshot_consistent tm :
  sched_wf tm →
  length (process_snapshot tm) = total_tasks (stats tm) ∧
  NoDup (ps_id <$> process_snapshot tm) ∧
  (main_task_tracked tm = true → ∀ p, p ∈ process_snapshot tm → ps_state p = "running" →
     ps_id p = current_task_id (stats tm)).
Proof.
  intros Hwf. pose proof (wf_nodup _ Hwf) as Hnd.
  assert (∀ x, x ∈ (id <$> tasks tm) → (1 ≤ x)%Z) as Hpos.
  { intros x (t & -> & (k & Hk)%list_elem_of_lookup)%list_elem_of_fmap. by eapply wf_id_pos. }
  unfold process_snapshot, stats. destruct (main_task_tracked tm) eqn:Htr; csimpl.
  - split_and!.
    + rewrite length_imap. lia.
    + rewrite (snapshot_ids_tracked tm) by done. constructor; [|done].
      intros H%Hpos. lia.
    + intros _ p [->|Hin]%elem_of_cons Hrun; [done|].
      apply list_elem_of_lookup in Hin as (i & Hi). rewrite list_lookup_imap in Hi.
      apply fmap_Some in Hi as (t & Ht & ->). unfold snapshot_of, state_label in *. simpl in *.
      destruct (Nat.eqb_spec i (current_task_idx tm)) as [->|]; [by rewrite Ht|].
      by destruct (state t).
  - split_and!; [by rewrite length_fmap; lia| |done].
    assert (ps_id <$> (snapshot_of false <$> tasks tm) = id <$> tasks tm) as ->.
    { rewrite <- list_fmap_compose. by apply list_fmap_ext. }
    assert (1%Z ∉ (id <$> tasks tm)) as Hn1.
    { intros (t & Hid & Hin)%list_elem_of_fmap.
      destruct (wf_untracked _ Hwf Htr) as [_ Hker]. pose proof (wf_task _ Hwf) as Hok.
      rewrite Forall_forall in Hker, Hok. specialize (Hok _ Hin). unfold task_ok in Hok.
      rewrite (Hker _ Hin) in Hok. lia. }
    constructor; [intros [H|H%Hpos]%elem_of_cons; lia|]. by constructor.
Qed.

Lemma process_snapshot_consistent_witness :
  length (process_snapshot two_tasks) = total_tasks (stats two_tasks) ∧
  NoDup (ps_id <$> process_snapshot two_tasks) ∧
  (main_task_tracked two_tasks = true → ∀ p, p ∈ process_snapshot two_tasks → ps_state p = "running" →
     ps_id p = current_task_id (stats two_tasks)).
Proof. apply process_snapshot_consistent, two_tasks_wf. Defined.

(** ** The sweep *)

(** the sweep of terminated tasks is exact on any task list: it returns,
    drops every terminated task other than the current one, keeps the rest in
    order, and the current index still points at the same task. *)
Theorem cleanup_exact tm pre c post :
  tasks tm = pre ++ c :: post → current_task_idx tm = length pre →
  ∃ tm', cleanup_terminated_non_current tm = Ret tm' ∧
    tasks tm' = filter alive pre ++ c :: filter alive post ∧
    tasks tm' !! current_task_idx tm' = Some c.
Proof.
  intros Ht Hcur. rewrite (cleanup_spec _ _ _ _ Ht Hcur). eexists. split; [done|].
  simpl. split; [done|]. by rewrite lookup_app_r, Nat.sub_diag.
Qed.

Lemma cleanup_exact_witness :
  let dead := mkTask 5 "x" User Terminated 0 0 0 in
  let live := mkTask 2 "k" Kernel Ready 0 0 0 in
  ∃ tm', cleanup_terminated_non_current (mkTM [dead; live; dead] 1 9 0 true) = Ret tm' ∧
    tasks tm' = filter alive [dead] ++ live :: filter alive [dead] ∧
    tasks tm' !! current_task_idx tm' = Some live.
Proof.
  apply (cleanup_exact _ [mkTask 5 "x" User Terminated 0 0 0] _ [mkTask 5 "x" User Terminated 0 0 0]);
    reflexivity.
Defined.
