(* ===== verification/Fs.v ===== *)
(** * The RAM file system: [src/fs.rs]

    The file table is the list of entries in creation order; a Rust [String] is
    the [string] of its UTF-8 bytes, so [len()] is [String.length].  Every
    operation takes the table and returns its result with the new table.  The
    contract the rest of the kernel relies on is a finite map from names to
    contents with a capacity, and the table implements it. *)

From S2P Require Import Prelude.

(** ** Data *)

Definition MAX_FILES : nat := 64.
Definition MAX_FILE_NAME_LEN : nat := 32.
Definition MAX_FILE_SIZE : nat := 2048.

Record FileEntry := mkFile {
  f_name : string;
  f_contents : string;
}.

Record FileInfo := mkFileInfo {
  fi_name : string;
  fi_size : nat;
}.

Record FsStats := mkFsStats {
  file_count : nat;
  total_bytes : Z;
  max_files : nat;
  max_file_size : nat;
}.

(** The lines [FILES.lock()] guards. *)
Abbreviation Files := (list FileEntry).

(** ** Operations *)

(** [matches!(b, b'a'..=b'z' | b'A'..=b'Z' | b'0'..=b'9' | b'_' | b'-' | b'.')]. *)
Definition name_byte (c : ascii) : bool :=
  let b := N_of_ascii c in
  ((97 <=? b) && (b <=? 122) || (65 <=? b) && (b <=? 90) || (48 <=? b) && (b <=? 57)
   || (b =? 95) || (b =? 45) || (b =? 46))%N.

Fixpoint all_bytes (f : ascii → bool) (s : string) : bool :=
  match s with
  | String.EmptyString => true
  | String.String c s => f c && all_bytes f s
  end.

Definition is_valid_name (name : string) : bool :=
  if (String.length name =? 0) || (MAX_FILE_NAME_LEN <? String.length name) then false
  else all_bytes name_byte name.

Definition is_named (name : string) (f : FileEntry) : bool := String.eqb (f_name f) name.

Definition create_file (name : string) (files : Files) : result unit string * Files :=
  if negb (is_valid_name name) then (Err "invalid file name", files) else
  if existsb (is_named name) files then (Err "file already exists", files) else
  if MAX_FILES <=? length files then (Err "file table is full", files) else
  (Ok tt, files ++ [mkFile name ""]).

Definition delete_file (name : string) (files : Files) : result unit string * Files :=
  match position (is_named name) files with
  | None => (Err "file not found", files)
  | Some idx => (Ok tt, delete idx files)
  end.

Definition write_file (name content : string) (files : Files) : result unit string * Files :=
  if MAX_FILE_SIZE <? String.length content then (Err "content too large", files) else
  match position (is_named name) files with
  | None => (Err "file not found", files)
  | Some idx => (Ok tt, alter (λ f, mkFile (f_name f) content) idx files)
  end.

Definition read_file (name : string) (files : Files) : result string string :=
  match position (is_named name) files with
  | None => Err "file not found"
  | Some idx => match files !! idx with
                | Some f => Ok (f_contents f)
                | None => Err "file not found"
                end
  end.

Definition list_files (files : Files) : list FileInfo :=
  (λ f, mkFileInfo (f_name f) (String.length (f_contents f))) <$> files.

Definition stats (files : Files) : FsStats :=
  mkFsStats (length files)
    (foldl (λ total f, saturating_add_u32 total (Z.of_nat (String.length (f_contents f)))) 0%Z files)
    MAX_FILES MAX_FILE_SIZE.

(** ** The invariant *)

Record files_wf (files : Files) : Prop := {
  wf_names : NoDup (f_name <$> files);
  wf_valid : Forall (λ f, is_valid_name (f_name f) = true) files;
  wf_sizes : Forall (λ f, String.length (f_contents f) ≤ MAX_FILE_SIZE) files;
  wf_count : length files ≤ MAX_FILES;
}.

(** ** The contract: a bounded finite map *)

Definition view (files : Files) : gmap string string :=
  list_to_map ((λ f, (f_name f, f_contents f)) <$> files).

Inductive fs_op :=
| Create (name : string)
| Delete (name : string)
| Write (name content : string)
| Read (name : string).

Definition fs_exec (op : fs_op) (files : Files) : result string string * Files :=
  match op with
  | Create n => let '(r, files) := create_file n files in (result_bind r (λ _, Ok ""), files)
  | Delete n => let '(r, files) := delete_file n files in (result_bind r (λ _, Ok ""), files)
  | Write n c => let '(r, files) := write_file n c files in (result_bind r (λ _, Ok ""), files)
  | Read n => (read_file n files, files)
  end.

(** What each operation promises, on the map alone. *)
Definition spec_exec (op : fs_op) (m : gmap string string) : result string string * gmap string string :=
  match op with
  | Create n =>
    if negb (is_valid_name n) then (Err "invalid file name", m) else
    match m !! n with
    | Some _ => (Err "file already exists", m)
    | None => if MAX_FILES <=? size m then (Err "file table is full", m) else (Ok "", <[n := ""]> m)
    end
  | Delete n =>
    match m !! n with
    | None => (Err "file not found", m)
    | Some _ => (Ok "", delete n m)
    end
  | Write n c =>
    if MAX_FILE_SIZE <? String.length c then (Err "content too large", m) else
    match m !! n with
    | None => (Err "file not found", m)
    | Some _ => (Ok "", <[n := c]> m)
    end
  | Read n =>
    match m !! n with
    | None => (Err "file not found", m)
    | Some c => (Ok c, m)
    end
  end.

Fixpoint fs_run (ops : list fs_op) (files : Files) : list (result string string) * Files :=
  match ops with
  | [] => ([], files)
  | op :: ops =>
    let '(r, files) := fs_exec op files in
    let '(rs, files) := fs_run ops files in (r :: rs, files)
  end.

Fixpoint spec_run (ops : list fs_op) (m : gmap string string) :
    list (result string string) * gmap string string :=
  match ops with
  | [] => ([], m)
  | op :: ops =>
    let '(r, m) := spec_exec op m in
    let '(rs, m) := spec_run ops m in (r :: rs, m)
  end.

(** ** Lemmas *)

Lemma is_named_true n f : is_named n f = true ↔ f_name f = n.
Proof. unfold is_named. apply String.eqb_eq. Qed.

Lemma named_position files n i f :
  NoDup (f_name <$> files) → files !! i = Some f → f_name f = n →
  position (is_named n) files = Some i.
Proof.
  intros Hnd Hi Hn. apply position_Some. split; [exists f; by rewrite is_named_true|].
  intros j g Hj Hg. apply not_true_iff_false. rewrite is_named_true. intros Hgn.
  assert (j = i); [|lia].
  eapply (NoDup_lookup _ _ _ n Hnd); rewrite list_lookup_fmap; [rewrite Hg|rewrite Hi]; simpl; by f_equal.
Qed.

Lemma position_named files n i :
  position (is_named n) files = Some i → ∃ f, files !! i = Some f ∧ f_name f = n.
Proof. intros [(f & Hf & Hn%is_named_true) _]%position_Some. by exists f. Qed.

Lemma position_absent files n : position (is_named n) files = None ↔ n ∉ (f_name <$> files).
Proof.
  rewrite position_None. split.
  - intros H (f & -> & Hin)%list_elem_of_fmap. specialize (H f Hin).
    apply not_true_iff_false in H. by rewrite is_named_true in H.
  - intros Hn f Hin. apply not_true_iff_false. rewrite is_named_true. intros <-.
    apply Hn. by apply list_elem_of_fmap_2.
Qed.

Lemma exists_named files n : existsb (is_named n) files = true ↔ n ∈ (f_name <$> files).
Proof.
  rewrite existsb_exists. split.
  - intros (f & Hin%list_elem_of_In & Hn%is_named_true). subst. by apply list_elem_of_fmap_2.
  - intros (f & -> & Hin)%list_elem_of_fmap. exists f. rewrite is_named_true.
    by rewrite <- list_elem_of_In.
Qed.

Lemma view_keys files : ((λ f, (f_name f, f_contents f)) <$> files).*1 = f_name <$> files.
Proof. rewrite <- list_fmap_compose. by apply list_fmap_ext. Qed.

Lemma view_lookup files n c :
  NoDup (f_name <$> files) →
  view files !! n = Some c ↔ ∃ i, files !! i = Some (mkFile n c).
Proof.
  intros Hnd. unfold view. rewrite <- elem_of_list_to_map by (by rewrite view_keys).
  rewrite list_elem_of_fmap. split.
  - intros ([n' c'] & [= -> ->] & (i & Hi)%list_elem_of_lookup). by exists i.
  - intros (i & Hi). exists (mkFile n c). split; [done|]. by eapply list_elem_of_lookup_2.
Qed.

Lemma view_absent files n : view files !! n = None ↔ n ∉ (f_name <$> files).
Proof. unfold view. by rewrite <- view_keys, not_elem_of_list_to_map. Qed.

Lemma view_size files : NoDup (f_name <$> files) → size (view files) = length files.
Proof.
  intros Hnd. unfold view. rewrite <- (length_fmap (λ f, (f_name f, f_contents f)) files).
  rewrite <- map_size_list_to_map; [done|]. by rewrite view_keys.
Qed.

(** ** Each operation implements its contract and keeps the invariant *)

Definition implements (op : fs_op) (files : Files) : Prop :=
  ∃ r files', fs_exec op files = (r, files') ∧ spec_exec op (view files) = (r, view files') ∧
    files_wf files'.

Lemma view_app_fresh files n c :
  NoDup (f_name <$> files) → n ∉ (f_name <$> files) →
  view (files ++ [mkFile n c]) = <[n := c]> (view files).
Proof.
  intros Hnd Hn. unfold view. rewrite fmap_app, list_to_map_app. simpl.
  change (list_to_map _ ∪ <[n:=c]> ∅) with (view files ∪ {[n := c]}).
  rewrite <- insert_union_singleton_r; [done|]. by rewrite view_absent.
Qed.

Lemma create_implements n files : files_wf files → implements (Create n) files.
Proof.
  intros Hwf. unfold implements. cbn [fs_exec spec_exec]. unfold create_file.
  destruct (is_valid_name n) eqn:Hv; cbn [negb]; [|by do 2 eexists].
  destruct (existsb (is_named n) files) eqn:Hex.
  - apply exists_named in Hex. destruct (view files !! n) eqn:Hl; [by do 2 eexists|].
    by apply view_absent in Hl.
  - apply not_true_iff_false in Hex. rewrite exists_named in Hex.
    rewrite (proj2 (view_absent _ _) Hex), view_size by apply Hwf.
    case_bool; [by do 2 eexists|]. do 2 eexists. split; [done|]. split.
    { simpl. by rewrite view_app_fresh by (done || apply Hwf). }
    split.
    + rewrite fmap_app. apply NoDup_app. split_and!; [apply Hwf| |apply NoDup_singleton].
      intros x Hx Hx2. by apply list_elem_of_singleton in Hx2 as ->.
    + apply Forall_app. split; [apply Hwf|by constructor].
    + apply Forall_app. split; [apply Hwf|]. constructor; [simpl; lia|done].
    + rewrite length_app. simpl. lia.
Qed.

Lemma delete_implements n files : files_wf files → implements (Delete n) files.
Proof.
  intros Hwf. unfold implements. cbn [fs_exec spec_exec]. unfold delete_file.
  destruct (position (is_named n) files) as [i|] eqn:Hpos.
  2: { apply position_absent, view_absent in Hpos. rewrite Hpos. by do 2 eexists. }
  destruct (position_named _ _ _ Hpos) as ([n' c] & Hi & Hn). simpl in Hn. subst n'.
  assert (view files !! n = Some c) as -> by (apply view_lookup; [apply Hwf|by exists i]).
  do 2 eexists. split; [done|]. pose proof (wf_names _ Hwf) as Hnd.
  assert (NoDup (f_name <$> delete i files)) as Hnd'.
  { rewrite fmap_delete_list. by apply NoDup_delete_list. }
  split.
  - simpl. f_equal. apply map_eq. intros m. apply option_eq. intros d.
    rewrite lookup_delete. rewrite view_lookup by done. case_decide as Hnm.
    + subst m. split; [done|]. intros (j & Hj). rewrite list_lookup_delete in Hj.
      case_decide; [assert (j = i)|assert (S j = i)]; try lia;
        eapply (NoDup_lookup _ _ _ n Hnd); rewrite list_lookup_fmap, ?Hj, ?Hi; done.
    + rewrite view_lookup by done. split.
      * intros (j & Hj). assert (j ≠ i) by (intros ->; congruence).
        destruct (decide (j < i)); [exists j|exists (j - 1)]; rewrite list_lookup_delete;
          case_decide; try lia; [done|]. by replace (S (j - 1)) with j by lia.
      * intros (j & Hj). rewrite list_lookup_delete in Hj. case_decide; eauto.
  - assert (∀ P, Forall P files → Forall P (delete i files)) as Hall.
    { intros P. rewrite !Forall_forall. intros H f Hin. eauto with enos. }
    split; [done|apply Hall, Hwf|apply Hall, Hwf|].
    pose proof (wf_count _ Hwf). rewrite length_delete by (by eexists). lia.
Qed.

Lemma write_implements n c files : files_wf files → implements (Write n c) files.
Proof.
  intros Hwf. unfold implements. cbn [fs_exec spec_exec]. unfold write_file.
  case_bool; [by do 2 eexists|].
  destruct (position (is_named n) files) as [i|] eqn:Hpos.
  2: { apply position_absent, view_absent in Hpos. rewrite Hpos. by do 2 eexists. }
  destruct (position_named _ _ _ Hpos) as ([n' c0] & Hi & Hn). simpl in Hn. subst n'.
  assert (view files !! n = Some c0) as -> by (apply view_lookup; [apply Hwf|by exists i]).
  set (files' := alter (λ f, mkFile (f_name f) c) i files).
  assert (f_name <$> files' = f_name <$> files) as Hnames.
  { unfold files'. apply list_eq. intros j. rewrite !list_lookup_fmap, list_lookup_alter.
    case_decide as E; [|done]. subst. by destruct (files !! j). }
  pose proof (wf_names _ Hwf) as Hnd.
  assert (NoDup (f_name <$> files')) as Hnd' by (by rewrite Hnames).
  do 2 eexists. split; [done|]. split.
  - simpl. f_equal. apply map_eq. intros m. apply option_eq. intros d. fold files'.
    rewrite lookup_insert, view_lookup by done. unfold files'. case_decide as Hnm.
    + subst m. split.
      * intros [= <-]. exists i. by rewrite list_lookup_alter_eq, Hi.
      * intros (j & Hj). rewrite list_lookup_alter in Hj. case_decide as E.
        { subst. rewrite Hi in Hj. simpl in Hj. congruence. }
        destruct E. eapply (NoDup_lookup _ _ _ n Hnd); rewrite list_lookup_fmap, ?Hi, ?Hj; done.
    + rewrite view_lookup by done. split.
      * intros (j & Hj). exists j. rewrite list_lookup_alter_ne; [done|]. congruence.
      * intros (j & Hj). rewrite list_lookup_alter in Hj. case_decide as E; [|by exists j].
        subst. rewrite Hi in Hj. simpl in Hj. congruence.
  - fold files'. split; [done| | |].
    + apply Forall_alter; [apply Hwf|]. intros f Hf Hv. done.
    + apply Forall_alter; [apply Hwf|]. intros. simpl. lia.
    + unfold files'. rewrite length_alter. apply Hwf.
Qed.

Lemma read_view n files :
  NoDup (f_name <$> files) →
  read_file n files = match view files !! n with Some c => Ok c | None => Err "file not found" end.
Proof.
  intros Hnd. unfold read_file. destruct (position (is_named n) files) as [i|] eqn:Hpos.
  - destruct (position_named _ _ _ Hpos) as ([n' c] & Hi & Hn). simpl in Hn. subst n'. rewrite Hi.
    assert (view files !! n = Some c) as -> by (apply view_lookup; [done|by exists i]). done.
  - by apply position_absent, view_absent in Hpos as ->.
Qed.

Lemma read_implements n files : files_wf files → implements (Read n) files.
Proof.
  intros Hwf. unfold implements. simpl. rewrite read_view by apply Hwf.
  destruct (view files !! n); by do 2 eexists.
Qed.

Lemma op_implements op files : files_wf files → implements op files.
Proof.
  destruct op; auto using create_implements, delete_implements, write_implements, read_implements.
Qed.

#[export] Hint Resolve op_implements : enos.

Lemma empty_wf : files_wf [].
Proof. split; try constructor. simpl. lia. Qed.

(** The sum of the file sizes. *)
Definition bytes_stored (files : Files) : Z :=
  foldr (λ f total, Z.of_nat (String.length (f_contents f)) + total)%Z 0%Z files.

Lemma bytes_stored_bound files :
  Forall (λ f, String.length (f_contents f) ≤ MAX_FILE_SIZE) files →
  (0 ≤ bytes_stored files ≤ 2048 * Z.of_nat (length files))%Z.
Proof.
  induction 1 as [|f files Hf _ IH]; simpl; [lia|]. unfold MAX_FILE_SIZE in Hf. lia.
Qed.

Lemma saturating_sum files acc :
  (0 ≤ acc)%Z → (acc + bytes_stored files ≤ U32_MAX)%Z →
  foldl (λ total f, saturating_add_u32 total (Z.of_nat (String.length (f_contents f)))) acc files
    = (acc + bytes_stored files)%Z.
Proof.
  revert acc. induction files as [|f files IH]; intros acc Hacc Hmax; simpl in *; [lia|].
  assert (0 ≤ bytes_stored files)%Z as Hpos.
  { clear. induction files; simpl; lia. }
  unfold saturating_add_u32 at 2. rewrite Z.min_l by lia. rewrite IH by lia. lia.
Qed.

(** ** Properties *)

(** C9. the file table refines a finite map with a capacity: any sequence of
    create, delete, write and read calls on a well-formed table gives exactly
    the results the map gives, errors included, ends in a table that represents
    the resulting map, and keeps the table's invariant (distinct valid names,
    at most 64 files of at most 2048 bytes). *)
Theorem fs_refines_map ops files :
  files_wf files →
  ∃ rs files', fs_run ops files = (rs, files') ∧
    spec_run ops (view files) = (rs, view files') ∧ files_wf files'.
Proof.
  revert files. induction ops as [|op ops IH]; intros files Hwf; simpl; [by do 2 eexists|].
  destruct (op_implements op files Hwf) as (r & files1 & -> & -> & Hwf1).
  destruct (IH files1 Hwf1) as (rs & files2 & -> & -> & Hwf2). by do 2 eexists.
Qed.

Lemma fs_refines_map_witness :
  ∃ rs files', fs_run [Create "a.txt"; Write "a.txt" "hi"; Read "a.txt"; Delete "b"] [] = (rs, files') ∧
    spec_run [Create "a.txt"; Write "a.txt" "hi"; Read "a.txt"; Delete "b"] (view []) = (rs, view files') ∧
    files_wf files'.
Proof. apply fs_refines_map, empty_wf. Defined.

(** what was written is what is read: after a successful write, reading
    the same name gives the new contents and reading any other name gives what
    it gave before. *)
Theorem write_then_read n c files files' n' :
  files_wf files → write_file n c files = (Ok tt, files') →
  read_file n' files' = if decide (n' = n) then Ok c else read_file n' files.
Proof.
  intros Hwf Hw. destruct (write_implements n c files Hwf) as (r & files1 & Hx & Hs & Hwf1).
  simpl in Hx. rewrite Hw in Hx. simpl in Hx. injection Hx as <- <-.
  rewrite !read_view by (apply Hwf1 || apply Hwf). simpl in Hs.
  case_match; [done|]. destruct (view files !! n) eqn:Hl; [|done]. injection Hs as <-.
  rewrite lookup_insert. repeat case_decide; congruence.
Qed.

Lemma write_then_read_witness :
  read_file "a" [mkFile "b" "x"; mkFile "a" "new"] =
    (if decide ("a" = "a") then Ok "new" else read_file "a" [mkFile "b" "x"; mkFile "a" "old"]) ∧
  read_file "b" [mkFile "b" "x"; mkFile "a" "new"] =
    (if decide ("b" = "a") then Ok "new" else read_file "b" [mkFile "b" "x"; mkFile "a" "old"]).
Proof.
  assert (files_wf [mkFile "b" "x"; mkFile "a" "old"]) as Hwf.
  { split; apply (bool_decide_unpack _); reflexivity. }
  split; apply (write_then_read "a" "new"); (exact Hwf || reflexivity).
Defined.

(** the statistics are exact: on a well-formed table the saturating sum
    never saturates, so [total_bytes] is the number of bytes stored, at most
    64 * 2048. *)
Theorem fs_stats_exact files :
  files_wf files →
  file_count (stats files) = length files ∧
  total_bytes (stats files) = bytes_stored files ∧
  (0 ≤ total_bytes (stats files) ≤ 131072)%Z.
Proof.
  intros Hwf. pose proof (bytes_stored_bound _ (wf_sizes _ Hwf)) as Hb.
  pose proof (wf_count _ Hwf) as Hc. unfold MAX_FILES in Hc.
  assert (total_bytes (stats files) = bytes_stored files) as ->.
  { unfold stats. simpl. rewrite saturating_sum; unfold U32_MAX; lia. }
  split_and!; try done; lia.
Qed.

Lemma fs_stats_exact_witness :
  file_count (stats [mkFile "a" "hello"]) = length [mkFile "a" "hello"] ∧
  total_bytes (stats [mkFile "a" "hello"]) = bytes_stored [mkFile "a" "hello"] ∧
  (0 ≤ total_bytes (stats [mkFile "a" "hello"]) ≤ 131072)%Z.
Proof.
  apply fs_stats_exact. split; apply (bool_decide_unpack _); reflexivity.
Defined.
