(* ===== verification/Calc.v ===== *)
(** * The calculator: [CalcParser] of [src/shell.rs]

    A recursive-descent parser that evaluates while it parses.  The parser's
    state [(bytes, pos)] is the suffix [bytes[pos..]]: the code only reads at
    [pos] and increments it.  The three mutually recursive functions and their
    loops carry a common fuel; [eval_calc_expression] supplies enough for every
    input.  The reference is a grammar with arbitrary white space and an
    evaluator on its syntax trees. *)

From S2P Require Import Prelude.
Local Open Scope Z_scope.

(** ** Checked [i64] arithmetic *)

Definition in_i64 (z : Z) : bool := (I64_MIN <=? z) && (z <=? I64_MAX).
Definition checked_i64 (z : Z) : option Z := if in_i64 z then Some z else None.
Definition checked_add (a b : Z) : option Z := checked_i64 (a + b).
Definition checked_sub (a b : Z) : option Z := checked_i64 (a - b).
Definition checked_mul (a b : Z) : option Z := checked_i64 (a * b).
Definition checked_neg (a : Z) : option Z := checked_i64 (- a).
(** [checked_div] and [checked_rem] fail on a zero divisor and on MIN / -1. *)
Definition checked_div (a b : Z) : option Z :=
  if (b =? 0) || ((a =? I64_MIN) && (b =? -1)) then None else Some (Z.quot a b).
Definition checked_rem (a b : Z) : option Z :=
  if (b =? 0) || ((a =? I64_MIN) && (b =? -1)) then None else Some (Z.rem a b).

(** ** The parser *)

Abbreviation input := (list ascii).
Abbreviation overflow := "integer overflow"%string.

(** A parsing function returns a value and the rest of the input, or an error
    message, or runs out of fuel. *)
Definition parse (A : Type) : Type := outcome (result (A * input) string).

Definition pbind {A B} (m : parse A) (f : A → input → parse B) : parse B :=
  match m with
  | Ret (Ok (a, s)) => f a s
  | Ret (Err e) => Ret (Err e)
  | Panic msg => Panic msg
  | OutOfFuel => OutOfFuel
  end.

(** [m.ok_or(e)?]. *)
Definition require {B} (o : option Z) (e : string) (f : Z → parse B) : parse B :=
  match o with
  | Some v => f v
  | None => Ret (Err e)
  end.

Definition byte_val (c : ascii) : Z := Z.of_N (N_of_ascii c).

(** [u8::is_ascii_whitespace]: space, tab, line feed, form feed, carriage return. *)
Definition is_ascii_whitespace (c : ascii) : bool :=
  let b := byte_val c in (b =? 32) || (b =? 9) || (b =? 10) || (b =? 12) || (b =? 13).

Definition is_ascii_digit (c : ascii) : bool :=
  let b := byte_val c in (48 <=? b) && (b <=? 57).

Fixpoint skip_ws (s : input) : input :=
  match s with
  | c :: s' => if is_ascii_whitespace c then skip_ws s' else s
  | [] => []
  end.

(** [consume]: the flag, and the input after it (white space is skipped even
    when the flag is false). *)
Definition consume (ch : ascii) (s : input) : bool * input :=
  match skip_ws s with
  | c :: s' => if Ascii.eqb c ch then (true, s') else (false, c :: s')
  | [] => (false, [])
  end.

(** The [while] loop of [parse_number]. *)
Fixpoint number_loop (has_digit : bool) (value : Z) (s : input) : parse Z :=
  match s with
  | b :: s' =>
    if is_ascii_digit b then
      require (checked_mul value 10) overflow (λ value,
      require (checked_add value (byte_val b - 48)) overflow (λ value,
      number_loop true value s'))
    else if has_digit then Ret (Ok (value, s)) else Ret (Err "expected number")
  | [] => if has_digit then Ret (Ok (value, s)) else Ret (Err "expected number")
  end.

Definition parse_number (s : input) : parse Z := number_loop false 0 (skip_ws s).

Fixpoint parse_expr (fuel : nat) (s : input) {struct fuel} : parse Z :=
  match fuel with
  | O => OutOfFuel
  | S fuel => pbind (parse_term fuel s) (expr_loop fuel)
  end

with expr_loop (fuel : nat) (value : Z) (s : input) {struct fuel} : parse Z :=
  match fuel with
  | O => OutOfFuel
  | S fuel =>
    let '(plus, s) := consume "+" s in
    if plus then
      pbind (parse_term fuel s) (λ rhs s,
      require (checked_add value rhs) overflow (λ value, expr_loop fuel value s))
    else
    let '(minus, s) := consume "-" s in
    if minus then
      pbind (parse_term fuel s) (λ rhs s,
      require (checked_sub value rhs) overflow (λ value, expr_loop fuel value s))
    else Ret (Ok (value, s))
  end

with parse_term (fuel : nat) (s : input) {struct fuel} : parse Z :=
  match fuel with
  | O => OutOfFuel
  | S fuel => pbind (parse_factor fuel s) (term_loop fuel)
  end

with term_loop (fuel : nat) (value : Z) (s : input) {struct fuel} : parse Z :=
  match fuel with
  | O => OutOfFuel
  | S fuel =>
    let '(times, s) := consume "*" s in
    if times then
      pbind (parse_factor fuel s) (λ rhs s,
      require (checked_mul value rhs) overflow (λ value, term_loop fuel value s))
    else
    let '(slash, s) := consume "/" s in
    if slash then
      pbind (parse_factor fuel s) (λ rhs s,
      if rhs =? 0 then Ret (Err "division by zero") else
      require (checked_div value rhs) overflow (λ value, term_loop fuel value s))
    else
    let '(percent, s) := consume "%" s in
    if percent then
      pbind (parse_factor fuel s) (λ rhs s,
      if rhs =? 0 then Ret (Err "division by zero") else
      require (checked_rem value rhs) overflow (λ value, term_loop fuel value s))
    else Ret (Ok (value, s))
  end

with parse_factor (fuel : nat) (s : input) {struct fuel} : parse Z :=
  match fuel with
  | O => OutOfFuel
  | S fuel =>
    let '(plus, s) := consume "+" s in
    if plus then parse_factor fuel s else
    let '(minus, s) := consume "-" s in
    if minus then
      pbind (parse_factor fuel s) (λ v s, require (checked_neg v) overflow (λ v, Ret (Ok (v, s))))
    else
    let '(open, s) := consume "(" s in
    if open then
      pbind (parse_expr fuel s) (λ v s,
      let '(close, s) := consume ")" s in
      if close then Ret (Ok (v, s)) else Ret (Err "missing closing ')'"))
    else parse_number s
  end.

(** Four units of fuel per byte and three for the call chain are enough. *)
Definition calc_fuel (s : input) : nat := 4 * length s + 3.

Definition eval_calc_expression (expr : string) : outcome (result Z string) :=
  let s := String.list_ascii_of_string expr in
  match parse_expr (calc_fuel s) s with
  | Ret (Ok (value, s)) =>
    match skip_ws s with
    | [] => Ret (Ok value)
    | _ => Ret (Err "unexpected trailing input")
    end
  | Ret (Err e) => Ret (Err e)
  | Panic msg => Panic msg
  | OutOfFuel => OutOfFuel
  end.

(** ** The reference grammar and its evaluation *)

Inductive expr :=
| ETerm (t : term)
| EAdd (e : expr) (t : term)
| ESub (e : expr) (t : term)
with term :=
| TFactor (f : factor)
| TMul (t : term) (f : factor)
| TDiv (t : term) (f : factor)
| TRem (t : term) (f : factor)
with factor :=
| FPlus (f : factor)
| FMinus (f : factor)
| FParen (e : expr)
| FNum (digits : list ascii).

Definition blank (s : input) : Prop := Forall (λ c, is_ascii_whitespace c = true) s.

(** [s] is a way of writing the tree: white space may precede every token. *)
Inductive writes_expr : expr → input → Prop :=
| W_term t s : writes_term t s → writes_expr (ETerm t) s
| W_add e t s1 ws s2 : writes_expr e s1 → blank ws → writes_term t s2 →
    writes_expr (EAdd e t) (s1 ++ ws ++ "+"%char :: s2)
| W_sub e t s1 ws s2 : writes_expr e s1 → blank ws → writes_term t s2 →
    writes_expr (ESub e t) (s1 ++ ws ++ "-"%char :: s2)
with writes_term : term → input → Prop :=
| W_factor f s : writes_factor f s → writes_term (TFactor f) s
| W_mul t f s1 ws s2 : writes_term t s1 → blank ws → writes_factor f s2 →
    writes_term (TMul t f) (s1 ++ ws ++ "*"%char :: s2)
| W_div t f s1 ws s2 : writes_term t s1 → blank ws → writes_factor f s2 →
    writes_term (TDiv t f) (s1 ++ ws ++ "/"%char :: s2)
| W_rem t f s1 ws s2 : writes_term t s1 → blank ws → writes_factor f s2 →
    writes_term (TRem t f) (s1 ++ ws ++ "%"%char :: s2)
with writes_factor : factor → input → Prop :=
| W_plus f ws s : blank ws → writes_factor f s → writes_factor (FPlus f) (ws ++ "+"%char :: s)
| W_minus f ws s : blank ws → writes_factor f s → writes_factor (FMinus f) (ws ++ "-"%char :: s)
| W_paren e ws s ws' : blank ws → writes_expr e s → blank ws' →
    writes_factor (FParen e) (ws ++ "("%char :: s ++ ws' ++ [")"%char])
| W_num ds ws : blank ws → ds ≠ [] → Forall (λ c, is_ascii_digit c = true) ds →
    writes_factor (FNum ds) (ws ++ ds).

Scheme writes_expr_mut := Induction for writes_expr Sort Prop
with writes_term_mut := Induction for writes_term Sort Prop
with writes_factor_mut := Induction for writes_factor Sort Prop.
Combined Scheme writes_ind from writes_expr_mut, writes_term_mut, writes_factor_mut.

(** The value of a decimal numeral. *)
Definition numeral (acc : Z) (ds : list ascii) : Z :=
  foldl (λ v c, v * 10 + (byte_val c - 48)) acc ds.

Definition fits (z : Z) : result Z string := ok_or (checked_i64 z) overflow.

Local Open Scope rust_scope.

Fixpoint eval_expr (e : expr) : result Z string :=
  match e with
  | ETerm t => eval_term t
  | EAdd e t => try! a := eval_expr e in try! b := eval_term t in fits (a + b)
  | ESub e t => try! a := eval_expr e in try! b := eval_term t in fits (a - b)
  end
with eval_term (t : term) : result Z string :=
  match t with
  | TFactor f => eval_factor f
  | TMul t f => try! a := eval_term t in try! b := eval_factor f in fits (a * b)
  | TDiv t f => try! a := eval_term t in try! b := eval_factor f in
      if b =? 0 then Err "division by zero"%string else ok_or (checked_div a b) overflow
  | TRem t f => try! a := eval_term t in try! b := eval_factor f in
      if b =? 0 then Err "division by zero"%string else ok_or (checked_rem a b) overflow
  end
with eval_factor (f : factor) : result Z string :=
  match f with
  | FPlus f => eval_factor f
  | FMinus f => try! a := eval_factor f in fits (- a)
  | FParen e => eval_expr e
  | FNum ds => fits (numeral 0 ds)
  end.

Local Close Scope rust_scope.
