(* ===== verification/CalcProps.v ===== *)
(** * Correctness of the calculator

    Termination on every input, and the exact relation between
    [eval_calc_expression] and the reference grammar and evaluator. *)

From S2P Require Import Prelude Calc.
Local Open Scope Z_scope.

(** ** White space and [consume] *)

Lemma skip_ws_length s : (length (skip_ws s) ≤ length s)%nat.
Proof. induction s as [|c s IH]; simpl; [lia|]. destruct (is_ascii_whitespace c); simpl; lia. Qed.

Lemma skip_ws_split s : ∃ ws, blank ws ∧ s = ws ++ skip_ws s.
Proof.
  induction s as [|c s (ws & Hws & IH)]; simpl; [by exists []; split; [constructor|]|].
  destruct (is_ascii_whitespace c) eqn:Hc; [|by exists []; split; [constructor|]].
  exists (c :: ws). split; [by constructor|]. simpl. by rewrite <- IH.
Qed.

Lemma skip_ws_head s c s' : skip_ws s = c :: s' → is_ascii_whitespace c = false.
Proof.
  induction s as [|d s IH]; simpl; [done|]. destruct (is_ascii_whitespace d) eqn:Hd; [done|].
  intros [= <- _]. done.
Qed.

Lemma skip_ws_blank ws s : blank ws → skip_ws (ws ++ s) = skip_ws s.
Proof. induction 1 as [|c ws Hc _ IH]; simpl; [done|]. by rewrite Hc. Qed.

Lemma skip_ws_idem s : skip_ws (skip_ws s) = skip_ws s.
Proof.
  destruct (skip_ws s) as [|c s'] eqn:Hs; [done|]. simpl. by rewrite (skip_ws_head _ _ _ Hs).
Qed.

Lemma consume_length ch s :
  (length (consume ch s).2 ≤ length s)%nat ∧
  ((consume ch s).1 = true → (length (consume ch s).2 < length s)%nat).
Proof.
  unfold consume. pose proof (skip_ws_length s) as H.
  destruct (skip_ws s) as [|c s']; simpl in *; [split; [lia|done]|].
  destruct (Ascii.eqb c ch); simpl; split; try lia; done.
Qed.

Lemma consume_skip ch s : consume ch (skip_ws s) = consume ch s.
Proof. unfold consume. by rewrite skip_ws_idem. Qed.

Lemma consume_false ch s : (consume ch s).1 = false → (consume ch s).2 = skip_ws s.
Proof. unfold consume. destruct (skip_ws s); [done|]. by case_match. Qed.

Lemma consume_true ch s s' : consume ch s = (true, s') → ∃ ws, blank ws ∧ s = ws ++ ch :: s'.
Proof.
  unfold consume. destruct (skip_ws_split s) as (ws & Hws & Hs).
  destruct (skip_ws s) as [|c s1]; [done|]. destruct (Ascii.eqb_spec c ch); [|done].
  intros [= ->]. subst. by exists ws.
Qed.

(** [consume] on white space followed by a token. *)
Lemma consume_token ch ws c s :
  blank ws → is_ascii_whitespace c = false →
  consume ch (ws ++ c :: s) = if Ascii.eqb c ch then (true, s) else (false, c :: s).
Proof. intros Hws Hc. unfold consume. rewrite skip_ws_blank by done. simpl. by rewrite Hc. Qed.

Lemma consume_token0 ch c s :
  is_ascii_whitespace c = false →
  consume ch (c :: s) = if Ascii.eqb c ch then (true, s) else (false, c :: s).
Proof. intros Hc. apply (consume_token ch [] c s); [constructor|done]. Qed.

(** ** Fuel: more fuel gives the same result, and [calc_fuel] is enough *)

Definition below {A} (m m' : outcome A) : Prop := ∀ r, m = Ret r → m' = Ret r.

Lemma below_refl {A} (m : outcome A) : below m m.
Proof. by intros r. Qed.

Lemma below_pbind {A B} (m m' : parse A) (f f' : A → input → parse B) :
  below m m' → (∀ a s, below (f a s) (f' a s)) → below (pbind m f) (pbind m' f').
Proof.
  intros Hm Hf r. unfold pbind. destruct m as [[[a s]|e]|msg|]; try done;
    rewrite (Hm _ eq_refl); [apply Hf|done].
Qed.

Lemma below_require {B} o e (f f' : Z → parse B) :
  (∀ v, below (f v) (f' v)) → below (require o e f) (require o e f').
Proof. intros Hf. destruct o; [apply Hf|by intros r]. Qed.

Ltac solve_below :=
  repeat first
    [ apply below_refl
    | solve [auto]
    | apply below_pbind; intros
    | apply below_require; intros
    | match goal with
      | |- below (match ?x with _ => _ end) _ => destruct x
      end ].

Lemma fuel_monotone n : ∀ m, (n ≤ m)%nat →
  (∀ s, below (parse_expr n s) (parse_expr m s)) ∧
  (∀ v s, below (expr_loop n v s) (expr_loop m v s)) ∧
  (∀ s, below (parse_term n s) (parse_term m s)) ∧
  (∀ v s, below (term_loop n v s) (term_loop m v s)) ∧
  (∀ s, below (parse_factor n s) (parse_factor m s)).
Proof.
  induction n as [|n IH]; intros m Hm; [by split_and!|].
  destruct m as [|m]; [lia|]. destruct (IH m ltac:(lia)) as (He & Hel & Ht & Htl & Hf).
  split_and!; intros; simpl; solve_below.
Qed.

(** The rest of the input is never longer than the input. *)
Definition shrinks (m : parse Z) (s : input) : Prop :=
  ∃ r, m = Ret r ∧ match r with Ok (_, s') => (length s' ≤ length s)%nat | Err _ => True end.

Lemma shrinks_pbind m f s :
  shrinks m s → (∀ v s', (length s' ≤ length s)%nat → shrinks (f v s') s) → shrinks (pbind m f) s.
Proof.
  intros ([[v s']|e] & -> & H) Hf; simpl; [by apply Hf|]. by eexists.
Qed.

Lemma shrinks_require o e f s : (∀ v, shrinks (f v) s) → shrinks (require o e f) s.
Proof. intros Hf. destruct o; simpl; [apply Hf|by eexists]. Qed.

Lemma shrinks_weaken m s s' : shrinks m s → (length s ≤ length s')%nat → shrinks m s'.
Proof. intros (r & -> & H) Hle. exists r. split; [done|]. destruct r as [[v t]|]; [lia|done]. Qed.

Lemma shrinks_err e s : shrinks (Ret (Err e)) s.
Proof. by eexists. Qed.

Lemma shrinks_ok v s' s : (length s' ≤ length s)%nat → shrinks (Ret (Ok (v, s'))) s.
Proof. intros. by eexists. Qed.

Lemma number_loop_shrinks b v s : shrinks (number_loop b v s) s.
Proof.
  revert b v. induction s as [|c s IH]; intros b v; simpl.
  - destruct b; [by apply shrinks_ok|apply shrinks_err].
  - destruct (is_ascii_digit c).
    + do 2 (apply shrinks_require; intros ?). eapply shrinks_weaken; [apply IH|]. simpl. lia.
    + destruct b; [by apply shrinks_ok|apply shrinks_err].
Qed.

(** Take the [consume] tests of the goal apart, keeping the length facts. *)
Ltac split_consume :=
  repeat match goal with
  | |- context [consume ?ch ?s] =>
    let H1 := fresh in let H2 := fresh in
    destruct (consume_length ch s) as [H1 H2];
    destruct (consume ch s) as [[|] ?]; simpl in H1, H2;
    [specialize (H2 eq_refl)|clear H2]
  end.

Lemma fuel_enough n :
  (∀ s, (4 * length s + 3 ≤ n)%nat → shrinks (parse_expr n s) s) ∧
  (∀ v s, (4 * length s + 1 ≤ n)%nat → shrinks (expr_loop n v s) s) ∧
  (∀ s, (4 * length s + 2 ≤ n)%nat → shrinks (parse_term n s) s) ∧
  (∀ v s, (4 * length s + 1 ≤ n)%nat → shrinks (term_loop n v s) s) ∧
  (∀ s, (4 * length s + 1 ≤ n)%nat → shrinks (parse_factor n s) s).
Proof.
  induction n as [|n (He & Hel & Ht & Htl & Hf)]; [split_and!; intros; lia|].
  split_and!.
  - intros s Hn. simpl. apply shrinks_pbind; [apply Ht; lia|]. intros v s' Hs'.
    eapply shrinks_weaken; [apply Hel; lia|lia].
  - intros v s Hn. simpl. split_consume; try (apply shrinks_ok; lia);
      (eapply shrinks_weaken; [apply shrinks_pbind|]; [apply Ht; lia| |lia]);
      intros rhs s' Hs'; apply shrinks_require; intros w;
      (eapply shrinks_weaken; [apply Hel; lia|lia]).
  - intros s Hn. simpl. apply shrinks_pbind; [apply Hf; lia|]. intros v s' Hs'.
    eapply shrinks_weaken; [apply Htl; lia|lia].
  - intros v s Hn. simpl. split_consume; try (apply shrinks_ok; lia);
      (eapply shrinks_weaken; [apply shrinks_pbind|]; [apply Hf; lia| |lia]);
      intros rhs s' Hs'; try (case_match; [apply shrinks_err|]); apply shrinks_require; intros w;
      (eapply shrinks_weaken; [apply Htl; lia|lia]).
  - intros s Hn. simpl. split_consume.
    + eapply shrinks_weaken; [apply Hf; lia|lia].
    + eapply shrinks_weaken; [apply shrinks_pbind|]; [apply Hf; lia| |lia].
      intros v s' Hs'. apply shrinks_require. intros w. by apply shrinks_ok.
    + eapply shrinks_weaken; [apply shrinks_pbind|]; [apply He; lia| |lia].
      intros v s' Hs'. split_consume; [apply shrinks_ok; lia|apply shrinks_err].
    + eapply shrinks_weaken; [apply number_loop_shrinks|].
      match goal with |- context [skip_ws ?l] => pose proof (skip_ws_length l) end. lia.
Qed.

(** ** Characters *)

Lemma digit_not_blank c : is_ascii_digit c = true → is_ascii_whitespace c = false.
Proof. unfold is_ascii_digit, is_ascii_whitespace. intros. repeat case_bool; simpl in *; lia || done. Qed.

Lemma digit_not_char c d : is_ascii_digit c = true → is_ascii_digit d = false → Ascii.eqb c d = false.
Proof. intros Hc Hd. destruct (Ascii.eqb_spec c d); [congruence|done]. Qed.

(** The next character, if any, is not a digit. *)
Definition no_digit (s : input) : Prop :=
  match s with c :: _ => is_ascii_digit c = false | [] => True end.

(** After white space, no multiplicative (resp. additive) operator follows. *)
Definition ends_term (s : input) : Prop :=
  match skip_ws s with
  | c :: _ => Ascii.eqb c "*" = false ∧ Ascii.eqb c "/" = false ∧ Ascii.eqb c "%" = false
  | [] => True
  end.
Definition ends_expr (s : input) : Prop :=
  match skip_ws s with
  | c :: _ => Ascii.eqb c "+" = false ∧ Ascii.eqb c "-" = false
  | [] => True
  end.

Lemma no_digit_token ws c s :
  blank ws → is_ascii_digit c = false → no_digit (ws ++ c :: s).
Proof.
  intros [|d ws' Hd _] Hc; [done|]. simpl.
  destruct (is_ascii_digit d) eqn:E; [|done]. by rewrite (digit_not_blank _ E) in Hd.
Qed.

(** ** Numbers *)

Lemma numeral_bound acc ds :
  0 ≤ acc → Forall (λ c, is_ascii_digit c = true) ds → acc ≤ numeral acc ds.
Proof.
  intros Hacc Hds. revert acc Hacc. induction Hds as [|c ds Hc _ IH]; intros acc Hacc; simpl; [lia|].
  assert (0 ≤ byte_val c - 48) as H.
  { unfold is_ascii_digit in Hc. repeat case_bool_in Hc; simpl in Hc; try done; lia. }
  specialize (IH (acc * 10 + (byte_val c - 48)) ltac:(lia)). unfold numeral in *. lia.
Qed.

Lemma checked_i64_pos z : 0 ≤ z → checked_i64 z = if z <=? I64_MAX then Some z else None.
Proof.
  intros Hz. unfold checked_i64, in_i64. rewrite (proj2 (Z.leb_le I64_MIN z)); [done|].
  unfold I64_MIN. lia.
Qed.

(** The digit-by-digit overflow checks agree with checking the final value. *)
Lemma number_loop_digits ds : ∀ b acc rest,
  0 ≤ acc ≤ I64_MAX → (b = true ∨ ds ≠ []) →
  Forall (λ c, is_ascii_digit c = true) ds → no_digit rest →
  number_loop b acc (ds ++ rest) =
    Ret (match fits (numeral acc ds) with Ok v => Ok (v, rest) | Err e => Err e end).
Proof.
  induction ds as [|c ds IH]; intros b acc rest Hacc Hb Hds Hrest.
  - destruct Hb as [->|]; [|done]. unfold fits. cbn [numeral foldl].
    rewrite checked_i64_pos, (proj2 (Z.leb_le _ _)) by lia.
    destruct rest as [|d rest]; simpl; [done|]. simpl in Hrest. by rewrite Hrest.
  - inversion Hds as [|? ? Hc Hds']; subst. cbn [number_loop app]. rewrite Hc.
    assert (0 ≤ byte_val c - 48) as Hd.
    { unfold is_ascii_digit in Hc. repeat case_bool_in Hc; simpl in Hc; try done; lia. }
    set (acc' := acc * 10 + (byte_val c - 48)).
    assert (numeral acc (c :: ds) = numeral acc' ds) as -> by done.
    pose proof (numeral_bound acc' ds ltac:(unfold acc'; lia) Hds') as Hge.
    unfold require, checked_mul, checked_add.
    rewrite checked_i64_pos by lia. case_bool.
    + rewrite checked_i64_pos by lia. fold acc'. case_bool; [apply IH; auto; unfold acc' in *; lia|].
      unfold fits. rewrite checked_i64_pos, (proj2 (Z.leb_gt _ _)) by (unfold acc' in *; lia). done.
    + unfold fits. rewrite checked_i64_pos, (proj2 (Z.leb_gt _ _)) by (unfold acc' in *; lia). done.
Qed.

(** ** Completeness: a written expression evaluates as its tree *)

Definition run_expr (s : input) r : Prop := ∃ n, parse_expr n s = Ret r.
Definition run_expr_loop v (s : input) r : Prop := ∃ n, expr_loop n v s = Ret r.
Definition run_term (s : input) r : Prop := ∃ n, parse_term n s = Ret r.
Definition run_term_loop v (s : input) r : Prop := ∃ n, term_loop n v s = Ret r.
Definition run_factor (s : input) r : Prop := ∃ n, parse_factor n s = Ret r.

(** Continue after evaluating a subtree: pass the value on, or stop at the error. *)
Definition continue (o : result Z string) (k : Z → result (Z * input) string → Prop) r : Prop :=
  match o with Ok v => k v r | Err e => r = Err e end.

Lemma expr_loop_skip n v s : expr_loop n v (skip_ws s) = expr_loop n v s.
Proof. destruct n; [done|]. simpl. by rewrite consume_skip. Qed.

Lemma term_loop_ends v s : ends_term s → run_term_loop v s (Ok (v, skip_ws s)).
Proof.
  intros H. exists 1%nat. cbn [term_loop]. unfold ends_term in H.
  destruct (skip_ws_split s) as (ws & Hws & Hs). destruct (skip_ws s) as [|c s'] eqn:Hsk.
  - unfold consume. by rewrite Hsk.
  - pose proof (skip_ws_head _ _ _ Hsk) as Hc. destruct H as (H1 & H2 & H3). rewrite Hs.
    rewrite consume_token, H1 by done. rewrite !consume_token0, H2 by done.
    by rewrite consume_token0, H3 by done.
Qed.

Lemma expr_loop_ends v s : ends_expr s → run_expr_loop v s (Ok (v, skip_ws s)).
Proof.
  intros H. exists 1%nat. cbn [expr_loop]. unfold ends_expr in H.
  destruct (skip_ws_split s) as (ws & Hws & Hs). destruct (skip_ws s) as [|c s'] eqn:Hsk.
  - unfold consume. by rewrite Hsk.
  - pose proof (skip_ws_head _ _ _ Hsk) as Hc. destruct H as (H1 & H2). rewrite Hs.
    rewrite consume_token, H1 by done. by rewrite consume_token0, H2 by done.
Qed.

Definition mono {A} (p : nat → outcome A) : Prop := ∀ n m, (n ≤ m)%nat → below (p n) (p m).

Lemma mono_parsers :
  (∀ s, mono (λ n, parse_expr n s)) ∧ (∀ v s, mono (λ n, expr_loop n v s)) ∧
  (∀ s, mono (λ n, parse_term n s)) ∧ (∀ v s, mono (λ n, term_loop n v s)) ∧
  (∀ s, mono (λ n, parse_factor n s)).
Proof. split_and!; intros; intros n m Hle; by apply fuel_monotone. Qed.

Lemma mono_require o e (k : nat → Z → parse Z) :
  (∀ v, mono (λ n, k n v)) → mono (λ n, require o e (k n)).
Proof. intros Hk n m Hle. apply below_require. intros v. by apply Hk. Qed.

Lemma mono_if (b : bool) (k k' : nat → parse Z) : mono k → mono k' → mono (λ n, if b then k n else k' n).
Proof. by destruct b. Qed.

Lemma mono_const (m : parse Z) : mono (λ _, m).
Proof. intros ? ? _. apply below_refl. Qed.

Create HintDb calc.
#[local] Hint Resolve mono_require mono_if mono_const : calc.
#[local] Hint Extern 1 (mono _) => apply mono_parsers : calc.

(** Sequencing two runs, each with its own fuel. *)
Lemma run_bind (p : nat → parse Z) (k : nat → Z → input → parse Z) r1 r :
  mono p → (∀ v s, mono (λ n, k n v s)) → (∃ n, p n = Ret r1) →
  match r1 with Ok (v, s) => ∃ n, k n v s = Ret r | Err e => r = Err e end →
  ∃ n, pbind (p n) (k n) = Ret r.
Proof.
  intros Hp Hk (n & Hn) Hr. destruct r1 as [[v s]|e].
  - destruct Hr as (m & Hm). exists (Nat.max n m).
    rewrite (Hp n (Nat.max n m) ltac:(lia) _ Hn). simpl. by apply (Hk v s m); [lia|].
  - exists n. rewrite Hn. by subst.
Qed.

Lemma run_require o e (k : nat → Z → parse Z) r :
  match o with Some v => ∃ n, k n v = Ret r | None => r = Err e end →
  ∃ n, require o e (k n) = Ret r.
Proof. destruct o; simpl; [done|]. intros ->. by exists 0%nat. Qed.

Lemma run_S (p q : nat → parse Z) r : (∀ n, p (S n) = q n) → (∃ n, q n = Ret r) → ∃ n, p n = Ret r.
Proof. intros H (n & Hn). exists (S n). by rewrite H. Qed.

Lemma ends_token (P : ascii → Prop) ws c s :
  blank ws → is_ascii_whitespace c = false → P c →
  match skip_ws (ws ++ c :: s) with d :: _ => P d | [] => True end.
Proof. intros Hws Hc HP. rewrite skip_ws_blank by done. simpl. by rewrite Hc. Qed.

(** The operand and the rest of a loop iteration. *)
Lemma expr_loop_op v ws ch s r (op : Z → Z → option Z) :
  blank ws → (ch = "+"%char ∧ op = checked_add ∨ ch = "-"%char ∧ op = checked_sub) →
  (∃ n, pbind (parse_term n s) (λ rhs s, require (op v rhs) overflow (λ v, expr_loop n v s)) = Ret r) →
  run_expr_loop v (ws ++ ch :: s) r.
Proof.
  intros Hws Hch (n & Hn). exists (S n). cbn [expr_loop].
  destruct Hch as [[-> ->]|[-> ->]]; by rewrite consume_token by done.
Qed.

Definition term_apply (ch : ascii) (v rhs : Z) : result Z string :=
  if Ascii.eqb ch "*" then fits (v * rhs)
  else if rhs =? 0 then Err "division by zero"%string
  else if Ascii.eqb ch "/" then ok_or (checked_div v rhs) overflow
  else ok_or (checked_rem v rhs) overflow.

Lemma term_loop_op v ws ch s r r1 :
  blank ws → (ch = "*"%char ∨ ch = "/"%char ∨ ch = "%"%char) →
  run_factor s r1 →
  match r1 with
  | Ok (rhs, s') => continue (term_apply ch v rhs) (λ w, run_term_loop w s') r
  | Err e => r = Err e
  end →
  run_term_loop v (ws ++ ch :: s) r.
Proof.
  intros Hws Hch Hf Hr. unfold run_term_loop.
  assert (∃ n, pbind (parse_factor n s) (λ rhs s',
    match ch with
    | "*"%char => require (checked_mul v rhs) overflow (λ w, term_loop n w s')
    | "/"%char => if rhs =? 0 then Ret (Err "division by zero"%string)
                  else require (checked_div v rhs) overflow (λ w, term_loop n w s')
    | _ => if rhs =? 0 then Ret (Err "division by zero"%string)
           else require (checked_rem v rhs) overflow (λ w, term_loop n w s')
    end) = Ret r) as (n & Hn).
  { eapply (run_bind (λ n, parse_factor n s)); [auto with calc| |exact Hf|].
    { intros. destruct_or! Hch; subst ch; auto 6 with calc. }
    destruct r1 as [[rhs s']|e]; [|done].
    destruct_or! Hch; subst ch; unfold term_apply in Hr; simpl in Hr.
    - apply (run_require _ _ (λ n w, term_loop n w s')). unfold checked_mul, fits in *.
      by destruct (checked_i64 _).
    - destruct (rhs =? 0); [exists 0%nat; by rewrite Hr|].
      apply (run_require _ _ (λ n w, term_loop n w s')). by destruct (checked_div _ _).
    - destruct (rhs =? 0); [exists 0%nat; by rewrite Hr|].
      apply (run_require _ _ (λ n w, term_loop n w s')). by destruct (checked_rem _ _). }
  exists (S n). cbn [term_loop]. destruct_or! Hch; subst ch; by rewrite consume_token by done.
Qed.

Definition expr_complete (e : expr) (s : input) : Prop :=
  ∀ rest r, no_digit rest → ends_term rest →
    continue (eval_expr e) (λ v, run_expr_loop v rest) r → run_expr (s ++ rest) r.
Definition term_complete (t : term) (s : input) : Prop :=
  ∀ rest r, no_digit rest →
    continue (eval_term t) (λ v, run_term_loop v rest) r → run_term (s ++ rest) r.
Definition factor_complete (f : factor) (s : input) : Prop :=
  ∀ rest, no_digit rest →
    run_factor (s ++ rest) (match eval_factor f with Ok v => Ok (v, rest) | Err e => Err e end).

(** A whole term, up to the white space that follows it. *)
Lemma term_complete_skip t s rest :
  term_complete t s → no_digit rest → ends_term rest →
  run_term (s ++ rest)
    (match eval_term t with Ok v => Ok (v, skip_ws rest) | Err e => Err e end).
Proof.
  intros Ht Hnd He. apply Ht; [done|]. destruct (eval_term t); simpl; [|done]. by apply term_loop_ends.
Qed.

Lemma complete_term_expr t s : term_complete t s → expr_complete (ETerm t) s.
Proof.
  intros Ht rest r Hnd He Hr.
  apply (run_S (λ n, parse_expr n (s ++ rest))
    (λ n, pbind (parse_term n (s ++ rest)) (expr_loop n))); [done|].
  eapply (run_bind (λ n, parse_term n (s ++ rest))); [auto with calc..|by apply term_complete_skip|].
  simpl in Hr. destruct (eval_term t); simpl in *; [|done].
  destruct Hr as (n & Hn). exists n. by rewrite expr_loop_skip.
Qed.

Lemma complete_expr_op (mk : expr → term → expr) e t s1 ws s2 ch op :
  (ch = "+"%char ∧ op = checked_add ∧ mk = EAdd ∨ ch = "-"%char ∧ op = checked_sub ∧ mk = ESub) →
  expr_complete e s1 → blank ws → term_complete t s2 →
  expr_complete (mk e t) (s1 ++ ws ++ ch :: s2).
Proof.
  intros Hch He Hws Ht rest r Hnd Hend Hr. rewrite <- !app_assoc, <- app_comm_cons.
  apply He.
  { apply no_digit_token; [done|]. by destruct Hch as [(-> & _)|(-> & _)]. }
  { apply ends_token; [done| |]; by destruct Hch as [(-> & _)|(-> & _)]. }
  assert (eval_expr (mk e t) = result_bind (eval_expr e) (λ a, result_bind (eval_term t) (λ b,
    ok_or (op a b) overflow))) as Heval.
  { by destruct Hch as [(-> & -> & ->)|(-> & -> & ->)]. }
  rewrite Heval in Hr. destruct (eval_expr e) as [a|m]; simpl in *; [|done].
  apply (expr_loop_op a ws ch (s2 ++ rest) r op); [done|naive_solver|].
  eapply (run_bind (λ n, parse_term n (s2 ++ rest))
    (λ n rhs s, require (op a rhs) overflow (λ v, expr_loop n v s)));
    [auto with calc..|by apply term_complete_skip|].
  destruct (eval_term t) as [b|m]; simpl in *; [|done].
  apply (run_require _ _ (λ n v, expr_loop n v (skip_ws rest))).
  destruct (op a b) as [v|]; simpl in *; [|done].
  destruct Hr as (n & Hn). exists n. by rewrite expr_loop_skip.
Qed.

Lemma complete_factor_term f s : factor_complete f s → term_complete (TFactor f) s.
Proof.
  intros Hf rest r Hnd Hr.
  apply (run_S (λ n, parse_term n (s ++ rest))
    (λ n, pbind (parse_factor n (s ++ rest)) (term_loop n))); [done|].
  eapply (run_bind (λ n, parse_factor n (s ++ rest))); [auto with calc..|by apply Hf|].
  simpl in Hr. by destruct (eval_factor f).
Qed.

Lemma complete_term_op (mk : term → factor → term) t f s1 ws s2 ch :
  (ch = "*"%char ∧ mk = TMul ∨ ch = "/"%char ∧ mk = TDiv ∨ ch = "%"%char ∧ mk = TRem) →
  term_complete t s1 → blank ws → factor_complete f s2 →
  term_complete (mk t f) (s1 ++ ws ++ ch :: s2).
Proof.
  intros Hch Ht Hws Hf rest r Hnd Hr. rewrite <- !app_assoc, <- app_comm_cons.
  apply Ht.
  { apply no_digit_token; [done|]. by destruct_or! Hch; destruct Hch as [-> _]. }
  assert (eval_term (mk t f) = result_bind (eval_term t) (λ a, result_bind (eval_factor f) (λ b,
    term_apply ch a b))) as Heval.
  { by destruct_or! Hch; destruct Hch as [-> ->]. }
  rewrite Heval in Hr. destruct (eval_term t) as [a|m]; simpl in *; [|done].
  eapply term_loop_op; [done|naive_solver|by apply Hf|].
  by destruct (eval_factor f).
Qed.

Lemma complete_paren e ws s ws' :
  blank ws → expr_complete e s → blank ws' →
  factor_complete (FParen e) (ws ++ "("%char :: s ++ ws' ++ [")"%char]).
Proof.
  intros Hws He Hws' rest Hnd. rewrite <- app_assoc, <- app_comm_cons, <- !app_assoc. simpl app.
  set (s' := ws' ++ ")"%char :: rest).
  assert (run_expr (s ++ s') (match eval_expr e with Ok v => Ok (v, ")"%char :: rest) | Err m => Err m end))
    as (n & Hn).
  { apply He; [by apply no_digit_token|by apply ends_token|].
    destruct (eval_expr e); simpl; [|done].
    replace (")"%char :: rest) with (skip_ws s') by (unfold s'; by rewrite skip_ws_blank).
    apply expr_loop_ends. by apply ends_token. }
  exists (S n). cbn [parse_factor]. rewrite consume_token by done. simpl.
  rewrite Hn. simpl. by destruct (eval_expr e).
Qed.

Lemma complete_num ds ws :
  blank ws → ds ≠ [] → Forall (λ c, is_ascii_digit c = true) ds → factor_complete (FNum ds) (ws ++ ds).
Proof.
  intros Hws Hne Hds rest Hnd. exists 1%nat. rewrite <- app_assoc.
  destruct ds as [|d ds]; [done|]. inversion Hds as [|? ? Hd Hds']; subst.
  pose proof (digit_not_blank _ Hd) as Hdb.
  cbn [parse_factor]. rewrite <- app_comm_cons, consume_token, digit_not_char by done.
  rewrite consume_token0, digit_not_char by done.
  rewrite consume_token0, digit_not_char by done.
  unfold parse_number. cbn [skip_ws]. rewrite Hdb.
  rewrite app_comm_cons, number_loop_digits; [done|unfold I64_MAX; lia|by right|done|done].
Qed.

Lemma written_complete :
  (∀ e s, writes_expr e s → expr_complete e s) ∧
  (∀ t s, writes_term t s → term_complete t s) ∧
  (∀ f s, writes_factor f s → factor_complete f s).
Proof.
  apply writes_ind; intros.
  - by apply complete_term_expr.
  - apply (complete_expr_op EAdd _ _ _ _ _ _ checked_add); auto.
  - apply (complete_expr_op ESub _ _ _ _ _ _ checked_sub); auto.
  - by apply complete_factor_term.
  - apply (complete_term_op TMul); auto.
  - apply (complete_term_op TDiv); auto.
  - apply (complete_term_op TRem); auto.
  - intros rest Hnd. destruct (H rest Hnd) as (n & Hn). exists (S n).
    cbn [parse_factor]. rewrite <- app_assoc, <- app_comm_cons. by rewrite consume_token by done.
  - intros rest Hnd. destruct (H rest Hnd) as (n & Hn). exists (S n).
    cbn [parse_factor]. rewrite <- app_assoc, <- app_comm_cons. rewrite consume_token by done. simpl.
    rewrite Hn. destruct (eval_factor f) as [v|m]; simpl; [|done].
    unfold fits, checked_neg. by destruct (checked_i64 (- v)).
  - by apply complete_paren.
  - by apply complete_num.
Qed.

(** ** Soundness: an accepted input is written as some tree *)

Lemma pbind_Ok {A B} (m : parse A) (f : A → input → parse B) x :
  pbind m f = Ret (Ok x) → ∃ a s, m = Ret (Ok (a, s)) ∧ f a s = Ret (Ok x).
Proof. destruct m as [[[a s]|e]|msg|]; try done. intros H. by exists a, s. Qed.

Lemma require_Ok {B} o e (f : Z → parse B) x :
  require o e f = Ret (Ok x) → ∃ v, o = Some v ∧ f v = Ret (Ok x).
Proof. destruct o as [v|]; [|done]. intros H. by exists v. Qed.

Lemma consume_false_split ch s s' : consume ch s = (false, s') → ∃ ws, blank ws ∧ s = ws ++ s'.
Proof.
  intros H. pose proof (consume_false ch s) as Hf. rewrite H in Hf. simpl in Hf.
  rewrite (Hf eq_refl). apply skip_ws_split.
Qed.

Lemma blank_app ws ws' : blank ws → blank ws' → blank (ws ++ ws').
Proof. intros. by apply Forall_app. Qed.

Lemma fits_Some z v : checked_i64 z = Some v → fits z = Ok v.
Proof. unfold fits. by intros ->. Qed.

Lemma number_loop_sound s : ∀ b acc v r,
  number_loop b acc s = Ret (Ok (v, r)) →
  ∃ ds, s = ds ++ r ∧ Forall (λ c, is_ascii_digit c = true) ds ∧ (b = false → ds ≠ []) ∧
    v = numeral acc ds ∧ (ds = [] ∨ in_i64 v = true).
Proof.
  induction s as [|c s IH]; intros b acc v r; simpl.
  - destruct b; [|done]. intros [= <- <-]. exists []. split_and!; auto.
  - destruct (is_ascii_digit c) eqn:Hc.
    + intros (v1 & Hv1 & (v2 & Hv2 & H)%require_Ok)%require_Ok.
      apply IH in H as (ds & -> & Hds & _ & Hv & Hin).
      unfold checked_mul, checked_add, checked_i64 in *.
      destruct (in_i64 (acc * 10)); [injection Hv1 as <-|done].
      destruct (in_i64 (acc * 10 + _)) eqn:Hi; [injection Hv2 as <-|done].
      exists (c :: ds). split_and!; [done|by constructor|done|done|].
      right. destruct Hin as [->|?]; [|done]. by subst v.
    + destruct b; [|done]. intros [= <- <-]. exists []. split_and!; auto.
Qed.

(** A term or factor accepted between [s] and [r]; white space may be left over. *)
Definition expr_sound (v : Z) (s r : input) : Prop :=
  ∃ e s1 ws, s = s1 ++ ws ++ r ∧ writes_expr e s1 ∧ blank ws ∧ eval_expr e = Ok v.
Definition term_sound (v : Z) (s r : input) : Prop :=
  ∃ t s1 ws, s = s1 ++ ws ++ r ∧ writes_term t s1 ∧ blank ws ∧ eval_term t = Ok v.
Definition factor_sound (v : Z) (s r : input) : Prop :=
  ∃ f s1, s = s1 ++ r ∧ writes_factor f s1 ∧ eval_factor f = Ok v.

(** Prepending a written left operand and an operator. *)
Lemma expr_sound_op w s0 ws ch s rhs r v :
  (ch = "+"%char ∧ checked_add w rhs = Some v ∨ ch = "-"%char ∧ checked_sub w rhs = Some v) →
  expr_sound w s0 (ws ++ ch :: s) → blank ws → term_sound rhs s r → expr_sound v s0 r.
Proof.
  intros Hch (e & s1 & ws1 & -> & He & Hws1 & Hev) Hws (t & s2 & ws2 & -> & Ht & Hws2 & Htv).
  destruct Hch as [[-> Hv%fits_Some]|[-> Hv%fits_Some]].
  - exists (EAdd e t), (s1 ++ (ws1 ++ ws) ++ "+"%char :: s2), ws2. split_and!; [|by constructor; auto using blank_app|done|].
    + by rewrite <- !app_assoc, <- app_comm_cons.
    + simpl. by rewrite Hev, Htv.
  - exists (ESub e t), (s1 ++ (ws1 ++ ws) ++ "-"%char :: s2), ws2. split_and!; [|by constructor; auto using blank_app|done|].
    + by rewrite <- !app_assoc, <- app_comm_cons.
    + simpl. by rewrite Hev, Htv.
Qed.

Lemma term_sound_op w s0 ws ch s rhs r v :
  (ch = "*"%char ∨ ch = "/"%char ∨ ch = "%"%char) → term_apply ch w rhs = Ok v →
  term_sound w s0 (ws ++ ch :: s) → blank ws → factor_sound rhs s r → term_sound v s0 r.
Proof.
  intros Hch Hv (t & s1 & ws1 & -> & Ht & Hws1 & Hev) Hws (f & s2 & -> & Hf & Hfv).
  destruct_or! Hch; subst ch; unfold term_apply in Hv; simpl in Hv;
  [exists (TMul t f), (s1 ++ (ws1 ++ ws) ++ "*"%char :: s2), []
  |exists (TDiv t f), (s1 ++ (ws1 ++ ws) ++ "/"%char :: s2), []
  |exists (TRem t f), (s1 ++ (ws1 ++ ws) ++ "%"%char :: s2), []];
  (split_and!; [by rewrite <- !app_assoc, <- app_comm_cons|by constructor; auto using blank_app|constructor|]);
  simpl; rewrite Hev, Hfv; done.
Qed.

Lemma expr_sound_blank v s0 ws s : expr_sound v s0 (ws ++ s) → blank ws → expr_sound v s0 s.
Proof.
  intros (e & s1 & ws1 & -> & ?) Hws. exists e, s1, (ws1 ++ ws).
  rewrite <- app_assoc. naive_solver auto using blank_app.
Qed.

Lemma term_sound_blank v s0 ws s : term_sound v s0 (ws ++ s) → blank ws → term_sound v s0 s.
Proof.
  intros (e & s1 & ws1 & -> & ?) Hws. exists e, s1, (ws1 ++ ws).
  rewrite <- app_assoc. naive_solver auto using blank_app.
Qed.

(** One level of fuel: each function is sound when the calls it makes are. *)
Section SoundStep.
Context (n : nat).
Hypothesis He : ∀ s v r, parse_expr n s = Ret (Ok (v, r)) → expr_sound v s r.
Hypothesis Hel : ∀ w s0 s v r,
  expr_loop n w s = Ret (Ok (v, r)) → expr_sound w s0 s → expr_sound v s0 r.
Hypothesis Ht : ∀ s v r, parse_term n s = Ret (Ok (v, r)) → term_sound v s r.
Hypothesis Htl : ∀ w s0 s v r,
  term_loop n w s = Ret (Ok (v, r)) → term_sound w s0 s → term_sound v s0 r.
Hypothesis Hf : ∀ s v r, parse_factor n s = Ret (Ok (v, r)) → factor_sound v s r.

Lemma sound_expr s v r : parse_expr (S n) s = Ret (Ok (v, r)) → expr_sound v s r.
Proof.
  simpl. intros (w & s1 & H1 & H2)%pbind_Ok. eapply Hel; [exact H2|].
  apply Ht in H1 as (t & s2 & ws & -> & ? & ? & ?).
  exists (ETerm t), s2, ws. split_and!; auto using writes_expr.
Qed.

Lemma sound_term s v r : parse_term (S n) s = Ret (Ok (v, r)) → term_sound v s r.
Proof.
  simpl. intros (w & s1 & H1 & H2)%pbind_Ok. eapply Htl; [exact H2|].
  apply Hf in H1 as (f & s2 & -> & ? & ?).
  exists (TFactor f), s2, []. split_and!; auto using writes_term. constructor.
Qed.

Lemma sound_expr_op w s0 s s1 v r ch op :
  (ch = "+"%char ∧ op = checked_add ∨ ch = "-"%char ∧ op = checked_sub) →
  consume ch s = (true, s1) → expr_sound w s0 s →
  pbind (parse_term n s1) (λ rhs s, require (op w rhs) overflow (λ w, expr_loop n w s)) = Ret (Ok (v, r)) →
  expr_sound v s0 r.
Proof.
  intros Hch (ws & Hws & ->)%consume_true Hs (rhs & s2 & H1 & (x & Hx & H2)%require_Ok)%pbind_Ok.
  eapply Hel; [exact H2|]. eapply expr_sound_op; [|exact Hs|done|by apply Ht].
  destruct Hch as [[-> ->]|[-> ->]]; eauto.
Qed.

Lemma sound_expr_loop w s0 s v r :
  expr_loop (S n) w s = Ret (Ok (v, r)) → expr_sound w s0 s → expr_sound v s0 r.
Proof.
  simpl. intros H Hs. destruct (consume "+" s) as [[|] s1] eqn:Hc1.
  { eapply (sound_expr_op _ _ _ _ _ _ _ checked_add); eauto. }
  destruct (consume_false_split _ _ _ Hc1) as (ws1 & Hws1 & ->).
  apply expr_sound_blank in Hs; [|done].
  destruct (consume "-" s1) as [[|] s2] eqn:Hc2.
  { eapply (sound_expr_op _ _ _ _ _ _ _ checked_sub); eauto. }
  destruct (consume_false_split _ _ _ Hc2) as (ws2 & Hws2 & ->).
  injection H as <- <-. by eapply expr_sound_blank.
Qed.

Lemma sound_term_op w s0 s s1 v r ch :
  (ch = "*"%char ∨ ch = "/"%char ∨ ch = "%"%char) → consume ch s = (true, s1) → term_sound w s0 s →
  (∃ rhs s2 x, parse_factor n s1 = Ret (Ok (rhs, s2)) ∧ term_apply ch w rhs = Ok x ∧
     term_loop n x s2 = Ret (Ok (v, r))) →
  term_sound v s0 r.
Proof.
  intros Hch (ws & Hws & ->)%consume_true Hs (rhs & s2 & x & H1 & Hx & H2).
  eapply Htl; [exact H2|]. eapply term_sound_op; [done|done|exact Hs|done|by apply Hf].
Qed.

Lemma sound_term_loop w s0 s v r :
  term_loop (S n) w s = Ret (Ok (v, r)) → term_sound w s0 s → term_sound v s0 r.
Proof.
  simpl. intros H Hs. destruct (consume "*" s) as [[|] s1] eqn:Hc1.
  { apply pbind_Ok in H as (rhs & s2 & H1 & (x & Hx%fits_Some & H2)%require_Ok).
    apply (sound_term_op w s0 s s1 v r "*"); auto. by exists rhs, s2, x. }
  destruct (consume_false_split _ _ _ Hc1) as (ws1 & Hws1 & ->).
  apply term_sound_blank in Hs; [|done].
  destruct (consume "/" s1) as [[|] s2] eqn:Hc2.
  { apply pbind_Ok in H as (rhs & s3 & H1 & H2). destruct (rhs =? 0) eqn:Hz; [done|].
    apply require_Ok in H2 as (x & Hx & H2). apply (sound_term_op w s0 s1 s2 v r "/"); auto.
    exists rhs, s3, x. unfold term_apply. simpl. by rewrite Hz, Hx. }
  destruct (consume_false_split _ _ _ Hc2) as (ws2 & Hws2 & ->).
  apply term_sound_blank in Hs; [|done].
  destruct (consume "%" s2) as [[|] s3] eqn:Hc3.
  { apply pbind_Ok in H as (rhs & s4 & H1 & H2). destruct (rhs =? 0) eqn:Hz; [done|].
    apply require_Ok in H2 as (x & Hx & H2). apply (sound_term_op w s0 s2 s3 v r "%"); auto.
    exists rhs, s4, x. unfold term_apply. simpl. by rewrite Hz, Hx. }
  destruct (consume_false_split _ _ _ Hc3) as (ws3 & Hws3 & ->).
  injection H as <- <-. by eapply term_sound_blank.
Qed.

Lemma factor_sound_blank ws s v r : blank ws → factor_sound v s r → factor_sound v (ws ++ s) r.
Proof.
  intros Hws (f & s1 & -> & Hw & Hv). exists f, (ws ++ s1). split_and!; [by rewrite app_assoc| |done].
  destruct Hw; rewrite app_assoc; constructor; auto using blank_app.
Qed.

Lemma sound_factor s v r : parse_factor (S n) s = Ret (Ok (v, r)) → factor_sound v s r.
Proof.
  simpl. intros H. destruct (consume "+" s) as [[|] s1] eqn:Hc1.
  { apply consume_true in Hc1 as (ws & Hws & ->). apply Hf in H as (f & s2 & -> & Hw & Hv).
    exists (FPlus f), (ws ++ "+"%char :: s2). split_and!; [by rewrite <- app_assoc|by constructor|done]. }
  apply consume_false_split in Hc1 as (ws1 & Hws1 & ->). apply factor_sound_blank; [done|].
  destruct (consume "-" s1) as [[|] s2] eqn:Hc2.
  { apply consume_true in Hc2 as (ws & Hws & ->). apply pbind_Ok in H as (w & s3 & H1 & H2).
    apply require_Ok in H2 as (x & Hx%fits_Some & [= <- <-]). apply Hf in H1 as (f & s4 & -> & Hw & Hv).
    exists (FMinus f), (ws ++ "-"%char :: s4). split_and!; [by rewrite <- app_assoc|by constructor|].
    simpl. by rewrite Hv. }
  apply consume_false_split in Hc2 as (ws2 & Hws2 & ->). apply factor_sound_blank; [done|].
  destruct (consume "(" s2) as [[|] s3] eqn:Hc3.
  { apply consume_true in Hc3 as (ws & Hws & ->). apply pbind_Ok in H as (w & s4 & H1 & H2).
    destruct (consume ")" s4) as [[|] s5] eqn:Hc4; [|done]. injection H2 as <- <-.
    apply consume_true in Hc4 as (ws4 & Hws4 & ->). apply He in H1 as (e & s6 & ws6 & -> & Hw & Hws6 & Hv).
    exists (FParen e), (ws ++ "("%char :: s6 ++ (ws6 ++ ws4) ++ [")"%char]).
    split_and!; [|by constructor; auto using blank_app|done].
    by rewrite <- app_assoc, <- app_comm_cons, <- !app_assoc. }
  apply consume_false_split in Hc3 as (ws3 & Hws3 & ->). apply factor_sound_blank; [done|].
  unfold parse_number in H. destruct (skip_ws_split s3) as (ws & Hws & Hs3). rewrite Hs3.
  apply factor_sound_blank; [done|].
  apply number_loop_sound in H as (ds & -> & Hds & Hne & -> & Hin). specialize (Hne eq_refl).
  exists (FNum ds), ds. split_and!; [done|by apply (W_num ds []); [constructor|..]|].
  simpl. unfold fits, checked_i64. by destruct Hin as [?| ->].
Qed.

End SoundStep.

Lemma parsed_sound n :
  (∀ s v r, parse_expr n s = Ret (Ok (v, r)) → expr_sound v s r) ∧
  (∀ w s0 s v r, expr_loop n w s = Ret (Ok (v, r)) → expr_sound w s0 s → expr_sound v s0 r) ∧
  (∀ s v r, parse_term n s = Ret (Ok (v, r)) → term_sound v s r) ∧
  (∀ w s0 s v r, term_loop n w s = Ret (Ok (v, r)) → term_sound w s0 s → term_sound v s0 r) ∧
  (∀ s v r, parse_factor n s = Ret (Ok (v, r)) → factor_sound v s r).
Proof.
  induction n as [|n (He & Hel & Ht & Htl & Hf)]; [by split_and!|].
  split_and!; eauto using sound_expr, sound_expr_loop, sound_term, sound_term_loop, sound_factor.
Qed.

(** ** The whole calculator *)

Lemma calc_fuel_enough s : ∃ r, parse_expr (calc_fuel s) s = Ret r.
Proof. destruct (proj1 (fuel_enough (calc_fuel s)) s) as (r & Hr & _); [done|]. by exists r. Qed.

Lemma run_expr_fuel s r : run_expr s r → parse_expr (calc_fuel s) s = Ret r.
Proof.
  intros (n & Hn). destruct (calc_fuel_enough s) as (r0 & Hr0). rewrite Hr0.
  destruct (fuel_monotone n (Nat.max n (calc_fuel s)) ltac:(lia)) as [H1 _].
  destruct (fuel_monotone (calc_fuel s) (Nat.max n (calc_fuel s)) ltac:(lia)) as [H2 _].
  pose proof (H1 _ _ Hn) as E1. pose proof (H2 _ _ Hr0) as E2. congruence.
Qed.

Lemma skip_ws_all ws : blank ws → skip_ws ws = [].
Proof. intros H. rewrite <- (app_nil_r ws). by rewrite skip_ws_blank. Qed.

Lemma skip_ws_nil s : skip_ws s = [] → blank s.
Proof. intros H. destruct (skip_ws_split s) as (ws & Hws & Hs). rewrite H, app_nil_r in Hs. by subst. Qed.

Lemma checked_i64_range z v : checked_i64 z = Some v → v = z ∧ is_i64 v.
Proof.
  unfold checked_i64, in_i64, is_i64. destruct (_ && _) eqn:E; [|done].
  intros [= <-]. split; [done|]. lia.
Qed.

Lemma fits_range z v : fits z = Ok v → is_i64 v.
Proof. unfold fits. destruct (checked_i64 z) eqn:E; [|done]. intros [= <-]. by eapply checked_i64_range. Qed.

Lemma checked_div_range a b v : is_i64 a → is_i64 b → checked_div a b = Some v → is_i64 v.
Proof.
  unfold checked_div, is_i64, I64_MIN, I64_MAX. intros Ha Hb.
  destruct (Z.eqb_spec b 0); [done|]. simpl. destruct (_ && _) eqn:E; [done|]. intros [= <-].
  destruct (Z.eqb_spec b (-1)) as [->|].
  - rewrite andb_true_r in E. apply Z.eqb_neq in E. rewrite Z.quot_opp_r with (b := 1) by done.
    rewrite Z.quot_1_r. lia.
  - Z.to_euclidean_division_equations. nia.
Qed.

Lemma checked_rem_range a b v : is_i64 a → is_i64 b → checked_rem a b = Some v → is_i64 v.
Proof.
  unfold checked_rem, is_i64, I64_MIN, I64_MAX. intros Ha Hb.
  destruct (Z.eqb_spec b 0); [done|]. simpl. destruct (_ && _); [done|]. intros [= <-].
  Z.to_euclidean_division_equations. nia.
Qed.

Scheme expr_mut := Induction for expr Sort Prop
with term_mut := Induction for term Sort Prop
with factor_mut := Induction for factor Sort Prop.
Combined Scheme syntax_ind from expr_mut, term_mut, factor_mut.

Lemma bind_Ok_inv {T U} (m : result T string) (f : T → result U string) u :
  result_bind m f = Ok u → ∃ t, m = Ok t ∧ f t = Ok u.
Proof. destruct m as [t|]; [|done]. intros H. by exists t. Qed.

Lemma ok_or_inv {T} (o : option T) (e : string) t : ok_or o e = Ok t → o = Some t.
Proof. destruct o; [|done]. by intros [= ->]. Qed.

Lemma eval_range :
  (∀ e v, eval_expr e = Ok v → is_i64 v) ∧ (∀ t v, eval_term t = Ok v → is_i64 v) ∧
  (∀ f v, eval_factor f = Ok v → is_i64 v).
Proof.
  apply syntax_ind; simpl; try (by eauto using fits_range).
  1,2,3: intros ? IH1 ? IH2 v (a & Ha & (b & Hb & H)%bind_Ok_inv)%bind_Ok_inv; by eauto using fits_range.
  3: intros ? IH v (a & Ha & H)%bind_Ok_inv; by eauto using fits_range.
  all: intros ? IH1 ? IH2 v (a & Ha & (b & Hb & H)%bind_Ok_inv)%bind_Ok_inv;
    destruct (b =? 0); [done|]; apply ok_or_inv in H; eauto using checked_div_range, checked_rem_range.
Qed.

(** ** Properties *)

Lemma calc_returns expr : ∃ r, eval_calc_expression expr = Ret r.
Proof.
  unfold eval_calc_expression.
  destruct (calc_fuel_enough (String.list_ascii_of_string expr)) as ([[v s]|e] & ->); [|by eexists].
  destruct (skip_ws s); by eexists.
Qed.

(** C10. the calculator computes the value of what is written: for every way of
    writing an expression of the grammar, with white space before any token and
    at the end, the result is that of evaluating its tree with the usual
    precedence and left associativity in checked 64-bit arithmetic, including
    the error when that evaluation overflows or divides by zero. *)
Theorem calc_evaluates expr e s ws :
  String.list_ascii_of_string expr = s ++ ws → writes_expr e s → blank ws →
  eval_calc_expression expr = Ret (eval_expr e).
Proof.
  intros Hs Hw Hws. unfold eval_calc_expression. rewrite Hs.
  assert (ends_term ws ∧ ends_expr ws) as [He1 He2].
  { unfold ends_term, ends_expr. by rewrite skip_ws_all. }
  assert (no_digit ws) as Hnd.
  { destruct Hws as [|d ws Hd _]; [done|]. simpl.
    destruct (is_ascii_digit d) eqn:E; [|done]. by rewrite (digit_not_blank _ E) in Hd. }
  assert (run_expr (s ++ ws) (match eval_expr e with Ok v => Ok (v, []) | Err m => Err m end)) as Hr.
  { apply (proj1 written_complete e s Hw); [done..|]. destruct (eval_expr e); simpl; [|done].
    rewrite <- (skip_ws_all ws) by done. by apply expr_loop_ends. }
  rewrite (run_expr_fuel _ _ Hr). by destruct (eval_expr e).
Qed.

Lemma calc_evaluates_witness :
  eval_calc_expression "2*3 " =
    Ret (eval_expr (ETerm (TMul (TFactor (FNum ["2"%char])) (FNum ["3"%char])))).
Proof.
  apply (calc_evaluates _ _ ["2"%char; "*"%char; "3"%char] [" "%char]); [reflexivity| |by repeat constructor].
  apply W_term. apply (W_mul _ _ ["2"%char] [] ["3"%char]); [apply W_factor| constructor |];
    apply (W_num _ []); try discriminate; by repeat constructor.
Defined.

(** C36. the calculator accepts nothing else: whenever it returns a value, the
    input is a way of writing some expression of the grammar, followed by white
    space, and the value is that of its tree. *)
Theorem calc_accepts_only_written expr v :
  eval_calc_expression expr = Ret (Ok v) →
  ∃ e s ws, String.list_ascii_of_string expr = s ++ ws ∧ writes_expr e s ∧ blank ws ∧ eval_expr e = Ok v.
Proof.
  unfold eval_calc_expression. set (s0 := String.list_ascii_of_string expr).
  destruct (parse_expr _ s0) as [[[w r]|m]|msg|] eqn:Hp; try done.
  destruct (skip_ws r) eqn:Hr; [|done]. intros [= <-].
  destruct (proj1 (parsed_sound _) _ _ _ Hp) as (e & s & ws & Hs & Hw & Hws & Hv).
  exists e, s, (ws ++ r). split_and!; [done|done| |done]. apply blank_app; [done|]. by apply skip_ws_nil.
Qed.

Lemma calc_accepts_only_written_witness :
  ∃ e s ws, String.list_ascii_of_string " 7 " = s ++ ws ∧ writes_expr e s ∧ blank ws ∧ eval_expr e = Ok 7.
Proof. apply calc_accepts_only_written. vm_compute. reflexivity. Defined.

(** C37. On every text the calculator returns a value or an error message: the
    recursive descent never runs out of the fuel [4 * length + 3] and never
    panics; a value is always a 64-bit signed integer. *)
Theorem calc_total expr :
  ∃ r, eval_calc_expression expr = Ret r ∧ match r with Ok v => is_i64 v | Err _ => True end.
Proof.
  destruct (calc_returns expr) as [r Hr]. exists r. split; [done|]. revert Hr.
  unfold eval_calc_expression. set (s0 := String.list_ascii_of_string expr).
  destruct (parse_expr _ s0) as [[[w s]|m]|msg|] eqn:Hp; try done; [|by intros [= <-]].
  destruct (skip_ws s) eqn:Hs; intros [= <-]; [|done].
  destruct (proj1 (parsed_sound _) _ _ _ Hp) as (e & s1 & ws & _ & _ & _ & Hv). by apply (proj1 eval_range e).
Qed.
