(* ===== verification/Memory.v ===== *)
(** * Physical memory: [src/memory.rs]

    The Multiboot memory map as the boot loader left it in memory, its listing
    ([print_memory_map]) and the physical frame allocator ([BumpAllocator]).
    The structures are read from memory at the offsets [#[repr(C)]] gives their
    fields.  The addresses of the linker symbols [_kernel_start] and
    [_kernel_end] are parameters.  The contract of the allocator is the list of
    the frames it may hand out, and successive calls return exactly its
    elements, in order. *)

From S2P Require Import Prelude Machine.
Local Open Scope Z_scope.

(** ** Data *)

Record MultibootInfo := mkInfo {
  flags : Z; mem_lower : Z; mem_upper : Z; boot_device : Z; cmdline : Z;
  mods_count : Z; mods_addr : Z; syms : list Z;
  mmap_length : Z; mmap_addr : Z; drives_length : Z; drives_addr : Z;
  config_table : Z; boot_loader_name : Z; apm_table : Z;
  vbe_control_info : Z; vbe_mode_info : Z;
  vbe_mode : Z; vbe_interface_seg : Z; vbe_interface_off : Z; vbe_interface_len : Z;
}.

(** [&*(info_addr as *const MultibootInfo)]. *)
Definition read_info (mem : memory) (a : Z) : MultibootInfo :=
  let u32 off := read_u32 mem (a + off) in
  let u16 off := read_u16 mem (a + off) in
  mkInfo (u32 0) (u32 4) (u32 8) (u32 12) (u32 16) (u32 20) (u32 24)
    [u32 28; u32 32; u32 36; u32 40]
    (u32 44) (u32 48) (u32 52) (u32 56) (u32 60) (u32 64) (u32 68) (u32 72) (u32 76)
    (u16 80) (u16 82) (u16 84) (u16 86).

Record MemoryMapEntry := mkEntry {
  size : Z;
  base_addr_low : Z;
  base_addr_high : Z;
  length_low : Z;
  length_high : Z;
  buffer_type : Z;
}.

(** [&*(mmap as *const MemoryMapEntry)]; the structure is packed. *)
Definition read_entry (mem : memory) (a : Z) : MemoryMapEntry :=
  mkEntry (read_u32 mem a) (read_u32 mem (a + 4)) (read_u32 mem (a + 8))
    (read_u32 mem (a + 12)) (read_u32 mem (a + 16)) (read_u32 mem (a + 20)).

Definition is_available (e : MemoryMapEntry) : bool := buffer_type e =? 1.

Definition PAGE_SIZE : Z := 4096.
Definition LOW_MEMORY_RESERVED_END : Z := 0x100000.

Record PhysFrame := mkFrame { start_address : Z }.

Record BumpAllocator := mkBump {
  memory_map_addr : Z;
  memory_map_length : Z;
  next_free_frame : option Z;
  current_mmap_offset : Z;
}.

(** Bit 6 of the Multiboot flags: the memory map fields are valid. *)
Definition has_memory_map (info : MultibootInfo) : bool :=
  negb (Z.land (flags info) (Z.shiftl 1 6) =? 0).

(** ** Listing the memory map *)

Definition entry_line (e : MemoryMapEntry) : output :=
  serial_println ("Base: " +:+ hex10 (base_addr_low e) +:+ ", Length: " +:+ hex10 (length_low e)
                  +:+ ", Type: " +:+ dec (buffer_type e)).

(** The [while] loop: the lines printed and the total in KiB. *)
Fixpoint print_loop (fuel : nat) (mem : memory) (mmap mmap_end total_kb : Z) :
    outcome (list output * Z) :=
  if mmap <? mmap_end then
    match fuel with
    | O => OutOfFuel
    | S fuel =>
      let e := read_entry mem mmap in
      total_kb ← (if is_available e then add_u32 total_kb (length_low e / 1024) else Ret total_kb);
      step ← add_u32 (size e) 4;
      mmap ← add_u32 mmap step;
      '(lines, total_kb) ← print_loop fuel mem mmap mmap_end total_kb;
      Ret (entry_line e :: lines, total_kb)
    end
  else Ret ([], total_kb).

(** An iteration advances by at least 4 bytes. *)
Definition map_fuel (len : Z) : nat := Z.to_nat (len / 4 + 1).

Definition print_memory_map (mem : memory) (info_addr : Z) : outcome (list output) :=
  let info := read_info mem info_addr in
  if has_memory_map info then
    mmap_end ← add_u32 (mmap_addr info) (mmap_length info);
    '(lines, total_kb) ←
      print_loop (map_fuel (mmap_length info)) mem (mmap_addr info) mmap_end 0;
    let total := "Total Available RAM: " +:+ dec (total_kb / 1024) +:+ " MB" in
    Ret (serial_println "Multiboot Memory Map detected!" :: lines ++
         [println total; serial_println total])
  else
    let warning := "Warning: No memory map provided by Grub." in
    Ret [println warning; serial_println warning].

(** ** The frame allocator *)

Definition BumpAllocator_new (mem : memory) (info_addr : Z) : BumpAllocator :=
  let info := read_info mem info_addr in
  if has_memory_map info
  then mkBump (mmap_addr info) (mmap_length info) None 0
  else mkBump 0 0 None 0.

Definition align_up (value align : Z) : outcome Z :=
  let remainder := value mod align in
  if remainder =? 0 then Ret value
  else sum ← add_u64 value align; Ret (sum - remainder).

Definition region_start (e : MemoryMapEntry) : Z :=
  Z.lor (base_addr_low e) (Z.shiftl (base_addr_high e) 32).
Definition region_length (e : MemoryMapEntry) : Z :=
  Z.lor (length_low e) (Z.shiftl (length_high e) 32).
Definition region_end (e : MemoryMapEntry) : Z :=
  saturating_add_u64 (region_start e) (region_length e).
Definition allocation_floor (e : MemoryMapEntry) : Z :=
  Z.max (region_start e) LOW_MEMORY_RESERVED_END.

Section Frames.
Context (kernel_start kernel_end : Z) (mem : memory).

Definition kernel_end_aligned : outcome Z :=
  if kernel_end mod PAGE_SIZE =? 0 then Ret kernel_end
  else add_u32 (kernel_end - kernel_end mod PAGE_SIZE) PAGE_SIZE.

(** [self.current_mmap_offset += entry.size + 4; self.next_free_frame = None]. *)
Definition next_region (a : BumpAllocator) (e : MemoryMapEntry) : outcome BumpAllocator :=
  step ← add_u32 (size e) 4;
  offset ← add_u32 (current_mmap_offset a) step;
  Ret (mkBump (memory_map_addr a) (memory_map_length a) None offset).

Definition set_next (next : Z) (a : BumpAllocator) : BumpAllocator :=
  mkBump (memory_map_addr a) (memory_map_length a) (Some next) (current_mmap_offset a).

Fixpoint allocate_loop (fuel : nat) (a : BumpAllocator) : outcome (option PhysFrame * BumpAllocator) :=
  if current_mmap_offset a <? memory_map_length a then
    match fuel with
    | O => OutOfFuel
    | S fuel =>
      mmap ← add_u32 (memory_map_addr a) (current_mmap_offset a);
      let e := read_entry mem mmap in
      if negb (is_available e) then a ← next_region a e; allocate_loop fuel a else
      if (region_end e <=? allocation_floor e) || (U32_MAX <? allocation_floor e)
      then a ← next_region a e; allocate_loop fuel a else
      candidate ← (match next_free_frame a with
                   | Some next => Ret next
                   | None => aligned ← align_up (allocation_floor e) PAGE_SIZE; Ret (as_u32 aligned)
                   end);
      kernel_end_aligned ← kernel_end_aligned;
      let candidate_end := saturating_add_u32 candidate PAGE_SIZE in
      let candidate := if (candidate <? kernel_end_aligned) && (kernel_start <? candidate_end)
                       then kernel_end_aligned else candidate in
      let frame_end := saturating_add_u32 candidate PAGE_SIZE in
      if (frame_end <=? region_end e) && (candidate <? frame_end) then
        next ← add_u32 candidate PAGE_SIZE;
        Ret (Some (mkFrame candidate), set_next next a)
      else a ← next_region a e; allocate_loop fuel a
    end
  else Ret (None, a).

Definition allocate_frame (a : BumpAllocator) : outcome (option PhysFrame * BumpAllocator) :=
  allocate_loop (map_fuel (memory_map_length a)) a.

(** [n] calls in a row. *)
Fixpoint allocate_frames (n : nat) (a : BumpAllocator) : outcome (list (option PhysFrame)) :=
  match n with
  | O => Ret []
  | S n =>
    '(frame, a) ← allocate_frame a;
    frames ← allocate_frames n a;
    Ret (frame :: frames)
  end.

End Frames.
