(* ===== verification/Frames.v ===== *)
(** * Correctness of the frame allocator and of the memory listing

    The specification is the list of frames the allocator may hand out: the
    whole pages of the available regions, above the first MiB and clear of the
    kernel image, in the order of the memory map.  Successive calls of
    [allocate_frame] return its elements one by one and then [None]. *)

From S2P Require Import Prelude Machine Memory.
Local Open Scope Z_scope.

(** ** The specification *)

(** The least multiple of the page size that is not below [z]. *)
Definition page_ceil (z : Z) : Z := (z + 4095) / 4096 * 4096.

(** The pages from [lo] on that end by [hi]. *)
Definition pages (lo hi : Z) : list Z := (λ i, lo + 4096 * i) <$> seqZ 0 ((hi - lo) / 4096).

(** The entries the loader wrote: each is followed by the next, [size + 4]
    bytes further, and the last one ends where the map ends. *)
Inductive map_entries (mem : memory) (base len : Z) : Z → list MemoryMapEntry → Prop :=
| map_end : map_entries mem base len len []
| map_entry off es :
    off < len →
    map_entries mem base len (off + (size (read_entry mem (base + off)) + 4)) es →
    map_entries mem base len off (read_entry mem (base + off) :: es).

Section Spec.
Context (kernel_start kernel_end : Z).

Definition clear_of_kernel (p : Z) : Prop := kernel_end ≤ p ∨ p + 4096 ≤ kernel_start.

#[global] Instance clear_of_kernel_dec p : Decision (clear_of_kernel p).
Proof. unfold clear_of_kernel. apply _. Defined.

(** The frames of one region, up to 4 GiB. *)
Definition frames_from (lo : Z) (e : MemoryMapEntry) : list Z :=
  filter clear_of_kernel (pages lo (Z.min (region_end e) 0x100000000)).

Definition region_frames (e : MemoryMapEntry) : list Z :=
  if is_available e then frames_from (page_ceil (allocation_floor e)) e else [].

Definition usable_frames (es : list MemoryMapEntry) : list Z := es ≫= region_frames.

(** No available region reaches into the last page below 4 GiB. *)
Definition below_top_page (e : MemoryMapEntry) : Prop :=
  is_available e = true → region_end e ≤ 0xFFFFF000 ∨ U32_MAX < region_start e.

End Spec.

(** ** Pages *)

Lemma page_ceil_spec z : z ≤ page_ceil z < z + 4096 ∧ page_ceil z mod 4096 = 0.
Proof. unfold page_ceil. lia_div. Qed.

Lemma page_ceil_aligned z : z mod 4096 = 0 → page_ceil z = z.
Proof. unfold page_ceil. lia_div. Qed.

Lemma align_up_page z : 0 ≤ z ≤ U32_MAX → align_up z PAGE_SIZE = Ret (page_ceil z).
Proof.
  intros Hz. unfold align_up, PAGE_SIZE. case_bool; [by rewrite page_ceil_aligned|].
  unfold add_u64, U32_MAX, U64_MAX in *. case_bool; [|lia]. cbn.
  f_equal. unfold page_ceil. lia_div.
Qed.

Lemma elem_of_pages p lo hi :
  p ∈ pages lo hi ↔ lo ≤ p ∧ p + 4096 ≤ hi ∧ (p - lo) mod 4096 = 0.
Proof.
  unfold pages. rewrite list_elem_of_fmap. split.
  - intros (i & -> & Hi%elem_of_seqZ). pose proof (Z.div_mod (hi - lo) 4096).
    pose proof (Z.mod_pos_bound (hi - lo) 4096).
    replace (lo + 4096 * i - lo) with (i * 4096) by lia. rewrite Z.mod_mul by lia. lia.
  - intros (Hlo & Hhi & Hp). exists ((p - lo) / 4096).
    pose proof (Z.div_mod (p - lo) 4096). split; [lia|]. rewrite elem_of_seqZ.
    split; [apply Z.div_pos; lia|]. cbn. apply Z.lt_le_trans with ((p - lo + 4096) / 4096).
    + replace (p - lo + 4096) with (p - lo + 1 * 4096) by lia. rewrite Z.div_add by lia. lia.
    + apply Z.div_le_mono; lia.
Qed.

Lemma pages_cons lo hi : lo + 4096 ≤ hi → pages lo hi = lo :: pages (lo + 4096) hi.
Proof.
  intros H. unfold pages.
  replace ((hi - lo) / 4096) with (Z.succ ((hi - (lo + 4096)) / 4096)).
  - rewrite seqZ_cons by (pose proof (Z.div_pos (hi - (lo + 4096)) 4096); lia).
    rewrite Z.pred_succ. csimpl. f_equal; [lia|].
    rewrite <- (fmap_add_seqZ 1 0), <- list_fmap_compose. apply list_fmap_ext. intros ? z _. simpl. lia.
  - replace (hi - lo) with (hi - (lo + 4096) + 1 * 4096) by lia. rewrite Z.div_add by lia. lia.
Qed.

Lemma pages_nil lo hi : hi < lo + 4096 → pages lo hi = [].
Proof. intros H. unfold pages. rewrite seqZ_nil; [done|]. apply Z.lt_succ_r, Z.div_lt_upper_bound; lia. Qed.

Lemma NoDup_pages lo hi : NoDup (pages lo hi).
Proof. unfold pages. apply NoDup_fmap_2_strong; [|apply NoDup_seqZ]. intros; lia. Qed.

(** ** The memory map *)

Section Map.
Context (mem : memory) (Hmem : mem_bytes mem).

Lemma read_entry_bounds a :
  let e := read_entry mem a in
  is_u32 (size e) ∧ is_u32 (base_addr_low e) ∧ is_u32 (base_addr_high e) ∧
  is_u32 (length_low e) ∧ is_u32 (length_high e).
Proof. intros e. split_and!; apply read_u32_bounds, Hmem. Qed.

Lemma map_entries_fit base len off es :
  map_entries mem base len off es → off + 4 * Z.of_nat (length es) ≤ len.
Proof.
  induction 1 as [|off es Hoff _ IH]; cbn [length]; [lia|].
  destruct (read_entry_bounds (base + off)) as [[Hs _] _]. lia.
Qed.

Lemma allocation_floor_nonneg e : 0 ≤ allocation_floor e.
Proof. unfold allocation_floor, LOW_MEMORY_RESERVED_END. lia. Qed.

End Map.

(** ** The allocator returns the usable frames *)

Section Allocator.
Context (kernel_start kernel_end : Z) (mem : memory).
Context (Hmem : mem_bytes mem).
Context (Hkernel : 0 ≤ kernel_start < kernel_end ∧ kernel_end ≤ 0xFFFFF000).

Local Abbreviation allocate_loop := (allocate_loop kernel_start kernel_end mem).
Local Abbreviation frames_from := (frames_from kernel_start kernel_end).
Local Abbreviation usable_frames := (usable_frames kernel_start kernel_end).

Lemma kernel_end_aligned_ceil : kernel_end_aligned kernel_end = Ret (page_ceil kernel_end).
Proof.
  unfold kernel_end_aligned, PAGE_SIZE. case_bool; [by rewrite page_ceil_aligned|].
  unfold add_u32, U32_MAX. destruct (page_ceil_spec kernel_end) as [[] ?].
  assert (kernel_end - kernel_end mod 4096 + 4096 = page_ceil kernel_end) as ->
    by (unfold page_ceil; lia_div).
  assert (page_ceil kernel_end ≤ 0xFFFFF000) by (unfold page_ceil; lia_div).
  case_bool; [done|lia].
Qed.

(** From the first page that overlaps the image on, every page up to its end is
    skipped. *)
Lemma frames_skip_kernel lo e :
  lo mod 4096 = 0 → lo < page_ceil kernel_end → kernel_start < lo + 4096 →
  frames_from lo e = frames_from (page_ceil kernel_end) e.
Proof.
  intros Hlo Hlt Hks. unfold frames_from.
  set (hi := Z.min _ _). clearbody hi.
  remember (Z.to_nat ((page_ceil kernel_end - lo) / 4096)) as n eqn:Hn.
  destruct (page_ceil_spec kernel_end) as [[? Hc] Ha].
  revert lo Hlo Hlt Hks Hn. induction n as [|n IH]; intros lo Hlo Hlt Hks Hn; [lia_div|].
  destruct (decide (lo + 4096 ≤ hi)).
  - rewrite (pages_cons lo) by done. rewrite filter_cons_False.
    2: { unfold clear_of_kernel. lia_div. }
    destruct (decide (lo + 4096 = page_ceil kernel_end)) as [->|]; [done|].
    apply IH; lia_div.
  - by rewrite !pages_nil by lia.
Qed.

Lemma frames_from_cons c e :
  c mod 4096 = 0 → page_ceil kernel_end ≤ c ∨ c + 4096 ≤ kernel_start →
  c + 4096 ≤ region_end e → region_end e ≤ 0xFFFFF000 →
  frames_from c e = c :: frames_from (c + 4096) e.
Proof.
  intros Hc Hclear Hfit Htop. unfold frames_from. rewrite (pages_cons c) by lia.
  apply filter_cons_True. unfold clear_of_kernel.
  destruct (page_ceil_spec kernel_end). lia.
Qed.

Lemma frames_from_nil c e : region_end e < c + 4096 → frames_from c e = [].
Proof. intros H. unfold frames_from. by rewrite pages_nil by lia. Qed.

(** The allocator's state over the entries it has still to visit. *)
Record alloc_ok (a : BumpAllocator) (es : list MemoryMapEntry) : Prop := {
  ok_entries : map_entries mem (memory_map_addr a) (memory_map_length a) (current_mmap_offset a) es;
  ok_offset : 0 ≤ current_mmap_offset a;
  ok_addr : 0 ≤ memory_map_addr a;
  ok_end : memory_map_addr a + memory_map_length a ≤ U32_MAX;
  ok_top : Forall below_top_page es;
  ok_next c : next_free_frame a = Some c →
    ∃ e, head es = Some e ∧ is_available e = true ∧ allocation_floor e < region_end e ∧
      allocation_floor e ≤ U32_MAX ∧ allocation_floor e ≤ c ≤ 0xFFFFF000 ∧ c mod 4096 = 0;
}.

(** The frames still to be handed out. *)
Definition remaining (a : BumpAllocator) (es : list MemoryMapEntry) : list Z :=
  match es, next_free_frame a with
  | e :: es, Some c => frames_from c e ++ usable_frames es
  | es, _ => usable_frames es
  end.

Lemma next_region_ok a e es :
  alloc_ok a (e :: es) → e = read_entry mem (memory_map_addr a + current_mmap_offset a) →
  ∃ a', next_region a e = Ret a' ∧ alloc_ok a' es ∧ remaining a' es = usable_frames es ∧
    memory_map_length a' = memory_map_length a.
Proof.
  intros [Hes Hoff Haddr Hend Htop _] He. inversion Hes as [|off es' Hlt Hes' Heq1 Heq2]; simplify_eq.
  pose proof (map_entries_fit mem Hmem _ _ _ _ Hes').
  destruct (read_entry_bounds mem Hmem (memory_map_addr a + current_mmap_offset a)) as [Hs _].
  set (e := read_entry _ _) in *. unfold next_region, is_u32 in *.
  clearbody e. rewrite (add_u32_Ret (size e)) by lia. cbn. rewrite add_u32_Ret by lia. cbn.
  eexists. split_and!; [done| |destruct es; done|done].
  split; cbn; try done; [lia|by inversion Htop].
Qed.

(** The outcome the contract asks for: the first remaining frame, if any. *)
Definition delivers (r : outcome (option PhysFrame * BumpAllocator)) (len : Z) (frames : list Z) : Prop :=
  ∃ a es, r = Ret (mkFrame <$> head frames, a) ∧ alloc_ok a es ∧
    remaining a es = tail frames ∧ memory_map_length a = len.

Lemma delivers_skip fuel a e es frames :
  (∀ a, alloc_ok a es → delivers (allocate_loop fuel a) (memory_map_length a) (remaining a es)) →
  alloc_ok a (e :: es) → e = read_entry mem (memory_map_addr a + current_mmap_offset a) →
  frames = usable_frames es →
  delivers (next_region a e ≫= λ a, allocate_loop fuel a) (memory_map_length a) frames.
Proof.
  intros IH Hok He ->. destruct (next_region_ok a e es Hok He) as (a' & -> & Hok' & <- & <-).
  cbn. by apply IH.
Qed.

(** The page the allocator considers in an eligible region. *)
Definition considered (a : BumpAllocator) (e : MemoryMapEntry) : Z :=
  default (page_ceil (allocation_floor e)) (next_free_frame a).

Lemma considered_spec a e es :
  alloc_ok a (e :: es) → is_available e = true →
  allocation_floor e < region_end e → allocation_floor e ≤ U32_MAX →
  allocation_floor e ≤ considered a e ≤ 0xFFFFF000 ∧ considered a e mod 4096 = 0 ∧
  region_end e ≤ 0xFFFFF000 ∧ remaining a (e :: es) = frames_from (considered a e) e ++ usable_frames es.
Proof.
  intros [_ _ _ _ Htop Hnext] Hav Hlt Hu.
  assert (region_end e ≤ 0xFFFFF000) as Hend.
  { inversion Htop as [|?? He]. destruct (He Hav) as [|Hs]; [done|]. unfold allocation_floor in Hu. lia. }
  unfold considered, remaining. destruct (next_free_frame a) as [c|]; cbn.
  - destruct (Hnext c eq_refl) as (e' & [= <-] & _ & _ & _ & Hc & Ha). done.
  - destruct (page_ceil_spec (allocation_floor e)). split_and!; try done; [lia|lia_div|].
    unfold usable_frames at 1. cbn. unfold region_frames at 1. by rewrite Hav.
Qed.

Lemma candidate_computed a e :
  allocation_floor e ≤ U32_MAX → considered a e ≤ 0xFFFFF000 →
  (match next_free_frame a with
   | Some next => Ret next
   | None => align_up (allocation_floor e) PAGE_SIZE ≫= λ aligned, Ret (as_u32 aligned)
   end) = Ret (considered a e).
Proof.
  intros Hu Hc. unfold considered in *. destruct (next_free_frame a) as [c|]; [done|]. cbn in *.
  pose proof (allocation_floor_nonneg e). rewrite align_up_page by lia. cbn.
  destruct (page_ceil_spec (allocation_floor e)). unfold as_u32. rewrite Z.mod_small by lia. done.
Qed.

(** After the kernel image is skipped, the candidate is the next clear page. *)
Lemma candidate_clear c e :
  0 ≤ c ≤ 0xFFFFF000 → c mod 4096 = 0 → region_end e ≤ 0xFFFFF000 →
  let c' := if (c <? page_ceil kernel_end) && (kernel_start <? saturating_add_u32 c PAGE_SIZE)
            then page_ceil kernel_end else c in
  frames_from c e = frames_from c' e ∧ c ≤ c' ≤ 0xFFFFF000 ∧ c' mod 4096 = 0 ∧
  (page_ceil kernel_end ≤ c' ∨ c' + 4096 ≤ kernel_start).
Proof.
  intros Hc Ha Htop. destruct (page_ceil_spec kernel_end) as [? Hk].
  assert (page_ceil kernel_end ≤ 0xFFFFF000) by (unfold page_ceil; lia_div).
  unfold saturating_add_u32, U32_MAX, PAGE_SIZE. cbn zeta.
  destruct (Z.ltb_spec c (page_ceil kernel_end)); cbn [andb]; [case_bool|].
  - split_and!; try done; [|lia..]. apply frames_skip_kernel; lia.
  - split_and!; try done; lia.
  - split_and!; try done; lia.
Qed.

Lemma usable_skip e es :
  is_available e = false ∨ region_end e ≤ allocation_floor e ∨ U32_MAX < allocation_floor e →
  usable_frames (e :: es) = usable_frames es.
Proof.
  intros H. unfold usable_frames. cbn. unfold region_frames at 1.
  destruct (is_available e) eqn:Hav; [|done].
  destruct H as [|H]; [done|]. destruct (page_ceil_spec (allocation_floor e)).
  unfold frames_from, U32_MAX in *. by rewrite pages_nil by lia.
Qed.

(** Handing out the clear candidate [c], or leaving the exhausted region. *)
Lemma deliver_candidate fuel a e es c :
  (∀ a, alloc_ok a es → delivers (allocate_loop fuel a) (memory_map_length a) (remaining a es)) →
  alloc_ok a (e :: es) → e = read_entry mem (memory_map_addr a + current_mmap_offset a) →
  is_available e = true → allocation_floor e ≤ U32_MAX →
  allocation_floor e ≤ c ≤ 0xFFFFF000 → c mod 4096 = 0 →
  page_ceil kernel_end ≤ c ∨ c + 4096 ≤ kernel_start → region_end e ≤ 0xFFFFF000 →
  let frame_end := saturating_add_u32 c PAGE_SIZE in
  delivers
    (if (frame_end <=? region_end e) && (c <? frame_end)
     then add_u32 c PAGE_SIZE ≫= λ next, Ret (Some (mkFrame c), set_next next a)
     else next_region a e ≫= λ a, allocate_loop fuel a)
    (memory_map_length a) (frames_from c e ++ usable_frames es).
Proof.
  intros IH Hok He Hav Hu Hc Ha Hclear Htop. unfold saturating_add_u32, PAGE_SIZE, U32_MAX in *.
  cbn zeta. destruct (decide (c + 4096 ≤ region_end e)) as [Hfit|Hfit].
  - rewrite (proj2 (Z.leb_le _ _)), (proj2 (Z.ltb_lt _ _)), add_u32_Ret by (unfold U32_MAX; lia).
    cbn [andb mbind outcome_bind]. exists (set_next (c + 4096) a), (e :: es).
    rewrite frames_from_cons by done. split_and!; [done| |done..].
    destruct Hok. split; cbn; try done. intros ? [= <-]. exists e.
    split_and!; try done; unfold U32_MAX; lia_div.
  - rewrite (proj2 (Z.leb_gt _ _)) by lia. cbn [andb].
    eapply delivers_skip; eauto. by rewrite frames_from_nil by lia.
Qed.

Lemma allocate_loop_delivers es : ∀ fuel a,
  (length es ≤ fuel)%nat → alloc_ok a es →
  delivers (allocate_loop fuel a) (memory_map_length a) (remaining a es).
Proof.
  induction es as [|e es IH]; intros fuel a Hfuel Hok.
  - exists a, []. destruct Hok as [Hes ???? Hn]. inversion Hes as [Heq|].
    unfold remaining. split_and!; [|done..].
    destruct fuel; cbn [Memory.allocate_loop]; rewrite <- ?Heq, Z.ltb_irrefl by done; done.
  - destruct fuel as [|fuel]; [cbn in Hfuel; lia|]. pose proof (ok_entries _ _ Hok) as Hes.
    pose proof (ok_offset _ _ Hok). pose proof (ok_end _ _ Hok). pose proof (ok_addr _ _ Hok).
    inversion Hes as [|off es' Hlt Hes' Heq1 Heq2]; simplify_eq.
    specialize (IH fuel). assert (length es ≤ fuel)%nat as Hf by (cbn in Hfuel; lia).
    set (e := read_entry _ _) in *. cbn [Memory.allocate_loop].
    rewrite (proj2 (Z.ltb_lt _ _) Hlt), add_u32_Ret by lia. cbn [mbind outcome_bind]. fold e.
    destruct (is_available e) eqn:Hav; cbn [negb].
    2: { eapply delivers_skip; eauto. unfold remaining. destruct (next_free_frame a) as [c|] eqn:Hn.
         - destruct (ok_next _ _ Hok c Hn) as (? & [= <-] & ? & _). congruence.
         - by rewrite usable_skip by auto. }
    destruct (Z.leb_spec (region_end e) (allocation_floor e)); cbn [orb]; [|case_bool].
    1-2: eapply delivers_skip; eauto; unfold remaining;
         destruct (next_free_frame a) as [c|] eqn:Hn;
         [destruct (ok_next _ _ Hok c Hn) as (? & [= <-] & ? & ? & ? & ?); lia|by rewrite usable_skip by auto].
    destruct (considered_spec a e es) as ([] & ? & Htop & ->); [done..|].
    rewrite candidate_computed, kernel_end_aligned_ceil by done. cbn [mbind outcome_bind].
    destruct (candidate_clear (considered a e) e) as (-> & ? & Ha & Hclear);
      [pose proof (allocation_floor_nonneg e); lia|done..|].
    set (c := if _ && _ then _ else _) in *. clearbody c.
    eapply deliver_candidate; eauto. lia.
Qed.

Lemma allocate_frame_delivers a es :
  alloc_ok a es →
  delivers (allocate_frame kernel_start kernel_end mem a) (memory_map_length a) (remaining a es).
Proof.
  intros Hok. apply allocate_loop_delivers; [|done].
  pose proof (map_entries_fit mem Hmem _ _ _ _ (ok_entries _ _ Hok)).
  pose proof (ok_offset _ _ Hok). unfold map_fuel. lia_div.
Qed.

Lemma allocate_frames_delivers n : ∀ a es,
  alloc_ok a es →
  allocate_frames kernel_start kernel_end mem n a =
    Ret ((λ i, mkFrame <$> remaining a es !! i) <$> seq 0 n).
Proof.
  induction n as [|n IH]; intros a es Hok; [done|]. cbn [allocate_frames].
  destruct (allocate_frame_delivers a es Hok) as (a' & es' & -> & Hok' & Hrem & _).
  cbn [mbind outcome_bind]. rewrite (IH _ _ Hok'), Hrem. cbn [seq]. csimpl. f_equal.
  f_equal; [by destruct (remaining a es)|].
  rewrite <- fmap_S_seq, <- list_fmap_compose. apply list_fmap_ext. intros ? i _. cbn.
  by destruct (remaining a es).
Qed.

End Allocator.

(** The map the allocator starts from: the loader's flag is set, the map does
    not wrap around the address space and no available region reaches into the
    last page below 4 GiB. *)
Record boot_map (mem : memory) (info_addr : Z) (es : list MemoryMapEntry) : Prop := {
  bm_bytes : mem_bytes mem;
  bm_flag : has_memory_map (read_info mem info_addr) = true;
  bm_end : mmap_addr (read_info mem info_addr) + mmap_length (read_info mem info_addr) ≤ U32_MAX;
  bm_entries : map_entries mem (mmap_addr (read_info mem info_addr))
                 (mmap_length (read_info mem info_addr)) 0 es;
  bm_top : Forall below_top_page es;
}.

(** Available regions do not overlap. *)
Definition regions_disjoint (es : list MemoryMapEntry) : Prop :=
  ∀ i j e e', i ≠ j → es !! i = Some e → es !! j = Some e' →
  is_available e = true → is_available e' = true →
  region_end e ≤ region_start e' ∨ region_end e' ≤ region_start e.

(** A page that is free at boot: aligned, in an available region, above the
    first MiB and clear of the kernel image. *)
Definition free_page (kernel_start kernel_end : Z) (es : list MemoryMapEntry) (p : Z) : Prop :=
  p mod 4096 = 0 ∧ LOW_MEMORY_RESERVED_END ≤ p ∧ p + 4096 ≤ 0x100000000 ∧
  clear_of_kernel kernel_start kernel_end p ∧
  ∃ e, e ∈ es ∧ is_available e = true ∧ region_start e ≤ p ∧ p + 4096 ≤ region_end e.

Lemma boot_alloc_ok mem info_addr es :
  boot_map mem info_addr es →
  alloc_ok mem (BumpAllocator_new mem info_addr) es ∧
  next_free_frame (BumpAllocator_new mem info_addr) = None.
Proof.
  intros [Hb Hf He Hes Ht]. unfold BumpAllocator_new. rewrite Hf.
  split; [|done]. split; cbn -[read_info]; try done. apply read_u32_bounds, Hb.
Qed.

Lemma remaining_boot ks ke a es : next_free_frame a = None → remaining ks ke a es = usable_frames ks ke es.
Proof. unfold remaining. intros ->. by destruct es. Qed.

Lemma elem_of_usable ks ke es p :
  p ∈ usable_frames ks ke es ↔ free_page ks ke es p.
Proof.
  unfold usable_frames, free_page. rewrite list_elem_of_bind. split.
  - intros (e & Hp & He). unfold region_frames in Hp.
    destruct (is_available e) eqn:Hav; [|set_solver].
    unfold frames_from in Hp. apply list_elem_of_filter in Hp as [Hc (H1 & H2 & H3)%elem_of_pages].
    destruct (page_ceil_spec (allocation_floor e)). unfold allocation_floor in *.
    split_and!; [lia_div|lia|lia|done|]. exists e. split_and!; try done; lia.
  - intros (Ha & Hlow & Htop & Hc & e & He & Hav & Hs & Hend). exists e. split; [|done].
    unfold region_frames. rewrite Hav. unfold frames_from. apply list_elem_of_filter. split; [done|].
    apply elem_of_pages. unfold page_ceil, allocation_floor. split_and!; lia_div.
Qed.

Lemma NoDup_usable ks ke es : regions_disjoint es → NoDup (usable_frames ks ke es).
Proof.
  intros Hd. unfold usable_frames. induction es as [|e es IH]; [constructor|].
  cbn. apply NoDup_app. split_and!.
  - unfold region_frames. destruct (is_available e); [|constructor].
    apply NoDup_filter, NoDup_pages.
  - intros p Hp Hp'.
    destruct (proj1 (elem_of_usable ks ke [e] p)) as (_ & _ & _ & _ & e1 & He1 & Hav1 & Hs1 & He1').
    { unfold usable_frames. cbn. by rewrite app_nil_r. }
    apply list_elem_of_singleton in He1 as ->.
    destruct (proj1 (elem_of_usable ks ke es p) Hp') as (_ & _ & _ & _ & e2 & He2 & Hav2 & Hs2 & He2').
    apply list_elem_of_lookup in He2 as [j Hj].
    destruct (Hd 0%nat (S j) e e2); [done..|lia|lia].
  - apply IH. intros i j e1 e2 Hij Hi Hj. apply (Hd (S i) (S j)); [lia|done..].
Qed.

(** ** Claims *)

(** Reading a map, to check concrete ones. *)
Fixpoint read_map (fuel : nat) (mem : memory) (base len off : Z) : option (list MemoryMapEntry) :=
  if off =? len then Some [] else
  match fuel with
  | O => None
  | S fuel =>
    if off <? len
    then cons (read_entry mem (base + off)) <$>
           read_map fuel mem base len (off + (size (read_entry mem (base + off)) + 4))
    else None
  end.

Lemma read_map_sound fuel mem base len : ∀ off es,
  read_map fuel mem base len off = Some es → map_entries mem base len off es.
Proof.
  induction fuel as [|fuel IH]; intros off es; cbn [read_map];
    destruct (Z.eqb_spec off len); try done.
  1-2: intros [= <-]; subst; constructor.
  case_bool; [|done]. intros (es' & Hes & ->)%fmap_Some. constructor; [done|by apply IH].
Qed.

(** A machine with a low region, a region at 1 MiB holding a kernel image, and
    a reserved one. *)
Definition demo_memory : memory :=
  memory_of 0x1000 (mjoin (bytes_of_u32 <$>
    ([64; 0; 0; 0; 0; 0; 0; 0; 0; 0; 0; 72; 0x1058] ++ replicate 9 0 ++
     [20; 0; 0; 0x9FC00; 0; 1] ++ [20; 0x100000; 0; 0x303800; 0; 1] ++ [20; 0xFEC00000; 0; 0x1000; 0; 2]))).
Definition demo_entries : list MemoryMapEntry :=
  [mkEntry 20 0 0 0x9FC00 0 1; mkEntry 20 0x100000 0 0x303800 0 1; mkEntry 20 0xFEC00000 0 0x1000 0 2].

Lemma demo_boot_map : boot_map demo_memory 0x1000 demo_entries.
Proof.
  split.
  - apply memory_of_bytes. apply (bool_decide_unpack _). vm_compute. reflexivity.
  - vm_compute. reflexivity.
  - vm_compute. discriminate.
  - apply (read_map_sound 4). vm_compute. reflexivity.
  - do 3 (apply Forall_cons_2; [intros _; left; vm_compute; discriminate|]). apply Forall_nil_2.
Qed.

(** Successive calls of [allocate_frame] on the map the boot loader left
    return the free pages of the machine one by one, in the order of the map,
    and [None] from then on; no call panics. *)
Theorem allocate_frames_exact kernel_start kernel_end mem info_addr es n :
  0 ≤ kernel_start < kernel_end ∧ kernel_end ≤ 0xFFFFF000 →
  boot_map mem info_addr es →
  allocate_frames kernel_start kernel_end mem n (BumpAllocator_new mem info_addr) =
    Ret ((λ i, mkFrame <$> usable_frames kernel_start kernel_end es !! i) <$> seq 0 n).
Proof.
  intros Hk Hb. destruct (boot_alloc_ok _ _ _ Hb) as [Hok Hnone].
  rewrite (allocate_frames_delivers _ _ _ (bm_bytes _ _ _ Hb) Hk _ _ _ Hok).
  by rewrite remaining_boot.
Qed.

Lemma allocate_frames_exact_witness :
  allocate_frames 0x100000 0x401234 demo_memory 3 (BumpAllocator_new demo_memory 0x1000) =
    Ret [Some (mkFrame 0x402000); None; None].
Proof.
  rewrite (allocate_frames_exact 0x100000 0x401234 demo_memory 0x1000 demo_entries 3);
    [vm_compute; reflexivity|lia|exact demo_boot_map].
Defined.

(** C7. With non-overlapping available regions, every frame handed out is a
    free page (aligned, inside an available region, above the first MiB, below
    4 GiB and clear of the kernel image), no two calls hand out the same frame,
    and every free page is handed out eventually. *)
Theorem allocated_frames_free kernel_start kernel_end mem info_addr es :
  0 ≤ kernel_start < kernel_end ∧ kernel_end ≤ 0xFFFFF000 →
  boot_map mem info_addr es → regions_disjoint es →
  ∀ n, ∃ fs, allocate_frames kernel_start kernel_end mem n (BumpAllocator_new mem info_addr) = Ret fs ∧
    (∀ i f, fs !! i = Some (Some f) → free_page kernel_start kernel_end es (start_address f)) ∧
    (∀ i j f, fs !! i = Some (Some f) → fs !! j = Some (Some f) → i = j) ∧
    (∀ p, free_page kernel_start kernel_end es p →
       (length (usable_frames kernel_start kernel_end es) ≤ n)%nat → Some (mkFrame p) ∈ fs).
Proof.
  intros Hk Hb Hd n. destruct (boot_alloc_ok _ _ _ Hb) as [Hok Hnone].
  rewrite (allocate_frames_delivers _ _ _ (bm_bytes _ _ _ Hb) Hk _ _ _ Hok), remaining_boot by done.
  eexists. split; [done|].
  assert (∀ i f, ((λ i, mkFrame <$> usable_frames kernel_start kernel_end es !! i) <$> seq 0 n) !! i
                   = Some (Some f) → usable_frames kernel_start kernel_end es !! i = Some (start_address f)) as Hget.
  { intros i f. rewrite list_lookup_fmap. intros (k & [-> _]%lookup_seq & Hf)%fmap_Some.
    cbn in Hf. by destruct (usable_frames _ _ _ !! i); simplify_eq/=. }
  split_and!.
  - intros i f Hf%Hget. apply elem_of_usable, list_elem_of_lookup. eauto.
  - intros i j f Hi%Hget Hj%Hget. eapply NoDup_lookup; eauto using NoDup_usable.
  - intros p [i Hi]%elem_of_usable%list_elem_of_lookup Hn. apply list_elem_of_fmap. exists i.
    rewrite Hi. split; [done|]. apply elem_of_seq. apply lookup_lt_Some in Hi. lia.
Qed.

Lemma allocated_frames_free_witness :
  ∃ fs, allocate_frames 0x100000 0x401234 demo_memory 2 (BumpAllocator_new demo_memory 0x1000) = Ret fs ∧
    (∀ i f, fs !! i = Some (Some f) → free_page 0x100000 0x401234 demo_entries (start_address f)).
Proof.
  destruct (allocated_frames_free 0x100000 0x401234 demo_memory 0x1000 demo_entries) with (n := 2%nat)
    as (fs & Hfs & Hfree & _).
  - lia.
  - exact demo_boot_map.
  - intros [|[|[|i]]] [|[|[|j]]] e e' Hij Hi Hj; cbn in Hi, Hj; simplify_eq;
      vm_compute; intros; first [done|left; discriminate|right; discriminate].
  - exists fs. split; [exact Hfs|exact Hfree].
Defined.

Lemma next_region_advances mem a a' addr :
  mem_bytes mem → next_region a (read_entry mem addr) = Ret a' →
  current_mmap_offset a + 4 ≤ current_mmap_offset a' ∧ memory_map_length a' = memory_map_length a.
Proof.
  intros Hm. destruct (read_entry_bounds mem Hm addr) as [[Hs _] _].
  revert Hs. generalize (read_entry mem addr). intros e Hs. unfold next_region.
  destruct (add_u32 (size _) 4) as [step| |] eqn:E1; try done. cbn [mbind outcome_bind].
  apply add_u32_inv in E1 as [-> _].
  destruct (add_u32 (current_mmap_offset a) _) as [off| |] eqn:E2; try done. cbn [mbind outcome_bind].
  apply add_u32_inv in E2 as [-> _]. intros [= <-]. cbn [current_mmap_offset memory_map_length]. lia.
Qed.

Lemma next_region_fuel a e : next_region a e ≠ OutOfFuel.
Proof.
  unfold next_region. destruct (add_u32 (size e) 4) eqn:E; try done.
  - cbn. destruct (add_u32 (current_mmap_offset a) _) eqn:E'; try done. by apply add_u32_fuel in E'.
  - by apply add_u32_fuel in E.
Qed.

Lemma allocate_loop_fuel ks ke mem fuel : ∀ a,
  mem_bytes mem → memory_map_length a - current_mmap_offset a ≤ 4 * Z.of_nat fuel →
  allocate_loop ks ke mem fuel a ≠ OutOfFuel.
Proof.
  induction fuel as [|fuel IH]; intros a Hm Hf; cbn [allocate_loop]; case_bool; [lia|done| |done].
  destruct (add_u32 (memory_map_addr a) _) as [mmap| |] eqn:E; [|done|by apply add_u32_fuel in E].
  cbn [mbind outcome_bind].
  assert ((next_region a (read_entry mem mmap) ≫= λ a, allocate_loop ks ke mem fuel a) ≠ OutOfFuel) as Hskip.
  { destruct (next_region _ _) as [a'| |] eqn:Hn; [|done|by apply next_region_fuel in Hn]. cbn.
    apply next_region_advances in Hn as []; [|done]. apply IH; [done|lia]. }
  destruct (negb _); [done|]. destruct (_ || _); [done|].
  destruct (next_free_frame a); cbn [mbind outcome_bind];
    [|unfold align_up, add_u64; case_bool; cbn; [|case_bool; cbn; [|done]]].
  all: unfold kernel_end_aligned, add_u32;
    repeat (first [done | case_match]; cbn [mbind outcome_bind] in *; simplify_eq).
Qed.

(** On any memory contents, well-formed map or not, a call of
    [allocate_frame] ends: it returns or panics on an overflowing offset. *)
Theorem allocate_frame_terminates kernel_start kernel_end mem a :
  mem_bytes mem → 0 ≤ current_mmap_offset a →
  allocate_frame kernel_start kernel_end mem a ≠ OutOfFuel.
Proof.
  intros Hm Ho. apply allocate_loop_fuel; [done|]. unfold map_fuel. lia_div.
Qed.

Lemma allocate_frame_terminates_witness :
  allocate_frame 0x100000 0x200000 demo_memory (mkBump 0x1000 400 None 0) ≠ OutOfFuel.
Proof.
  apply allocate_frame_terminates; [exact (bm_bytes _ _ _ demo_boot_map)|cbn; lia].
Defined.

(** ** The memory listing *)

(** The total the listing adds up, and the memory there is, in KiB. *)
Definition reported_kb (es : list MemoryMapEntry) : Z :=
  foldr (λ e total, (if is_available e then length_low e / 1024 else 0) + total) 0 es.
Definition available_kb (es : list MemoryMapEntry) : Z :=
  foldr (λ e total, (if is_available e then region_length e / 1024 else 0) + total) 0 es.

Lemma reported_nonneg mem base len off es :
  mem_bytes mem → map_entries mem base len off es → 0 ≤ reported_kb es.
Proof.
  intros Hm. induction 1 as [|off es _ _ IH]; [done|]. cbn [reported_kb foldr]. fold (reported_kb es).
  destruct (read_entry_bounds mem Hm (base + off)) as (_ & _ & _ & [Hl _] & _).
  case_match; [|lia]. pose proof (Z.div_pos (length_low (read_entry mem (base + off))) 1024). lia.
Qed.

Lemma print_loop_lines mem base len es : ∀ off fuel total,
  mem_bytes mem → 0 ≤ base → 0 ≤ off → base + len ≤ U32_MAX → 0 ≤ total →
  total + reported_kb es ≤ U32_MAX → (length es ≤ fuel)%nat →
  map_entries mem base len off es →
  print_loop fuel mem (base + off) (base + len) total = Ret (entry_line <$> es, total + reported_kb es).
Proof.
  induction es as [|e es IH]; intros off fuel total Hm Hb Ho Hl Ht Hr Hf Hes;
    inversion Hes as [Heq|off' es' Hlt Hes' Heq1 Heq2]; simplify_eq.
  { destruct fuel; cbn [print_loop]; rewrite Z.ltb_irrefl; cbn; by rewrite Z.add_0_r. }
  destruct fuel as [|fuel]; [cbn in Hf; lia|]. cbn [print_loop reported_kb foldr] in *.
  fold (reported_kb es) in *. pose proof (map_entries_fit mem Hm _ _ _ _ Hes').
  pose proof (reported_nonneg _ _ _ _ _ Hm Hes').
  destruct (read_entry_bounds mem Hm (base + off)) as (Hs & _ & _ & [Hl0 _] & _).
  revert Hs Hl0 Hes' Hr H. set (e := read_entry mem (base + off)). clearbody e. intros Hs Hl0 Hes' Hr H.
  pose proof (Z.div_pos (length_low e) 1024). unfold is_u32 in Hs.
  rewrite (proj2 (Z.ltb_lt _ _)) by lia.
  assert ((if is_available e then add_u32 total (length_low e / 1024) else Ret total) =
          Ret (total + (if is_available e then length_low e / 1024 else 0))) as ->.
  { destruct (is_available e); [by rewrite add_u32_Ret by lia|by rewrite Z.add_0_r]. }
  cbn [mbind outcome_bind]. rewrite (add_u32_Ret (size e)) by lia. cbn [mbind outcome_bind].
  rewrite add_u32_Ret by lia. cbn [mbind outcome_bind]. rewrite <- Z.add_assoc.
  rewrite IH; [cbn; do 2 f_equal; lia|..]; try done; [lia|destruct (is_available e); lia|lia|cbn in Hf; lia].
Qed.

Lemma region_length_low e : length_high e = 0 → region_length e = length_low e.
Proof. unfold region_length. intros ->. apply Z.lor_0_r. Qed.

Lemma memory_map_lines mem info_addr es :
  boot_map mem info_addr es → reported_kb es ≤ U32_MAX →
  let total := "Total Available RAM: " +:+ dec (reported_kb es / 1024) +:+ " MB" in
  print_memory_map mem info_addr =
    Ret (serial_println "Multiboot Memory Map detected!" :: (entry_line <$> es) ++
         [println total; serial_println total]).
Proof.
  intros [Hm Hf Hend Hes _] Hr total.
  unfold print_memory_map. rewrite Hf, add_u32_Ret by done. cbn [mbind outcome_bind].
  rewrite <- (Z.add_0_r (mmap_addr (read_info mem info_addr))) at 1.
  pose proof (map_entries_fit mem Hm _ _ _ _ Hes).
  rewrite (print_loop_lines mem _ _ es); try done; [apply read_u32_bounds, Hm|].
  unfold map_fuel. lia_div.
Qed.

(** C38. [print_memory_map] on the loader's map prints one line per entry and a
    total that is the sum of the low words of the available lengths; it is the
    memory there is when no available region is 4 GiB or longer. *)
Theorem print_memory_map_exact mem info_addr es :
  boot_map mem info_addr es → reported_kb es ≤ U32_MAX →
  let total := "Total Available RAM: " +:+ dec (reported_kb es / 1024) +:+ " MB" in
  print_memory_map mem info_addr =
    Ret (serial_println "Multiboot Memory Map detected!" :: (entry_line <$> es) ++
         [println total; serial_println total]) ∧
  ((∀ e, e ∈ es → is_available e = true → length_high e = 0) → reported_kb es = available_kb es).
Proof.
  intros Hb Hr total. split.
  - by apply memory_map_lines.
  - clear. intros H. induction es as [|e es IH]; [done|]. cbn [reported_kb available_kb foldr].
    fold (reported_kb es) (available_kb es). rewrite IH by set_solver.
    destruct (is_available e) eqn:Hav; [|done]. rewrite region_length_low; [done|]. by apply H; [left|].
Qed.

Lemma print_memory_map_exact_witness :
  print_memory_map demo_memory 0x1000 =
    Ret [serial_println "Multiboot Memory Map detected!";
         serial_println "Base: 0x00000000, Length: 0x0009FC00, Type: 1";
         serial_println "Base: 0x00100000, Length: 0x00303800, Type: 1";
         serial_println "Base: 0xFEC00000, Length: 0x00001000, Type: 2";
         println "Total Available RAM: 3 MB"; serial_println "Total Available RAM: 3 MB"].
Proof.
  destruct (print_memory_map_exact demo_memory 0x1000 demo_entries) as [-> _];
    [exact demo_boot_map|vm_compute; discriminate|vm_compute; reflexivity].
Defined.

(** ** The last page below 4 GiB *)

(** A machine with one available region. *)
Definition one_region_memory (base_low base_high len_low len_high : Z) : memory :=
  memory_of 0x1000 (mjoin (bytes_of_u32 <$>
    ([64; 0; 0; 0; 0; 0; 0; 0; 0; 0; 0; 24; 0x1058] ++ replicate 9 0 ++
     [20; base_low; base_high; len_low; len_high; 1]))).

(** Where an available region reaches into the last page below 4 GiB the
    allocator is wrong: a region starting inside that page makes it hand out
    frame 0, which is neither in the region nor above the first MiB, and a
    region that covers the page makes the call panic on overflow. *)
Theorem allocate_frame_top_page :
  allocate_frames 0x100000 0x200000 (one_region_memory 0xFFFFF800 0 0x100000 0) 1
    (BumpAllocator_new (one_region_memory 0xFFFFF800 0 0x100000 0) 0x1000) = Ret [Some (mkFrame 0)] ∧
  allocate_frames 0x100000 0x200000 (one_region_memory 0xFFFFE000 0 0x2000 0) 1
    (BumpAllocator_new (one_region_memory 0xFFFFE000 0 0x2000 0) 0x1000) = Ret [Some (mkFrame 0xFFFFE000)] ∧
  allocate_frames 0x100000 0x200000 (one_region_memory 0xFFFFE000 0 0x2000 0) 2
    (BumpAllocator_new (one_region_memory 0xFFFFE000 0 0x2000 0) 0x1000) =
    Panic "attempt to add with overflow".
Proof. vm_compute. done. Qed.

(** A region of 4 GiB at 4 GiB is listed with length 0. *)
Lemma print_memory_map_high_length :
  print_memory_map (one_region_memory 0 1 0 1) 0x1000 =
    Ret [serial_println "Multiboot Memory Map detected!";
         serial_println "Base: 0x00000000, Length: 0x00000000, Type: 1";
         println "Total Available RAM: 0 MB"; serial_println "Total Available RAM: 0 MB"].
Proof. vm_compute. reflexivity. Qed.
