(* ===== verification/Paging.v ===== *)
(** * Paging: [src/paging.rs]

    The three page structures [init] fills, the control registers it loads, and
    the address translation the processor performs with them (two-level 32-bit
    paging, Intel SDM vol. 3, 4.3).  The physical addresses the linker gives the
    three static structures are parameters.  [user_range_contains] is the check
    the system calls rely on; [UserMemory] states what it promises. *)

From S2P Require Import Prelude Machine.
Local Open Scope Z_scope.

Definition PAGE_PRESENT : Z := 0x01.
Definition PAGE_RW : Z := 0x02.
Definition PAGE_USER : Z := 0x04.
Definition ENTRIES_PER_TABLE : nat := 1024.
Definition USER_SPACE_START : Z := 0x00400000.
Definition USER_SPACE_END : Z := 0x00800000.
Definition USER_STACK_TOP : Z := USER_SPACE_END.

(** [len : usize] is 32 bits wide, so [len as u32] keeps it. *)
Definition user_range_contains (ptr len : Z) : bool :=
  if len =? 0 then false else
  match checked_add_u32 ptr len with
  | None => false
  | Some stop => (USER_SPACE_START <=? ptr) && (stop <=? USER_SPACE_END) && (ptr <? stop)
  end.

(** The static structures and the registers paging uses. *)
Record PagingState := mkPaging {
  page_directory : list Z;
  page_table_0 : list Z;
  page_table_1 : list Z;
  cr3 : Z;
  cr0 : Z;
}.

(** [for i in 0..ENTRIES_PER_TABLE { table.entries[i] = f(i) }]. *)
Definition fill_table (f : Z → Z) (table : list Z) : list Z :=
  foldl (λ t i, <[i := f (Z.of_nat i)]> t) table (seq 0 ENTRIES_PER_TABLE).

Section Paging.
Context (pd_addr pt0_addr pt1_addr : Z).

Definition init (s : PagingState) : PagingState :=
  let pt0 := fill_table (λ i, let phys_addr := as_u32 (i * 4096) in
               Z.lor (Z.lor phys_addr PAGE_PRESENT) PAGE_RW) (page_table_0 s) in
  let pt1 := fill_table (λ i, let phys_addr := USER_SPACE_START + as_u32 (i * 4096) in
               Z.lor (Z.lor (Z.lor phys_addr PAGE_PRESENT) PAGE_RW) PAGE_USER) (page_table_1 s) in
  let pt0_phys := pt0_addr - 4096 * 0 in
  let pt1_phys := pt1_addr - 4096 * 0 in
  let pd := <[0%nat := Z.lor (Z.lor pt0_phys PAGE_PRESENT) PAGE_RW]> (page_directory s) in
  let pd := <[1%nat := Z.lor (Z.lor (Z.lor pt1_phys PAGE_PRESENT) PAGE_RW) PAGE_USER]> pd in
  mkPaging pd pt0 pt1 pd_addr (Z.lor (cr0 s) 0x80000000).

(** ** The processor's translation *)

(** The table structure at a physical address, if one of the kernel's is there. *)
Definition table_at (s : PagingState) (a : Z) : option (list Z) :=
  if a =? pd_addr then Some (page_directory s) else
  if a =? pt0_addr then Some (page_table_0 s) else
  if a =? pt1_addr then Some (page_table_1 s) else None.

Inductive mode := Supervisor | UserMode.
Inductive access := ReadAccess | WriteAccess.

(** The page frame address of an entry: bits 12 to 31. *)
Definition entry_frame (e : Z) : Z := Z.land e 0xFFFFF000.

(** The entry is present and permits the access; [CR0.WP] is clear, so
    supervisor writes ignore the [R/W] flag. *)
Definition entry_permits (m : mode) (acc : access) (e : Z) : bool :=
  Z.testbit e 0 &&
  match m with
  | Supervisor => true
  | UserMode => Z.testbit e 2 && (match acc with ReadAccess => true | WriteAccess => Z.testbit e 1 end)
  end.

(** One level: the entry at [index] of the table at [table], if it permits the access. *)
Definition walk_level (s : PagingState) (m : mode) (acc : access) (table index : Z) : option Z :=
  t ← table_at s table;
  e ← t !! Z.to_nat index;
  if entry_permits m acc e then Some (entry_frame e) else None.

(** The physical address, or [None] for a page fault. *)
Definition translate (s : PagingState) (m : mode) (acc : access) (va : Z) : option Z :=
  if negb (Z.testbit (cr0 s) 31) then Some va else
  pt ← walk_level s m acc (entry_frame (cr3 s)) (Z.shiftr va 22);
  frame ← walk_level s m acc pt (Z.land (Z.shiftr va 12) 0x3FF);
  Some (Z.lor frame (Z.land va 0xFFF)).

End Paging.

(** ** What the check promises to its callers *)

Class UserMemory (accessible : Z → Prop) : Prop := {
  user_range_accessible ptr len :
    user_range_contains ptr len = true → ∀ i, 0 ≤ i < len → accessible (ptr + i);
}.

(** ** Lemmas *)

Lemma fill_prefix_lookup (f : Z → Z) n t :
  (n ≤ length t)%nat →
  ∀ i, (i < n)%nat → foldl (λ t i, <[i := f (Z.of_nat i)]> t) t (seq 0 n) !! i = Some (f (Z.of_nat i)).
Proof.
  assert (∀ m u, length (foldl (λ t i, <[i := f (Z.of_nat i)]> t) u m) = length u) as Hlen.
  { induction m as [|x m IH]; intros u; [done|]. cbn. by rewrite IH, length_insert. }
  induction n as [|n IH]; intros Hn i Hi; [lia|].
  rewrite seq_S, foldl_app. cbn. destruct (decide (i = n)) as [->|].
  - apply list_lookup_insert_eq. rewrite Hlen. lia.
  - rewrite list_lookup_insert_ne by done. apply IH; lia.
Qed.

Lemma fill_table_lookup f t i :
  length t = 1024%nat → 0 ≤ i < 1024 → fill_table f t !! Z.to_nat i = Some (f i).
Proof.
  intros Ht Hi. unfold fill_table, ENTRIES_PER_TABLE.
  rewrite fill_prefix_lookup by lia. by rewrite Z2Nat.id by lia.
Qed.

(** Entries are a 4 KiB-aligned address and flags: reading the parts back. *)
Lemma entry_parts a fl :
  is_u32 a → a mod 4096 = 0 → 0 ≤ fl < 4096 →
  entry_frame (Z.lor a fl) = a ∧ (∀ n, 0 ≤ n < 12 → Z.testbit (Z.lor a fl) n = Z.testbit fl n).
Proof.
  intros [Ha Ha'] Hmod Hfl. unfold U32_MAX in Ha'.
  assert (∀ n, 0 ≤ n < 12 → Z.testbit a n = false) as Hlow.
  { intros n Hn. rewrite <- (Z.mod_pow2_bits_low a 12) by lia. change (2 ^ 12) with 4096. by rewrite Hmod, Z.bits_0. }
  assert (∀ n, 12 ≤ n → Z.testbit fl n = false) as Hhigh.
  { intros n Hn. rewrite <- (Z.mod_small fl (2 ^ 12)) by (cbn; lia). apply Z.mod_pow2_bits_high. lia. }
  assert (∀ n, 32 ≤ n → Z.testbit a n = false) as Htop.
  { intros n Hn. rewrite <- (Z.mod_small a (2 ^ 32)) by (cbn; lia). apply Z.mod_pow2_bits_high. lia. }
  split; [|intros n Hn; by rewrite Z.lor_spec, Hlow by done].
  apply Z.bits_inj'. intros n Hn. unfold entry_frame.
  change 0xFFFFF000 with (Z.shiftl (Z.ones 20) 12).
  rewrite Z.land_spec, Z.lor_spec, Z.shiftl_spec by done.
  destruct (decide (n < 12)).
  - rewrite Hlow by lia. rewrite (Z.testbit_neg_r (Z.ones 20)) by lia. by rewrite andb_false_r.
  - rewrite Hhigh by lia. rewrite orb_false_r. destruct (decide (n < 32)).
    + rewrite Z.ones_spec_low by lia. by rewrite andb_true_r.
    + by rewrite Htop by lia.
Qed.

Lemma lor_page_offset va : 0 ≤ va → Z.lor (4096 * (va / 4096)) (Z.land va 0xFFF) = va.
Proof.
  intros Hva. change 0xFFF with (Z.ones 12).
  replace (4096 * (va / 4096)) with (Z.shiftl (Z.shiftr va 12) 12)
    by (rewrite Z.shiftr_div_pow2, Z.shiftl_mul_pow2 by lia; change (2 ^ 12) with 4096; lia).
  apply Z.bits_inj'. intros n Hn. rewrite Z.lor_spec, Z.land_spec, Z.shiftl_spec by done.
  destruct (decide (n < 12)).
  - rewrite (Z.testbit_neg_r _ (n - 12)), Z.ones_spec_low by lia. by rewrite andb_true_r.
  - rewrite Z.shiftr_spec, Z.ones_spec_high by lia. rewrite andb_false_r, orb_false_r. f_equal. lia.
Qed.

(** ** The address space after [init] *)

(** The static structures start zeroed and page aligned, at distinct addresses. *)
Record paging_boot (pd pt0 pt1 : Z) (s : PagingState) : Prop := {
  pb_pd : page_directory s = replicate 1024 0;
  pb_pt0 : length (page_table_0 s) = 1024%nat;
  pb_pt1 : length (page_table_1 s) = 1024%nat;
  pb_addrs : Forall (λ a, is_u32 a ∧ a mod 4096 = 0) [pd; pt0; pt1];
  pb_distinct : NoDup [pd; pt0; pt1];
}.

Section Space.
Context (pd pt0 pt1 : Z) (s : PagingState) (Hb : paging_boot pd pt0 pt1 s).

Local Abbreviation s' := (init pd pt0 pt1 s).

Lemma addr_ok a : a ∈ [pd; pt0; pt1] → is_u32 a ∧ a mod 4096 = 0.
Proof. revert a. apply Forall_forall, (pb_addrs _ _ _ _ Hb). Qed.

Lemma aligned_frame a : a ∈ [pd; pt0; pt1] → entry_frame a = a.
Proof.
  intros [Hu Hm]%addr_ok. pose proof (proj1 (entry_parts a 0 Hu Hm ltac:(lia))) as H.
  by rewrite Z.lor_0_r in H.
Qed.

Lemma table_at_pd : table_at pd pt0 pt1 s' pd = Some (page_directory s').
Proof. unfold table_at. by rewrite Z.eqb_refl. Qed.

Lemma table_at_pt0 : table_at pd pt0 pt1 s' pt0 = Some (page_table_0 s').
Proof.
  unfold table_at. pose proof (pb_distinct _ _ _ _ Hb) as Hd. inversion Hd as [|?? H1 H2]. inversion H2 as [|?? H3].
  destruct (Z.eqb_spec pt0 pd); [set_solver|]. by rewrite Z.eqb_refl.
Qed.

Lemma table_at_pt1 : table_at pd pt0 pt1 s' pt1 = Some (page_table_1 s').
Proof.
  unfold table_at. pose proof (pb_distinct _ _ _ _ Hb) as Hd. inversion Hd as [|?? H1 H2]. inversion H2 as [|?? H3].
  destruct (Z.eqb_spec pt1 pd); [set_solver|]. destruct (Z.eqb_spec pt1 pt0); [set_solver|].
  by rewrite Z.eqb_refl.
Qed.

(** The directory: two entries, the rest not present. *)
Lemma directory_lookup i :
  0 ≤ i → page_directory s' !! Z.to_nat i =
    if i =? 0 then Some (Z.lor pt0 3) else if i =? 1 then Some (Z.lor pt1 7)
    else if i <? 1024 then Some 0 else None.
Proof.
  intros Hi. cbn [init page_directory]. rewrite (pb_pd _ _ _ _ Hb), !Z.mul_0_r, !Z.sub_0_r, <- !Z.lor_assoc.
  destruct (Z.eqb_spec i 0) as [->|]; [done|]. destruct (Z.eqb_spec i 1) as [->|]; [done|].
  rewrite !list_lookup_insert_ne by lia. case_bool.
  - apply lookup_replicate. split; [done|lia].
  - apply lookup_replicate_None. lia.
Qed.

Lemma table_0_lookup i : 0 ≤ i < 1024 → page_table_0 s' !! Z.to_nat i = Some (Z.lor (4096 * i) 3).
Proof.
  intros Hi. cbn [init page_table_0].
  rewrite fill_table_lookup by (done || apply (pb_pt0 _ _ _ _ Hb)). rewrite <- Z.lor_assoc by lia. unfold as_u32. rewrite Z.mod_small by lia.
  do 2 f_equal; lia.
Qed.

Lemma table_1_lookup i :
  0 ≤ i < 1024 → page_table_1 s' !! Z.to_nat i = Some (Z.lor (4096 * (1024 + i)) 7).
Proof.
  intros Hi. cbn [init page_table_1].
  rewrite fill_table_lookup by (done || apply (pb_pt1 _ _ _ _ Hb)). rewrite <- !Z.lor_assoc by lia. unfold as_u32, USER_SPACE_START. rewrite Z.mod_small by lia.
  do 2 f_equal; lia.
Qed.

Lemma paging_enabled : Z.testbit (cr0 s') 31 = true.
Proof. cbn [init cr0]. by rewrite Z.lor_spec, orb_true_r. Qed.

Lemma walk_level_entry m acc table t index a fl :
  table_at pd pt0 pt1 s' table = Some t → t !! Z.to_nat index = Some (Z.lor a fl) →
  is_u32 a → a mod 4096 = 0 → 0 ≤ fl < 4096 →
  walk_level pd pt0 pt1 s' m acc table index = if entry_permits m acc fl then Some a else None.
Proof.
  intros Ht He Ha Hm Hfl. unfold walk_level. rewrite Ht. cbn [mbind option_bind]. rewrite He. cbn [mbind option_bind].
  destruct (entry_parts a fl Ha Hm Hfl) as [-> Hbits]. unfold entry_permits.
  by rewrite !Hbits by lia.
Qed.

(** The two mapped ranges: the table the directory selects and its entry. *)
Lemma translate_mapped m acc va pt t fl :
  0 ≤ va ≤ U32_MAX → va / 0x400000 < 2 →
  page_directory s' !! Z.to_nat (va / 0x400000) = Some (Z.lor pt fl) →
  pt ∈ [pd; pt0; pt1] → table_at pd pt0 pt1 s' pt = Some t →
  t !! Z.to_nat (va / 4096 mod 1024) = Some (Z.lor (4096 * (va / 4096)) fl) → 0 ≤ fl < 4096 →
  translate pd pt0 pt1 s' m acc va = if entry_permits m acc fl then Some va else None.
Proof.
  intros Hva Hlt Hde [Hpt Hptm]%addr_ok Htab Hte Hfl. unfold translate. rewrite paging_enabled. cbn [negb].
  change (cr3 s') with pd. rewrite (aligned_frame pd) by left. change 0x3FF with (Z.ones 10).
  rewrite !Z.shiftr_div_pow2, Z.land_ones by lia. change (2 ^ 22) with 0x400000.
  change (2 ^ 12) with 4096. change (2 ^ 10) with 1024.
  rewrite (walk_level_entry m acc _ _ _ pt fl table_at_pd Hde) by done.
  destruct (entry_permits m acc fl) eqn:E; [|done]. cbn [mbind option_bind].
  rewrite (walk_level_entry m acc _ _ _ _ fl Htab Hte), E by (unfold is_u32, U32_MAX in *; lia_div).
  cbn [mbind option_bind]. by rewrite lor_page_offset by lia.
Qed.

Lemma translate_unmapped m acc va :
  0x800000 ≤ va ≤ U32_MAX → translate pd pt0 pt1 s' m acc va = None.
Proof.
  intros Hva. unfold translate. rewrite paging_enabled. cbn [negb].
  change (cr3 s') with pd. rewrite (aligned_frame pd) by left.
  rewrite (Z.shiftr_div_pow2 va 22) by lia. change (2 ^ 22) with 0x400000.
  assert (2 ≤ va / 0x400000 < 1024) by (unfold U32_MAX in *; lia_div).
  unfold walk_level at 2. rewrite table_at_pd. cbn [mbind option_bind].
  rewrite directory_lookup, (proj2 (Z.eqb_neq _ 0)), (proj2 (Z.eqb_neq _ 1)), (proj2 (Z.ltb_lt _ _)) by lia.
  done.
Qed.

(** What each mode can reach, and where. *)
Definition address_space (m : mode) (va : Z) : option Z :=
  if va <? USER_SPACE_START then match m with Supervisor => Some va | UserMode => None end
  else if va <? USER_SPACE_END then Some va else None.

Lemma translate_space m acc va :
  is_u32 va → translate pd pt0 pt1 s' m acc va = address_space m va.
Proof.
  intros Hva. unfold address_space, USER_SPACE_START, USER_SPACE_END. unfold is_u32 in Hva.
  case_bool; [|case_bool].
  - rewrite (translate_mapped m acc va pt0 (page_table_0 s') 3); try lia_div; [by destruct m| |set_solver|apply table_at_pt0|].
    + rewrite directory_lookup by lia_div. by rewrite (proj2 (Z.eqb_eq _ 0)) by lia_div.
    + rewrite table_0_lookup by lia_div. do 3 f_equal. lia_div.
  - rewrite (translate_mapped m acc va pt1 (page_table_1 s') 7); try lia_div; [by destruct m, acc| |set_solver|apply table_at_pt1|].
    + rewrite directory_lookup by lia_div.
      by rewrite (proj2 (Z.eqb_neq _ 0)), (proj2 (Z.eqb_eq _ 1)) by lia_div.
    + rewrite table_1_lookup by lia_div. do 3 f_equal. lia_div.
  - apply translate_unmapped. lia.
Qed.

End Space.

(** An address user code can read and write after [init]. *)
Definition user_accessible (pd pt0 pt1 : Z) (s : PagingState) (va : Z) : Prop :=
  is_u32 va ∧ ∀ acc, translate pd pt0 pt1 (init pd pt0 pt1 s) UserMode acc va ≠ None.

Lemma user_accessible_iff pd pt0 pt1 s va :
  paging_boot pd pt0 pt1 s →
  user_accessible pd pt0 pt1 s va ↔ USER_SPACE_START ≤ va < USER_SPACE_END.
Proof.
  intros Hb. unfold user_accessible, USER_SPACE_START, USER_SPACE_END. split.
  - intros [Hva H]. specialize (H ReadAccess). rewrite translate_space in H by done.
    unfold address_space, USER_SPACE_START, USER_SPACE_END in H.
    destruct (Z.ltb_spec va 0x400000); [done|]. destruct (Z.ltb_spec va 0x800000); [lia|done].
  - intros Hva. assert (is_u32 va) by (unfold is_u32, U32_MAX; lia). split; [done|].
    intros acc. rewrite translate_space by done. unfold address_space, USER_SPACE_START, USER_SPACE_END.
    by rewrite (proj2 (Z.ltb_ge _ _)), (proj2 (Z.ltb_lt _ _)) by lia.
Qed.

Lemma user_range_contains_spec ptr len :
  is_u32 ptr → is_u32 len →
  user_range_contains ptr len = true ↔
    0 < len ∧ USER_SPACE_START ≤ ptr ∧ ptr + len ≤ USER_SPACE_END.
Proof.
  unfold is_u32. intros Hp Hl.
  unfold user_range_contains, checked_add_u32, USER_SPACE_START, USER_SPACE_END, U32_MAX in *.
  destruct (Z.eqb_spec len 0); [split; [done|lia]|].
  destruct (Z.leb_spec (ptr + len) 4294967295); [|split; [done|lia]].
  rewrite !andb_true_iff, !Z.leb_le, Z.ltb_lt. lia.
Qed.

#[export] Instance paging_user_memory pd pt0 pt1 s (Hb : paging_boot pd pt0 pt1 s) :
  UserMemory (user_accessible pd pt0 pt1 s).
Proof.
  split. intros ptr len H i Hi. apply user_accessible_iff; [done|]. revert H.
  unfold user_range_contains, checked_add_u32. destruct (Z.eqb_spec len 0); [lia|].
  destruct (Z.leb_spec (ptr + len) U32_MAX); [|done].
  rewrite !andb_true_iff, !Z.leb_le, Z.ltb_lt. lia.
Qed.

(** ** Claims *)

(** A boot state with the structures at three pages of the kernel image. *)
Definition demo_paging : PagingState := mkPaging (replicate 1024 0) (replicate 1024 0) (replicate 1024 0) 0 0x11.

Lemma demo_paging_boot : paging_boot 0x110000 0x111000 0x112000 demo_paging.
Proof.
  split; [done..| |].
  - unfold is_u32, U32_MAX. repeat constructor; lia.
  - repeat constructor; set_solver by lia.
Qed.

(** C8. After [init], in either mode and for reads and writes: the first 4 MiB
    translate to themselves for the kernel and fault for user code, the next
    4 MiB translate to themselves for both, and everything above faults. *)
Theorem init_address_space pd pt0 pt1 s m acc va :
  paging_boot pd pt0 pt1 s → is_u32 va →
  translate pd pt0 pt1 (init pd pt0 pt1 s) m acc va =
    if va <? 0x400000 then match m with Supervisor => Some va | UserMode => None end
    else if va <? 0x800000 then Some va else None.
Proof. intros Hb Hva. by apply translate_space. Qed.

Lemma init_address_space_witness :
  translate 0x110000 0x111000 0x112000 (init 0x110000 0x111000 0x112000 demo_paging) UserMode WriteAccess 0x400123
    = Some 0x400123 ∧
  translate 0x110000 0x111000 0x112000 (init 0x110000 0x111000 0x112000 demo_paging) UserMode ReadAccess 0x110000
    = None.
Proof.
  split; (rewrite (init_address_space _ _ _ _ _ _ _ demo_paging_boot); [reflexivity|unfold is_u32, U32_MAX; lia]).
Defined.

(** C15. [user_range_contains] accepts a buffer exactly when it is not empty and
    user code can access every byte of it, addresses wrapping at 4 GiB. *)
Theorem user_range_contains_accessible pd pt0 pt1 s ptr len :
  paging_boot pd pt0 pt1 s → is_u32 ptr → is_u32 len →
  user_range_contains ptr len = true ↔
    0 < len ∧ ∀ i, 0 ≤ i < len → user_accessible pd pt0 pt1 s (as_u32 (ptr + i)).
Proof.
  intros Hb Hp Hl. rewrite user_range_contains_spec by done.
  unfold is_u32, U32_MAX, USER_SPACE_START, USER_SPACE_END in *. split.
  - intros (H0 & H1 & H2). split; [done|]. intros i Hi. apply user_accessible_iff; [done|].
    unfold as_u32, USER_SPACE_START, USER_SPACE_END. rewrite Z.mod_small; lia.
  - intros [H0 H]. assert (USER_SPACE_START ≤ ptr < USER_SPACE_END) as Hptr.
    { apply (user_accessible_iff pd pt0 pt1 s); [done|]. specialize (H 0). unfold as_u32 in H.
      rewrite Z.add_0_r, Z.mod_small in H by lia. apply H. lia. }
    unfold USER_SPACE_START, USER_SPACE_END in Hptr. split_and!; [done|lia|].
    destruct (decide (ptr + len ≤ 0x800000)) as [|Hgt]; [done|]. exfalso.
    specialize (H (0x800000 - ptr) ltac:(lia)). apply user_accessible_iff in H; [|done].
    unfold as_u32, USER_SPACE_END in H. rewrite Z.mod_small in H; lia.
Qed.

Lemma user_range_contains_accessible_witness :
  user_range_contains 0x7FFFF0 16 = true ∧ user_range_contains 0x7FFFF0 17 = false ∧
  user_accessible 0x110000 0x111000 0x112000 demo_paging (as_u32 (0x7FFFF0 + 15)).
Proof.
  split_and!; [reflexivity..|].
  apply (user_range_contains_accessible _ _ _ _ 0x7FFFF0 16 demo_paging_boot);
    [unfold is_u32, U32_MAX; lia..|reflexivity|lia].
Defined.
