(* ===== verification/Syscall.v ===== *)
(** * System calls: [src/syscall.rs]

    [syscall_dispatcher] over the scheduler state, the memory user code sees
    and the output devices.  [core::str::from_utf8] is the standard library's
    validation, modelled by its table of well-formed byte sequences. *)

From S2P Require Import Prelude Machine Task TaskProps Scheduler Paging.
Local Open Scope Z_scope.

Definition MAX_PRINT_LEN : Z := 1024.
Definition ERR_INVALID_POINTER : Z := 1.
Definition ERR_INVALID_LENGTH : Z := 2.
Definition ERR_INVALID_UTF8 : Z := 3.
Definition ERR_INVALID_CONTEXT : Z := 4.
Definition ERR_NOT_IMPLEMENTED : Z := 0xFFFFFFFF.

Definition validate_user_buffer (ptr len : Z) : result (Z * Z) Z :=
  if (len =? 0) || (MAX_PRINT_LEN <? len) then Err ERR_INVALID_LENGTH else
  if negb (user_range_contains ptr len) then Err ERR_INVALID_POINTER else
  Ok (ptr, len).

(** ** UTF-8 *)

Definition between (lo hi b : Z) : bool := (lo <=? b) && (b <=? hi).
Definition continuation : Z → bool := between 0x80 0xBF.

(** The second byte a three- or four-byte sequence allows after its first. *)
Definition second_of_three (b0 b1 : Z) : bool :=
  (b0 =? 0xE0) && between 0xA0 0xBF b1 || between 0xE1 0xEC b0 && continuation b1
  || (b0 =? 0xED) && between 0x80 0x9F b1 || between 0xEE 0xEF b0 && continuation b1.
Definition second_of_four (b0 b1 : Z) : bool :=
  (b0 =? 0xF0) && between 0x90 0xBF b1 || between 0xF1 0xF3 b0 && continuation b1
  || (b0 =? 0xF4) && between 0x80 0x8F b1.

Fixpoint utf8_valid (l : list Z) : bool :=
  match l with
  | [] => true
  | b0 :: l1 =>
    if b0 <? 0x80 then utf8_valid l1 else
    match l1 with
    | [] => false
    | b1 :: l2 =>
      if between 0xC2 0xDF b0 then continuation b1 && utf8_valid l2 else
      match l2 with
      | [] => false
      | b2 :: l3 =>
        if between 0xE0 0xEF b0 then second_of_three b0 b1 && continuation b2 && utf8_valid l3 else
        match l3 with
        | [] => false
        | b3 :: l4 => second_of_four b0 b1 && continuation b2 && continuation b3 && utf8_valid l4
        end
      end
    end
  end.

(** The string with the given bytes. *)
Definition string_of_bytes (l : list Z) : string :=
  String.string_of_list_ascii ((λ b, ascii_of_N (Z.to_N b)) <$> l).

Definition from_utf8 (l : list Z) : option string :=
  if utf8_valid l then Some (string_of_bytes l) else None.

(** [from_raw_parts(ptr, len)]. *)
Definition slice_at (mem : memory) (ptr len : Z) : list Z :=
  (λ i, mem (ptr + i)) <$> seqZ 0 len.

(** ** The dispatcher *)

(** The result register, the texts printed and the new scheduler state. *)
Definition syscall_dispatcher (main_stack : Z) (mem : memory) (tm : TaskManager)
    (syscall_number arg1 arg2 arg3 arg4 arg5 current_esp : Z) : Z * list output * TaskManager :=
  if syscall_number =? 1 then
    match validate_user_buffer arg1 arg2 with
    | Err code => (code, [], tm)
    | Ok (ptr, len) =>
      match from_utf8 (slice_at mem ptr len) with
      | Some s => (0, [println ("[Ring 3] " +:+ s); serial_println ("[Syscall SYS_PRINT] " +:+ s)], tm)
      | None => (ERR_INVALID_UTF8, [], tm)
      end
    end
  else if syscall_number =? 2 then
    let '(slept, tm) := sleep_current_task main_stack tm current_esp 1 in
    (if slept : bool then 0 else ERR_INVALID_CONTEXT, [], tm)
  else if syscall_number =? 3 then
    let '(slept, tm) := sleep_current_task main_stack tm current_esp arg1 in
    (if slept : bool then 0 else ERR_INVALID_CONTEXT, [], tm)
  else (ERR_NOT_IMPLEMENTED, [serial_println ("[Syscall] UNKNOWN SYSCALL: " +:+ dec syscall_number)], tm).

(** ** Lemmas *)

Lemma validate_ok ptr len :
  validate_user_buffer ptr len = Ok (ptr, len) ↔ 1 ≤ len ≤ MAX_PRINT_LEN ∧ user_range_contains ptr len = true.
Proof.
  unfold validate_user_buffer, MAX_PRINT_LEN. unfold user_range_contains.
  destruct (Z.eqb_spec len 0); cbn [orb]; [split; [done|lia]|].
  destruct (Z.ltb_spec 1024 len); [split; [done|lia]|].
  destruct (checked_add_u32 ptr len) as [stop|] eqn:E; cbn [negb]; [|split; [done|intros []; done]].
  unfold checked_add_u32 in E. destruct (Z.leb_spec (ptr + len) U32_MAX); [|done]. injection E as [= <-].
  destruct ((_ <=? ptr) && _ && _) eqn:Hc; cbn [negb]; [|split; [done|intros []; done]].
  split; [|done]. rewrite !andb_true_iff, Z.ltb_lt in Hc. split; [lia|done].
Qed.

Lemma validate_inv ptr len v : validate_user_buffer ptr len = Ok v → v = (ptr, len).
Proof. unfold validate_user_buffer. repeat (case_match; [done|]). by intros [= <-]. Qed.

Lemma slice_at_ext mem mem' ptr len :
  (∀ i, 0 ≤ i < len → mem (ptr + i) = mem' (ptr + i)) → slice_at mem ptr len = slice_at mem' ptr len.
Proof.
  intros H. unfold slice_at. apply list_fmap_ext. intros k i Hi.
  apply H. apply lookup_seqZ in Hi. lia.
Qed.

Lemma slice_at_lookup mem ptr len i :
  0 ≤ i < len → slice_at mem ptr len !! Z.to_nat i = Some (mem (ptr + i)).
Proof.
  intros Hi. unfold slice_at. rewrite list_lookup_fmap, (proj2 (lookup_seqZ 0 len _ i)); [done|lia].
Qed.

Lemma length_string_of_bytes l : String.length (string_of_bytes l) = length l.
Proof. induction l as [|b l IH]; [done|]. cbn. f_equal. apply IH. Qed.

(** ** What UTF-8 validation accepts *)

Definition scalar_value (c : Z) : Prop := 0 ≤ c < 0xD800 ∨ 0xE000 ≤ c ≤ 0x10FFFF.

Definition utf8_encode (c : Z) : list Z :=
  if c <? 0x80 then [c] else
  if c <? 0x800 then [0xC0 + c / 64; 0x80 + c mod 64] else
  if c <? 0x10000 then [0xE0 + c / 4096; 0x80 + c / 64 mod 64; 0x80 + c mod 64] else
  [0xF0 + c / 262144; 0x80 + c / 4096 mod 64; 0x80 + c / 64 mod 64; 0x80 + c mod 64].

Lemma between_true lo hi b : between lo hi b = true ↔ lo ≤ b ≤ hi.
Proof. unfold between. rewrite andb_true_iff, !Z.leb_le. done. Qed.

Lemma between_false lo hi b : between lo hi b = false ↔ b < lo ∨ hi < b.
Proof. rewrite <- not_true_iff_false, between_true. lia. Qed.

(** The tables, as inequalities. *)
Lemma second_of_three_true b0 b1 :
  second_of_three b0 b1 = true ↔
  0xE0 ≤ b0 ≤ 0xEF ∧ 0x80 ≤ b1 ≤ 0xBF ∧ (b0 = 0xE0 → 0xA0 ≤ b1) ∧ (b0 = 0xED → b1 ≤ 0x9F).
Proof.
  unfold second_of_three, continuation.
  rewrite !orb_true_iff, !andb_true_iff, !between_true, !Z.eqb_eq. lia.
Qed.

Lemma second_of_four_true b0 b1 :
  second_of_four b0 b1 = true ↔
  0xF0 ≤ b0 ≤ 0xF4 ∧ 0x80 ≤ b1 ≤ 0xBF ∧ (b0 = 0xF0 → 0x90 ≤ b1) ∧ (b0 = 0xF4 → b1 ≤ 0x8F).
Proof.
  unfold second_of_four, continuation.
  rewrite !orb_true_iff, !andb_true_iff, !between_true, !Z.eqb_eq. lia.
Qed.

Lemma utf8_valid_encode c l : scalar_value c → utf8_valid (utf8_encode c ++ l) = utf8_valid l.
Proof.
  intros Hc. unfold utf8_encode, scalar_value in *.
  destruct (Z.ltb_spec c 0x80); [|destruct (Z.ltb_spec c 0x800); [|destruct (Z.ltb_spec c 0x10000)]];
    cbn [app utf8_valid].
  - by rewrite (proj2 (Z.ltb_lt _ _)) by lia.
  - rewrite (proj2 (Z.ltb_ge _ _)) by lia_div. rewrite (proj2 (between_true _ _ _)) by lia_div.
    unfold continuation. by rewrite (proj2 (between_true _ _ _)) by lia_div.
  - rewrite (proj2 (Z.ltb_ge _ _)) by lia_div. rewrite (proj2 (between_false 0xC2 0xDF _)) by lia_div.
    rewrite (proj2 (between_true 0xE0 0xEF _)) by lia_div.
    rewrite (proj2 (second_of_three_true _ _)) by lia_div.
    unfold continuation. by rewrite (proj2 (between_true _ _ _)) by lia_div.
  - rewrite (proj2 (Z.ltb_ge _ _)) by lia_div. rewrite (proj2 (between_false 0xC2 0xDF _)) by lia_div.
    rewrite (proj2 (between_false 0xE0 0xEF _)) by lia_div.
    rewrite (proj2 (second_of_four_true _ _)) by lia_div.
    unfold continuation. by rewrite !(proj2 (between_true _ _ _)) by lia_div.
Qed.

(** A valid non-empty sequence starts with the encoding of a scalar value. *)
Lemma utf8_valid_decode l :
  Forall is_u8 l → l ≠ [] → utf8_valid l = true →
  ∃ c l', scalar_value c ∧ l = utf8_encode c ++ l' ∧ utf8_valid l' = true.
Proof.
  intros Hb Hne Hv. destruct l as [|b0 l1]; [done|]. cbn [utf8_valid] in Hv.
  assert (is_u8 b0) as Hb0 by (by inversion Hb). unfold is_u8 in Hb0.
  destruct (Z.ltb_spec b0 0x80).
  { exists b0, l1. unfold scalar_value, utf8_encode. rewrite (proj2 (Z.ltb_lt _ _)) by done. split_and!; [lia|done|done]. }
  destruct l1 as [|b1 l2]; [done|].
  destruct (between 0xC2 0xDF b0) eqn:E2.
  { apply between_true in E2. apply andb_true_iff in Hv as [H1%between_true Hv].
    exists ((b0 - 0xC0) * 64 + (b1 - 0x80)), l2. unfold scalar_value, utf8_encode.
    rewrite (proj2 (Z.ltb_ge _ _)), (proj2 (Z.ltb_lt _ _)) by lia. split_and!; [lia| |done].
    cbn [app]. repeat f_equal; lia_div. }
  destruct l2 as [|b2 l3]; [done|].
  destruct (between 0xE0 0xEF b0) eqn:E3.
  { rewrite !andb_true_iff, second_of_three_true in Hv. destruct Hv as [[(H0 & H1 & Hlo & Hhi) H2%between_true] Hv].
    exists ((b0 - 0xE0) * 4096 + (b1 - 0x80) * 64 + (b2 - 0x80)), l3. unfold scalar_value, utf8_encode.
    rewrite (proj2 (Z.ltb_ge _ 0x80)), (proj2 (Z.ltb_ge _ 0x800)), (proj2 (Z.ltb_lt _ _)) by lia.
    split_and!; [lia| |done]. cbn [app]. repeat f_equal; lia_div. }
  destruct l3 as [|b3 l4]; [done|].
  rewrite !andb_true_iff, second_of_four_true in Hv.
  destruct Hv as [[[(H0 & H1 & Hlo & Hhi) H2%between_true] H3%between_true] Hv].
  exists ((b0 - 0xF0) * 262144 + (b1 - 0x80) * 4096 + (b2 - 0x80) * 64 + (b3 - 0x80)), l4.
  unfold scalar_value, utf8_encode.
  rewrite (proj2 (Z.ltb_ge _ 0x80)), (proj2 (Z.ltb_ge _ 0x800)), (proj2 (Z.ltb_ge _ 0x10000)) by lia.
  split_and!; [lia| |done]. cbn [app]. repeat f_equal; lia_div.
Qed.

Lemma utf8_valid_iff l :
  Forall is_u8 l →
  utf8_valid l = true ↔ ∃ cs, Forall scalar_value cs ∧ l = cs ≫= utf8_encode.
Proof.
  intros Hb. split.
  - revert Hb. remember (length l) as n eqn:Hn. revert l Hn.
    induction (lt_wf n) as [n _ IH]. intros l -> Hb Hv.
    destruct (decide (l = [])) as [->|Hne]; [by exists []|].
    destruct (utf8_valid_decode l Hb Hne Hv) as (c & l' & Hc & -> & Hv').
    apply Forall_app in Hb as [_ Hb'].
    destruct (IH (length l')) with (l := l') as (cs & Hcs & ->); [|done..|].
    { rewrite length_app. unfold utf8_encode. repeat case_match; cbn; lia. }
    exists (c :: cs). split; [by constructor|done].
  - intros (cs & Hcs & ->). clear Hb. induction Hcs as [|c cs Hc Hcs IH]; [done|].
    cbn. by rewrite utf8_valid_encode.
Qed.

(** The dispatcher against the interface paging offers: it reads user-accessible
    memory only. *)
Section Isolation.
Context (accessible : Z → Prop) `{!UserMemory accessible}.

Lemma dispatcher_user_memory ms mem mem' tm n a1 a2 a3 a4 a5 esp :
  (∀ a, accessible a → mem a = mem' a) →
  syscall_dispatcher ms mem tm n a1 a2 a3 a4 a5 esp = syscall_dispatcher ms mem' tm n a1 a2 a3 a4 a5 esp.
Proof.
  intros Heq. unfold syscall_dispatcher. destruct (n =? 1); [|done].
  destruct (validate_user_buffer a1 a2) as [v|code] eqn:Hv; [|done].
  pose proof (validate_inv _ _ _ Hv) as ->. apply validate_ok in Hv as [_ Hr].
  rewrite (slice_at_ext mem mem'); [done|]. intros i Hi. apply Heq. by eapply user_range_accessible.
Qed.

End Isolation.

(** What a [SYS_PRINT] call returns, by the first check that fails. *)
Definition print_code (mem : memory) (ptr len : Z) : Z :=
  if decide (¬ 1 ≤ len ≤ 1024) then 2 else
  if decide (¬ (0x400000 ≤ ptr ∧ ptr + len ≤ 0x800000)) then 1 else
  if utf8_valid (slice_at mem ptr len) then 0 else 3.

Lemma validate_cases ptr len :
  is_u32 ptr → is_u32 len →
  validate_user_buffer ptr len =
    if decide (¬ 1 ≤ len ≤ 1024) then Err 2 else
    if decide (¬ (0x400000 ≤ ptr ∧ ptr + len ≤ 0x800000)) then Err 1 else Ok (ptr, len).
Proof.
  intros Hp Hl. pose proof (user_range_contains_spec ptr len Hp Hl) as Hr.
  unfold validate_user_buffer, MAX_PRINT_LEN, USER_SPACE_START, USER_SPACE_END, is_u32 in *.
  destruct (Z.eqb_spec len 0); cbn [orb]; [by rewrite decide_True by lia|].
  destruct (Z.ltb_spec 1024 len); [by rewrite decide_True by lia|].
  rewrite decide_False by lia. case_decide as Hd.
  - destruct (user_range_contains ptr len); [|done]. exfalso. apply Hd, Hr. done.
  - rewrite (proj2 Hr); [done|lia].
Qed.

(** ** Claims *)

(** User memory holding a text at the start of the user space. *)
Definition demo_user_memory : memory := memory_of 0x400000 [72; 105; 0xE2; 0x96; 0xA0; 0xFF].

(** C3. A system call depends only on memory that user code may access: two
    memories that agree there give the same result, output and scheduler state,
    so [SYS_PRINT] cannot disclose kernel memory. *)
Theorem syscall_isolated pd pt0 pt1 s ms mem mem' tm n a1 a2 a3 a4 a5 esp :
  paging_boot pd pt0 pt1 s →
  (∀ a, user_accessible pd pt0 pt1 s a → mem a = mem' a) →
  syscall_dispatcher ms mem tm n a1 a2 a3 a4 a5 esp = syscall_dispatcher ms mem' tm n a1 a2 a3 a4 a5 esp.
Proof.
  intros Hb. apply dispatcher_user_memory, paging_user_memory, Hb.
Qed.

Lemma syscall_isolated_witness :
  syscall_dispatcher 0 (write_u8 0x110000 42 demo_user_memory) TaskManager_new 1 0x400000 5 0 0 0 0 =
  syscall_dispatcher 0 demo_user_memory TaskManager_new 1 0x400000 5 0 0 0 0.
Proof.
  apply (syscall_isolated _ _ _ _ _ _ _ _ _ _ _ _ _ _ _ demo_paging_boot).
  intros a Ha. apply (user_accessible_iff _ _ _ _ _ demo_paging_boot) in Ha.
  unfold write_u8, USER_SPACE_START, USER_SPACE_END in *. destruct (Z.eqb_spec a 0x110000); [lia|reflexivity].
Defined.

(** C25. [SYS_PRINT] returns 0 exactly when the length is between 1 and 1024, the
    buffer lies in the user space and its bytes are the UTF-8 encoding of some
    sequence of Unicode scalar values; it then prints exactly those bytes on the
    screen and on the serial port.  Otherwise it prints nothing and returns the
    code of the first check that fails: length, pointer, encoding.  The
    scheduler is untouched. *)
Theorem sys_print_exact ms mem tm ptr len a3 a4 a5 esp :
  mem_bytes mem → is_u32 ptr → is_u32 len →
  let '(r, out, tm') := syscall_dispatcher ms mem tm 1 ptr len a3 a4 a5 esp in
  tm' = tm ∧ r = print_code mem ptr len ∧
  (r = 0 ↔ 1 ≤ len ≤ 1024 ∧ 0x400000 ≤ ptr ∧ ptr + len ≤ 0x800000 ∧
     ∃ cs, Forall scalar_value cs ∧ slice_at mem ptr len = cs ≫= utf8_encode) ∧
  out = if r =? 0 then [println ("[Ring 3] " +:+ string_of_bytes (slice_at mem ptr len));
                        serial_println ("[Syscall SYS_PRINT] " +:+ string_of_bytes (slice_at mem ptr len))]
        else [].
Proof.
  intros Hm Hp Hl. unfold syscall_dispatcher, print_code. rewrite Z.eqb_refl, validate_cases by done.
  assert (Forall is_u8 (slice_at mem ptr len)) as Hb by (apply Forall_fmap, Forall_true; intros; apply Hm).
  pose proof (utf8_valid_iff _ Hb) as Hv.
  destruct (decide (¬ 1 ≤ len ≤ 1024)); [by split_and!; [..|split; [done|lia]|]|].
  destruct (decide (¬ (0x400000 ≤ ptr ∧ ptr + len ≤ 0x800000))); [by split_and!; [..|split; [done|lia]|]|].
  unfold from_utf8. destruct (utf8_valid (slice_at mem ptr len)) eqn:E; split_and!; try done.
  - split; [|done]. intros _. split_and!; [lia..|]. by apply Hv.
  - split; [done|]. intros (_ & _ & _ & Hcs). by apply Hv in Hcs.
Qed.

Lemma sys_print_exact_witness :
  (syscall_dispatcher 0 demo_user_memory TaskManager_new 1 0x400000 5 0 0 0 0).1.1 = 0 ∧
  (syscall_dispatcher 0 demo_user_memory TaskManager_new 1 0x400000 6 0 0 0 0).1.1 = 3.
Proof.
  assert (mem_bytes demo_user_memory) as Hm.
  { apply memory_of_bytes. unfold is_u8. repeat constructor; lia. }
  split.
  - pose proof (sys_print_exact 0 demo_user_memory TaskManager_new 0x400000 5 0 0 0 0 Hm) as H.
    destruct (syscall_dispatcher _ _ _ _ _ _ _ _ _ _) as [[r out] tm].
    destruct H as (_ & -> & _); [unfold is_u32, U32_MAX; lia..|vm_compute; reflexivity].
  - pose proof (sys_print_exact 0 demo_user_memory TaskManager_new 0x400000 6 0 0 0 0 Hm) as H.
    destruct (syscall_dispatcher _ _ _ _ _ _ _ _ _ _) as [[r out] tm].
    destruct H as (_ & -> & _); [unfold is_u32, U32_MAX; lia..|vm_compute; reflexivity].
Defined.

(** C26. what [SYS_YIELD] and [SYS_SLEEP] do, exactly.  The ring 3 program is first
    entered in the task table if it is not there yet.  If the current task is then
    a user task that is not terminated, the call returns 0 and in the whole
    scheduler state only that task changes: its stack pointer is saved and it
    sleeps until the tick asked for.  For any other current task, a kernel task or
    one already marked for termination, the call returns the context error and
    changes nothing more.  Nothing is printed and the invariant is kept. *)
Theorem sys_sleep_exact ms mem tm n ticks a2 a3 a4 a5 esp :
  sched_wf tm → has_kernel_task tm → n = 2 ∨ n = 3 →
  ∃ tm1 c,
    tm1 = (if main_task_tracked tm then tm
           else mkTM (mkTask 1 "user_main" User Ready ms esp 0 :: tasks tm) 0
                  (next_task_id tm) (tick_count tm) true) ∧
    tasks tm1 !! current_task_idx tm1 = Some c ∧
    let wake_at := wrap64 (tick_count tm + (if n =? 2 then 1 else Z.max 1 ticks)) in
    let asleep := mkTask (id c) (name c) User (Sleeping wake_at) (stack c) esp (run_ticks c) in
    let tm' := if decide (privilege c = User ∧ state c ≠ Terminated)
               then set_tasks (<[current_task_idx tm1 := asleep]> (tasks tm1)) tm1 else tm1 in
    sched_wf tm' ∧ has_kernel_task tm' ∧
    syscall_dispatcher ms mem tm n ticks a2 a3 a4 a5 esp =
      (if decide (privilege c = User ∧ state c ≠ Terminated) then 0 else 4, [], tm').
Proof.
  intros Hwf Hk Hn. destruct (fault_current ms tm esp Hwf Hk) as (c & Hc & _).
  exists (ensure_main_task_tracked ms tm esp), c. split; [done|]. split; [exact Hc|]. cbn zeta.
  set (d := if n =? 2 then 1 else Z.max 1 ticks).
  assert (∃ t, d = Z.max 1 t ∧ syscall_dispatcher ms mem tm n ticks a2 a3 a4 a5 esp =
    let '(slept, tm) := sleep_current_task ms tm esp t in (if slept : bool then 0 else 4, [], tm))
    as (t & -> & ->).
  { destruct Hn as [-> | ->]; [by exists 1|by exists ticks]. }
  pose proof (sleep_wf ms tm esp t Hwf Hk) as Hwf'.
  rewrite (sleep_current_eq ms tm esp t c Hk Hc) in Hwf' |- *.
  case_decide; cbn [fst snd] in *; by destruct Hwf'.
Qed.

(** The thread calls (an error), then the ring 3 program (it sleeps). *)
Lemma sys_sleep_exact_witness :
  syscall_dispatcher 0x30000 (λ _, 0) two_tasks 3 20 0 0 0 0 96 = (4, [], two_tasks) ∧
  ∃ tm', syscall_dispatcher 0x30000 (λ _, 0) boot_tm 3 20 0 0 0 0 96 = (0, [], tm') ∧ sched_wf tm' ∧
    tasks tm' = [mkTask 1 "user_main" User (Sleeping 20) 0x30000 96 0;
                 mkTask 2 "background_thread" Kernel Ready 0x20000 0x21FD4 0].
Proof.
  split.
  - destruct (sys_sleep_exact 0x30000 (λ _, 0) two_tasks 3 20 0 0 0 0 96 (proj1 two_tasks_wf) (proj2 two_tasks_wf))
      as (tm1 & c & -> & Hc & _ & _ & H); [by right|]. injection Hc as <-. exact H.
  - destruct (booted_wf _ boot_tm_booted) as [Hwf Hk].
    destruct (sys_sleep_exact 0x30000 (λ _, 0) boot_tm 3 20 0 0 0 0 96 Hwf Hk)
      as (tm1 & c & -> & Hc & Hw & _ & H); [by right|]. injection Hc as <-.
    eexists. split; [exact H|]. split; [exact Hw|reflexivity].
Defined.
