(* ===== verification/Heap.v ===== *)
(** * The kernel heap: [src/allocator.rs]

    [SimpleAllocator] is a bump allocator over a static array; its state is the
    offset of the first unused byte.  The address of the array is a parameter. *)

From S2P Require Import Prelude.
Local Open Scope Z_scope.

Definition HEAP_SIZE : Z := 1024 * 1024.

Record HeapStats := mkHeapStats {
  used_bytes : Z;
  free_bytes : Z;
  total_bytes : Z;
  used_percent : Z;
}.

(** [core::alloc::Layout]. *)
Record Layout := mkLayout { size : Z; align : Z }.

Definition null_mut : Z := 0.

Section Heap.
Context (heap_base : Z).

(** The address returned and the new offset. *)
Definition alloc (offset : Z) (layout : Layout) : outcome (Z * Z) :=
  alloc_start ← add_u32 heap_base offset;
  let remainder := alloc_start mod align layout in
  start_addr ← (if remainder =? 0 then Ret alloc_start
                else sum ← add_u32 alloc_start (align layout); Ret (sum - remainder));
  match checked_add_u32 start_addr (size layout) with
  | Some stop =>
    heap_end ← add_u32 heap_base HEAP_SIZE;
    if heap_end <? stop then Ret (null_mut, offset)
    else Ret (start_addr, stop - heap_base)
  | None => Ret (null_mut, offset)
  end.

Definition dealloc (offset ptr : Z) (layout : Layout) : Z := offset.

End Heap.

Definition heap_stats (offset : Z) : HeapStats :=
  let clamped_used := Z.min offset HEAP_SIZE in
  let free := saturating_sub HEAP_SIZE clamped_used in
  let used_percent := if HEAP_SIZE =? 0 then 0 else saturating_mul_u32 clamped_used 100 / HEAP_SIZE in
  mkHeapStats clamped_used free HEAP_SIZE used_percent.

(** ** Sequences of calls *)

Inductive heap_call :=
| Alloc (l : Layout)
| Dealloc (ptr : Z) (l : Layout).

(** The blocks handed out, in order, with the layouts they were asked with. *)
Fixpoint heap_run (base offset : Z) (calls : list heap_call) : outcome (list (Z * Layout) * Z) :=
  match calls with
  | [] => Ret ([], offset)
  | Alloc l :: calls =>
    '(p, offset) ← alloc base offset l;
    '(blocks, offset) ← heap_run base offset calls;
    Ret (if p =? null_mut then (blocks, offset) else ((p, l) :: blocks, offset))
  | Dealloc p l :: calls => heap_run base (dealloc offset p l) calls
  end.

(** Layouts the language produces: a positive alignment and size; alignments are
    small enough for the addresses above the heap not to overflow. *)
Definition layout_ok (base : Z) (l : Layout) : Prop :=
  1 ≤ align l ∧ 1 ≤ size l ∧ size l ≤ U32_MAX ∧ base + HEAP_SIZE + align l ≤ U32_MAX.

Definition call_ok (base : Z) (c : heap_call) : Prop :=
  match c with Alloc l => layout_ok base l | Dealloc _ _ => True end.

(** The least multiple of [a] from [z] on. *)
Definition round_up (a z : Z) : Z := z + (- z) mod a.

Lemma round_up_spec a z : 0 < a → z ≤ round_up a z < z + a ∧ round_up a z mod a = 0.
Proof.
  intros Ha. unfold round_up. pose proof (Z.mod_pos_bound (- z) a Ha). split; [lia|].
  rewrite Zplus_mod_idemp_r, Z.add_opp_diag_r. by apply Z.mod_0_l; lia.
Qed.

Lemma round_up_code a z : 0 < a → round_up a z = if z mod a =? 0 then z else z + a - z mod a.
Proof.
  intros Ha. unfold round_up. case_bool.
  - rewrite Z.mod_opp_l_z by lia. lia.
  - rewrite Z.mod_opp_l_nz by lia. lia.
Qed.

(** What a call returns: the next aligned block if it fits, null otherwise. *)
Lemma alloc_eq base offset l :
  0 < base → 0 ≤ offset ≤ HEAP_SIZE → layout_ok base l →
  let start := round_up (align l) (base + offset) in
  alloc base offset l =
    Ret (if decide (start + size l ≤ base + HEAP_SIZE) then (start, start + size l - base) else (0, offset)).
Proof.
  intros Hb Ho (Ha & Hs & Hs' & Hl) start. unfold alloc, HEAP_SIZE in *.
  pose proof (round_up_code (align l) (base + offset) ltac:(lia)) as Hstart. fold start in Hstart.
  destruct (round_up_spec (align l) (base + offset)) as [Hr _]; [lia|]. fold start in Hr. clearbody start.
  rewrite (add_u32_Ret base offset) by lia. cbn [mbind outcome_bind].
  destruct (_ =? 0) eqn:E; [|rewrite (add_u32_Ret _ (align l)) by lia]; cbn [mbind outcome_bind];
    rewrite <- Hstart; clear E Hstart.
  all: unfold checked_add_u32; case_bool;
    [rewrite add_u32_Ret by lia; cbn [mbind outcome_bind]; case_bool|];
    first [by rewrite decide_False by lia|by rewrite decide_True by lia].
Qed.

(** The blocks of a run lie in order between the offsets. *)
Inductive blocks_between (base : Z) : Z → list (Z * Layout) → Z → Prop :=
| between_nil lo hi : lo ≤ hi → blocks_between base lo [] hi
| between_cons lo p l blocks hi :
    base + lo ≤ p → p mod align l = 0 → p + size l - base ≤ hi →
    blocks_between base (p + size l - base) blocks hi →
    blocks_between base lo ((p, l) :: blocks) hi.

Lemma heap_run_blocks base calls : ∀ offset,
  0 < base → Forall (call_ok base) calls → 0 ≤ offset ≤ HEAP_SIZE →
  ∃ blocks offset', heap_run base offset calls = Ret (blocks, offset') ∧
    offset ≤ offset' ≤ HEAP_SIZE ∧ blocks_between base offset blocks offset'.
Proof.
  intros offset Hb Hc. revert offset. induction Hc as [|c calls Hc _ IH]; intros offset Ho.
  { exists [], offset. split_and!; [done|lia|lia|by constructor]. }
  destruct c as [l|p l]; cbn [heap_run]; [|by apply IH].
  rewrite alloc_eq by done. cbn [mbind outcome_bind]. cbn in Hc.
  destruct (round_up_spec (align l) (base + offset)) as [Hr Hmod]; [by destruct Hc; lia|].
  destruct Hc as (Ha & Hs & _).
  set (start := round_up _ _) in *. clearbody start. case_decide.
  - destruct (IH (start + size l - base)) as (blocks & offset' & -> & Ho' & Hbl); [lia|].
    cbn [mbind outcome_bind]. rewrite (proj2 (Z.eqb_neq _ _)) by (unfold null_mut; lia).
    exists ((start, l) :: blocks), offset'. split_and!; [done|lia|lia|]. constructor; [lia|done|lia|done].
  - destruct (IH offset Ho) as (blocks & offset' & -> & Ho' & Hbl). by exists blocks, offset'.
Qed.

Lemma blocks_between_in base lo blocks hi p l :
  blocks_between base lo blocks hi → Forall (λ b, 1 ≤ size b.2) blocks → (p, l) ∈ blocks →
  base + lo ≤ p ∧ p + size l ≤ base + hi ∧ p mod align l = 0.
Proof.
  intros H Hs Hin. induction H as [|lo p' l' blocks hi Hlo Hm Hhi Hrest IH]; [set_solver|].
  inversion Hs. apply elem_of_cons in Hin as [[= -> ->]|Hin]; [lia|]. cbn in *.
  destruct IH as (? & ? & ?); [done..|]. lia.
Qed.

Lemma heap_run_layouts base calls : ∀ offset blocks offset',
  Forall (call_ok base) calls → heap_run base offset calls = Ret (blocks, offset') →
  Forall (λ b, 1 ≤ size b.2) blocks.
Proof.
  induction calls as [|c calls IH]; intros offset blocks offset' Hc Hrun.
  { cbn in Hrun. simplify_eq. constructor. }
  inversion Hc as [|?? Hc1 Hc2]; subst. destruct c as [l|p l]; cbn [heap_run] in Hrun; [|by eapply IH].
  destruct (alloc base offset l) as [[p o]| |]; try done. cbn in Hrun.
  destruct (heap_run base o calls) as [[bs o']| |] eqn:E; try done. cbn in Hrun.
  specialize (IH _ _ _ Hc2 E). case_match; simplify_eq; [done|]. constructor; [|done]. apply Hc1.
Qed.

(** Later blocks lie above earlier ones. *)
Lemma blocks_between_order base lo blocks hi :
  blocks_between base lo blocks hi → Forall (λ b, 1 ≤ size b.2) blocks →
  ∀ i j p l q k, (i < j)%nat → blocks !! i = Some (p, l) → blocks !! j = Some (q, k) → p + size l ≤ q.
Proof.
  intros H Hs. induction H as [|lo p l blocks hi Hlo Hm Hhi Hrest IH]; [done|].
  inversion Hs as [|?? Hs1 Hs2]; subst. intros [|i] [|j] p1 l1 q k Hij Hi Hj; cbn in *; try lia.
  - simplify_eq. apply list_elem_of_lookup_2 in Hj.
    destruct (blocks_between_in _ _ _ _ _ _ Hrest Hs2 Hj). lia.
  - eapply (IH Hs2 i j); [lia|done..].
Qed.

Lemma blocks_between_total base lo blocks hi :
  blocks_between base lo blocks hi → foldr (λ b t, size b.2 + t) 0 blocks ≤ hi - lo.
Proof. induction 1 as [|lo p l blocks hi Hlo Hm Hhi Hrest IH]; cbn in *; lia. Qed.

(** ** Claims *)

Definition demo_calls : list heap_call :=
  [Alloc (mkLayout 10 1); Alloc (mkLayout 8192 16); Dealloc 0x200000 (mkLayout 10 1);
   Alloc (mkLayout 2000000 4); Alloc (mkLayout 4 4)].

Lemma demo_calls_ok : Forall (call_ok 0x200000) demo_calls.
Proof. unfold demo_calls, HEAP_SIZE. repeat constructor; cbn; try lia; unfold HEAP_SIZE, U32_MAX; cbn; lia. Qed.

(** C29. Whatever sequence of allocations and deallocations the kernel makes, the
    heap never panics, and the non-null blocks it returns lie inside the heap
    array, are aligned as asked and never overlap, deallocated or not; so all the
    blocks ever handed out together fit in the array, and once its 1 MiB is used no
    deallocation helps. *)
Theorem heap_blocks_safe base calls :
  0 < base → Forall (call_ok base) calls →
  ∃ blocks offset, heap_run base 0 calls = Ret (blocks, offset) ∧
    (∀ i p l, blocks !! i = Some (p, l) →
       base ≤ p ∧ p + size l ≤ base + HEAP_SIZE ∧ p mod align l = 0) ∧
    (∀ i j p l q k, i ≠ j → blocks !! i = Some (p, l) → blocks !! j = Some (q, k) →
       p + size l ≤ q ∨ q + size k ≤ p) ∧
    foldr (λ b total, size b.2 + total) 0 blocks ≤ HEAP_SIZE.
Proof.
  intros Hb Hc. destruct (heap_run_blocks base calls 0 Hb Hc) as (blocks & off & Hrun & Ho & Hbl);
    [unfold HEAP_SIZE; lia|].
  pose proof (heap_run_layouts _ _ _ _ _ Hc Hrun) as Hs. exists blocks, off. split_and!; [done|..].
  - intros i p l Hi%list_elem_of_lookup_2. destruct (blocks_between_in _ _ _ _ _ _ Hbl Hs Hi) as (? & ? & ?). lia.
  - intros i j p l q k Hij Hi Hj. destruct (decide (i < j)%nat).
    + left. eapply blocks_between_order; eauto.
    + right. eapply (blocks_between_order _ _ _ _ Hbl Hs j i); eauto. lia.
  - apply blocks_between_total in Hbl. lia.
Qed.

Lemma heap_blocks_safe_witness :
  ∃ blocks offset, heap_run 0x200000 0 demo_calls = Ret (blocks, offset) ∧ length blocks = 3%nat ∧
    (∀ i p l, blocks !! i = Some (p, l) →
       0x200000 ≤ p ∧ p + size l ≤ 0x200000 + HEAP_SIZE ∧ p mod align l = 0).
Proof.
  destruct (heap_blocks_safe 0x200000 demo_calls) as (blocks & offset & Hrun & Hin & _ & _);
    [lia|exact demo_calls_ok|].
  exists blocks, offset. split_and!; [exact Hrun| |exact Hin].
  vm_compute in Hrun. injection Hrun as <- <-. reflexivity.
Defined.

(** A request is refused exactly when the next aligned block of that size
    does not fit below the end of the array, and then changes nothing; when it
    fits, that block is returned.  The statistics after any call add up: used
    and free bytes make the total, and the percentage is the used share rounded
    down, at most 100. *)
Theorem heap_alloc_exact base offset l :
  0 < base → 0 ≤ offset ≤ HEAP_SIZE → layout_ok base l →
  ∃ p offset', alloc base offset l = Ret (p, offset') ∧
    (p = null_mut ↔ base + HEAP_SIZE < round_up (align l) (base + offset) + size l) ∧
    (p = null_mut → offset' = offset) ∧
    (p ≠ null_mut → p = round_up (align l) (base + offset) ∧ offset' = p + size l - base) ∧
    used_bytes (heap_stats offset') = offset' ∧
    used_bytes (heap_stats offset') + free_bytes (heap_stats offset') = total_bytes (heap_stats offset') ∧
    used_percent (heap_stats offset') = 100 * offset' / HEAP_SIZE ∧
    0 ≤ used_percent (heap_stats offset') ≤ 100.
Proof.
  intros Hb Ho Hl. rewrite alloc_eq by done. destruct Hl as (Ha & Hs & _).
  destruct (round_up_spec (align l) (base + offset)) as [Hr _]; [lia|].
  set (start := round_up _ _) in *. clearbody start.
  assert (∀ o, 0 ≤ o ≤ HEAP_SIZE →
    used_bytes (heap_stats o) = o ∧
    used_bytes (heap_stats o) + free_bytes (heap_stats o) = total_bytes (heap_stats o) ∧
    used_percent (heap_stats o) = 100 * o / HEAP_SIZE ∧ 0 ≤ used_percent (heap_stats o) ≤ 100) as Hst.
  { intros o Ho'. unfold heap_stats, saturating_sub, saturating_mul_u32, HEAP_SIZE, U32_MAX in *. cbn [used_bytes free_bytes total_bytes used_percent].
    rewrite Z.min_l by lia. change (1024 * 1024) with 1048576 in *. cbn [Z.eqb]. rewrite Z.min_l by lia. split_and!; lia_div. }
  unfold null_mut. case_decide; do 2 eexists; (split; [done|]); (split_and!; try lia); try (apply Hst; lia).
Qed.

Lemma heap_alloc_exact_witness :
  (∃ p offset, alloc 0x200000 10 (mkLayout 8192 16) = Ret (p, offset) ∧ (p ≠ null_mut → p = 0x200010 ∧ offset = 8208)) ∧
  (∃ p offset, alloc 0x200000 10 (mkLayout 1048567 1) = Ret (p, offset) ∧ (p = null_mut → offset = 10)).
Proof.
  split.
  - destruct (heap_alloc_exact 0x200000 10 (mkLayout 8192 16)) as (p & o & H & _ & _ & Hp & _);
      [lia|unfold HEAP_SIZE; lia|unfold layout_ok, HEAP_SIZE, U32_MAX; cbn; lia|].
    exists p, o. split; [exact H|]. intros Hn. destruct (Hp Hn) as [-> ->]. split; reflexivity.
  - destruct (heap_alloc_exact 0x200000 10 (mkLayout 1048567 1)) as (p & o & H & _ & Hn & _);
      [lia|unfold HEAP_SIZE; lia|unfold layout_ok, HEAP_SIZE, U32_MAX; cbn; lia|].
    exists p, o. split; [exact H|exact Hn].
Defined.
