(* ===== verification/Devices.v ===== *)
(** * Device drivers: [src/pic.rs], [src/pit.rs] and [src/serial.rs]

    A driver is the list of port writes it performs.  The devices that receive
    them are modelled after their data sheets as far as the drivers use them:
    the 8259A interrupt controllers, channel 0 of the 8254 timer and the
    16550 serial port's line status. *)

From S2P Require Import Prelude Machine.
Local Open Scope Z_scope.

(** [outb(port, value)]. *)
Record port_write := mkOut { out_port : Z; out_value : Z }.

#[global] Instance port_write_eq_dec : EqDecision port_write.
Proof. solve_decision. Defined.

(** ** The interrupt controllers *)

Module Pic.

Definition PIC1_CMD : Z := 0x20.
Definition PIC1_DATA : Z := 0x21.
Definition PIC2_CMD : Z := 0xA0.
Definition PIC2_DATA : Z := 0xA1.
Definition PIC_EOI : Z := 0x20.
Definition PIC_1_OFFSET : Z := 32.
Definition PIC_2_OFFSET : Z := PIC_1_OFFSET + 8.

Record ChainedPics := mkPics { offset1 : Z; offset2 : Z }.

(** The value of the [PICS] static. *)
Definition PICS : ChainedPics := mkPics PIC_1_OFFSET PIC_2_OFFSET.

Definition iowait : list port_write := [mkOut 0x80 0].

Definition initialize (p : ChainedPics) : list port_write :=
  [mkOut PIC1_CMD 0x11] ++ iowait ++
  [mkOut PIC2_CMD 0x11] ++ iowait ++
  [mkOut PIC1_DATA (offset1 p)] ++ iowait ++
  [mkOut PIC2_DATA (offset2 p)] ++ iowait ++
  [mkOut PIC1_DATA 4] ++ iowait ++
  [mkOut PIC2_DATA 2] ++ iowait ++
  [mkOut PIC1_DATA 0x01] ++ iowait ++
  [mkOut PIC2_DATA 0x01] ++ iowait ++
  [mkOut PIC1_DATA 0xF8] ++
  [mkOut PIC2_DATA 0xFF].

(** [self.offset2 + 8] is [u8] arithmetic and panics on overflow; [&&] evaluates
    it only after the first comparison. *)
Definition handles_interrupt (p : ChainedPics) (interrupt_id : Z) : outcome bool :=
  if offset1 p <=? interrupt_id then
    if offset2 p + 8 <=? 255 then Ret (interrupt_id <? offset2 p + 8)
    else Panic "attempt to add with overflow"
  else Ret false.

Definition notify_end_of_interrupt (p : ChainedPics) (interrupt_id : Z) : outcome (list port_write) :=
  handled ← handles_interrupt p interrupt_id;
  Ret (if handled : bool then
         (if offset2 p <=? interrupt_id then [mkOut PIC2_CMD PIC_EOI] else []) ++ [mkOut PIC1_CMD PIC_EOI]
       else []).

Definition ack (irq_idx : Z) : outcome (list port_write) := notify_end_of_interrupt PICS irq_idx.

(** *** The 8259A *)

(** Which initialization word the controller expects next. *)
Inductive phase := Operating | ExpectICW2 | ExpectICW3 | ExpectICW4.

Record chip := mkChip {
  phase_of : phase;
  vector_base : Z;
  cascade : Z;
  mode_8086 : bool;
  mask : Z;
  in_service : list Z;
}.

(** A write to the command port: bit 4 starts an initialization that expects
    ICW3 and ICW4, which clears the mask; the value 0x20 is a non-specific end of
    interrupt, which retires the interrupt of highest priority in service. *)
Definition chip_command (v : Z) (c : chip) : chip :=
  if Z.testbit v 4 then mkChip ExpectICW2 (vector_base c) (cascade c) false 0 []
  else if v =? 0x20 then mkChip (phase_of c) (vector_base c) (cascade c) (mode_8086 c) (mask c) (tail (in_service c))
  else c.

(** A write to the data port: the next initialization word, or the mask. *)
Definition chip_data (v : Z) (c : chip) : chip :=
  match phase_of c with
  | ExpectICW2 => mkChip ExpectICW3 v (cascade c) (mode_8086 c) (mask c) (in_service c)
  | ExpectICW3 => mkChip ExpectICW4 (vector_base c) v (mode_8086 c) (mask c) (in_service c)
  | ExpectICW4 => mkChip Operating (vector_base c) (cascade c) (Z.testbit v 0) (mask c) (in_service c)
  | Operating => mkChip Operating (vector_base c) (cascade c) (mode_8086 c) v (in_service c)
  end.

Definition chips_write (w : port_write) (cs : chip * chip) : chip * chip :=
  let '(c1, c2) := cs in
  if out_port w =? PIC1_CMD then (chip_command (out_value w) c1, c2)
  else if out_port w =? PIC1_DATA then (chip_data (out_value w) c1, c2)
  else if out_port w =? PIC2_CMD then (c1, chip_command (out_value w) c2)
  else if out_port w =? PIC2_DATA then (c1, chip_data (out_value w) c2)
  else (c1, c2).

Definition chips_run (ws : list port_write) (cs : chip * chip) : chip * chip := foldl (λ cs w, chips_write w cs) cs ws.

(** The vector the processor receives for an interrupt line, if it is not masked:
    lines 8 to 15 come through the secondary, on line 2 of the primary. *)
Definition deliver (cs : chip * chip) (irq : Z) : option Z :=
  let '(c1, c2) := cs in
  if irq <? 8 then
    if Z.testbit (mask c1) irq then None else Some (vector_base c1 + irq)
  else
    if Z.testbit (mask c1) 2 || Z.testbit (mask c2) (irq - 8) then None else Some (vector_base c2 + (irq - 8)).

End Pic.

(** ** The timer *)

Module Pit.

Definition PIT_CHANNEL0 : Z := 0x40.
Definition PIT_COMMAND : Z := 0x43.
Definition PIT_INPUT_HZ : Z := 1193182.
Definition DEFAULT_HZ : Z := 100.
Definition TICKS_PER_SECOND : Z := DEFAULT_HZ.

(** [x.clamp(lo, hi)]. *)
Definition clamp (x lo hi : Z) : Z := Z.min (Z.max x lo) hi.

Definition divisor_of (hz : Z) : Z := clamp (PIT_INPUT_HZ / hz) 1 65535.

Definition init (requested_hz : Z) : list port_write * list output :=
  let hz := if requested_hz =? 0 then DEFAULT_HZ else requested_hz in
  let divisor_u32 := divisor_of hz in
  let divisor := as_u16 divisor_u32 in
  let actual_hz := PIT_INPUT_HZ / divisor_u32 in
  ([mkOut PIT_COMMAND 0x36; mkOut PIT_CHANNEL0 (as_u8 (Z.land divisor 0xFF));
    mkOut PIT_CHANNEL0 (as_u8 (Z.shiftr divisor 8))],
   [serial_println ("PIT: configured to " +:+ dec actual_hz +:+ " Hz (requested " +:+ dec hz
                    +:+ " Hz, divisor " +:+ dec divisor +:+ ").")]).

Definition init_default : list port_write * list output := init DEFAULT_HZ.

Definition ticks_to_millis (ticks : Z) : Z := saturating_mul_u64 ticks 1000 / TICKS_PER_SECOND.

(** *** Channel 0 of the 8254 *)

Record channel := mkChannel { expect_high : bool; low_byte : Z; reload : Z; mode : Z }.

(** Command 0x36 selects channel 0, low byte then high byte, mode 3; the two
    data bytes then form the reload value. *)
Definition channel_write (w : port_write) (c : channel) : channel :=
  if out_port w =? PIT_COMMAND then
    if Z.shiftr (out_value w) 6 =? 0
    then mkChannel false 0 (reload c) (Z.land (Z.shiftr (out_value w) 1) 7) else c
  else if out_port w =? PIT_CHANNEL0 then
    if expect_high c then mkChannel false (low_byte c) (out_value w * 256 + low_byte c) (mode c)
    else mkChannel true (out_value w) (reload c) (mode c)
  else c.

Definition channel_run (ws : list port_write) (c : channel) : channel := foldl (λ c w, channel_write w c) c ws.

End Pit.

(** ** The serial port *)

Module SerialPort.

(** [self.outb(offset, value)]. *)
Definition outb (port offset value : Z) : port_write := mkOut (port + offset) value.

Definition init (port : Z) : list port_write :=
  [outb port 1 0x00; outb port 3 0x80; outb port 0 0x03; outb port 1 0x00;
   outb port 3 0x03; outb port 2 0xC7; outb port 4 0x0B].

Definition is_transmit_empty (line_status : Z) : bool := negb (Z.land line_status 0x20 =? 0).

(** [write_byte]: polls the line status until the transmitter is empty.  [status]
    is the sequence of line status values the device will report; each poll
    consumes one, and the fuel bounds the polls. *)
Fixpoint write_byte (fuel : nat) (port : Z) (status : nat → Z) (polls : nat) (byte : Z) :
    outcome (list port_write * nat) :=
  match fuel with
  | O => OutOfFuel
  | S fuel =>
    if is_transmit_empty (status polls) then Ret ([outb port 0 byte], S polls)
    else write_byte fuel port status (S polls) byte
  end.

(** [write_str]: a line feed is sent as carriage return, line feed. *)
Fixpoint write_str (fuel : nat) (port : Z) (status : nat → Z) (polls : nat) (s : list Z) :
    outcome (list port_write * nat) :=
  match s with
  | [] => Ret ([], polls)
  | byte :: s =>
    '(sent, polls) ← (if byte =? 10 then
        '(cr, polls) ← write_byte fuel port status polls 13;
        '(lf, polls) ← write_byte fuel port status polls 10;
        Ret (cr ++ lf, polls)
      else write_byte fuel port status polls byte);
    '(rest, polls) ← write_str fuel port status polls s;
    Ret (sent ++ rest, polls)
  end.

(** *** The divisor latch of the 16550 *)

Record uart := mkUart { dlab : bool; divisor_low : Z; divisor_high : Z; line_control : Z; irq_enable : Z; sent : list Z }.

Definition uart_write (port : Z) (w : port_write) (u : uart) : uart :=
  let off := out_port w - port in
  let v := out_value w in
  if off =? 0 then
    if dlab u then mkUart true v (divisor_high u) (line_control u) (irq_enable u) (sent u)
    else mkUart false (divisor_low u) (divisor_high u) (line_control u) (irq_enable u) (sent u ++ [v])
  else if off =? 1 then
    if dlab u then mkUart true (divisor_low u) v (line_control u) (irq_enable u) (sent u)
    else mkUart false (divisor_low u) (divisor_high u) (line_control u) v (sent u)
  else if off =? 3 then mkUart (Z.testbit v 7) (divisor_low u) (divisor_high u) v (irq_enable u) (sent u)
  else u.

Definition uart_run (port : Z) (ws : list port_write) (u : uart) : uart := foldl (λ u w, uart_write port w u) u ws.

End SerialPort.

(** ** Lemmas *)

Lemma pit_bytes d : 1 ≤ d ≤ 65535 →
  as_u8 (Z.shiftr (as_u16 d) 8) * 256 + as_u8 (Z.land (as_u16 d) 0xFF) = d.
Proof.
  intros Hd. unfold as_u16, as_u8. change 0xFF with (Z.ones 8).
  rewrite Z.land_ones, Z.shiftr_div_pow2 by lia. change (2 ^ 8) with 256. lia_div.
Qed.

Lemma divisor_bounds hz : 1 ≤ Pit.divisor_of hz ≤ 65535.
Proof. unfold Pit.divisor_of, Pit.clamp. lia. Qed.

Section Serial.
Context (port : Z) (status : nat → Z) (fuel : nat).
(** The transmitter is never busy for [fuel] polls in a row. *)
Context (Hready : ∀ n, ∃ k, (k < fuel)%nat ∧ SerialPort.is_transmit_empty (status (n + k)) = true).

Lemma write_byte_sends f n k byte :
  (k < f)%nat → SerialPort.is_transmit_empty (status (n + k)) = true →
  ∃ polls, SerialPort.write_byte f port status n byte = Ret ([SerialPort.outb port 0 byte], polls).
Proof.
  revert n k. induction f as [|f IH]; intros n k Hk Hr; [lia|]. cbn.
  destruct (SerialPort.is_transmit_empty (status n)) eqn:E; [eauto|].
  destruct k as [|k]; [by rewrite Nat.add_0_r, E in Hr|].
  apply (IH (S n) k); [lia|]. by replace (S n + k)%nat with (n + S k)%nat by lia.
Qed.

Lemma write_byte_returns n byte :
  ∃ polls, SerialPort.write_byte fuel port status n byte = Ret ([SerialPort.outb port 0 byte], polls).
Proof. destruct (Hready n) as (k & Hk & Hr). by eapply write_byte_sends. Qed.

(** The bytes a text is sent as. *)
Definition crlf (s : list Z) : list Z := s ≫= λ b, if b =? 10 then [13; 10] else [b].

Lemma write_str_sends s : ∀ n,
  ∃ polls, SerialPort.write_str fuel port status n s = Ret (SerialPort.outb port 0 <$> crlf s, polls).
Proof.
  induction s as [|b s IH]; intros n; [by eexists|]. cbn [SerialPort.write_str crlf mbind list_bind].
  fold (crlf s). destruct (b =? 10).
  - destruct (write_byte_returns n 13) as [n1 ->]. cbn [mbind outcome_bind].
    destruct (write_byte_returns n1 10) as [n2 ->]. cbn [mbind outcome_bind].
    destruct (IH n2) as [n3 ->]. by eexists.
  - destruct (write_byte_returns n b) as [n1 ->]. cbn [mbind outcome_bind].
    destruct (IH n1) as [n3 ->]. by eexists.
Qed.

End Serial.

Lemma uart_write_offset port k v u :
  SerialPort.uart_write port (SerialPort.outb port k v) u = SerialPort.uart_write 0 (mkOut k v) u.
Proof.
  unfold SerialPort.uart_write, SerialPort.outb. cbn [out_port out_value].
  by replace (port + k - port) with (k - 0) by lia.
Qed.

Lemma uart_sends port l u :
  SerialPort.dlab u = false →
  SerialPort.uart_run port (SerialPort.outb port 0 <$> l) u =
    SerialPort.mkUart false (SerialPort.divisor_low u) (SerialPort.divisor_high u)
      (SerialPort.line_control u) (SerialPort.irq_enable u) (SerialPort.sent u ++ l).
Proof.
  revert u. induction l as [|b l IH]; intros u Hu.
  { destruct u; cbn in *. subst. by rewrite app_nil_r. }
  cbn [fmap list_fmap]. unfold SerialPort.uart_run. cbn [foldl].
  assert (SerialPort.uart_write port (SerialPort.outb port 0 b) u =
    SerialPort.mkUart false (SerialPort.divisor_low u) (SerialPort.divisor_high u)
      (SerialPort.line_control u) (SerialPort.irq_enable u) (SerialPort.sent u ++ [b])) as ->.
  { rewrite uart_write_offset. unfold SerialPort.uart_write. cbn. by rewrite Hu. }
  etransitivity; [apply IH; done|]. cbn. by rewrite <- app_assoc.
Qed.

(** ** Claims *)

(** C40. Whatever state the firmware left the interrupt controllers in, after
    [initialize] the timer, keyboard and cascade lines arrive at the vectors 32,
    33 and 34, clear of the processor's exceptions, and every other line is
    masked; acknowledging a vector from 32 to 47 retires one interrupt of the
    primary controller, and of the secondary exactly for its vectors. *)
Theorem pic_remapped cs irq :
  0 ≤ irq < 16 →
  let cs' := Pic.chips_run (Pic.initialize Pic.PICS) cs in
  Pic.phase_of cs'.1 = Pic.Operating ∧ Pic.phase_of cs'.2 = Pic.Operating ∧
  Pic.deliver cs' irq = (if irq <=? 2 then Some (32 + irq) else None) ∧
  ∃ ws, Pic.ack (32 + irq) = Ret ws ∧
    ∀ c1 c2, Pic.chips_run ws (c1, c2) =
      (Pic.chip_command 0x20 c1, if irq <? 8 then c2 else Pic.chip_command 0x20 c2).
Proof.
  intros Hirq. destruct cs as [c1 c2].
  assert (irq = 0 ∨ irq = 1 ∨ irq = 2 ∨ irq = 3 ∨ irq = 4 ∨ irq = 5 ∨ irq = 6 ∨ irq = 7 ∨ irq = 8 ∨
    irq = 9 ∨ irq = 10 ∨ irq = 11 ∨ irq = 12 ∨ irq = 13 ∨ irq = 14 ∨ irq = 15) as Hin by lia.
  clear Hirq. destruct_or! Hin; subst irq.
  all: cbv zeta; split_and!; [reflexivity..|]; eexists; split; [reflexivity|intros; reflexivity].
Qed.

Lemma pic_remapped_witness :
  let c := Pic.mkChip Pic.ExpectICW3 8 0 true 0 [] in
  Pic.deliver (Pic.chips_run (Pic.initialize Pic.PICS) (c, c)) 0 = Some 32 ∧
  Pic.deliver (Pic.chips_run (Pic.initialize Pic.PICS) (c, c)) 14 = None.
Proof.
  intros c. split.
  - destruct (pic_remapped (c, c) 0) as (_ & _ & H & _); [lia|exact H].
  - destruct (pic_remapped (c, c) 14) as (_ & _ & H & _); [lia|exact H].
Defined.

(** [pit::init] leaves channel 0 in mode 3 with a reload value that fits the
    counter and is the input clock divided by the frequency asked for (100 Hz
    for a request of 0), rounded down, whenever that quotient fits; at the
    kernel's 100 ticks a second a tick count converts to exactly 10 ms a tick
    until the product saturates. *)
Theorem pit_programmed requested_hz c ticks :
  is_u32 requested_hz → 0 ≤ ticks → ticks * 1000 ≤ U64_MAX →
  let hz := if requested_hz =? 0 then 100 else requested_hz in
  let c' := Pit.channel_run (Pit.init requested_hz).1 c in
  Pit.mode c' = 3 ∧ 1 ≤ Pit.reload c' ≤ 65535 ∧ Pit.expect_high c' = false ∧
  (19 ≤ hz ≤ 1193182 → Pit.reload c' * hz ≤ 1193182 < (Pit.reload c' + 1) * hz) ∧
  Pit.ticks_to_millis ticks = 10 * ticks.
Proof.
  intros Hr Ht Hm hz c'.
  assert (Pit.reload c' = Pit.divisor_of hz) as Hrel.
  { unfold c', Pit.init. cbn -[Pit.divisor_of as_u8 as_u16 Z.land Z.shiftr].
    change Pit.DEFAULT_HZ with 100. fold hz. apply pit_bytes, divisor_bounds. }
  split_and!; [reflexivity|rewrite Hrel; apply divisor_bounds..|reflexivity| |].
  - rewrite Hrel. intros Hhz. unfold Pit.divisor_of, Pit.clamp, Pit.PIT_INPUT_HZ. clearbody hz.
    pose proof (Z.div_mod 1193182 hz). pose proof (Z.mod_pos_bound 1193182 hz).
    assert (1193182 / hz ≤ 65535) by (apply Z.lt_succ_r, Z.div_lt_upper_bound; lia).
    assert (1 ≤ 1193182 / hz) by (apply Z.div_le_lower_bound; lia).
    rewrite Z.max_l, Z.min_l by lia. nia.
  - unfold Pit.ticks_to_millis, Pit.TICKS_PER_SECOND, Pit.DEFAULT_HZ, saturating_mul_u64.
    rewrite Z.min_l by done. lia_div.
Qed.

Lemma pit_programmed_witness :
  Pit.reload (Pit.channel_run Pit.init_default.1 (Pit.mkChannel true 0 0 0)) = 11931 ∧
  Pit.ticks_to_millis 250 = 2500.
Proof.
  destruct (pit_programmed 100 (Pit.mkChannel true 0 0 0) 250) as (_ & _ & _ & _ & H);
    [unfold is_u32, U32_MAX; lia|lia|unfold U64_MAX; lia|].
  split; [reflexivity|exact H].
Defined.

(** C35. On a serial line whose transmitter is never busy for [fuel] polls in a
    row, writing a text returns, and the port set up by [init] (divisor 3, 8
    data bits, interrupts off) sends exactly the bytes of the text with a
    carriage return before each line feed. *)
Theorem serial_transmits port status fuel polls s u :
  (∀ n, ∃ k, (k < fuel)%nat ∧ SerialPort.is_transmit_empty (status (n + k)%nat) = true) →
  ∃ ws polls', SerialPort.write_str fuel port status polls s = Ret (ws, polls') ∧
    let u' := SerialPort.uart_run port (SerialPort.init port ++ ws) u in
    SerialPort.sent u' = SerialPort.sent u ++ crlf s ∧
    SerialPort.divisor_low u' + 256 * SerialPort.divisor_high u' = 3 ∧
    Z.land (SerialPort.line_control u') 0x1F = 3 ∧
    (SerialPort.dlab u = false → SerialPort.irq_enable u' = 0).
Proof.
  intros Hr. destruct (write_str_sends port status fuel Hr s polls) as [polls' Hw].
  exists (SerialPort.outb port 0 <$> crlf s), polls'. split; [done|].
  unfold SerialPort.uart_run. rewrite foldl_app.
  assert (foldl (λ u w, SerialPort.uart_write port w u) u (SerialPort.init port) =
    SerialPort.mkUart false 3 0 3 (if SerialPort.dlab u then SerialPort.irq_enable u else 0) (SerialPort.sent u)) as ->.
  { unfold SerialPort.init. cbn [foldl]. rewrite !(uart_write_offset port). destruct u as [[] ? ? ? ? ?]; vm_compute; reflexivity. }
  pose proof (uart_sends port (crlf s)
    (SerialPort.mkUart false 3 0 3 (if SerialPort.dlab u then SerialPort.irq_enable u else 0) (SerialPort.sent u)) eq_refl) as Hu.
  unfold SerialPort.uart_run in Hu. rewrite Hu. cbn [SerialPort.sent SerialPort.divisor_low SerialPort.divisor_high SerialPort.line_control SerialPort.irq_enable].
  split_and!; [done|done|done|by intros ->].
Qed.

Lemma serial_transmits_witness :
  ∃ ws polls, SerialPort.write_str 2 0x3F8 (λ n, if Nat.even n then 0 else 0x20) 0 [72; 10] = Ret (ws, polls) ∧
    SerialPort.sent (SerialPort.uart_run 0x3F8 (SerialPort.init 0x3F8 ++ ws)
      (SerialPort.mkUart true 0 0 0 0 [])) = [72; 13; 10].
Proof.
  destruct (serial_transmits 0x3F8 (λ n, if Nat.even n then 0 else 0x20) 2 0 [72; 10]
    (SerialPort.mkUart true 0 0 0 0 [])) as (ws & polls & H & Hs & _).
  - intros n. destruct (Nat.even n) eqn:E.
    + exists 1%nat. split; [lia|]. rewrite Nat.add_1_r, Nat.even_succ, <- Nat.negb_even, E. reflexivity.
    + exists 0%nat. split; [lia|]. rewrite Nat.add_0_r, E. reflexivity.
  - exists ws, polls. split; [exact H|exact Hs].
Defined.
