(* ===== verification/Input.v ===== *)
(** * Keyboard input: the queue, the key map and the history of [src/shell.rs]

    [ScancodeQueue] is the ring buffer between the keyboard interrupt and the
    shell; its contract is a bounded first-in first-out queue.  The keyboard
    state machine turns scan codes into input actions, and [HistoryState] keeps
    the commands entered.  The key map yields ASCII characters only, so a [char]
    is an [ascii]. *)

From S2P Require Import Prelude.

Definition SCANCODE_QUEUE_CAPACITY : nat := 128.
Definition MAX_HISTORY_ENTRIES : nat := 64.

(** ** The scan code queue *)

Record ScancodeQueue := mkQueue {
  data : list Z;
  head : nat;
  tail : nat;
  len : nat;
}.

Definition ScancodeQueue_new : ScancodeQueue := mkQueue (replicate SCANCODE_QUEUE_CAPACITY 0%Z) 0 0 0.

Definition push (scancode : Z) (q : ScancodeQueue) : outcome (bool * ScancodeQueue) :=
  if len q =? SCANCODE_QUEUE_CAPACITY then Ret (false, q) else
  data' ← vec_set (data q) (tail q) scancode;
  Ret (true, mkQueue data' (head q) ((tail q + 1) `mod` SCANCODE_QUEUE_CAPACITY) (len q + 1)).

Definition pop (q : ScancodeQueue) : outcome (option Z * ScancodeQueue) :=
  if len q =? 0 then Ret (None, q) else
  scancode ← vec_index (data q) (head q);
  Ret (Some scancode, mkQueue (data q) ((head q + 1) `mod` SCANCODE_QUEUE_CAPACITY) (tail q) (len q - 1)).

(** [enqueue_scancode_from_irq]: a scan code that finds the queue full is dropped. *)
Definition enqueue_scancode_from_irq (scancode : Z) (q : ScancodeQueue) : outcome ScancodeQueue :=
  '(_, q) ← push scancode q; Ret q.

(** ** The keyboard *)

Record KeyboardState := mkKeyboard {
  shift_pressed : bool;
  caps_lock : bool;
  extended_prefix : bool;
}.

Inductive InputAction :=
| Backspace
| Enter
| Tab
| HistoryUp
| HistoryDown
| Char (c : ascii).

#[global] Instance InputAction_eq_dec : EqDecision InputAction.
Proof. solve_decision. Defined.

Local Open Scope char_scope.

Definition map_letter_base (scancode : Z) : option ascii :=
  match scancode with
  | 0x10 => Some "q" | 0x11 => Some "w" | 0x12 => Some "e" | 0x13 => Some "r" | 0x14 => Some "t"
  | 0x15 => Some "y" | 0x16 => Some "u" | 0x17 => Some "i" | 0x18 => Some "o" | 0x19 => Some "p"
  | 0x1E => Some "a" | 0x1F => Some "s" | 0x20 => Some "d" | 0x21 => Some "f" | 0x22 => Some "g"
  | 0x23 => Some "h" | 0x24 => Some "j" | 0x25 => Some "k" | 0x26 => Some "l"
  | 0x2C => Some "z" | 0x2D => Some "x" | 0x2E => Some "c" | 0x2F => Some "v" | 0x30 => Some "b"
  | 0x31 => Some "n" | 0x32 => Some "m"
  | _ => None
  end%Z.

Definition map_non_letter (scancode : Z) (shifted : bool) : option ascii :=
  match scancode with
  | 0x02 => Some (if shifted then "!" else "1")
  | 0x03 => Some (if shifted then "@" else "2")
  | 0x04 => Some (if shifted then "#" else "3")
  | 0x05 => Some (if shifted then "$" else "4")
  | 0x06 => Some (if shifted then "%" else "5")
  | 0x07 => Some (if shifted then "^" else "6")
  | 0x08 => Some (if shifted then "&" else "7")
  | 0x09 => Some (if shifted then "*" else "8")
  | 0x0A => Some (if shifted then "(" else "9")
  | 0x0B => Some (if shifted then ")" else "0")
  | 0x0C => Some (if shifted then "_" else "-")
  | 0x0D => Some (if shifted then "+" else "=")
  | 0x1A => Some (if shifted then "{" else "[")
  | 0x1B => Some (if shifted then "}" else "]")
  | 0x27 => Some (if shifted then ":" else ";")
  | 0x28 => Some (if shifted then "034" else "'")
  | 0x29 => Some (if shifted then "~" else "`")
  | 0x2B => Some (if shifted then "|" else "\")
  | 0x33 => Some (if shifted then "<" else ",")
  | 0x34 => Some (if shifted then ">" else ".")
  | 0x35 => Some (if shifted then "?" else "/")
  | 0x39 => Some " "
  | 0x37 => Some "*"
  | 0x47 => Some "7" | 0x48 => Some "8" | 0x49 => Some "9" | 0x4A => Some "-"
  | 0x4B => Some "4" | 0x4C => Some "5" | 0x4D => Some "6" | 0x4E => Some "+"
  | 0x4F => Some "1" | 0x50 => Some "2" | 0x51 => Some "3" | 0x52 => Some "0" | 0x53 => Some "."
  | _ => None
  end%Z.

Local Close Scope char_scope.

(** [char::to_ascii_uppercase]. *)
Definition to_ascii_uppercase (c : ascii) : ascii :=
  let n := N_of_ascii c in
  if ((97 <=? n) && (n <=? 122))%N then ascii_of_N (n - 32) else c.

Definition map_key (scancode : Z) (shifted caps : bool) : option ascii :=
  match map_letter_base scancode with
  | Some c => Some (if xorb caps shifted then to_ascii_uppercase c else c)
  | None => map_non_letter scancode shifted
  end.

Definition set_extended (b : bool) (k : KeyboardState) : KeyboardState :=
  mkKeyboard (shift_pressed k) (caps_lock k) b.
Definition set_shift (b : bool) (k : KeyboardState) : KeyboardState :=
  mkKeyboard b (caps_lock k) (extended_prefix k).

(** The first part of [process_scancode], under the keyboard lock: the new
    keyboard state and the action to perform. *)
Definition decode_scancode (scancode : Z) (keyboard : KeyboardState) : KeyboardState * option InputAction :=
  if (scancode =? 0xE0)%Z then (set_extended true keyboard, None) else
  let is_release := negb (Z.land scancode 0x80 =? 0)%Z in
  let code := Z.land scancode 0x7F in
  if extended_prefix keyboard then
    (set_extended false keyboard,
     if negb is_release then
       if (code =? 0x48)%Z then Some HistoryUp else if (code =? 0x50)%Z then Some HistoryDown else None
     else None)
  else if is_release then
    (if ((code =? 0x2A) || (code =? 0x36))%Z then set_shift false keyboard else keyboard, None)
  else if ((code =? 0x2A) || (code =? 0x36))%Z then (set_shift true keyboard, None)
  else if (code =? 0x3A)%Z then
    (mkKeyboard (shift_pressed keyboard) (negb (caps_lock keyboard)) (extended_prefix keyboard), None)
  else if (code =? 0x0E)%Z then (keyboard, Some Backspace)
  else if (code =? 0x1C)%Z then (keyboard, Some Enter)
  else if (code =? 0x0F)%Z then (keyboard, Some Tab)
  else (keyboard, Char <$> map_key code (shift_pressed keyboard) (caps_lock keyboard)).

(** ** The history *)

Record HistoryState := mkHistory {
  entries : list string;
  index : option nat;
  draft : string;
}.

Definition HistoryState_new : HistoryState := mkHistory [] None "".

Definition reset_navigation (h : HistoryState) : HistoryState := mkHistory (entries h) None "".

Definition record (command : string) (h : HistoryState) : outcome HistoryState :=
  if decide (command = "") then Ret (reset_navigation h) else
  let should_push := match last (entries h) with
                     | Some l => negb (String.eqb l command)
                     | None => true
                     end in
  es ← (if should_push then
          es ← (if MAX_HISTORY_ENTRIES <=? length (entries h) then vec_remove (entries h) 0
                else Ret (entries h));
          Ret (es ++ [command])
        else Ret (entries h));
  Ret (reset_navigation (mkHistory es (index h) (draft h))).

Definition previous (current_line : string) (h : HistoryState) : outcome (option string * HistoryState) :=
  match entries h with
  | [] => Ret (None, h)
  | _ =>
    let h := match index h with
             | None => mkHistory (entries h) (Some (length (entries h) - 1)) current_line
             | Some 0 => h
             | Some (S i) => mkHistory (entries h) (Some i) (draft h)
             end in
    match index h with
    | Some i => e ← vec_index (entries h) i; Ret (Some e, h)
    | None => Ret (None, h)
    end
  end.

Definition next (h : HistoryState) : outcome (option string * HistoryState) :=
  match index h with
  | None => Ret (None, h)
  | Some i =>
    if i + 1 <? length (entries h) then
      e ← vec_index (entries h) (i + 1);
      Ret (Some e, mkHistory (entries h) (Some (i + 1)) (draft h))
    else Ret (Some (draft h), mkHistory (entries h) None (draft h))
  end.
