(* ===== verification/InputProps.v ===== *)
(** * Correctness of keyboard input

    The ring buffer refines a bounded first-in first-out queue; the key map
    reaches exactly the printable ASCII characters; the history keeps its bounds
    and navigation through it is reversible. *)

From S2P Require Import Prelude Input.

(** ** The queue *)

Record queue_wf (q : ScancodeQueue) : Prop := {
  qw_data : length (data q) = 128;
  qw_head : head q < 128;
  qw_len : len q ≤ 128;
  qw_tail : tail q = (head q + len q) `mod` 128;
}.

(** The scan codes waiting, oldest first. *)
Definition contents (q : ScancodeQueue) : list Z :=
  (λ i, default 0%Z (data q !! ((head q + i) `mod` 128))) <$> seq 0 (len q).

Inductive queue_op := Push (scancode : Z) | Pop.
Inductive queue_result := Pushed (accepted : bool) | Popped (scancode : option Z).

Definition queue_exec (op : queue_op) (q : ScancodeQueue) : outcome (queue_result * ScancodeQueue) :=
  match op with
  | Push x => '(b, q) ← push x q; Ret (Pushed b, q)
  | Pop => '(x, q) ← pop q; Ret (Popped x, q)
  end.

(** The contract. *)
Definition fifo_exec (op : queue_op) (l : list Z) : queue_result * list Z :=
  match op with
  | Push x => if length l =? 128 then (Pushed false, l) else (Pushed true, l ++ [x])
  | Pop => match l with [] => (Popped None, []) | x :: l => (Popped (Some x), l) end
  end.

Fixpoint queue_run (ops : list queue_op) (q : ScancodeQueue) : outcome (list queue_result * ScancodeQueue) :=
  match ops with
  | [] => Ret ([], q)
  | op :: ops =>
    '(r, q) ← queue_exec op q;
    '(rs, q) ← queue_run ops q;
    Ret (r :: rs, q)
  end.

Fixpoint fifo_run (ops : list queue_op) (l : list Z) : list queue_result * list Z :=
  match ops with
  | [] => ([], l)
  | op :: ops => let '(r, l) := fifo_exec op l in let '(rs, l) := fifo_run ops l in (r :: rs, l)
  end.

Lemma length_contents q : length (contents q) = len q.
Proof. unfold contents. by rewrite length_fmap, length_seq. Qed.

Lemma new_queue_wf : queue_wf ScancodeQueue_new.
Proof. split; cbn; lia. Qed.

Lemma push_spec x q :
  queue_wf q →
  ∃ q', push x q = Ret (negb (len q =? 128), q') ∧ queue_wf q' ∧
    contents q' = if len q =? 128 then contents q else contents q ++ [x].
Proof.
  intros [Hd Hh Hl Ht]. unfold push, SCANCODE_QUEUE_CAPACITY.
  destruct (Nat.eqb_spec (len q) 128) as [|Hne]; [by exists q|].
  rewrite vec_set_lt by (rewrite Hd, Ht; lia_div). cbn [mbind outcome_bind negb].
  eexists. split; [done|]. split.
  - split; cbn [data head tail len]; [by rewrite length_insert|done|lia|rewrite Ht; lia_div].
  - unfold contents. cbn [data head tail len]. rewrite Nat.add_1_r, seq_S, fmap_app. cbn [fmap list_fmap].
    f_equal.
    + apply list_fmap_ext. intros k i [-> Hi]%lookup_seq. rewrite list_lookup_insert_ne; [done|].
      rewrite Ht. lia_div.
    + rewrite Nat.add_0_l, <- Ht, list_lookup_insert_eq; [done|]. rewrite Hd, Ht. lia_div.
Qed.

Lemma pop_spec q :
  queue_wf q →
  ∃ q', pop q = Ret (list.head (contents q), q') ∧ queue_wf q' ∧ contents q' = list.tail (contents q).
Proof.
  intros [Hd Hh Hl Ht]. unfold pop, SCANCODE_QUEUE_CAPACITY.
  destruct (Nat.eqb_spec (len q) 0) as [H0|Hne].
  { exists q. unfold contents. by rewrite H0. }
  destruct (lookup_lt_is_Some_2 (data q) (head q)) as [x Hx]; [lia|].
  erewrite vec_index_Some by done. cbn [mbind outcome_bind].
  destruct (len q) as [|n] eqn:Hn; [done|]. unfold contents. rewrite Hn. cbn [seq fmap list_fmap list.head list.tail].
  rewrite Nat.add_0_r, (Nat.mod_small (head q)), Hx by lia. cbn [default].
  eexists. split; [done|]. split.
  - split; cbn [data head tail len]; [done|lia_div|lia|rewrite Ht; lia_div].
  - cbn [data head tail len]. rewrite Nat.sub_succ, Nat.sub_0_r, <- fmap_S_seq, <- list_fmap_compose.
    apply list_fmap_ext. intros k i _. unfold compose. by replace (((head q + 1) `mod` 128 + i) `mod` 128) with ((head q + S i) `mod` 128) by lia_div.
Qed.

Lemma queue_exec_fifo op q :
  queue_wf q →
  ∃ q', queue_exec op q = Ret ((fifo_exec op (contents q)).1, q') ∧ queue_wf q' ∧
    contents q' = (fifo_exec op (contents q)).2.
Proof.
  intros Hq. destruct op as [x|]; cbn [queue_exec fifo_exec].
  - destruct (push_spec x q Hq) as (q' & -> & Hq' & Hc). cbn [mbind outcome_bind].
    rewrite length_contents. exists q'. destruct (len q =? 128); cbn; auto.
  - destruct (pop_spec q Hq) as (q' & -> & Hq' & Hc). cbn [mbind outcome_bind].
    exists q'. destruct (contents q); cbn; auto.
Qed.

Lemma queue_run_fifo ops : ∀ q,
  queue_wf q →
  ∃ q', queue_run ops q = Ret ((fifo_run ops (contents q)).1, q') ∧ queue_wf q' ∧
    contents q' = (fifo_run ops (contents q)).2.
Proof.
  induction ops as [|op ops IH]; intros q Hq; [by exists q|].
  destruct (queue_exec_fifo op q Hq) as (q1 & H1 & Hq1 & Hc1). cbn [queue_run fifo_run].
  rewrite H1. cbn [mbind outcome_bind]. destruct (fifo_exec op (contents q)) as [r l]. cbn in Hc1. subst l.
  destruct (IH q1 Hq1) as (q2 & -> & Hq2 & Hc2). cbn [mbind outcome_bind].
  destruct (fifo_run ops (contents q1)) as [rs l]. exists q2. cbn. auto.
Qed.

(** ** The key map *)

Definition printable (c : ascii) : bool := ((32 <=? N_of_ascii c) && (N_of_ascii c <=? 126))%N.

(** The code and the shift state of a key that types [c]. *)
Definition key_for (c : ascii) : option (Z * bool) :=
  find_map (λ '(code, shifted), if decide (map_key code shifted false = Some c) then Some (code, shifted) else None)
    (list_prod (seqZ 1 0x53) [false; true]).

(** The scan codes of pressing and releasing that key, holding shift when it is needed. *)
Definition type_char (c : ascii) : list Z :=
  match key_for c with
  | Some (code, true) => [0x2A; code; code + 0x80; 0xAA]%Z
  | Some (code, false) => [code; code + 0x80]%Z
  | None => []
  end.

(** The actions of a sequence of scan codes. *)
Fixpoint decode_all (scancodes : list Z) (k : KeyboardState) : KeyboardState * list InputAction :=
  match scancodes with
  | [] => (k, [])
  | s :: scancodes =>
    let '(k, action) := decode_scancode s k in
    let '(k, actions) := decode_all scancodes k in
    (k, match action with Some a => a :: actions | None => actions end)
  end.

Definition idle_keyboard : KeyboardState := mkKeyboard false false false.

Lemma map_key_printable code shifted caps c : map_key code shifted caps = Some c → printable c = true.
Proof.
  unfold map_key. destruct (map_letter_base code) as [b|] eqn:E.
  - intros [= <-]. unfold map_letter_base in E.
    repeat case_match; simplify_eq; reflexivity.
  - clear E. unfold map_non_letter. intros H. repeat case_match; simplify_eq; reflexivity.
Qed.

Lemma type_char_decodes c :
  printable c = true → decode_all (type_char c) idle_keyboard = (idle_keyboard, [Char c]).
Proof. destruct c as [[] [] [] [] [] [] [] []]; vm_compute; intros; first [reflexivity|discriminate]. Qed.

Lemma decode_all_app s1 s2 k :
  decode_all (s1 ++ s2) k =
    let '(k1, a1) := decode_all s1 k in let '(k2, a2) := decode_all s2 k1 in (k2, a1 ++ a2).
Proof.
  revert k. induction s1 as [|s s1 IH]; intros k; [cbn; by destruct (decode_all s2 k)|].
  cbn. destruct (decode_scancode s k) as [k0 a]. rewrite IH.
  destruct (decode_all s1 k0) as [k1 a1]. destruct (decode_all s2 k1) as [k2 a2]. by destruct a.
Qed.

Lemma type_text_decodes l :
  Forall (λ c, printable c = true) l →
  decode_all (l ≫= type_char) idle_keyboard = (idle_keyboard, Char <$> l).
Proof.
  induction 1 as [|c l Hc Hl IH]; [done|]. cbn [mbind list_bind]. rewrite decode_all_app.
  rewrite type_char_decodes by done. rewrite IH. done.
Qed.

(** ** The history *)

Record history_wf (h : HistoryState) : Prop := {
  hw_count : length (entries h) ≤ MAX_HISTORY_ENTRIES;
  hw_commands : Forall (λ e, e ≠ ""%string) (entries h);
  hw_changes : ∀ i a b, entries h !! i = Some a → entries h !! S i = Some b → a ≠ b;
  hw_index : ∀ i, index h = Some i → i < length (entries h);
}.

Lemma new_history_wf : history_wf HistoryState_new.
Proof. split; cbn; [unfold MAX_HISTORY_ENTRIES; lia|constructor|done|done]. Qed.

Lemma reset_wf h : history_wf h → history_wf (reset_navigation h).
Proof. intros []. by split. Qed.

(** What [record] leaves: the last entries, the command at the end. *)
Lemma record_spec command h :
  history_wf h →
  ∃ h', record command h = Ret h' ∧ history_wf h' ∧ index h' = None ∧
    (command ≠ "" → last (entries h') = Some command) ∧
    (command = "" → entries h' = entries h).
Proof.
  intros Hwf. unfold record. case_decide as Hc.
  { eexists. split; [done|]. split; [by apply reset_wf|]. done. }
  destruct Hwf as [Hn Hne Hch _].
  set (should := match last (entries h) with Some l => negb (String.eqb l command) | None => true end).
  destruct should eqn:Hs.
  - set (kept := if MAX_HISTORY_ENTRIES <=? length (entries h) then delete 0 (entries h) else entries h).
    assert ((if MAX_HISTORY_ENTRIES <=? length (entries h) then vec_remove (entries h) 0 else Ret (entries h))
            = Ret kept) as ->.
    { unfold kept. destruct (Nat.leb_spec MAX_HISTORY_ENTRIES (length (entries h))); [|done].
      apply vec_remove_lt. unfold MAX_HISTORY_ENTRIES in *. lia. }
    cbn [mbind outcome_bind]. eexists. split; [done|].
    assert (Hk : ∃ k, kept = drop k (entries h)).
    { unfold kept. destruct (MAX_HISTORY_ENTRIES <=? length (entries h)); [exists 1|by exists 0]. by destruct (entries h). }
    split_and!; [split|done| |done]; cbn [reset_navigation entries index].
    + rewrite length_app. cbn. unfold kept.
      destruct (Nat.leb_spec MAX_HISTORY_ENTRIES (length (entries h))); [|lia].
      rewrite length_delete by (apply lookup_lt_is_Some; unfold MAX_HISTORY_ENTRIES in *; lia).
      unfold MAX_HISTORY_ENTRIES in *. lia.
    + apply Forall_app. split; [|by constructor]. destruct Hk as [k ->]. by apply Forall_drop.
    + intros i a b Ha Hb Hab. destruct Hk as [k Hk]. rewrite Hk in *.
      apply lookup_app_Some in Hb as [Hb|[Hb1 Hb2]].
      * rewrite lookup_app_l in Ha by (apply lookup_lt_Some in Hb; lia). rewrite lookup_drop in Ha, Hb.
        eapply Hch; [exact Ha| |exact Hab]. by replace (S (k + i)) with (k + S i) by lia.
      * apply list_lookup_singleton_Some in Hb2 as [Hi <-].
        rewrite lookup_app_l in Ha by lia. subst a.
        assert (last (entries h) = Some command) as Hlast.
        { rewrite last_lookup. rewrite lookup_drop in Ha. rewrite length_drop in *. rewrite <- Ha. f_equal.
          apply lookup_lt_Some in Ha. lia. }
        unfold should in Hs. rewrite Hlast, String.eqb_refl in Hs. done.
    + done.
    + intros _. apply last_snoc.
  - cbn [mbind outcome_bind]. eexists. split; [done|]. split_and!; [by split|done| |done].
    intros _. unfold should in Hs. cbn. destruct (last (entries h)) as [l|]; [|done].
    apply negb_false_iff, String.eqb_eq in Hs. by subst.
Qed.

Definition set_index (i : option nat) (h : HistoryState) : HistoryState := mkHistory (entries h) i (draft h).

Lemma previous_first line h n :
  index h = None → length (entries h) = S n →
  previous line h = Ret (entries h !! n, mkHistory (entries h) (Some n) line).
Proof.
  intros Hi Hn. unfold previous. rewrite Hi, Hn, Nat.sub_succ, Nat.sub_0_r. cbn [index entries].
  destruct (lookup_lt_is_Some_2 (entries h) n) as [e He]; [lia|].
  destruct (entries h) as [|e0 es] eqn:Hes; [done|]. rewrite <- Hes in *.
  erewrite vec_index_Some by done. by rewrite He.
Qed.

Lemma previous_again line h i :
  index h = Some (S i) → S i < length (entries h) →
  previous line h = Ret (entries h !! i, set_index (Some i) h).
Proof.
  intros Hi Hlt. unfold previous. rewrite Hi. cbn [index entries].
  destruct (lookup_lt_is_Some_2 (entries h) i) as [e He]; [lia|].
  destruct (entries h) as [|e0 es] eqn:Hes; [cbn in Hlt; lia|]. rewrite <- Hes in *.
  erewrite vec_index_Some by done. by rewrite He.
Qed.

Lemma next_inside h i :
  index h = Some i → S i < length (entries h) →
  next h = Ret (entries h !! S i, set_index (Some (S i)) h).
Proof.
  intros Hi Hlt. unfold next. rewrite Hi, Nat.add_1_r, (proj2 (Nat.ltb_lt _ _)) by done.
  destruct (lookup_lt_is_Some_2 (entries h) (S i)) as [e He]; [done|].
  erewrite vec_index_Some by done. cbn. by rewrite He.
Qed.

Lemma next_last h i :
  index h = Some i → S i = length (entries h) → next h = Ret (Some (draft h), set_index None h).
Proof.
  intros Hi Hlt. unfold next. rewrite Hi, (proj2 (Nat.ltb_ge _ _)) by lia. done.
Qed.

(** [k] presses of the up key: the last line shown. *)
Fixpoint ups (k : nat) (line : string) (h : HistoryState) : outcome (option string * HistoryState) :=
  match k with
  | O => Ret (None, h)
  | S k => '(_, h) ← ups k line h; previous line h
  end.

(** [k] presses of the down key. *)
Fixpoint nexts (k : nat) (h : HistoryState) : outcome (option string * HistoryState) :=
  match k with
  | O => Ret (None, h)
  | S k => '(_, h) ← nexts k h; next h
  end.

Lemma ups_spec k line h :
  index h = None → 1 ≤ k ≤ length (entries h) →
  ups k line h = Ret (entries h !! (length (entries h) - k),
                      mkHistory (entries h) (Some (length (entries h) - k)) line).
Proof.
  intros Hi. induction k as [|k IH]; intros Hk; [lia|]. cbn [ups].
  destruct k as [|k].
  - cbn [ups mbind outcome_bind]. rewrite (previous_first line h (length (entries h) - 1)); [done|done|lia].
  - rewrite IH by lia. cbn [mbind outcome_bind].
    rewrite (previous_again line _ (length (entries h) - S (S k))); [done|cbn; f_equal; lia|cbn; lia].
Qed.

Lemma nexts_spec k h n :
  index h = Some n → 1 ≤ k → n + k < length (entries h) →
  nexts k h = Ret (entries h !! (n + k), set_index (Some (n + k)) h).
Proof.
  intros Hi. induction k as [|k IH]; intros Hk Hlt; [lia|]. cbn [nexts]. destruct k as [|k].
  - cbn [nexts mbind outcome_bind]. rewrite (next_inside h n) by (done || lia). by rewrite Nat.add_1_r.
  - rewrite IH by lia. cbn [mbind outcome_bind].
    rewrite (next_inside _ (n + S k)) by (done || cbn; lia). cbn.
    by replace (S (n + S k)) with (n + S (S k)) by lia.
Qed.

(** ** Claims *)

(** C33. The ring buffer is a first-in first-out queue of capacity 128: every
    sequence of pushes and pops, from the empty queue, gives the answers of a
    list that refuses a push when it holds 128 codes, and never panics. *)
Theorem queue_refines_fifo ops :
  ∃ q, queue_run ops ScancodeQueue_new = Ret ((fifo_run ops []).1, q) ∧ contents q = (fifo_run ops []).2.
Proof. destruct (queue_run_fifo ops _ new_queue_wf) as (q & ? & _ & ?). by exists q. Qed.

(** The key map reaches exactly the printable ASCII characters: every
    character a key yields is printable, and pressing and releasing the keys of
    a printable text, from the idle keyboard, yields the characters of the text
    and leaves the keyboard idle. *)
Theorem key_map_printable :
  (∀ code shifted caps c, map_key code shifted caps = Some c → printable c = true) ∧
  (∀ l, Forall (λ c, printable c = true) l →
     decode_all (l ≫= type_char) idle_keyboard = (idle_keyboard, Char <$> l)).
Proof. split; [exact map_key_printable|exact type_text_decodes]. Qed.

(** Navigation through the history is reversible: from a line being edited,
    [k] presses of the up key show the [k]-th newest command, and [k] presses of
    the down key then show the line again. *)
Theorem history_navigation k line h :
  index h = None → 1 ≤ k ≤ length (entries h) →
  ∃ h', ups k line h = Ret (entries h !! (length (entries h) - k), h') ∧
    nexts k h' = Ret (Some line, mkHistory (entries h) None line).
Proof.
  intros Hi Hk. rewrite ups_spec by done. eexists. split; [done|].
  set (h' := mkHistory _ _ _). destruct k as [|k]; [lia|]. cbn [nexts]. destruct k as [|k].
  - cbn [nexts mbind outcome_bind]. rewrite (next_last h' (length (entries h) - 1)); [done|done|cbn; lia].
  - rewrite (nexts_spec (S k) h' (length (entries h) - S (S k))); [|done|lia|cbn; lia].
    cbn [mbind outcome_bind]. rewrite (next_last _ (length (entries h) - 1)); [done|cbn; f_equal; lia|cbn; lia].
Qed.

Lemma history_navigation_witness :
  ∃ h', ups 2 "dra" (mkHistory ["ps"; "ls"; "top"] None "") = Ret (Some "ls"%string, h') ∧
    nexts 2 h' = Ret (Some "dra"%string, mkHistory ["ps"; "ls"; "top"] None "dra").
Proof.
  destruct (history_navigation 2 "dra" (mkHistory ["ps"; "ls"; "top"] None "")) as (h' & H1 & H2);
    [reflexivity|cbn; lia|].
  exists h'. split; [exact H1|exact H2].
Defined.

(** Whatever commands are entered, the history holds at most 64 entries,
    none empty and no two equal in a row, the newest last; recording never
    panics. *)
Theorem history_bounded commands :
  ∃ h, foldl (λ m c, h ← m; record c h) (Ret HistoryState_new) commands = Ret h ∧ history_wf h ∧
    index h = None ∧ (∀ c, last commands = Some c → c ≠ "" → last (entries h) = Some c).
Proof.
  induction commands as [|c commands IH] using rev_ind.
  { eexists. split; [done|]. split_and!; [apply new_history_wf|done|done]. }
  destruct IH as (h & Hh & Hwf & _ & _). rewrite foldl_app, Hh. cbn [foldl mbind outcome_bind].
  destruct (record_spec c h Hwf) as (h' & -> & Hwf' & Hi & Hl & _).
  exists h'. split_and!; [done|done|done|]. intros c' [= <-]%(eq_trans (eq_sym (last_snoc _ _))). exact Hl.
Qed.
