(* ===== verification/Vga.v ===== *)
(** * The text screen: [src/vga_buffer.rs]

    [Writer] over the 25 by 80 character buffer.  The contract is a terminal
    that only remembers lines: rows already completed and the row being written.
    Texts are lists of bytes, as [write_string] sees them. *)

From S2P Require Import Prelude Machine Devices.
Local Open Scope nat_scope.

Inductive Color :=
| Black | Blue | Green | Cyan | Red | Magenta | Brown | LightGray
| DarkGray | LightBlue | LightGreen | LightCyan | LightRed | Pink | Yellow | White.

(** [color as u8]. *)
Definition color_u8 (c : Color) : Z :=
  match c with
  | Black => 0 | Blue => 1 | Green => 2 | Cyan => 3 | Red => 4 | Magenta => 5 | Brown => 6
  | LightGray => 7 | DarkGray => 8 | LightBlue => 9 | LightGreen => 10 | LightCyan => 11
  | LightRed => 12 | Pink => 13 | Yellow => 14 | White => 15
  end.

Definition ColorCode_new (foreground background : Color) : Z :=
  Z.lor (Z.shiftl (color_u8 background) 4) (color_u8 foreground).

Record ScreenChar := mkChar { ascii_character : Z; char_color : Z }.

Definition BUFFER_HEIGHT : nat := 25.
Definition BUFFER_WIDTH : nat := 80.

Abbreviation Buffer := (list (list ScreenChar)).

Record Writer := mkWriter {
  column_position : nat;
  color_code : Z;
  buffer : Buffer;
}.

Definition set_column (c : nat) (w : Writer) : Writer := mkWriter c (color_code w) (buffer w).
Definition set_buffer (b : Buffer) (w : Writer) : Writer := mkWriter (column_position w) (color_code w) b.

(** [self.buffer.chars[row][col].read()] and [.write(c)]: both indices are checked. *)
Definition read_cell (b : Buffer) (row col : nat) : outcome ScreenChar :=
  r ← vec_index b row; vec_index r col.
Definition write_cell (row col : nat) (c : ScreenChar) (b : Buffer) : outcome Buffer :=
  r ← vec_index b row; r ← vec_set r col c; vec_set b row r.

(** [for x in l { b = f(x, b)? }] on outcomes. *)
Definition for_each {A} (l : list A) (f : A → Buffer → outcome Buffer) (b : Buffer) : outcome Buffer :=
  foldl (λ m x, b ← m; f x b) (Ret b) l.

Definition clear_row (row : nat) (w : Writer) : outcome Writer :=
  let blank := mkChar 32 (color_code w) in
  b ← for_each (seq 0 BUFFER_WIDTH) (λ col, write_cell row col blank) (buffer w);
  Ret (set_buffer b w).

Definition new_line (w : Writer) : outcome Writer :=
  b ← for_each (seq 1 (BUFFER_HEIGHT - 1)) (λ row,
        for_each (seq 0 BUFFER_WIDTH) (λ col b,
          character ← read_cell b row col; write_cell (row - 1) col character b)) (buffer w);
  w ← clear_row (BUFFER_HEIGHT - 1) (set_buffer b w);
  Ret (set_column 0 w).

Definition write_byte (byte : Z) (w : Writer) : outcome Writer :=
  if (byte =? 10)%Z then new_line w else
  w ← (if BUFFER_WIDTH <=? column_position w then new_line w else Ret w);
  let row := BUFFER_HEIGHT - 1 in
  let col := column_position w in
  b ← write_cell row col (mkChar byte (color_code w)) (buffer w);
  Ret (set_column (col + 1) (set_buffer b w)).

Definition backspace (w : Writer) : outcome Writer :=
  if 0 <? column_position w then
    let w := set_column (column_position w - 1) w in
    let row := BUFFER_HEIGHT - 1 in
    let col := column_position w in
    b ← write_cell row col (mkChar 32 (color_code w)) (buffer w);
    Ret (set_buffer b w)
  else Ret w.

(** One byte of [write_string]. *)
Definition write_text_byte (byte : Z) (w : Writer) : outcome Writer :=
  if (byte =? 8)%Z then backspace w
  else if ((0x20 <=? byte) && (byte <=? 0x7E) || (byte =? 10))%Z then write_byte byte w
  else write_byte 0xFE w.

Definition update_cursor (w : Writer) : list port_write :=
  let pos := Z.of_nat ((BUFFER_HEIGHT - 1) * BUFFER_WIDTH + column_position w) in
  let pos_u16 := as_u16 pos in
  [mkOut 0x3D4 0x0E; mkOut 0x3D5 (as_u8 (Z.shiftr pos_u16 8));
   mkOut 0x3D4 0x0F; mkOut 0x3D5 (as_u8 (Z.land pos_u16 0xFF))].

Definition write_string (s : list Z) (w : Writer) : outcome (Writer * list port_write) :=
  w ← foldl (λ m byte, w ← m; write_text_byte byte w) (Ret w) s;
  Ret (w, update_cursor w).

Definition clear_screen (w : Writer) : outcome (Writer * list port_write) :=
  w ← foldl (λ m row, w ← m; clear_row row w) (Ret w) (seq 0 BUFFER_HEIGHT);
  let w := set_column 0 w in
  Ret (w, update_cursor w).

(** The [WRITER] static over the memory at 0xb8000. *)
Definition WRITER (b : Buffer) : Writer := mkWriter 0 (ColorCode_new LightGreen Black) b.

(** ** The contract: a terminal of lines *)

Record Terminal := mkTerminal {
  done : list (list Z);
  line : list Z;
}.

Definition term_newline (t : Terminal) : Terminal := mkTerminal (done t ++ [line t]) [].

Definition term_byte (byte : Z) (t : Terminal) : Terminal :=
  if (byte =? 8)%Z then mkTerminal (done t) (take (length (line t) - 1) (line t))
  else if (byte =? 10)%Z then term_newline t
  else
    let t := if BUFFER_WIDTH <=? length (line t) then term_newline t else t in
    let shown := if ((0x20 <=? byte) && (byte <=? 0x7E))%Z then byte else 0xFE%Z in
    mkTerminal (done t) (line t ++ [shown]).

Definition term_text (s : list Z) (t : Terminal) : Terminal := foldl (λ t b, term_byte b t) t s.

(** A line as a row of the screen, blank to the right. *)
Definition row_of (color : Z) (l : list Z) : list ScreenChar :=
  ((λ b, mkChar b color) <$> l) ++ replicate (BUFFER_WIDTH - length l) (mkChar 32 color).

(** The screen shows the last 24 completed lines, under blank rows if there are
    fewer, and the current line at the bottom. *)
Definition screen_of (color : Z) (t : Terminal) : Buffer :=
  let rows := replicate 24 (row_of color []) ++ (row_of color <$> done t) in
  drop (length (done t)) rows ++ [row_of color (line t)].

Definition shows (w : Writer) (t : Terminal) : Prop :=
  buffer w = screen_of (color_code w) t ∧ column_position w = length (line t) ∧
  length (line t) ≤ BUFFER_WIDTH ∧ Forall (λ l, length l ≤ BUFFER_WIDTH) (done t).

(** A buffer of the right size. *)
Definition sized (b : Buffer) : Prop := length b = BUFFER_HEIGHT ∧ Forall (λ r, length r = BUFFER_WIDTH) b.
