(* ===== verification/VgaProps.v ===== *)
(** * Correctness of the text screen

    Scrolling and clearing, written in the code as loops over cells, act on whole
    rows; on them the writer simulates the terminal of lines. *)

From S2P Require Import Prelude Machine Devices Vga.

(** ** Loops over cells *)

Lemma write_cell_eq b row col c r :
  b !! row = Some r → col < length r →
  write_cell row col c b = Ret (<[row := <[col := c]> r]> b).
Proof.
  intros Hr Hc. unfold write_cell. erewrite vec_index_Some by done. cbn [mbind outcome_bind].
  rewrite vec_set_lt by done. cbn [mbind outcome_bind]. apply vec_set_lt. by eapply lookup_lt_Some.
Qed.

Lemma for_each_snoc {A} (l : list A) x f b b' :
  for_each l f b = Ret b' → for_each (l ++ [x]) f b = f x b'.
Proof. unfold for_each. rewrite foldl_app. by intros ->. Qed.

(** Overwriting the [n]-th element of a partly copied list copies one more. *)
Lemma insert_take_drop {A} (src old : list A) n x y :
  src !! n = Some x → old !! n = Some y → n ≤ length src →
  <[n := x]> (take n src ++ drop n old) = take (S n) src ++ drop (S n) old.
Proof.
  intros Hs Ho Hn. erewrite take_S_r, (drop_S old) by done.
  rewrite <- (Nat.add_0_r n) at 1.
  replace (n + 0) with (length (take n src) + 0) by (rewrite length_take; lia).
  rewrite insert_app_r. cbn. by rewrite <- app_assoc.
Qed.

(** A loop that copies [src] into the row [dst], cell by cell. *)
Lemma fill_row_loop b dst old src f n :
  b !! dst = Some old → length old = 80 → length src = 80 → n ≤ 80 →
  (∀ col c x, src !! col = Some c → f col (<[dst := x]> b) = write_cell dst col c (<[dst := x]> b)) →
  for_each (seq 0 n) f b = Ret (<[dst := take n src ++ drop n old]> b).
Proof.
  intros Hd Ho Hs Hn Hf. induction n as [|n IH].
  { change (Ret b = Ret (<[dst := old]> b)). by rewrite list_insert_id. }
  rewrite seq_S. erewrite for_each_snoc by (apply IH; lia). rewrite Nat.add_0_l.
  destruct (lookup_lt_is_Some_2 src n) as [x Hx]; [lia|].
  destruct (lookup_lt_is_Some_2 old n) as [y Hy]; [lia|].
  rewrite (Hf _ _ _ Hx). erewrite write_cell_eq.
  - by rewrite list_insert_insert_eq, (insert_take_drop _ _ _ x y) by (done || lia).
  - apply list_lookup_insert_eq. by eapply lookup_lt_Some.
  - rewrite length_app, length_take, length_drop. lia.
Qed.

Lemma sized_row b row : sized b → row < 25 → ∃ r, b !! row = Some r ∧ length r = 80.
Proof.
  intros [Hl Hr] Hrow. destruct (lookup_lt_is_Some_2 b row) as [r Hb]; [unfold BUFFER_HEIGHT in Hl; lia|].
  exists r. split; [done|]. by eapply Forall_lookup_1 in Hr.
Qed.

Definition blank_row (color : Z) : list ScreenChar := replicate 80 (mkChar 32 color).

Lemma clear_row_eq row w :
  sized (buffer w) → row < 25 →
  clear_row row w = Ret (set_buffer (<[row := blank_row (color_code w)]> (buffer w)) w).
Proof.
  intros Hb Hrow. destruct (sized_row _ row Hb Hrow) as (r & Hr & Hlen). unfold clear_row.
  rewrite (fill_row_loop _ row r (blank_row (color_code w))); try done.
  - cbn [mbind outcome_bind]. unfold BUFFER_WIDTH.
    rewrite take_ge, drop_ge, app_nil_r by (rewrite ?Hlen; unfold blank_row; rewrite ?length_replicate; lia). done.
  - intros col c x [-> _]%lookup_replicate. done.
Qed.

(** ** Scrolling *)

Lemma scroll_loop b n :
  sized b → n ≤ 24 →
  for_each (seq 1 n) (λ row, for_each (seq 0 BUFFER_WIDTH) (λ col b,
    character ← read_cell b row col; write_cell (row - 1) col character b)) b =
  Ret (take n (drop 1 b) ++ drop n b).
Proof.
  intros Hb Hn. induction n as [|n IH]; [by rewrite take_0, drop_0|].
  rewrite seq_S. erewrite for_each_snoc by (apply IH; lia).
  destruct (sized_row b n Hb) as (old & Hold & Holen); [lia|].
  destruct (sized_row b (S n) Hb) as (src & Hsrc & Hslen); [lia|].
  set (bn := take n (drop 1 b) ++ drop n b).
  assert (length (take n (drop 1 b)) = n) as Htn.
  { rewrite length_take, length_drop. destruct Hb as [Hl _]. unfold BUFFER_HEIGHT in Hl. lia. }
  assert (bn !! n = Some old) as Hbn.
  { unfold bn. rewrite lookup_app_r, Htn, Nat.sub_diag, lookup_drop, Nat.add_0_r by lia. done. }
  assert (bn !! S n = Some src) as Hbs.
  { unfold bn. rewrite lookup_app_r, Htn, lookup_drop by lia. by replace (n + (S n - n)) with (S n) by lia. }
  replace (1 + n - 1) with n by lia.
  rewrite (fill_row_loop bn n old src _ BUFFER_WIDTH); try done.
  - unfold BUFFER_WIDTH. rewrite take_ge, drop_ge, app_nil_r by lia. f_equal. unfold bn.
    apply (insert_take_drop _ _ _ src old); [by rewrite lookup_drop|done|].
    rewrite length_drop. destruct Hb as [Hl _]. unfold BUFFER_HEIGHT in Hl. lia.
  - intros col c x Hc. unfold read_cell. replace (1 + n) with (S n) by lia.
    erewrite vec_index_Some by (rewrite list_lookup_insert_ne by lia; done). cbn [mbind outcome_bind].
    erewrite vec_index_Some by done. done.
Qed.

Lemma new_line_eq w :
  sized (buffer w) →
  new_line w = Ret (mkWriter 0 (color_code w) (drop 1 (buffer w) ++ [blank_row (color_code w)])).
Proof.
  intros Hb. unfold new_line. change (BUFFER_HEIGHT - 1) with 24. rewrite scroll_loop by done.
  cbn [mbind outcome_bind]. destruct Hb as [Hl Hr]. unfold BUFFER_HEIGHT in Hl.
  assert (length (take 24 (drop 1 (buffer w))) = 24) as Ht by (rewrite length_take, length_drop; lia).
  rewrite clear_row_eq; [|split|lia]; cbn [set_buffer buffer color_code].
  - cbn [mbind outcome_bind set_column set_buffer column_position color_code buffer]. do 2 f_equal.
    rewrite take_ge by (rewrite length_drop; lia). rewrite take_ge in Ht by (rewrite length_drop; lia).
    destruct (drop 24 (buffer w)) as [|x [|y l]] eqn:Hd;
      [apply (f_equal length) in Hd; rewrite length_drop in Hd; cbn in Hd; lia| |
       apply (f_equal length) in Hd; rewrite length_drop in Hd; cbn in Hd; lia].
    rewrite <- Ht at 1. rewrite <- (Nat.add_0_r (length _)), insert_app_r. done.
  - rewrite length_app, Ht, length_drop. unfold BUFFER_HEIGHT. lia.
  - apply Forall_app. split; [apply Forall_take, Forall_drop|apply Forall_drop]; done.
Qed.

(** ** The terminal *)

Lemma length_row_of color l : length l ≤ 80 → length (row_of color l) = 80.
Proof. intros H. unfold row_of, BUFFER_WIDTH. rewrite length_app, length_fmap, length_replicate. lia. Qed.

Lemma row_of_nil color : row_of color [] = blank_row color.
Proof. done. Qed.

Lemma screen_upper_length color t :
  length (drop (length (done t)) (replicate 24 (row_of color []) ++ (row_of color <$> done t))) = 24.
Proof. rewrite length_drop, length_app, length_fmap, length_replicate. lia. Qed.

Lemma shows_sized w t : shows w t → sized (buffer w).
Proof.
  intros (-> & _ & Hl & Hd). unfold screen_of. split.
  - rewrite length_app, screen_upper_length. done.
  - apply Forall_app. split; [|by constructor; [apply length_row_of|constructor]].
    apply Forall_drop, Forall_app. split.
    + apply Forall_replicate. by apply length_row_of; cbn; lia.
    + apply Forall_fmap. eapply Forall_impl; [exact Hd|]. intros l. apply length_row_of.
Qed.

Lemma new_line_shows w t :
  shows w t → ∃ w', new_line w = Ret w' ∧ shows w' (term_newline t) ∧ color_code w' = color_code w.
Proof.
  intros Hs. rewrite new_line_eq by (by eapply shows_sized). eexists. split; [done|]. split; [|done].
  destruct Hs as (Hb & Hc & Hl & Hd). unfold shows, term_newline. cbn [buffer color_code column_position done line].
  split_and!; [|done|cbn; lia|apply Forall_app; split; [done|by constructor]].
  rewrite Hb. unfold screen_of. cbn [done line].
  rewrite <- row_of_nil, fmap_app, length_app. cbn [fmap list_fmap length]. f_equal.
  rewrite drop_app_le by (rewrite screen_upper_length; lia). rewrite drop_drop. symmetry. rewrite app_assoc, drop_app_le; [done|].
  rewrite length_app, length_fmap, length_replicate. lia.
Qed.

Lemma row_of_snoc color l b :
  length l < 80 → <[length l := mkChar b color]> (row_of color l) = row_of color (l ++ [b]).
Proof.
  intros Hl. unfold row_of, BUFFER_WIDTH. rewrite fmap_app, length_app. cbn [length fmap list_fmap].
  replace (80 - length l) with (S (80 - (length l + 1))) by lia. cbn [replicate].
  rewrite <- (Nat.add_0_r (length l)) at 1.
  replace (length l + 0) with (length ((λ b, mkChar b color) <$> l) + 0) by (by rewrite length_fmap).
  rewrite insert_app_r. cbn. by rewrite <- app_assoc.
Qed.

Lemma row_of_erase color l b :
  length l < 80 → <[length l := mkChar 32 color]> (row_of color (l ++ [b])) = row_of color l.
Proof.
  intros Hl. rewrite <- row_of_snoc, list_insert_insert_eq by done.
  assert (row_of color l !! length l = Some (mkChar 32 color)) as H; [|by rewrite list_insert_id].
  unfold row_of, BUFFER_WIDTH. rewrite lookup_app_r by (by rewrite length_fmap).
  rewrite length_fmap, Nat.sub_diag. apply lookup_replicate. split; [done|lia].
Qed.

(** Writing a cell of the bottom row. *)
Lemma bottom_cell w t col c :
  shows w t → col < 80 →
  write_cell 24 col c (buffer w) =
    Ret (drop (length (done t)) (replicate 24 (row_of (color_code w) []) ++ (row_of (color_code w) <$> done t))
         ++ [<[col := c]> (row_of (color_code w) (line t))]).
Proof.
  intros (-> & _ & Hl & _) Hc. unfold screen_of.
  set (upper := drop _ _). assert (length upper = 24) as Hu by apply screen_upper_length.
  erewrite write_cell_eq.
  - f_equal. rewrite <- Hu at 1. rewrite <- (Nat.add_0_r (length upper)), insert_app_r. done.
  - rewrite lookup_app_r, Hu by lia. done.
  - by rewrite length_row_of.
Qed.

Lemma put_shows w t b :
  shows w t → length (line t) < 80 →
  ∃ w', (b' ← write_cell 24 (column_position w) (mkChar b (color_code w)) (buffer w);
         Ret (set_column (column_position w + 1) (set_buffer b' w))) = Ret w' ∧
    shows w' (mkTerminal (done t) (line t ++ [b])) ∧ color_code w' = color_code w.
Proof.
  intros Hs Hlt. pose proof Hs as (_ & Hc & Hl & Hd).
  rewrite (bottom_cell w t) by (done || lia). cbn [mbind outcome_bind].
  eexists. split; [done|]. split; [|done]. unfold shows. cbn [set_column set_buffer buffer color_code column_position done line].
  rewrite Hc, row_of_snoc, length_app by done. unfold BUFFER_WIDTH in *. cbn. split_and!; [done|lia|lia|done].
Qed.

Lemma write_byte_shows w t b :
  b ≠ 10%Z → shows w t →
  ∃ w', write_byte b w = Ret w' ∧ color_code w' = color_code w ∧
    let t' := if BUFFER_WIDTH <=? length (line t) then term_newline t else t in
    shows w' (mkTerminal (done t') (line t' ++ [b])).
Proof.
  intros Hb Hs. unfold write_byte. rewrite (proj2 (Z.eqb_neq _ _)) by done.
  pose proof Hs as (_ & Hc & Hl & _). rewrite Hc. change (BUFFER_HEIGHT - 1) with 24.
  destruct (Nat.leb_spec BUFFER_WIDTH (length (line t))).
  - destruct (new_line_shows w t Hs) as (w1 & -> & Hs1 & Hcol). cbn [mbind outcome_bind].
    destruct (put_shows w1 (term_newline t) b Hs1) as (w2 & -> & Hs2 & Hcol2); [cbn; lia|].
    exists w2. split; [done|]. split; [congruence|done].
  - cbn [mbind outcome_bind]. destruct (put_shows w t b Hs) as (w2 & -> & Hs2 & Hcol2); [done|].
    exists w2. done.
Qed.

Lemma text_byte_shows w t b :
  shows w t → ∃ w', write_text_byte b w = Ret w' ∧ shows w' (term_byte b t) ∧ color_code w' = color_code w.
Proof.
  intros Hs. unfold write_text_byte, term_byte. destruct (Z.eqb_spec b 8).
  - pose proof Hs as (Hb & Hc & Hl & Hd). unfold backspace. rewrite Hc.
    destruct (line t) as [|x l _] eqn:Hline using rev_ind.
    { exists w. split_and!; [done|by destruct t; cbn in *; subst|done]. }
    rewrite length_app, Nat.add_sub, take_app_length in *. cbn [length] in *.
    rewrite (proj2 (Nat.ltb_lt _ _)) by lia. unfold BUFFER_WIDTH in Hl.
    cbn [set_column column_position color_code buffer]. change (BUFFER_HEIGHT - 1) with 24.
    rewrite (bottom_cell w t), Hline, row_of_erase by (done || lia). cbn [mbind outcome_bind].
    eexists. split; [done|]. split; [|done]. unfold shows. cbn. unfold BUFFER_WIDTH. split_and!; [done|done|lia|done].
  - destruct (Z.eqb_spec b 10) as [->|].
    + rewrite orb_true_r. destruct (new_line_shows w t Hs) as (w' & Hn & Hs' & Hcol).
      exists w'. unfold write_byte. cbn [Z.eqb Pos.eqb]. done.
    + rewrite orb_false_r. destruct ((0x20 <=? b) && (b <=? 0x7E))%Z.
      * destruct (write_byte_shows w t b) as (w' & ? & ? & ?); [done..|]. eauto.
      * destruct (write_byte_shows w t 0xFE%Z) as (w' & ? & ? & ?); [done..|]. eauto.
Qed.

Lemma text_shows s : ∀ w t,
  shows w t →
  ∃ w', foldl (λ m byte, w ← m; write_text_byte byte w) (Ret w) s = Ret w' ∧
    shows w' (term_text s t) ∧ color_code w' = color_code w.
Proof.
  induction s as [|b s IH] using rev_ind; intros w t Hs; [by exists w|].
  destruct (IH w t Hs) as (w1 & H1 & Hs1 & Hc1). unfold term_text. rewrite !foldl_app, H1. cbn [foldl mbind outcome_bind].
  destruct (text_byte_shows w1 _ b Hs1) as (w2 & -> & Hs2 & Hc2). exists w2. split_and!; [done|done|congruence].
Qed.

(** ** Clearing *)

Lemma clear_rows w n :
  sized (buffer w) → n ≤ 25 →
  foldl (λ m row, w ← m; clear_row row w) (Ret w) (seq 0 n) =
    Ret (set_buffer (replicate n (blank_row (color_code w)) ++ drop n (buffer w)) w).
Proof.
  intros Hb Hn. induction n as [|n IH]; [by destruct w|].
  rewrite seq_S, foldl_app, IH by lia. cbn [foldl mbind outcome_bind]. rewrite Nat.add_0_l.
  destruct (sized_row _ n Hb) as (r & Hr & _); [lia|]. pose proof Hb as [Hl Hf].
  rewrite clear_row_eq; [|split|lia]; cbn [set_buffer buffer color_code column_position].
  - rewrite (drop_S _ _ _ Hr). set (blank := blank_row (color_code w)).
    assert (<[n := blank]> (replicate n blank ++ r :: drop (S n) (buffer w)) =
            replicate (S n) blank ++ drop (S n) (buffer w)) as ->; [|done].
    rewrite (insert_app_r_alt (replicate n blank)) by (by rewrite length_replicate).
    by rewrite length_replicate, Nat.sub_diag, replicate_S_end, <- app_assoc.
  - rewrite length_app, length_replicate, length_drop. unfold BUFFER_HEIGHT in *. lia.
  - apply Forall_app. split; [apply Forall_replicate; apply length_replicate|by apply Forall_drop].
Qed.

Definition blank_terminal : Terminal := mkTerminal [] [].

Lemma clear_screen_shows w :
  sized (buffer w) →
  ∃ w', clear_screen w = Ret (w', update_cursor w') ∧ shows w' blank_terminal ∧ color_code w' = color_code w.
Proof.
  intros Hb. unfold clear_screen. change BUFFER_HEIGHT with 25. rewrite clear_rows by done. cbn [mbind outcome_bind].
  eexists. split; [done|]. split; [|done]. split_and!; [|done|cbn; lia|constructor].
  cbn [set_column set_buffer buffer color_code]. rewrite drop_ge, app_nil_r by (destruct Hb as [-> _]; done). done.
Qed.

(** ** The hardware cursor *)

(** The CRT controller: the selected register and the two cursor registers. *)
Record crtc := mkCrtc { selected : Z; cursor_high : Z; cursor_low : Z }.

Definition crtc_write (p : port_write) (c : crtc) : crtc :=
  if (out_port p =? 0x3D4)%Z then mkCrtc (out_value p) (cursor_high c) (cursor_low c)
  else if (out_port p =? 0x3D5)%Z then
    if (selected c =? 0x0E)%Z then mkCrtc (selected c) (out_value p) (cursor_low c)
    else if (selected c =? 0x0F)%Z then mkCrtc (selected c) (cursor_high c) (out_value p) else c
  else c.

Definition cursor_position (ps : list port_write) (c : crtc) : Z :=
  let c := foldl (λ c p, crtc_write p c) c ps in (cursor_high c * 256 + cursor_low c)%Z.

Lemma update_cursor_position w c :
  column_position w ≤ 80 → cursor_position (update_cursor w) c = (1920 + Z.of_nat (column_position w))%Z.
Proof.
  intros Hw. unfold update_cursor, cursor_position. cbn -[Z.shiftr Z.land as_u8 as_u16 Z.of_nat Nat.add Nat.mul].
  set (p := Z.of_nat _). assert (p = 1920 + Z.of_nat (column_position w))%Z as -> by (unfold p, BUFFER_WIDTH; lia).
  apply pit_bytes. lia.
Qed.

(** ** Claims *)

(** C16. After [clear_screen], writing any bytes shows them as a terminal does:
    the screen holds the last 24 completed lines, blank rows above them if there
    are fewer, and the current line at the bottom, with lines broken at 80
    columns and unprintable bytes shown as 0xFE; the hardware cursor is right
    after the last character.  No index panics. *)
Theorem vga_shows_text b s c :
  sized b →
  let t := term_text s blank_terminal in
  ∃ w1 p1 w2 p2, clear_screen (WRITER b) = Ret (w1, p1) ∧ write_string s w1 = Ret (w2, p2) ∧
    buffer w2 = screen_of (ColorCode_new LightGreen Black) t ∧
    cursor_position p2 c = (1920 + Z.of_nat (length (line t)))%Z ∧ length (line t) ≤ 80.
Proof.
  intros Hb t. destruct (clear_screen_shows (WRITER b) Hb) as (w1 & H1 & Hs1 & Hc1).
  destruct (text_shows s w1 _ Hs1) as (w2 & H2 & (Hbuf & Hcol & Hlen & _) & Hc2).
  exists w1, (update_cursor w1), w2, (update_cursor w2). unfold write_string. rewrite H2. unfold BUFFER_WIDTH in Hlen.
  split_and!; [done|done|by rewrite Hbuf, Hc2, Hc1| |done].
  rewrite update_cursor_position by lia. by rewrite Hcol.
Qed.

Lemma vga_shows_text_witness :
  ∃ w1 p1 w2 p2, clear_screen (WRITER (replicate 25 (replicate 80 (mkChar 0 0)))) = Ret (w1, p1) ∧
    write_string [72; 105; 10; 62; 8; 36; 7]%Z w1 = Ret (w2, p2) ∧
    buffer w2 = screen_of 10 (mkTerminal [[72; 105]%Z] [36; 0xFE]%Z).
Proof.
  destruct (vga_shows_text (replicate 25 (replicate 80 (mkChar 0 0))) [72; 105; 10; 62; 8; 36; 7]%Z (mkCrtc 0 0 0))
    as (w1 & p1 & w2 & p2 & H1 & H2 & H3 & _).
  - split; [reflexivity|]. apply Forall_replicate. reflexivity.
  - exists w1, p1, w2, p2. split_and!; [exact H1|exact H2|exact H3].
Defined.

Lemma term_text_app s1 s2 t : term_text (s1 ++ s2) t = term_text s2 (term_text s1 t).
Proof. apply foldl_app. Qed.

Definition printable_byte (b : Z) : Prop := (0x20 ≤ b ≤ 0x7E)%Z.

Lemma term_printable b t :
  printable_byte b → length (line t) < 80 → term_byte b t = mkTerminal (done t) (line t ++ [b]).
Proof.
  intros Hb Hl. unfold printable_byte, term_byte in *.
  rewrite (proj2 (Z.eqb_neq b 8)), (proj2 (Z.eqb_neq b 10)) by lia.
  rewrite (proj2 (Nat.leb_gt _ _)) by (unfold BUFFER_WIDTH; lia).
  by rewrite (proj2 (Z.leb_le _ _)), (proj2 (Z.leb_le _ _)) by lia.
Qed.

Lemma term_line l : ∀ t,
  Forall printable_byte l → length (line t) + length l ≤ 80 →
  term_text l t = mkTerminal (done t) (line t ++ l).
Proof.
  induction l as [|b l IH]; intros t Hl Hlen; [destruct t; cbn; by rewrite app_nil_r|].
  inversion Hl; subst. cbn in Hlen. unfold term_text. cbn [foldl]. rewrite term_printable by (done || lia).
  etransitivity; [apply IH; [done|]|]; cbn [line done]; rewrite ?length_app, <- ?app_assoc; cbn; [lia|done].
Qed.

Lemma term_erase t l :
  Forall printable_byte l → length (line t) + length l ≤ 80 →
  term_text (l ++ replicate (length l) 8%Z) t = t.
Proof.
  intros Hl Hlen. rewrite term_text_app, (term_line l) by done.
  destruct t as [d ln]. cbn [done line]. clear Hlen Hl. induction l as [|b l IH] using rev_ind; [by rewrite app_nil_r|].
  rewrite length_app. cbn [length]. rewrite Nat.add_1_r. cbn [replicate]. unfold term_text. cbn [foldl].
  unfold term_byte at 2. cbn [Z.eqb Pos.eqb done line]. rewrite app_assoc, length_app, Nat.add_sub, take_app_length.
  exact IH.
Qed.

Lemma term_margin d l b n :
  Forall printable_byte l → length l = 80 → printable_byte b →
  term_text (l ++ b :: replicate (S n) 8%Z) (mkTerminal d []) = mkTerminal (d ++ [l]) [].
Proof.
  intros Hl Hlen Hb. rewrite term_text_app, (term_line l) by (done || cbn; lia). cbn [done line app].
  unfold term_text. cbn [foldl]. unfold term_byte at 2. unfold printable_byte in Hb.
  rewrite (proj2 (Z.eqb_neq b 8)), (proj2 (Z.eqb_neq b 10)) by lia. cbn [line done].
  rewrite (proj2 (Nat.leb_le BUFFER_WIDTH (length l))) by (unfold BUFFER_WIDTH; lia). cbn [term_newline line done app].
  rewrite (proj2 (Z.leb_le _ _)), (proj2 (Z.leb_le _ _)) by lia. cbn [replicate foldl].
  unfold term_byte at 2. cbn [Z.eqb Pos.eqb done line length Nat.sub take].
  induction n as [|n IH]; [done|]. cbn [replicate foldl]. exact IH.
Qed.

(** C39. Backspacing over characters undoes writing them, cell for cell, as long
    as the line has not wrapped.  It does not cross the left margin: once a line
    of 80 characters has wrapped, no number of backspaces removes it from the
    screen, although the shell erases its input with one backspace per
    character. *)
Theorem backspace_undoes_within_row w t l b n :
  shows w t → Forall printable_byte l → printable_byte b →
  (length (line t) + length l ≤ 80 →
     ∃ w', write_string (l ++ replicate (length l) 8%Z) w = Ret (w', update_cursor w') ∧
       buffer w' = buffer w ∧ column_position w' = column_position w) ∧
  (line t = [] → length l = 80 →
     ∃ w', write_string (l ++ b :: replicate (S n) 8%Z) w = Ret (w', update_cursor w') ∧
       buffer w' = screen_of (color_code w) (mkTerminal (done t ++ [l]) []) ∧ column_position w' = 0).
Proof.
  intros Hs Hl Hb. split.
  - intros Hlen. destruct (text_shows (l ++ replicate (length l) 8%Z) w t Hs) as (w' & Hw & (Hbuf & Hcol & _) & Hc).
    exists w'. unfold write_string. rewrite Hw. rewrite term_erase in Hbuf, Hcol by done.
    destruct Hs as (Hb0 & Hc0 & _). split_and!; [done|congruence|congruence].
  - intros Hlt Hlen. destruct (text_shows (l ++ b :: replicate (S n) 8%Z) w t Hs) as (w' & Hw & (Hbuf & Hcol & _) & Hc).
    exists w'. unfold write_string. rewrite Hw. destruct t as [d ln]. cbn in Hlt. subst ln.
    rewrite term_margin in Hbuf, Hcol by done. split_and!; [done|by rewrite Hbuf, Hc|done].
Qed.

Lemma backspace_undoes_within_row_witness :
  ∃ w, write_string (replicate 80 97 ++ 98 :: replicate 81 8)%Z (mkWriter 0 10 (screen_of 10 blank_terminal)) =
      Ret (w, update_cursor w) ∧
    buffer w = screen_of 10 (mkTerminal [replicate 80 97%Z] []).
Proof.
  destruct (backspace_undoes_within_row (mkWriter 0 10 (screen_of 10 blank_terminal)) blank_terminal
    (replicate 80 97%Z) 98%Z 80) as [_ H].
  - split_and!; [reflexivity|reflexivity|cbn; lia|constructor].
  - apply Forall_replicate. unfold printable_byte. lia.
  - unfold printable_byte. lia.
  - destruct H as (w & H1 & H2 & _); [reflexivity|reflexivity|]. exists w. split; [exact H1|exact H2].
Defined.
