(* ===== verification/Text.v ===== *)
(** * Text operations of Rust's standard library the shell uses

    Strings are ASCII here: the shell's input comes from the key map, and every
    other text the shell handles is a literal or a number.  A character is
    white space when Rust's [char::is_whitespace] says so of an ASCII character. *)

From S2P Require Import Prelude Machine.

Definition is_whitespace (c : ascii) : bool :=
  let n := N_of_ascii c in ((n =? 32) || (9 <=? n) && (n <=? 13))%N.

Fixpoint trim_start (s : string) : string :=
  match s with
  | String.EmptyString => s
  | String.String c s' => if is_whitespace c then trim_start s' else s
  end.

Fixpoint string_rev (s acc : string) : string :=
  match s with
  | String.EmptyString => acc
  | String.String c s => string_rev s (String.String c acc)
  end.

Definition trim_end (s : string) : string := string_rev (trim_start (string_rev s "")) "".
Definition trim (s : string) : string := trim_end (trim_start s).

(** [split_whitespace]: [word] holds the characters of the current word, last first. *)
Fixpoint split_words (word s : string) : list string :=
  match s with
  | String.EmptyString => if decide (word = "") then [] else [string_rev word ""]
  | String.String c s =>
    if is_whitespace c then (if decide (word = "") then [] else [string_rev word ""]) ++ split_words "" s
    else split_words (String.String c word) s
  end.

Definition split_whitespace (s : string) : list string := split_words "" s.

(** [s.strip_prefix(p)]. *)
Fixpoint strip_prefix (p s : string) : option string :=
  match p, s with
  | String.EmptyString, s => Some s
  | String.String a p, String.String b s => if Ascii.eqb a b then strip_prefix p s else None
  | _, _ => None
  end.

(** The text before the first space and the text after it. *)
Fixpoint split_once_space (s : string) : string * option string :=
  match s with
  | String.EmptyString => ("", None)
  | String.String c s =>
    if Ascii.eqb c " " then ("", Some s)
    else let '(a, b) := split_once_space s in (String.String c a, b)
  end.

(** [s.splitn(n, ' ')]. *)
Fixpoint splitn_space (n : nat) (s : string) : list string :=
  match n with
  | O => []
  | 1 => [s]
  | S n => match split_once_space s with
           | (a, None) => [a]
           | (a, Some b) => a :: splitn_space n b
           end
  end.

Fixpoint repeat_char (c : ascii) (n : nat) : string :=
  match n with O => "" | S n => String.String c (repeat_char c n) end.

(** [{:<n}], [{:>n}] and [{:0n}]. *)
Definition pad_right (n : nat) (s : string) : string := s +:+ repeat_char " " (n - String.length s).
Definition pad_left (n : nat) (s : string) : string := repeat_char " " (n - String.length s) +:+ s.
Definition zero_pad (n : nat) (z : Z) : string := repeat_char "0" (n - String.length (dec z)) +:+ dec z.

(** [s.parse::<usize>()]: an optional [+] and at least one digit, below 2^32. *)
Definition digit_value (c : ascii) : option Z :=
  let n := Z.of_N (N_of_ascii c) in if ((48 <=? n) && (n <=? 57))%Z then Some (n - 48)%Z else None.

Fixpoint parse_digits (acc : Z) (s : string) : option Z :=
  match s with
  | String.EmptyString => Some acc
  | String.String c s =>
    match digit_value c with
    | Some d => if (acc * 10 + d <=? U32_MAX)%Z then parse_digits (acc * 10 + d) s else None
    | None => None
    end
  end.

Definition parse_usize (s : string) : option Z :=
  match s with
  | String.EmptyString => None
  | String.String c s' =>
    if Ascii.eqb c "+" then match s' with String.EmptyString => None | _ => parse_digits 0 s' end
    else parse_digits 0 s
  end.
