(* ===== verification/Shell.v ===== *)
(** * The shell: [src/shell.rs]

    The static state of the shell with the kernel state its commands reach (the
    scheduler, the files, the heap's offset), and every command in a small monad
    that threads that state, collects the output and propagates panics.  The
    [Mutex] locks are taken and released around each access and are not part of
    this sequential model ([Locks]); what the strings and vectors used here request
    from the heap, and the panic when it is exhausted, is added in [Allocation]. *)

From stdpp Require Import sorting.
From S2P Require Import Prelude Machine Text Task Fs Heap Calc Devices Input.
Local Open Scope Z_scope.
Local Open Scope string_scope.

Definition MAX_INPUT_LEN : nat := 256.

(** ** The session *)

Inductive SessionUser := Enos | Guest.

#[global] Instance SessionUser_eq_dec : EqDecision SessionUser.
Proof. solve_decision. Defined.

Definition user_name (u : SessionUser) : string := match u with Enos => "enos" | Guest => "guest" end.
Definition uid (u : SessionUser) : Z := match u with Enos => 0 | Guest => 1000 end.
Definition user_is_root (u : SessionUser) : bool := match u with Enos => true | Guest => false end.
Definition prompt_suffix (u : SessionUser) : string := if user_is_root u then "#" else "$".

(** ** The state and the monad *)

Record World := mkWorld {
  input_buffer : string;
  keyboard : KeyboardState;
  history : HistoryState;
  session : SessionUser;
  queue : ScancodeQueue;
  scheduler : TaskManager;
  files : list FileEntry;
  heap_offset : Z;
}.

Definition shell (A : Type) : Type := World → outcome (A * list output * World).

#[global] Instance shell_ret : MRet shell := λ A a w, Ret (a, [], w).
#[global] Instance shell_bind : MBind shell := λ A B f m w,
  match m w with
  | Ret (a, out, w) =>
    match f a w with
    | Ret (b, out', w) => Ret (b, (out ++ out')%list, w)
    | Panic msg => Panic msg
    | OutOfFuel => OutOfFuel
    end
  | Panic msg => Panic msg
  | OutOfFuel => OutOfFuel
  end.

Definition get {A} (f : World → A) : shell A := λ w, Ret (f w, [], w).
Definition modify (f : World → World) : shell unit := λ w, Ret (tt, [], f w).
Definition emit (o : output) : shell unit := λ w, Ret (tt, [o], w).
Definition lift {A} (m : outcome A) : shell A := λ w, a ← m; Ret (a, [], w).
Definition skip : shell unit := mret tt.

(** [print!] and [println!] on the screen. *)
Definition print (s : string) : shell unit := emit (Vga s).
Definition say (s : string) : shell unit := emit (println s).

(** [for x in l { body(x) }]. *)
Definition for_all {A} (l : list A) (body : A → shell unit) : shell unit :=
  foldr (λ x rest, body x ;; rest) skip l.

Definition set_input (s : string) (w : World) : World :=
  mkWorld s (keyboard w) (history w) (session w) (queue w) (scheduler w) (files w) (heap_offset w).
Definition set_keyboard (k : KeyboardState) (w : World) : World :=
  mkWorld (input_buffer w) k (history w) (session w) (queue w) (scheduler w) (files w) (heap_offset w).
Definition set_history (h : HistoryState) (w : World) : World :=
  mkWorld (input_buffer w) (keyboard w) h (session w) (queue w) (scheduler w) (files w) (heap_offset w).
Definition set_session (u : SessionUser) (w : World) : World :=
  mkWorld (input_buffer w) (keyboard w) (history w) u (queue w) (scheduler w) (files w) (heap_offset w).
Definition set_queue (q : ScancodeQueue) (w : World) : World :=
  mkWorld (input_buffer w) (keyboard w) (history w) (session w) q (scheduler w) (files w) (heap_offset w).
Definition set_scheduler (tm : TaskManager) (w : World) : World :=
  mkWorld (input_buffer w) (keyboard w) (history w) (session w) (queue w) tm (files w) (heap_offset w).
Definition set_files (f : list FileEntry) (w : World) : World :=
  mkWorld (input_buffer w) (keyboard w) (history w) (session w) (queue w) (scheduler w) f (heap_offset w).

(** ** Session helpers *)

Definition print_prompt : shell unit :=
  user ← get session;
  print (user_name user +:+ prompt_suffix user +:+ " ").

Definition init : shell unit :=
  say "ENOS shell ready. Type `help` for commands." ;; print_prompt.

Definition require_root (action : string) : shell bool :=
  root ← get (λ w, user_is_root (session w));
  if root : bool then mret true
  else say ("Permission denied: `" +:+ action +:+ "` requires enos root.") ;; mret false.

Definition switch_user (user : SessionUser) : shell unit := modify (set_session user).

(** ** Formatting *)

Definition ticks_to_ms (ticks : Z) : Z := Pit.ticks_to_millis ticks.

Definition format_duration_from_ticks (ticks : Z) : Z * Z * Z * Z :=
  let total_ms := ticks_to_ms ticks in
  let total_seconds := total_ms / 1000 in
  let ms := total_ms mod 1000 in
  let hours := total_seconds / 3600 in
  let minutes := total_seconds mod 3600 / 60 in
  let seconds := total_seconds mod 60 in
  (hours, minutes, seconds, ms)%Z.

Definition format_bytes (bytes : Z) : string :=
  if (1024 * 1024 <=? bytes)%Z then
    let mb := (bytes / (1024 * 1024))%Z in
    let rem := (bytes mod (1024 * 1024) / (1024 * 10))%Z in
    "~" +:+ dec mb +:+ "." +:+ dec rem +:+ " MB"
  else if (1024 <=? bytes)%Z then
    let kb := (bytes / 1024)%Z in
    let rem := (bytes mod 1024 * 10 / 1024)%Z in
    "~" +:+ dec kb +:+ "." +:+ dec rem +:+ " KB"
  else dec bytes +:+ " B".

(** ["{:02}:{:02}:{:02}.{:03}"]. *)
Definition clock (ticks : Z) : string :=
  let '(h, m, s, ms) := format_duration_from_ticks ticks in
  zero_pad 2 h +:+ ":" +:+ zero_pad 2 m +:+ ":" +:+ zero_pad 2 s +:+ "." +:+ zero_pad 3 ms.

(** ** Commands *)

Definition show_help : shell unit :=
  for_all
    ["ENOS built-in commands:";
     "  help                 - Show this list";
     "  clear                - Clear screen";
     "  echo <msg>           - Print message";
     "  calc <expr>          - Arithmetic (+,-,*,/,%,())";
     "  uptime               - Show human-readable uptime";
     "  ps                   - Show running processes";
     "  top                  - Show process CPU usage";
     "  tasks                - Show scheduler stats + process list";
     "  meminfo              - Show memory usage";
     "  whoami               - Show current shell user";
     "  id                   - Show user identity";
     "  login <enos|guest>   - Switch shell identity";
     "  su <enos|guest>      - Alias for login";
     "  logout               - Switch to guest";
     "  kill <pid>           - Kill user process (root only)";
     "  touch <file>         - Create empty file";
     "  rm <file>            - Delete file (root only)";
     "  ls                   - List files";
     "  write <file> <text>  - Write text to file";
     "  cat <file>           - Show file content";
     "  fsinfo               - Show filesystem stats";
     "  about                - Show kernel info"] say.

(** [command_line.strip_prefix(name).unwrap_or("").trim_start()]. *)
Definition argument_of (name command_line : string) : string :=
  trim_start (default "" (strip_prefix name command_line)).

Definition command_echo (command_line : string) : shell unit :=
  let text := argument_of "echo" command_line in
  if decide (text = "") then say "Usage: echo <msg>" else say text.

Definition command_calc (command_line : string) : shell unit :=
  let expr := argument_of "calc" command_line in
  if decide (expr = "") then say "Usage: calc <expression>" else
  r ← lift (eval_calc_expression expr);
  match r with
  | Ok value => say ("= " +:+ dec value)
  | Err err => say ("calc: " +:+ err)
  end.

Definition command_uptime : shell unit :=
  stats ← get (λ w, Task.stats (scheduler w));
  say ("Uptime: " +:+ clock (total_ticks stats) +:+ " (" +:+ dec (total_ticks stats) +:+ " ticks @ "
       +:+ dec Pit.TICKS_PER_SECOND +:+ " Hz)").

Definition ps_line (p : ProcessSnapshot) : string :=
  pad_right 5 (dec (ps_id p)) +:+ " " +:+ pad_right 8 (ps_privilege p) +:+ " " +:+ pad_right 8 (ps_state p)
  +:+ " " +:+ pad_left 6 (dec (ticks_to_ms (ps_run_ticks p))) +:+ "ms   " +:+ ps_name p.

Definition command_ps : shell unit :=
  processes ← get (λ w, process_snapshot (scheduler w));
  say "PID   PRIV     STATE    CPU-TIME   NAME" ;;
  for_all processes (λ p, say (ps_line p)).

Definition cpu_pct (total run : Z) : Z :=
  if (total =? 0)%Z then 0 else (saturating_mul_u64 run 100 / total)%Z.

Definition top_line (stats : SchedulerStats) (p : ProcessSnapshot) : string :=
  pad_right 5 (dec (ps_id p)) +:+ " " +:+ pad_left 3 (dec (cpu_pct (total_ticks stats) (ps_run_ticks p))) +:+ "%   "
  +:+ pad_left 6 (dec (ticks_to_ms (ps_run_ticks p))) +:+ "ms   " +:+ pad_right 8 (ps_state p) +:+ " " +:+ ps_name p.

Definition command_top : shell unit :=
  stats ← get (λ w, Task.stats (scheduler w));
  processes ← get (λ w, process_snapshot (scheduler w));
  say ("TOP (ticks=" +:+ dec (total_ticks stats) +:+ " @ " +:+ dec Pit.TICKS_PER_SECOND +:+ "Hz)") ;;
  say "PID   CPU%   CPU-TIME   STATE    NAME" ;;
  for_all processes (λ p, say (top_line stats p)).

Definition command_tasks : shell unit :=
  stats ← get (λ w, Task.stats (scheduler w));
  say "Scheduler:" ;;
  say ("  total tasks : " +:+ dec (Z.of_nat (total_tasks stats))) ;;
  say ("  current task: " +:+ dec (current_task_id stats)) ;;
  say ("  uptime      : " +:+ clock (total_ticks stats)) ;;
  say ("  ticks       : " +:+ dec (total_ticks stats)) ;;
  command_ps.

Definition command_meminfo : shell unit :=
  heap ← get (λ w, heap_stats (heap_offset w));
  fs ← get (λ w, Fs.stats (files w));
  say "Memory:" ;;
  say ("  heap used : " +:+ format_bytes (used_bytes heap) +:+ " (" +:+ dec (used_percent heap) +:+ "%)") ;;
  say ("  heap free : " +:+ format_bytes (free_bytes heap)) ;;
  say ("  heap total: " +:+ format_bytes (Heap.total_bytes heap)) ;;
  say ("  fs usage  : " +:+ dec (Z.of_nat (file_count fs)) +:+ "/" +:+ dec (Z.of_nat (max_files fs)) +:+ " files, "
       +:+ format_bytes (Fs.total_bytes fs) +:+ " data").

Definition command_whoami : shell unit :=
  user ← get session; say (user_name user).

Definition command_id : shell unit :=
  user ← get session;
  say ("uid=" +:+ dec (uid user) +:+ "(" +:+ user_name user +:+ ") gid=" +:+ dec (uid user) +:+ "("
       +:+ user_name user +:+ ") role=" +:+ (if user_is_root user then "root" else "user")).

(** [parts.next(); parts.next()] on [split_whitespace]: the second word. *)
Definition parse_login_target (command_line : string) : option string :=
  (split_whitespace command_line !! 1%nat)%stdpp.

Definition command_login (command_line : string) : shell unit :=
  match parse_login_target command_line with
  | None => say "Usage: login <enos|guest>"
  | Some target =>
    if decide (target = "enos") then switch_user Enos ;; say "Switched to enos (root)."
    else if decide (target = "guest" ∨ target = "user") then switch_user Guest ;; say "Switched to guest."
    else say "login: unknown user"
  end.

Definition command_logout : shell unit :=
  switch_user Guest ;; say "Logged out to guest.".

(** [crate::task::kill_task(pid)]. *)
Definition kill_task (pid : Z) : shell (result KillTaskResult string) :=
  tm ← get scheduler;
  '(r, tm) ← lift (kill_task_by_pid tm pid);
  modify (set_scheduler tm) ;; mret r.

Definition command_kill (command_line : string) : shell unit :=
  root ← require_root "kill";
  if negb root then skip else
  match (split_whitespace command_line !! 1%nat)%stdpp with
  | None => say "Usage: kill <pid>"
  | Some pid_str =>
    match parse_usize pid_str with
    | None => say "kill: invalid pid"
    | Some pid =>
      r ← kill_task pid;
      (match r with
       | Ok KilledNow => say ("PID " +:+ dec pid +:+ " terminated.")
       | Ok MarkedForTermination => say ("PID " +:+ dec pid +:+ " marked for termination (next timer tick).")
       | Err err => say ("kill: " +:+ err)
       end) ;;
      command_ps
    end
  end.

(** A file system call on the table. *)
Definition on_files {A} (f : list FileEntry → A * list FileEntry) : shell A :=
  table ← get files;
  let '(a, table) := f table in
  modify (set_files table) ;; mret a.

Definition command_touch (command_line : string) : shell unit :=
  match (split_whitespace command_line !! 1%nat)%stdpp with
  | None => say "Usage: touch <file>"
  | Some name =>
    r ← on_files (create_file name);
    match r with Ok _ => say ("Created: " +:+ name) | Err err => say ("touch: " +:+ err) end
  end.

Definition command_rm (command_line : string) : shell unit :=
  root ← require_root "rm";
  if negb root then skip else
  match (split_whitespace command_line !! 1%nat)%stdpp with
  | None => say "Usage: rm <file>"
  | Some name =>
    r ← on_files (delete_file name);
    match r with Ok _ => say ("Deleted: " +:+ name) | Err err => say ("rm: " +:+ err) end
  end.

(** [a.name.cmp(&b.name)] is not [Greater]; names are distinct, so the sort has
    one result. *)
Definition name_le (a b : FileInfo) : Prop := String.leb (fi_name a) (fi_name b) = true.
#[global] Instance name_le_dec : RelDecision name_le.
Proof. intros a b. unfold name_le. apply _. Defined.

Definition ls_line (f : FileInfo) : string :=
  pad_right 32 (fi_name f) +:+ " " +:+ format_bytes (Z.of_nat (fi_size f)).

Definition command_ls : shell unit :=
  infos ← get (λ w, list_files (files w));
  match infos with
  | [] => say "(empty)"
  | _ =>
    say "NAME                             SIZE" ;;
    for_all (merge_sort name_le infos) (λ f, say (ls_line f))
  end.

Definition command_write (command_line : string) : shell unit :=
  let parts := splitn_space 3 command_line in
  match (parts !! 1%nat)%stdpp, (parts !! 2%nat)%stdpp with
  | None, _ | Some "", _ => say "Usage: write <file> <text>"
  | Some _, None => say "Usage: write <file> <text>"
  | Some name, Some content_raw =>
    let content := trim_start content_raw in
    r ← on_files (write_file name content);
    match r with Ok _ => say ("Written: " +:+ name) | Err err => say ("write: " +:+ err) end
  end.

Definition command_cat (command_line : string) : shell unit :=
  match (split_whitespace command_line !! 1%nat)%stdpp with
  | None => say "Usage: cat <file>"
  | Some name =>
    r ← get (λ w, read_file name (files w));
    match r with Ok content => say content | Err err => say ("cat: " +:+ err) end
  end.

Definition command_fsinfo : shell unit :=
  stats ← get (λ w, Fs.stats (files w));
  say "Filesystem:" ;;
  say ("  files     : " +:+ dec (Z.of_nat (file_count stats)) +:+ "/" +:+ dec (Z.of_nat (max_files stats))) ;;
  say ("  data size : " +:+ format_bytes (Fs.total_bytes stats)) ;;
  say ("  max file  : " +:+ format_bytes (Z.of_nat (max_file_size stats))).

Definition command_about : shell unit :=
  say "ENOS microkernel (x86, no_std, Rust)" ;;
  say "Features: ring3 syscall gate, paging, preemptive scheduler, shell, ramfs".

(** ** The command line *)

Definition reset_history : shell unit :=
  h ← get history; modify (set_history (reset_navigation h)).

Definition run_command (command command_line : string) : shell unit :=
  if decide (command = "clear") then emit ClearScreen else
  if decide (command = "echo") then command_echo command_line else
  if decide (command = "calc") then command_calc command_line else
  if decide (command = "help") then show_help else
  if decide (command = "uptime") then command_uptime else
  if decide (command = "ps") then command_ps else
  if decide (command = "top") then command_top else
  if decide (command = "tasks") then command_tasks else
  if decide (command = "meminfo") then command_meminfo else
  if decide (command = "whoami") then command_whoami else
  if decide (command = "id") then command_id else
  if decide (command = "login") then command_login command_line else
  if decide (command = "su") then command_login command_line else
  if decide (command = "logout") then command_logout else
  if decide (command = "kill") then command_kill command_line else
  if decide (command = "touch") then command_touch command_line else
  if decide (command = "rm") then command_rm command_line else
  if decide (command = "ls") then command_ls else
  if decide (command = "write") then command_write command_line else
  if decide (command = "cat") then command_cat command_line else
  if decide (command = "fsinfo") then command_fsinfo else
  if decide (command = "about") then command_about else
  say ("Error: command not found: " +:+ command_line).

Definition evaluate_command : shell unit :=
  buffer ← get input_buffer;
  let command_line := trim buffer in
  modify (set_input "") ;;
  if decide (command_line = "") then reset_history ;; print_prompt else
  h ← get history;
  h ← lift (record command_line h);
  modify (set_history h) ;;
  let command := default "" (split_whitespace command_line !! 0%nat)%stdpp in
  run_command command command_line ;;
  print_prompt.

(** ** Editing *)

Definition char_string (c : ascii) : string := String.String c "".
Definition backspace_char : ascii := ascii_of_nat 8.
Definition newline_char : ascii := ascii_of_nat 10.
Definition space_char : ascii := ascii_of_nat 32.

Definition clear_visible_input (count : nat) : shell unit :=
  for_all (replicate count backspace_char) (λ c, print (char_string c)).

(** [for ch in text.chars() { if buffer.len() >= MAX_INPUT_LEN { break } buffer.push(ch) }]. *)
Fixpoint push_limited (text buffer : string) : string :=
  match text with
  | String.EmptyString => buffer
  | String.String c text =>
    if (MAX_INPUT_LEN <=? String.length buffer)%nat then buffer
    else push_limited text (buffer +:+ char_string c)
  end.

Definition replace_input_line (text : string) : shell unit :=
  buffer ← get input_buffer;
  clear_visible_input (String.length buffer) ;;
  let rendered := push_limited text "" in
  modify (set_input rendered) ;;
  print rendered.

Definition history_up : shell unit :=
  current ← get input_buffer;
  h ← get history;
  '(entry, h) ← lift (previous current h);
  modify (set_history h) ;;
  match entry with Some entry => replace_input_line entry | None => skip end.

Definition history_down : shell unit :=
  h ← get history;
  '(entry, h) ← lift (next h);
  modify (set_history h) ;;
  match entry with Some entry => replace_input_line entry | None => skip end.

(** [buffer.pop()]. *)
Fixpoint pop_char (s : string) : string :=
  match s with
  | String.EmptyString => ""
  | String.String c String.EmptyString => ""
  | String.String c s => String.String c (pop_char s)
  end.

Definition push_char (c : ascii) : shell unit :=
  if decide (c = backspace_char) then
    reset_history ;;
    buffer ← get input_buffer;
    if decide (buffer = "") then skip
    else modify (set_input (pop_char buffer)) ;; print (char_string c)
  else if decide (c = newline_char) then
    print (char_string c) ;; evaluate_command
  else
    buffer ← get input_buffer;
    if (String.length buffer <? MAX_INPUT_LEN)%nat then
      reset_history ;;
      modify (set_input (buffer +:+ char_string c)) ;;
      print (char_string c)
    else skip.

Definition perform (action : InputAction) : shell unit :=
  match action with
  | Backspace => push_char backspace_char
  | Enter => push_char newline_char
  | Tab => for_all (replicate 4 space_char) push_char
  | HistoryUp => history_up
  | HistoryDown => history_down
  | Char c => push_char c
  end.

Definition process_scancode (scancode : Z) : shell unit :=
  k ← get keyboard;
  let '(k, action) := decode_scancode scancode k in
  modify (set_keyboard k) ;;
  match action with Some action => perform action | None => skip end.

(** The [while] loop of [poll_input]: at most a queue's capacity of scan codes. *)
Fixpoint poll_loop (budget : nat) : shell unit :=
  match budget with
  | O => skip
  | S budget =>
    q ← get queue;
    '(scancode, q) ← lift (pop q);
    modify (set_queue q) ;;
    match scancode with
    | None => skip
    | Some scancode => process_scancode scancode ;; poll_loop budget
    end
  end.

Definition poll_input : shell unit := poll_loop SCANCODE_QUEUE_CAPACITY.

(** The keyboard interrupt, between two steps of the shell. *)
Definition keyboard_irq (scancode : Z) : shell unit :=
  q ← get queue;
  q ← lift (enqueue_scancode_from_irq scancode q);
  modify (set_queue q).
