(* ===== verification/ShellProps.v ===== *)
(** * Correctness of the shell

    Every keystroke and every command returns and keeps the invariants of the
    components the shell uses; what commands a guest may run can neither end a
    task nor remove a file; what is typed is what is run. *)

From S2P Require Import Prelude Machine Text Task TaskProps Fs Heap Calc CalcProps Devices Input InputProps Shell.

(** ** Text *)

Abbreviation printable_string := (all_bytes printable).

Lemma all_bytes_app f a b : all_bytes f (a +:+ b) = all_bytes f a && all_bytes f b.
Proof. induction a as [|c a IH]; [done|]. rewrite string_app_cons. cbn. by rewrite IH, andb_assoc. Qed.

Lemma all_bytes_rev f s acc : all_bytes f (string_rev s acc) = all_bytes f s && all_bytes f acc.
Proof.
  revert acc. induction s as [|c s IH]; intros acc; [done|]. cbn. rewrite IH. cbn.
  by destruct (f c), (all_bytes f s), (all_bytes f acc).
Qed.

Lemma all_bytes_trim_start f s : all_bytes f s = true → all_bytes f (trim_start s) = true.
Proof.
  induction s as [|c s IH]; [done|]. cbn [trim_start]. destruct (is_whitespace c); [|done].
  cbn. rewrite andb_true_iff. naive_solver.
Qed.

Lemma all_bytes_trim f s : all_bytes f s = true → all_bytes f (trim s) = true.
Proof.
  intros H. unfold trim, trim_end. rewrite all_bytes_rev, andb_true_r.
  apply all_bytes_trim_start. rewrite all_bytes_rev, andb_true_r. by apply all_bytes_trim_start.
Qed.

Lemma length_string_app a b : String.length (a +:+ b) = String.length a + String.length b.
Proof. induction a as [|c a IH]; [done|]. rewrite string_app_cons. cbn. by rewrite IH. Qed.

Lemma pop_char_snoc s c : pop_char (s +:+ char_string c) = s.
Proof.
  induction s as [|d s IH]; [done|]. rewrite string_app_cons. cbn [pop_char]. rewrite IH. by destruct s.
Qed.

Lemma all_bytes_pop f s : all_bytes f s = true → all_bytes f (pop_char s) = true.
Proof.
  induction s as [|c s IH]; [done|]. cbn. rewrite andb_true_iff. intros [Hc Hs].
  destruct s; [done|]. cbn in *. by rewrite Hc, IH.
Qed.

Lemma length_pop s : String.length (pop_char s) = String.length s - 1.
Proof. induction s as [|c s IH]; [done|]. cbn. destruct s; [done|]. cbn in *. lia. Qed.

Lemma push_limited_ok text : ∀ buffer,
  printable_string text = true → printable_string buffer = true → String.length buffer ≤ MAX_INPUT_LEN →
  printable_string (push_limited text buffer) = true ∧ String.length (push_limited text buffer) ≤ MAX_INPUT_LEN.
Proof.
  induction text as [|c text IH]; intros buffer Ht Hb Hl; [done|]. cbn [push_limited].
  cbn in Ht. apply andb_true_iff in Ht as [Hc Ht].
  destruct (Nat.leb_spec MAX_INPUT_LEN (String.length buffer)); [done|]. apply IH; [done| |].
  - rewrite all_bytes_app, Hb. cbn. by rewrite Hc.
  - rewrite length_string_app. cbn. lia.
Qed.

Lemma push_limited_short text : ∀ buffer,
  String.length buffer + String.length text ≤ MAX_INPUT_LEN → push_limited text buffer = buffer +:+ text.
Proof.
  induction text as [|c text IH]; intros buffer Hl; [by rewrite string_app_nil|]. cbn [push_limited].
  cbn in Hl. rewrite (proj2 (Nat.leb_gt _ _)) by lia.
  rewrite IH by (rewrite length_string_app; cbn; lia). by rewrite <- string_app_assoc.
Qed.

(** ** The invariant

    The state is well formed and the processor runs a task of the given privilege. *)

Create HintDb shell.

Section Invariant.
Context (runner : option TaskPrivilege).

Record world_wf (w : World) : Prop := {
  ww_input : printable_string (input_buffer w) = true;
  ww_length : String.length (input_buffer w) ≤ MAX_INPUT_LEN;
  ww_history : history_wf (history w);
  ww_entries : Forall (λ e, printable_string e = true) (entries (history w));
  ww_draft : printable_string (draft (history w)) = true;
  ww_queue : queue_wf (queue w);
  ww_scheduler : sched_wf (scheduler w);
  ww_kernel : has_kernel_task (scheduler w);
  ww_files : files_wf (files w);
  ww_runner : runs_as (scheduler w) = runner;
}.

(** [m] returns from every good state, in a good state. *)
Definition safe {A} (m : shell A) : Prop :=
  ∀ w, world_wf w → ∃ a out w', m w = Ret (a, out, w') ∧ world_wf w'.

Lemma safe_ret {A} (a : A) : safe (mret a).
Proof. intros w Hw. by do 3 eexists. Qed.

Lemma safe_bind {A B} (m : shell A) (f : A → shell B) : safe m → (∀ a, safe (f a)) → safe (m ≫= f).
Proof.
  intros Hm Hf w Hw. destruct (Hm w Hw) as (a & out & w1 & H1 & Hw1).
  destruct (Hf a w1 Hw1) as (b & out' & w2 & H2 & Hw2).
  exists b, (out ++ out')%list, w2. unfold mbind, shell_bind. by rewrite H1, H2.
Qed.

Lemma safe_get {A} (f : World → A) : safe (get f).
Proof. intros w Hw. by do 3 eexists. Qed.

Lemma safe_emit o : safe (emit o).
Proof. intros w Hw. by do 3 eexists. Qed.

Lemma safe_modify f : (∀ w, world_wf w → world_wf (f w)) → safe (modify f).
Proof. intros Hf w Hw. do 3 eexists. split; [done|]. by apply Hf. Qed.

Lemma safe_lift {A} (m : outcome A) a : m = Ret a → safe (lift m).
Proof. intros -> w Hw. by do 3 eexists. Qed.

Lemma safe_for_all {A} (l : list A) body : (∀ x, safe (body x)) → safe (for_all l body).
Proof. intros Hb. induction l as [|x l IH]; [apply safe_ret|]. by apply safe_bind. Qed.

(** Reading the state and then acting on what was read. *)
Lemma safe_read {A B} (f : World → A) (k : A → shell B) :
  (∀ w, world_wf w → ∃ b out w', k (f w) w = Ret (b, out, w') ∧ world_wf w') → safe (a ← get f; k a).
Proof.
  intros Hk w Hw. destruct (Hk w Hw) as (b & out & w' & H & Hw'). exists b, out, w'.
  unfold mbind, shell_bind, get. by rewrite H.
Qed.

#[local] Hint Resolve safe_ret safe_get safe_emit : shell.

(** Split a command into its steps. *)
Ltac safe_steps :=
  repeat first
    [ solve [auto with shell]
    | apply safe_bind; [|intros ?]
    | apply safe_for_all; intros ?
    | case_match ].

Lemma set_session_wf u w : world_wf w → world_wf (set_session u w).
Proof. intros []. by split. Qed.

Lemma set_keyboard_wf k w : world_wf w → world_wf (set_keyboard k w).
Proof. intros []. by split. Qed.

Lemma set_input_wf s w :
  world_wf w → printable_string s = true → String.length s ≤ MAX_INPUT_LEN → world_wf (set_input s w).
Proof. intros [] ? ?. by split. Qed.

Lemma set_history_wf h w :
  world_wf w → history_wf h → Forall (λ e, printable_string e = true) (entries h) →
  printable_string (draft h) = true → world_wf (set_history h w).
Proof. intros [] ? ? ?. by split. Qed.

Lemma set_queue_wf q w : world_wf w → queue_wf q → world_wf (set_queue q w).
Proof. intros [] ?. by split. Qed.

Lemma set_scheduler_wf tm w : world_wf w → sched_wf tm → has_kernel_task tm → runs_as tm = runner → world_wf (set_scheduler tm w).
Proof. intros [] ? ? ?. by split. Qed.

Lemma set_files_wf f w : world_wf w → files_wf f → world_wf (set_files f w).
Proof. intros [] ?. by split. Qed.

(** ** Commands *)

Lemma safe_print s : safe (print s).
Proof. apply safe_emit. Qed.
Lemma safe_say s : safe (say s).
Proof. apply safe_emit. Qed.
Lemma safe_skip : safe skip.
Proof. apply safe_ret. Qed.
#[local] Hint Resolve safe_print safe_say safe_skip : shell.

Lemma safe_print_prompt : safe print_prompt.
Proof. unfold print_prompt. safe_steps. Qed.

Lemma safe_require_root action : safe (require_root action).
Proof. unfold require_root. safe_steps. Qed.

Lemma safe_switch_user u : safe (switch_user u).
Proof. apply safe_modify. intros w. apply set_session_wf. Qed.
#[local] Hint Resolve safe_print_prompt safe_require_root safe_switch_user : shell.

Lemma safe_reset_history : safe reset_history.
Proof.
  apply safe_read. intros w Hw. do 3 eexists. split; [done|]. apply set_history_wf; [done|..].
  - by apply reset_wf, ww_history.
  - apply Hw.
  - done.
Qed.
#[local] Hint Resolve safe_reset_history : shell.

Lemma safe_ps : safe command_ps.
Proof. unfold command_ps. safe_steps. Qed.
#[local] Hint Resolve safe_ps : shell.

Lemma safe_kill_task pid : safe (kill_task pid).
Proof.
  apply safe_read. intros w Hw.
  destruct (kill_cases (scheduler w) pid) as (r & tm & Hk & Hs & Hkt & Hrun); [apply Hw..|].
  unfold mbind, shell_bind, lift. rewrite Hk. do 3 eexists. split; [done|].
  apply set_scheduler_wf; [done..|]. rewrite Hrun. apply Hw.
Qed.

Lemma safe_on_files {A} (f : list FileEntry → A * list FileEntry) :
  (∀ l, files_wf l → files_wf (f l).2) → safe (on_files f).
Proof.
  intros Hf. apply safe_read. intros w Hw. destruct (f (files w)) as [a l] eqn:E. do 3 eexists.
  split; [done|]. apply set_files_wf; [done|]. specialize (Hf (files w) (ww_files _ Hw)). by rewrite E in Hf.
Qed.

Lemma create_wf n l : files_wf l → files_wf (create_file n l).2.
Proof.
  intros Hl. destruct (create_implements n l Hl) as (r & l' & Hx & _ & Hl'). cbn in Hx.
  destruct (create_file n l). cbn in *. by simplify_eq.
Qed.
Lemma delete_wf n l : files_wf l → files_wf (delete_file n l).2.
Proof.
  intros Hl. destruct (delete_implements n l Hl) as (r & l' & Hx & _ & Hl'). cbn in Hx.
  destruct (delete_file n l). cbn in *. by simplify_eq.
Qed.
Lemma write_wf n c l : files_wf l → files_wf (write_file n c l).2.
Proof.
  intros Hl. destruct (write_implements n c l Hl) as (r & l' & Hx & _ & Hl'). cbn in Hx.
  destruct (write_file n c l). cbn in *. by simplify_eq.
Qed.
#[local] Hint Resolve safe_kill_task safe_on_files create_wf delete_wf write_wf : shell.

Lemma safe_calc line : safe (command_calc line).
Proof.
  unfold command_calc. case_decide; [auto with shell|]. apply safe_bind; [|intros; safe_steps].
  pose proof (calc_returns (argument_of "calc" line)) as [r Hr]. by eapply safe_lift.
Qed.
#[local] Hint Resolve safe_calc : shell.

Lemma safe_run_command command line : safe (run_command command line).
Proof.
  unfold run_command, command_echo, show_help, command_uptime, command_top, command_tasks, command_meminfo,
    command_whoami, command_id, command_login, command_logout, command_kill, command_touch, command_rm,
    command_ls, command_write, command_cat, command_fsinfo, command_about, skip.
  repeat (case_decide; [solve [safe_steps]|]). safe_steps.
Qed.
#[local] Hint Resolve safe_run_command : shell.

(** ** The command line and editing *)

Lemma record_entries (P : string → Prop) command h h' :
  record command h = Ret h' → P command → Forall P (entries h) → Forall P (entries h') ∧ draft h' = "".
Proof.
  intros Hr Hc He. unfold record in Hr. case_decide; [by simplify_eq/=|].
  destruct (match last (entries h) with Some l => negb (String.eqb l command) | None => true end);
    cbn [mbind outcome_bind] in Hr; [|by simplify_eq/=].
  destruct (MAX_HISTORY_ENTRIES <=? length (entries h)); cbn [mbind outcome_bind] in Hr.
  - unfold vec_remove in Hr. destruct (entries h !! 0); [|done]. cbn [mbind outcome_bind] in Hr. simplify_eq/=. split; [|done].
    apply Forall_app. split; [by apply Forall_delete|by constructor].
  - simplify_eq/=. split; [|done]. apply Forall_app. split; [done|by constructor].
Qed.

Lemma safe_evaluate_command : safe evaluate_command.
Proof.
  apply safe_read. intros w Hw. set (line := trim (input_buffer w)).
  assert (printable_string line = true) as Hp by (apply all_bytes_trim, Hw).
  assert (world_wf (set_input "" w)) as Hw1 by (apply set_input_wf; [done|done|cbn; unfold MAX_INPUT_LEN; lia]).
  change (∃ b out w', (modify (set_input "") ≫= λ _,
    if decide (line = "") then reset_history ;; print_prompt else
    h ← get history; h ← lift (record line h); modify (set_history h) ;;
    run_command (default "" (split_whitespace line !! 0%nat)) line ;; print_prompt) w = Ret (b, out, w') ∧ world_wf w').
  unfold mbind at 1, shell_bind at 1, modify at 1. case_decide as Hl.
  - assert (safe (reset_history ;; print_prompt)) as Hsafe by safe_steps.
    destruct (Hsafe _ Hw1) as (a & out & w' & -> & Hw'). by do 3 eexists.
  - destruct (record_spec line (history w) (ww_history _ Hw)) as (h & Hr & Hh & _).
    destruct (record_entries (λ e, printable_string e = true) _ _ _ Hr Hp (ww_entries _ Hw)) as [He Hd].
    assert (safe (run_command (default "" (split_whitespace line !! 0%nat)) line ;; print_prompt)) as Hsafe by safe_steps.
    destruct (Hsafe (set_history h (set_input "" w))) as (a & out & w' & Heq & Hw').
    { apply set_history_wf; [done|done|done|by rewrite Hd]. }
    unfold mbind, shell_bind, get, lift, modify in *. cbn [set_input history]. rewrite Hr. cbn [mbind outcome_bind].
    rewrite Heq. do 3 eexists; split; [reflexivity|done].
Qed.
#[local] Hint Resolve safe_evaluate_command : shell.

Lemma safe_replace_input_line text : printable_string text = true → safe (replace_input_line text).
Proof.
  intros Ht. apply safe_bind; [apply safe_get|intros buffer]. apply safe_bind.
  - apply safe_for_all. auto with shell.
  - intros _. destruct (push_limited_ok text "" Ht) as [Hp Hl]; [done|cbn; lia|].
    apply safe_bind; [|auto with shell]. apply safe_modify. intros w Hw. by apply set_input_wf.
Qed.

(** Navigation hands back an entry or the draft, and keeps the history. *)
Lemma previous_ok line w :
  world_wf w → printable_string line = true →
  ∃ e h, previous line (history w) = Ret (e, h) ∧ world_wf (set_history h w) ∧
    (∀ s, e = Some s → printable_string s = true).
Proof.
  intros Hw Hl. pose proof Hw as [_ _ [Hn Hc Hch Hi] He Hd _ _ _ _ _].
  assert (∀ i d, i < length (entries (history w)) → printable_string d = true →
    ∃ s, entries (history w) !! i = Some s ∧ printable_string s = true ∧
      world_wf (set_history (mkHistory (entries (history w)) (Some i) d) w)) as Hget.
  { intros i d Hlt Hpd. destruct (lookup_lt_is_Some_2 _ _ Hlt) as [s Hs]. exists s. split; [done|].
    split; [exact (Forall_lookup_1 _ _ _ _ He Hs)|]. apply set_history_wf; [done| |done|done].
    split; cbn; [done|done|done|]. by intros ? [= <-]. }
  destruct (index (history w)) as [[|i]|] eqn:Hidx.
  - destruct (Hget 0 (draft (history w))) as (s & Hs & Hp & Hw'); [by apply Hi|done|].
    exists (Some s), (history w). unfold previous. rewrite Hidx. destruct (entries (history w)) as [|e es] eqn:Hes; [done|].
    rewrite Hidx. erewrite vec_index_Some by done. split; [done|].
    split; [by destruct w|by intros ? [= <-]].
  - pose proof (Hi _ eq_refl) as Hlt. destruct (Hget i (draft (history w))) as (s & Hs & Hp & Hw'); [lia|done|].
    rewrite (previous_again _ _ i) by done. rewrite Hs. do 2 eexists. split; [done|]. split; [done|by intros ? [= <-]].
  - destruct (length (entries (history w))) as [|n] eqn:Hlen.
    + apply length_zero_iff_nil in Hlen. exists None, (history w). unfold previous. rewrite Hlen.
      split; [done|]. split; [by destruct w|done].
    + destruct (Hget n line) as (s & Hs & Hp & Hw'); [lia|done|].
      rewrite (previous_first _ _ n) by done. rewrite Hs. do 2 eexists. split; [done|]. split; [done|by intros ? [= <-]].
Qed.

Lemma next_ok w :
  world_wf w →
  ∃ e h, next (history w) = Ret (e, h) ∧ world_wf (set_history h w) ∧
    (∀ s, e = Some s → printable_string s = true).
Proof.
  intros Hw. pose proof Hw as [_ _ [Hn Hc Hch Hi] He Hd _ _ _ _ _].
  destruct (index (history w)) as [i|] eqn:Hidx.
  - pose proof (Hi _ eq_refl) as Hlt. destruct (decide (S i < length (entries (history w)))) as [Hs|Hs].
    + rewrite (next_inside _ i) by done. destruct (lookup_lt_is_Some_2 _ _ Hs) as [s Hls]. rewrite Hls.
      do 2 eexists. split; [done|]. split; [|intros ? [= <-]; exact (Forall_lookup_1 _ _ _ _ He Hls)].
      apply set_history_wf; [done|split; cbn; [done|done|done|]|done|done]. by intros ? [= <-].
    + rewrite (next_last _ i) by (done || lia). do 2 eexists. split; [done|]. split; [|by intros ? [= <-]].
      by apply set_history_wf.
  - exists None, (history w). unfold next. rewrite Hidx. split; [done|]. split; [by destruct w|done].
Qed.

Lemma safe_navigate (nav : HistoryState → outcome (option string * HistoryState)) w0 :
  (∀ w, world_wf w → input_buffer w = input_buffer w0 → ∃ e h, nav (history w) = Ret (e, h) ∧
     world_wf (set_history h w) ∧ (∀ s, e = Some s → printable_string s = true)) →
  world_wf w0 →
  ∃ a out w', (h ← get history; '(entry, h) ← lift (nav h); modify (set_history h) ;;
     match entry with Some entry => replace_input_line entry | None => skip end) w0 = Ret (a, out, w') ∧ world_wf w'.
Proof.
  intros Hnav Hw. destruct (Hnav w0 Hw eq_refl) as (e & h & Hn & Hw1 & He).
  assert (safe (match e with Some entry => replace_input_line entry | None => skip end)) as Hsafe.
  { destruct e as [s|]; [by apply safe_replace_input_line, He|apply safe_ret]. }
  destruct (Hsafe _ Hw1) as (a & out & w' & Heq & Hw'). exists a, out, w'. split; [|done].
  unfold mbind, shell_bind, get, lift, modify in *. rewrite Hn. cbn [mbind outcome_bind]. by rewrite Heq.
Qed.

Lemma safe_history_up : safe history_up.
Proof.
  apply safe_read. intros w Hw. apply (safe_navigate (previous (input_buffer w))); [|done].
  intros w1 Hw1 _. apply previous_ok; [done|apply Hw].
Qed.

Lemma safe_history_down : safe history_down.
Proof. intros w Hw. apply (safe_navigate next); [|done]. intros w1 Hw1 _. by apply next_ok. Qed.
#[local] Hint Resolve safe_history_up safe_history_down : shell.

(** What keys send: printable characters, backspace and line feed. *)
Definition key_char (c : ascii) : Prop := printable c = true ∨ c = backspace_char ∨ c = newline_char.

Lemma reset_history_run w : reset_history w = Ret (tt, [], set_history (reset_navigation (history w)) w).
Proof. done. Qed.

Lemma set_reset_wf w : world_wf w → world_wf (set_history (reset_navigation (history w)) w).
Proof. intros Hw. apply set_history_wf; [done|by apply reset_wf, Hw|apply Hw|done]. Qed.

Lemma safe_push_char c : key_char c → safe (push_char c).
Proof.
  intros Hc. unfold push_char. case_decide.
  - apply safe_bind; [auto with shell|intros _]. apply safe_read. intros w Hw.
    case_decide; [by apply safe_skip|].
    assert (safe (print (char_string c))) as Hp by auto with shell.
    destruct (Hp (set_input (pop_char (input_buffer w)) w)) as (a & out & w' & Heq & Hw').
    { apply set_input_wf; [done|apply all_bytes_pop, Hw|]. rewrite length_pop. pose proof (ww_length _ Hw). lia. }
    unfold mbind, shell_bind, modify. rewrite Heq. do 3 eexists; split; [reflexivity|done].
  - case_decide; [safe_steps|]. destruct Hc as [Hc|[?|?]]; [|done..].
    apply safe_read. intros w Hw. destruct (Nat.ltb_spec (String.length (input_buffer w)) MAX_INPUT_LEN); [|by apply safe_skip].
    assert (safe (print (char_string c))) as Hp by auto with shell.
    destruct (Hp (set_input (input_buffer w +:+ char_string c) (set_history (reset_navigation (history w)) w)))
      as (a & out & w' & Heq & Hw').
    { apply set_input_wf; [by apply set_reset_wf|rewrite all_bytes_app, (ww_input _ Hw); cbn; by rewrite Hc|].
      rewrite length_string_app. cbn. lia. }
    unfold mbind, shell_bind, modify. rewrite reset_history_run, Heq. do 3 eexists; split; [reflexivity|done].
Qed.

Definition good_action (a : InputAction) : Prop := match a with Char c => printable c = true | _ => True end.

Lemma safe_for_all_in {A} (l : list A) body : (∀ x, x ∈ l → safe (body x)) → safe (for_all l body).
Proof.
  induction l as [|x l IH]; intros Hb; [apply safe_ret|].
  apply safe_bind; [apply Hb; left|intros _; apply IH; intros; apply Hb; by right].
Qed.

Lemma safe_perform a : good_action a → safe (perform a).
Proof.
  intros Ha. destruct a; cbn [perform].
  1-2: apply safe_push_char; unfold key_char; auto.
  - apply safe_for_all_in. intros c [-> _]%elem_of_replicate. apply safe_push_char. by left.
  - auto with shell.
  - auto with shell.
  - apply safe_push_char. by left.
Qed.

Lemma decode_good scancode k k' a : decode_scancode scancode k = (k', Some a) → good_action a.
Proof.
  unfold decode_scancode. repeat case_match; intros; simplify_eq/=; try done.
  all: repeat match goal with H : Char <$> ?o = Some _ |- _ => apply fmap_Some in H as (? & ? & ->) end;
    by eapply map_key_printable.
Qed.

Lemma safe_process_scancode scancode : safe (process_scancode scancode).
Proof.
  apply safe_read. intros w Hw. destruct (decode_scancode scancode (keyboard w)) as [k a] eqn:E.
  assert (safe (match a with Some a => perform a | None => skip end)) as Hs.
  { destruct a; [by eapply safe_perform, decode_good|auto with shell]. }
  destruct (Hs (set_keyboard k w)) as (b & out & w' & Heq & Hw'); [by apply set_keyboard_wf|].
  unfold mbind, shell_bind, modify. rewrite Heq. do 3 eexists; split; [reflexivity|done].
Qed.

Lemma bind_run {A B} (m : shell A) (f : A → shell B) w a out w1 b out' w2 :
  m w = Ret (a, out, w1) → f a w1 = Ret (b, out', w2) → (m ≫= f) w = Ret (b, (out ++ out')%list, w2).
Proof. intros Hm Hf. unfold mbind, shell_bind. by rewrite Hm, Hf. Qed.

(** One iteration of the polling loop. *)
Lemma poll_step n w s q :
  pop (queue w) = Ret (s, q) →
  poll_loop (S n) w =
    match s with
    | None => Ret (tt, [], set_queue q w)
    | Some s => (process_scancode s ;; poll_loop n) (set_queue q w)
    end.
Proof.
  intros Hq. cbn [poll_loop]. unfold mbind, shell_bind, get, lift, modify. rewrite Hq. cbn [mbind outcome_bind].
  destruct s; [|done]. cbn. destruct (process_scancode _ _) as [[[[] out] w1]| |]; [|done..].
  by destruct (poll_loop n w1) as [[[[] out1] w2]| |].
Qed.

Lemma safe_poll_loop n : safe (poll_loop n).
Proof.
  induction n as [|n IH]; [apply safe_skip|]. intros w Hw.
  destruct (pop_spec (queue w) (ww_queue _ Hw)) as (q & Hq & Hqw & _).
  rewrite (poll_step _ _ _ _ Hq). pose proof (set_queue_wf _ _ Hw Hqw).
  destruct (list.head _) as [s|]; [|by do 3 eexists].
  assert (safe (process_scancode s ;; poll_loop n)) as Hs by (apply safe_bind; [apply safe_process_scancode|done]).
  by apply Hs.
Qed.

Lemma safe_keyboard_irq scancode : safe (keyboard_irq scancode).
Proof.
  apply safe_read. intros w Hw. destruct (push_spec scancode (queue w) (ww_queue _ Hw)) as (q & Hq & Hqw & _).
  unfold mbind, shell_bind, lift, modify, enqueue_scancode_from_irq. rewrite Hq. cbn [mbind outcome_bind].
  do 3 eexists. split; [done|]. by apply set_queue_wf.
Qed.

End Invariant.

Arguments ww_history {runner w} _.
Arguments ww_queue {runner w} _.

#[export] Hint Resolve safe_ret safe_get safe_emit : shell.
#[export] Hint Resolve safe_print safe_say safe_skip : shell.
#[export] Hint Resolve safe_print_prompt safe_require_root safe_switch_user : shell.
#[export] Hint Resolve safe_reset_history : shell.
#[export] Hint Resolve safe_ps : shell.
#[export] Hint Resolve safe_kill_task safe_on_files create_wf delete_wf write_wf : shell.
#[export] Hint Resolve safe_calc : shell.
#[export] Hint Resolve safe_run_command : shell.
#[export] Hint Resolve safe_evaluate_command : shell.
#[export] Hint Resolve safe_history_up safe_history_down : shell.

(** ** What a command can change *)

(** The tasks are the same and every file is still there. *)
Definition nothing_lost (w w' : World) : Prop :=
  scheduler w' = scheduler w ∧ (f_name <$> files w) `prefix_of` (f_name <$> files w').

#[global] Instance nothing_lost_preorder : PreOrder nothing_lost.
Proof.
  split; [by intros w; split|]. intros w1 w2 w3 [H1 H2] [H3 H4].
  split; [congruence|by etransitivity].
Qed.

(** [m] relates the state before and after by [R]. *)
Definition respects (R : World → World → Prop) {A} (m : shell A) : Prop :=
  ∀ w a out w', m w = Ret (a, out, w') → R w w'.

Section Respects.
Context (R : World → World → Prop) `{!PreOrder R}.

Lemma respects_bind {A B} (m : shell A) (f : A → shell B) :
  respects R m → (∀ a, respects R (f a)) → respects R (m ≫= f).
Proof.
  intros Hm Hf w b out w' H. unfold mbind, shell_bind in H.
  destruct (m w) as [[[a o1] w1]| |] eqn:E1; [|done..].
  destruct (f a w1) as [[[b' o2] w2]| |] eqn:E2; [|done..]. simplify_eq.
  etransitivity; [by eapply Hm|by eapply Hf].
Qed.

Lemma respects_modify f : (∀ w, R w (f w)) → respects R (modify f).
Proof. intros Hf w a out w' H. cbv in H. simplify_eq. apply Hf. Qed.

Lemma respects_ret {A} (a : A) : respects R (mret a).
Proof. intros w b out w' H. cbv in H. by simplify_eq. Qed.
Lemma respects_get {A} (f : World → A) : respects R (get f).
Proof. intros w b out w' H. cbv in H. by simplify_eq. Qed.
Lemma respects_emit o : respects R (emit o).
Proof. intros w b out w' H. cbv in H. by simplify_eq. Qed.
Lemma respects_lift {A} (m : outcome A) : respects R (lift m).
Proof. intros w b out w' H. unfold lift in H. destruct m; cbn in H; by simplify_eq. Qed.
Lemma respects_say s : respects R (say s).
Proof. apply respects_emit. Qed.
Lemma respects_print s : respects R (print s).
Proof. apply respects_emit. Qed.
Lemma respects_skip : respects R skip.
Proof. apply respects_ret. Qed.

Lemma respects_for_all {A} (l : list A) body : (∀ x, respects R (body x)) → respects R (for_all l body).
Proof. intros Hb. induction l as [|x l IH]; [apply respects_skip|]. by apply respects_bind. Qed.

End Respects.
#[export] Hint Resolve respects_ret respects_get respects_emit respects_lift respects_say respects_print
  respects_skip : shell.

Ltac respects_steps :=
  repeat first
    [ solve [auto with shell typeclass_instances]
    | apply respects_bind; [apply _| |intros ?]
    | apply respects_for_all; [apply _|intros ?]
    | case_match ].

Abbreviation harmless := (respects nothing_lost).

Lemma harmless_switch_user u : harmless (switch_user u).
Proof. apply respects_modify. by intros w. Qed.
#[export] Hint Resolve harmless_switch_user : shell.

Lemma harmless_on_files {A} (f : list FileEntry → A * list FileEntry) :
  (∀ l, (f_name <$> l) `prefix_of` (f_name <$> (f l).2)) → harmless (on_files f).
Proof.
  intros Hf w a out w' H. unfold on_files, mbind, shell_bind, get, modify, mret, shell_ret in H.
  specialize (Hf (files w)). destruct (f (files w)) as [r l]. cbn in H. simplify_eq. by split.
Qed.

Lemma create_names n l : (f_name <$> l) `prefix_of` (f_name <$> (create_file n l).2).
Proof. unfold create_file. repeat case_match; cbn; try done. rewrite fmap_app. by apply prefix_app_r. Qed.

Lemma write_names n c l : (f_name <$> (write_file n c l).2) = (f_name <$> l).
Proof.
  unfold write_file. destruct (_ <? _); [done|]. destruct (position _ _) as [i|]; [|done]. cbn [snd].
  apply list_eq. intros j. rewrite !list_lookup_fmap, list_lookup_alter. case_decide; [|done].
  subst. by destruct (l !! j).
Qed.

Lemma harmless_run_command command line :
  command ≠ "kill" → command ≠ "rm" → harmless (run_command command line).
Proof.
  intros Hk Hr. unfold run_command, command_echo, command_calc, show_help, command_uptime, command_top, command_tasks,
    command_ps, command_meminfo, command_whoami, command_id, command_login, command_logout, command_touch,
    command_ls, command_write, command_cat, command_fsinfo, command_about.
  assert (∀ n, harmless (on_files (create_file n))) by (intros; apply harmless_on_files, create_names).
  assert (∀ n c, harmless (on_files (write_file n c))).
  { intros. apply harmless_on_files. intros l. by rewrite write_names. }
  repeat (case_decide; [first [by exfalso|solve [respects_steps]]|]). respects_steps.
Qed.

Lemma harmless_guest command line w a out w' :
  session w = Guest → run_command command line w = Ret (a, out, w') → nothing_lost w w'.
Proof.
  intros Hg H. destruct (decide (command = "kill" ∨ command = "rm")) as [Hd|Hd].
  - assert (w' = w) as ->; [|done].
    assert (∀ act, require_root act w = Ret (false, [println ("Permission denied: `" +:+ act +:+ "` requires enos root.")], w)) as Hr.
    { intros act. unfold require_root, mbind, shell_bind, get. by rewrite Hg. }
    destruct Hd as [-> | ->].
    + change (command_kill line w = Ret (a, out, w')) in H. unfold command_kill, mbind, shell_bind in H.
      rewrite Hr in H. cbv in H. by simplify_eq.
    + change (command_rm line w = Ret (a, out, w')) in H. unfold command_rm, mbind, shell_bind in H.
      rewrite Hr in H. cbv in H. by simplify_eq.
  - eapply harmless_run_command; [..|exact H]; tauto.
Qed.

(** ** Entering a line *)

Lemma evaluate_empty w :
  trim (input_buffer w) = "" →
  evaluate_command w =
    Ret (tt, [Vga (user_name (session w) +:+ prompt_suffix (session w) +:+ " ")],
         set_history (reset_navigation (history w)) (set_input "" w)).
Proof.
  intros Hl. unfold evaluate_command, mbind, shell_bind, get, modify. rewrite Hl. done.
Qed.

Lemma evaluate_line w line h :
  trim (input_buffer w) = line → line ≠ "" → record line (history w) = Ret h →
  evaluate_command w =
    (run_command (default "" (split_whitespace line !! 0%nat)) line ;; print_prompt) (set_history h (set_input "" w)).
Proof.
  intros Hl Hne Hr. unfold evaluate_command. unfold mbind at 1 2 3 4 5, shell_bind at 1 2 3 4 5, get, modify, lift.
  rewrite Hl, decide_False by done. unfold mbind, shell_bind. cbn [set_input history]. rewrite Hr.
  cbn [outcome_bind]. destruct (run_command _ _ _) as [[[[] out] w1]| |]; [|done..]. cbn.
  by destruct (print_prompt w1) as [[[[] out1] w2]| |].
Qed.

(** ** Claims *)

(** Keyboard interrupts and runs of the polling loop, in any interleaving. *)
Inductive shell_event :=
| KeyIrq (scancode : Z)
| Poll.

Definition shell_exec (ev : shell_event) : shell unit :=
  match ev with
  | KeyIrq scancode => keyboard_irq scancode
  | Poll => poll_input
  end.

Definition boot_world (tm : TaskManager) : World :=
  mkWorld "" idle_keyboard HistoryState_new Enos ScancodeQueue_new tm [] 0.

Lemma idle_world_wf line u tm fs off :
  printable_string line = true → String.length line ≤ MAX_INPUT_LEN →
  sched_wf tm → has_kernel_task tm → files_wf fs →
  world_wf (runs_as tm) (mkWorld line idle_keyboard HistoryState_new u ScancodeQueue_new tm fs off).
Proof.
  intros. split; cbn; try done;
    first [apply new_history_wf|apply new_queue_wf|by constructor].
Qed.

Lemma boot_world_wf tm : sched_wf tm → has_kernel_task tm → world_wf (runs_as tm) (boot_world tm).
Proof. intros. apply idle_world_wf; try done; [cbn; lia|apply empty_wf]. Qed.

Lemma safe_shell_exec runner ev : safe runner (shell_exec ev).
Proof. destruct ev; [apply safe_keyboard_irq|apply safe_poll_loop]. Qed.

(** The shell never panics and never diverges: from the state after boot,
    any interleaving of key presses and polls returns, whatever is typed and
    whatever commands that runs, and keeps the invariants of the input line
    (printable, at most 256 characters), the history, the scan code queue, the
    scheduler and the file table. *)
Theorem shell_never_panics tm events :
  sched_wf tm → has_kernel_task tm →
  ∃ out w, for_all events shell_exec (boot_world tm) = Ret (tt, out, w) ∧ world_wf (runs_as tm) w.
Proof.
  intros Hs Hk. pose proof (safe_for_all (runs_as tm) events shell_exec (safe_shell_exec _)) as H.
  destruct (H (boot_world tm)) as ([] & out & w & Hrun & Hw); [by apply boot_world_wf|]. eauto.
Qed.

Definition demo_scheduler : TaskManager := mkTM [mkTask 2 "background_thread" Kernel Ready 0 100 0] 0 3 0 false.

Lemma demo_scheduler_wf : sched_wf demo_scheduler ∧ has_kernel_task demo_scheduler.
Proof.
  split; [|by repeat constructor]. split; cbn; try done; try (left; lia); try (unfold U32_MAX, is_u64, U64_MAX; lia).
  - by repeat constructor.
  - intros [|i] t; [|done]. cbn. intros [= <-]. done.
  - repeat constructor; set_solver.
  - repeat constructor; cbn; lia.
  - intros _. split; [done|by repeat constructor].
Qed.

Lemma shell_never_panics_witness :
  ∃ out w, for_all [KeyIrq 0x19; KeyIrq 0x1F; KeyIrq 0x1C; Poll; KeyIrq 0xE0; KeyIrq 0x48; Poll] shell_exec
    (boot_world demo_scheduler) = Ret (tt, out, w) ∧ world_wf (Some User) w ∧ input_buffer w = "ps".
Proof.
  destruct (shell_never_panics demo_scheduler
    [KeyIrq 0x19; KeyIrq 0x1F; KeyIrq 0x1C; Poll; KeyIrq 0xE0; KeyIrq 0x48; Poll]) as (out & w & Hrun & Hw);
    [exact (proj1 demo_scheduler_wf)|exact (proj2 demo_scheduler_wf)|].
  exists out, w. split; [exact Hrun|]. split; [exact Hw|].
  vm_compute in Hrun. injection Hrun as <- <-. reflexivity.
Defined.

(** C19. A command line entered in a guest session can neither end a task nor
    remove a file: whatever the line, it returns with the scheduler unchanged
    and every file still in the table. *)
Theorem guest_cannot_destroy w :
  world_wf (runs_as (scheduler w)) w → session w = Guest →
  ∃ out w', evaluate_command w = Ret (tt, out, w') ∧ scheduler w' = scheduler w ∧
    (∀ n, n ∈ (f_name <$> files w) → n ∈ (f_name <$> files w')).
Proof.
  intros Hw Hg. destruct (safe_evaluate_command _ w Hw) as ([] & out & w' & Hrun & _). exists out, w'.
  split; [done|]. assert (nothing_lost w w') as [Hs [l Hl]]; [|split; [done|]; intros n; rewrite Hl; set_solver].
  destruct (decide (trim (input_buffer w) = "")) as [He|Hne].
  - rewrite evaluate_empty in Hrun by done. simplify_eq. by split.
  - destruct (record_spec (trim (input_buffer w)) (history w) (ww_history Hw)) as (h & Hr & _).
    rewrite (evaluate_line w _ h eq_refl Hne Hr) in Hrun. unfold mbind, shell_bind in Hrun.
    destruct (run_command _ _ _) as [[[[] o1] w1]| |] eqn:E; [|done..].
    assert (nothing_lost w w1) as H1.
    { apply harmless_guest in E; [|done]. by destruct E. }
    etransitivity; [exact H1|]. unfold print_prompt, mbind, shell_bind, get, print, emit in Hrun. by simplify_eq.
Qed.

Lemma guest_cannot_destroy_witness :
  ∃ out w', evaluate_command (mkWorld "kill 1" idle_keyboard HistoryState_new Guest ScancodeQueue_new
      demo_scheduler [mkFile "a" "b"] 0) = Ret (tt, out, w') ∧ scheduler w' = demo_scheduler.
Proof.
  destruct (guest_cannot_destroy (mkWorld "kill 1" idle_keyboard HistoryState_new Guest ScancodeQueue_new
      demo_scheduler [mkFile "a" "b"] 0)) as (out & w' & H1 & H2 & _).
  - apply idle_world_wf; [reflexivity|cbn; unfold MAX_INPUT_LEN; lia|apply demo_scheduler_wf..|].
    split; [repeat constructor; set_solver|by repeat constructor|repeat constructor; cbn; unfold MAX_FILE_SIZE; lia|cbn; unfold MAX_FILES; lia].
  - reflexivity.
  - exists out, w'. split; [exact H1|exact H2].
Defined.

(** ** Typing *)

(** The state with [l] typed at the end of the input line. *)
Definition typed (l : list ascii) (w : World) : World :=
  match l with
  | [] => w
  | _ => set_input (input_buffer w +:+ String.string_of_list_ascii l) (set_history (reset_navigation (history w)) w)
  end.

Definition echo (l : list ascii) : list output := (λ c, Vga (char_string c)) <$> l.

Lemma typed_cons c l w : typed (c :: l) w = typed l (typed [c] w).
Proof.
  destruct l as [|d l]; [done|]. unfold typed, set_input, set_history, reset_navigation. cbn [input_buffer history entries].
  f_equal. rewrite <- string_app_assoc. done.
Qed.

Lemma push_printable c w :
  printable c = true → String.length (input_buffer w) < MAX_INPUT_LEN →
  push_char c w = Ret (tt, echo [c], typed [c] w).
Proof.
  intros Hc Hl. unfold push_char.
  rewrite decide_False by (intros ->; discriminate Hc). rewrite decide_False by (intros ->; discriminate Hc).
  unfold mbind, shell_bind, get. rewrite (proj2 (Nat.ltb_lt _ _)) by done. done.
Qed.

Lemma process_run s w k a :
  decode_scancode s (keyboard w) = (k, a) →
  process_scancode s w = (match a with Some a => perform a | None => skip end) (set_keyboard k w).
Proof.
  intros Hd. unfold process_scancode, mbind, shell_bind, get, modify. rewrite Hd.
  by destruct (match a with Some a => perform a | None => skip end (set_keyboard k w)) as [[[[] o] w']| |].
Qed.

(** One scan code of a typed text: it types the character the keyboard decodes
    it to, if any. *)
Lemma process_char s w k l :
  decode_scancode s (keyboard w) = (k, Char <$> l) → Forall (λ c, printable c = true) (option_list l) →
  String.length (input_buffer w) + length (option_list l) ≤ MAX_INPUT_LEN →
  process_scancode s w = Ret (tt, echo (option_list l), typed (option_list l) (set_keyboard k w)).
Proof.
  intros Hd Hp Hl. rewrite (process_run _ _ _ _ Hd). destruct l as [c|]; [|done]. cbn in *.
  apply push_printable; [by inversion Hp|cbn; lia].
Qed.

Lemma typed_keyboard l w : keyboard (typed l w) = keyboard w.
Proof. by destruct l. Qed.
Lemma typed_queue l w : queue (typed l w) = queue w.
Proof. by destruct l. Qed.
Lemma typed_set_keyboard l k w : typed l (set_keyboard k w) = set_keyboard k (typed l w).
Proof. by destruct l. Qed.
Lemma typed_set_queue l q w : typed l (set_queue q w) = set_queue q (typed l w).
Proof. by destruct l. Qed.
Lemma length_typed l w :
  String.length (input_buffer (typed l w)) = String.length (input_buffer w) + length l.
Proof.
  destruct l as [|c l]; [cbn; lia|]. unfold typed. cbn [input_buffer set_input]. rewrite length_string_app. f_equal.
  induction (c :: l) as [|d r IH]; [done|]. cbn. by rewrite IH.
Qed.
Lemma typed_app l1 l2 w : typed (l1 ++ l2) w = typed l2 (typed l1 w).
Proof. revert w. induction l1 as [|c l1 IH]; intros w; [done|]. cbn [app]. by rewrite typed_cons, (typed_cons c l1), IH. Qed.

(** Polling a queue that holds the scan codes of a text types the text; [n] is
    what is left of the budget. *)
Lemma poll_types rest codes : ∀ n w l k,
  queue_wf (queue w) → contents (queue w) = (codes ++ rest)%list →
  decode_all codes (keyboard w) = (k, Char <$> l) → Forall (λ c, printable c = true) l →
  String.length (input_buffer w) + length l ≤ MAX_INPUT_LEN →
  ∃ q, queue_wf q ∧ contents q = rest ∧
    poll_loop (length codes + n) w =
      (λ '(a, out, w'), (a, (echo l ++ out)%list, w')) <$> poll_loop n (set_queue q (set_keyboard k (typed l w))).
Proof.
  induction codes as [|s codes IH]; intros n w l k Hq Hc Hd Hp Hl.
  { cbn in Hd. destruct l; [|done]. simplify_eq. exists (queue w). split; [done|]. split; [done|].
    assert (set_queue (queue w) (set_keyboard (keyboard w) w) = w) as Hw by (by destruct w). cbn [typed]. rewrite Hw.
    cbn [length Nat.add echo]. by destruct (poll_loop n w) as [[[[] o] w']| |]. }
  destruct (pop_spec (queue w) Hq) as (q1 & Hpop & Hq1 & Hc1). rewrite Hc in *. cbn [app list.head list.tail] in *.
  cbn [length Nat.add]. rewrite (poll_step _ _ _ _ Hpop). cbn [decode_all] in Hd.
  destruct (decode_scancode s (keyboard w)) as [k1 a1] eqn:Hd1.
  destruct (decode_all codes k1) as [k2 actions] eqn:Hd2.
  assert (∃ o l', a1 = Char <$> o ∧ l = (option_list o ++ l')%list ∧ actions = Char <$> l') as (o & l' & -> & -> & ->).
  { destruct a1 as [a1|]; [|exists None, l; simplify_eq; done].
    destruct l as [|c l]; [by simplify_eq|]. exists (Some c), l. by simplify_eq/=. }
  apply Forall_app in Hp as [Hp1 Hp2]. rewrite length_app in Hl. simplify_eq.
  pose proof (process_char s (set_queue q1 w) k1 o Hd1 Hp1) as Hrun. cbn [set_queue input_buffer] in Hrun.
  specialize (Hrun ltac:(lia)).
  set (w1 := typed (option_list o) (set_keyboard k1 (set_queue q1 w))) in *.
  destruct (IH n w1 l' k) as (q & Hqw & Hqc & Hpoll).
  - unfold w1. by rewrite typed_queue.
  - unfold w1. by rewrite typed_queue.
  - unfold w1. by rewrite typed_keyboard.
  - done.
  - unfold w1. rewrite length_typed. cbn. lia.
  - exists q. split; [done|]. split; [done|]. unfold mbind, shell_bind. rewrite Hrun, Hpoll. clear Hpoll.
    assert (set_queue q (set_keyboard k (typed l' w1)) = set_queue q (set_keyboard k (typed (option_list o ++ l') w))) as ->.
    { unfold w1. rewrite typed_app. by destruct o, l'. }
    destruct (poll_loop n (set_queue _ _)) as [[[[] out] w']| |]; [|reflexivity..].
    unfold fmap, outcome_fmap, echo. by rewrite fmap_app, app_assoc.
Qed.

(** ** The input devices stay with the keyboard code *)

Definition same_input (w w' : World) : Prop :=
  queue w' = queue w ∧ keyboard w' = keyboard w ∧ input_buffer w' = input_buffer w.

#[global] Instance same_input_preorder : PreOrder same_input.
Proof. split; [by intros w; split_and!|]. intros w1 w2 w3 (? & ? & ?) (? & ? & ?). split_and!; congruence. Qed.

Lemma same_input_on_files {A} (f : list FileEntry → A * list FileEntry) : respects same_input (on_files f).
Proof.
  intros w a out w' H. unfold on_files, mbind, shell_bind, get, modify, mret, shell_ret in H.
  destruct (f (files w)) as [r l]. cbn in H. by simplify_eq.
Qed.

Lemma same_input_kill_task pid : respects same_input (kill_task pid).
Proof.
  unfold kill_task. respects_steps. by apply respects_modify.
Qed.

Lemma same_input_switch_user u : respects same_input (switch_user u).
Proof. by apply respects_modify. Qed.
#[export] Hint Resolve same_input_on_files same_input_kill_task same_input_switch_user : shell.

Lemma same_input_run_command command line : respects same_input (run_command command line).
Proof.
  unfold run_command, command_echo, command_calc, show_help, command_uptime, command_top, command_tasks,
    command_ps, command_meminfo, command_whoami, command_id, command_login, command_logout, command_kill,
    command_touch, command_rm, command_ls, command_write, command_cat, command_fsinfo, command_about,
    command_ps, require_root.
  repeat (case_decide; [solve [respects_steps]|]). respects_steps.
Qed.

(** Entering a line empties it. *)
Lemma same_input_evaluate w a out w' :
  evaluate_command w = Ret (a, out, w') → same_input (set_input "" w) w'.
Proof.
  intros H. destruct (decide (trim (input_buffer w) = "")) as [E|E].
  { rewrite evaluate_empty in H by done. by simplify_eq. }
  destruct (record (trim (input_buffer w)) (history w)) as [h| |] eqn:Hr.
  - rewrite (evaluate_line w _ h eq_refl E Hr) in H.
    pose proof (same_input_run_command (default "" (split_whitespace (trim (input_buffer w)) !! 0%nat))
      (trim (input_buffer w))) as Hrun.
    assert (respects same_input (run_command (default "" (split_whitespace (trim (input_buffer w)) !! 0%nat))
      (trim (input_buffer w)) ;; print_prompt)) as Hboth by (unfold print_prompt; respects_steps).
    exact (Hboth _ _ _ _ H).
  - unfold evaluate_command, mbind, shell_bind, get, modify, lift in H. rewrite decide_False in H by done.
    cbn [set_input history] in H. by rewrite Hr in H.
  - unfold evaluate_command, mbind, shell_bind, get, modify, lift in H. rewrite decide_False in H by done.
    cbn [set_input history] in H. by rewrite Hr in H.
Qed.

Lemma enqueue_codes codes : ∀ w,
  queue_wf (queue w) → length (contents (queue w)) + length codes ≤ 128 →
  ∃ q, for_all codes keyboard_irq w = Ret (tt, [], set_queue q w) ∧ queue_wf q ∧
    contents q = (contents (queue w) ++ codes)%list.
Proof.
  induction codes as [|s codes IH]; intros w Hq Hl.
  { exists (queue w). rewrite app_nil_r. by destruct w. }
  destruct (push_spec s (queue w) Hq) as (q1 & Hp & Hq1 & Hc1).
  rewrite length_contents in Hl. cbn [length] in Hl.
  rewrite (proj2 (Nat.eqb_neq _ _)) in Hc1 by lia.
  destruct (IH (set_queue q1 w) Hq1) as (q & Hrun & Hqw & Hqc).
  { cbn [set_queue queue]. rewrite Hc1, length_app, length_contents. cbn. lia. }
  exists q. split; [|split; [done|rewrite Hqc; cbn [set_queue queue]; by rewrite Hc1, <- app_assoc]].
  change (for_all (s :: codes) keyboard_irq) with (keyboard_irq s ;; for_all codes keyboard_irq).
  refine (bind_run _ _ _ tt [] (set_queue q1 w) tt [] _ _ Hrun).
  unfold keyboard_irq, mbind, shell_bind, get, lift, modify, enqueue_scancode_from_irq. rewrite Hp. done.
Qed.

Lemma printable_of_list l :
  Forall (λ c, printable c = true) l → printable_string (String.string_of_list_ascii l) = true.
Proof. induction 1 as [|c l Hc _ IH]; [done|]. cbn. by rewrite Hc, IH. Qed.

Lemma length_of_list l : String.length (String.string_of_list_ascii l) = length l.
Proof. induction l as [|c l IH]; [done|]. cbn. by rewrite IH. Qed.

(** The scan code of the enter key. *)
Definition enter_code : Z := 0x1C.

Lemma enter_decodes k : extended_prefix k = false → decode_scancode enter_code k = (k, Some Enter).
Proof. intros Hk. unfold decode_scancode, enter_code. by rewrite Hk. Qed.

Lemma poll_enter n w :
  keyboard w = idle_keyboard → queue_wf (queue w) → contents (queue w) = [enter_code] →
  ∃ q, queue_wf q ∧ contents q = [] ∧
    ∀ out w', evaluate_command (set_queue q w) = Ret (tt, out, w') →
      poll_loop (S n) w = Ret (tt, Vga newline :: out, w').
Proof.
  intros Hk Hq Hc. destruct (pop_spec (queue w) Hq) as (q & Hpop & Hqw & Hqc). rewrite Hc in Hpop, Hqc.
  exists q. split; [done|]. split; [done|]. intros out w' He. rewrite (poll_step _ _ _ _ Hpop). cbn [list.head].
  assert (keyboard (set_queue q w) = idle_keyboard) as Hk' by done.
  refine (eq_trans (bind_run _ _ _ tt (Vga newline :: out)%list w' tt [] w' _ _) _); [| |by rewrite app_nil_r].
  - erewrite process_run by (rewrite Hk'; by apply enter_decodes).
    assert (set_keyboard idle_keyboard (set_queue q w) = set_queue q w) as -> by (rewrite <- Hk; by destruct w).
    cbn [perform]. unfold push_char. rewrite decide_False, decide_True by done.
    by refine (bind_run _ _ _ tt [_] _ tt _ _ _ He).
  - destruct (same_input_evaluate _ _ _ _ He) as [Hq' _].
    cbn [set_input set_queue queue] in Hq'.
    destruct n as [|n]; [done|]. destruct (pop_spec q Hqw) as (q2 & Hpop2 & _). rewrite Hqc in Hpop2.
    rewrite <- Hq' in Hpop2. rewrite (poll_step _ _ _ _ Hpop2). cbn [list.head].
    unfold pop in Hpop2. rewrite Hq' in Hpop2.
    assert (len q = 0) as Hlen by (by rewrite <- length_contents, Hqc).
    rewrite Hlen in Hpop2. cbn in Hpop2. injection Hpop2 as <-. do 2 f_equal. rewrite <- Hq'. by destruct w'.
Qed.

(** What is typed is what is run.  With the keyboard idle and nothing queued,
    the key presses and releases of a printable text followed by the enter key,
    delivered by the keyboard interrupt and then polled, echo the characters and
    the line feed and then do exactly what entering that line does, and with
    the same output. *)
Theorem typed_line_runs w l :
  world_wf (runs_as (scheduler w)) w → keyboard w = idle_keyboard → contents (queue w) = [] → input_buffer w = "" → l ≠ [] →
  Forall (λ c, printable c = true) l → length (l ≫= type_char) < 128 → length l ≤ 256 →
  ∃ q out w', queue_wf q ∧ contents q = [] ∧
    evaluate_command (set_queue q (set_input (String.string_of_list_ascii l)
      (set_history (reset_navigation (history w)) w))) = Ret (tt, out, w') ∧
    (for_all (l ≫= type_char) keyboard_irq ;; keyboard_irq enter_code ;; poll_input) w =
      Ret (tt, (echo l ++ Vga newline :: out)%list, w').
Proof.
  intros Hw Hk Hc Hi Hne Hp Hcodes Hlen. set (codes := l ≫= type_char) in *.
  destruct (enqueue_codes codes w (ww_queue Hw)) as (q1 & H1 & Hq1 & Hc1); [rewrite Hc; cbn; lia|].
  rewrite Hc in Hc1. cbn [app] in Hc1.
  destruct (enqueue_codes [enter_code] (set_queue q1 w) Hq1) as (q2 & H2 & Hq2 & Hc2).
  { cbn [set_queue queue]. rewrite Hc1. cbn. lia. }
  cbn [set_queue queue] in Hc2. rewrite Hc1 in Hc2. set (w2 := set_queue q2 w).
  change (set_queue q2 (set_queue q1 w)) with w2 in H2.
  assert (keyboard_irq enter_code (set_queue q1 w) = Ret (tt, [], w2)) as H2'.
  { cbn [for_all foldr] in H2. unfold mbind at 1, shell_bind at 1 in H2.
    destruct (keyboard_irq enter_code (set_queue q1 w)) as [[[[] o] w3]| |]; [|done..]. cbn in H2.
    rewrite app_nil_r in H2. by simplify_eq. }
  destruct (poll_types [enter_code] codes (128 - length codes) w2 l idle_keyboard) as (q3 & Hq3 & Hc3 & Hpoll); try done.
  { cbn [w2 set_queue keyboard]. rewrite Hk. by apply type_text_decodes. }
  { cbn [w2 set_queue input_buffer]. rewrite Hi. cbn. unfold MAX_INPUT_LEN. lia. }
  set (w3 := set_queue q3 (set_keyboard idle_keyboard (typed l w2))) in *.
  destruct (poll_enter (127 - length codes) w3) as (q4 & Hq4 & Hc4 & Henter); [done|done|done|].
  assert (set_queue q4 w3 = set_queue q4 (set_input (String.string_of_list_ascii l)
            (set_history (reset_navigation (history w)) w))) as Heq.
  { unfold w3, w2. destruct l as [|c l]; [done|]. unfold typed, set_queue, set_input, set_keyboard, set_history. cbn.
    rewrite Hi, Hk. done. }
  assert (world_wf (runs_as (scheduler w)) (set_queue q4 w3)) as Hw4.
  { rewrite Heq. apply set_queue_wf; [|done]. apply set_input_wf; [by apply set_reset_wf| |].
    - by apply printable_of_list.
    - by rewrite length_of_list. }
  destruct (safe_evaluate_command _ _ Hw4) as ([] & out & w' & He & _). exists q4, out, w'.
  rewrite <- Heq. split; [done|]. split; [done|]. split; [done|].
  refine (bind_run _ _ _ tt [] _ tt _ _ H1 _). refine (bind_run _ _ _ tt [] _ tt _ _ H2' _).
  unfold poll_input, SCANCODE_QUEUE_CAPACITY.
  replace 128 with (length codes + (128 - length codes)) by lia. rewrite Hpoll.
  replace (128 - length codes) with (S (127 - length codes)) by lia.
  by rewrite (Henter _ _ He).
Qed.

Lemma typed_line_runs_witness :
  ∃ out w', (for_all (["i"%char; "d"%char] ≫= type_char) keyboard_irq ;; keyboard_irq enter_code ;; poll_input)
      (boot_world demo_scheduler) = Ret (tt, (echo ["i"%char; "d"%char] ++ Vga newline :: out)%list, w') ∧
    out = [println "uid=0(enos) gid=0(enos) role=root"; Vga "enos# "].
Proof.
  destruct (typed_line_runs (boot_world demo_scheduler) ["i"%char; "d"%char]) as (q & out & w' & _ & _ & He & Hrun).
  - apply boot_world_wf; apply demo_scheduler_wf.
  - reflexivity.
  - reflexivity.
  - reflexivity.
  - discriminate.
  - repeat constructor.
  - vm_compute. lia.
  - cbn. lia.
  - exists out, w'. split; [exact Hrun|]. cbn in He. injection He as <- <-. reflexivity.
Defined.
