(* ===== verification/Allocation.v ===== *)
(** * Requests to the heap: [src/allocator.rs], [src/main.rs]

    The containers of the [alloc] library ([Box], [Vec], [String], [format!]) call
    [SimpleAllocator::alloc] and, when it returns null, the kernel's
    [alloc_error_handler], which panics.  Which layouts a container asks for is the
    library's own choice, so the requests are parameters here: every action of the
    shell that uses such containers comes with the layouts requested before and
    after the one point of a command that reads the heap's offset ([meminfo]).  The
    rest of the action is that of [Shell], in which nothing allocates. *)

From S2P Require Import Prelude Machine Task TaskProps Fs Heap Devices Input InputProps Shell ShellProps.
Local Open Scope Z_scope.

Definition set_heap (o : Z) (w : World) : World :=
  mkWorld (input_buffer w) (keyboard w) (history w) (session w) (queue w) (scheduler w) (files w) o.

Definition out_of_memory (layout : string) : string := "Out of Memory Exception: " +:+ layout.
Definition alloc_error_handler {A} (layout : string) : outcome A := Panic (out_of_memory layout).

(** The requests of one action. *)
Abbreviation demand := (list Layout * list Layout)%type.

Section Allocation.
(** The address of the heap array, and the text the core library prints for a
    layout. *)
Context (heap_base : Z) (debug_layout : Layout → string).

(** [Box::new] and the like: a null pointer is an allocation error. *)
Definition box_new (offset : Z) (l : Layout) : outcome (Z * Z) :=
  '(p, offset) ← alloc heap_base offset l;
  if p =? null_mut then alloc_error_handler (debug_layout l) else Ret (p, offset).

Definition request (l : Layout) : shell Z :=
  o ← get heap_offset;
  '(p, o) ← lift (box_new o l);
  modify (set_heap o) ;; mret p.

Definition requests (ls : list Layout) : shell unit := for_all ls (λ l, request l ;; skip).

(** Backspace only shortens a string; a key with no action touches none. *)
Definition may_allocate (action : InputAction) : bool :=
  match action with Backspace => false | _ => true end.

Definition process_scancode (d : demand) (scancode : Z) : shell unit :=
  k ← get keyboard;
  match (decode_scancode scancode k).2 with
  | Some action =>
    if may_allocate action
    then requests d.1 ;; Shell.process_scancode scancode ;; requests d.2
    else Shell.process_scancode scancode
  | None => Shell.process_scancode scancode
  end.

(** The loop of [poll_input], with the demand of each scan code. *)
Fixpoint poll_loop (budget : nat) (ds : list demand) : shell unit :=
  match budget with
  | O => skip
  | S budget =>
    q ← get queue;
    '(scancode, q) ← lift (pop q);
    modify (set_queue q) ;;
    match scancode with
    | None => skip
    | Some scancode => process_scancode (hd ([], []) ds) scancode ;; poll_loop budget (tl ds)
    end
  end.

Definition poll_input (ds : list demand) : shell unit := poll_loop SCANCODE_QUEUE_CAPACITY ds.

(** Everything a list of demands asks for. *)
Definition demanded (ds : list demand) : list Layout := ds ≫= λ d, d.1 ++ d.2.

End Allocation.

(** ** The shell leaves the heap alone *)

Definition same_heap (w w' : World) : Prop := heap_offset w = heap_offset w'.

#[global] Instance same_heap_preorder : PreOrder same_heap.
Proof. split; [done|]. intros ???. unfold same_heap. congruence. Qed.

Abbreviation keeps_heap := (respects same_heap).

Lemma keeps_heap_modify f : (∀ w, heap_offset (f w) = heap_offset w) → keeps_heap (modify f).
Proof. intros Hf w a out w' H. cbv [modify] in H. simplify_eq. by symmetry. Qed.

#[local] Hint Extern 2 (respects same_heap (modify _)) => apply keeps_heap_modify; done : shell.

Lemma keeps_heap_on_files {A} (f : list FileEntry → A * list FileEntry) : keeps_heap (on_files f).
Proof. unfold on_files. respects_steps. Qed.
#[local] Hint Resolve keeps_heap_on_files : shell.

Lemma keeps_heap_run_command command line : keeps_heap (run_command command line).
Proof.
  unfold run_command, command_echo, command_calc, show_help, command_uptime, command_top, command_tasks,
    command_ps, command_meminfo, command_whoami, command_id, command_login, command_logout, command_kill,
    command_touch, command_rm, command_ls, command_write, command_cat, command_fsinfo, command_about,
    command_ps, require_root, switch_user, kill_task.
  repeat (case_decide; [solve [respects_steps]|]). respects_steps.
Qed.
#[local] Hint Resolve keeps_heap_run_command : shell.

Lemma keeps_heap_push_char c : keeps_heap (push_char c).
Proof. unfold push_char, evaluate_command, print_prompt, reset_history. respects_steps. Qed.

Lemma keeps_heap_process_scancode scancode : keeps_heap (Shell.process_scancode scancode).
Proof.
  pose proof keeps_heap_push_char.
  unfold Shell.process_scancode, perform, history_up, history_down, replace_input_line, clear_visible_input.
  respects_steps.
Qed.

(** ** Returning, or running out of memory *)

#[global] Instance layout_ok_dec base l : Decision (layout_ok base l).
Proof. unfold layout_ok. apply _. Defined.

Section Safe.
Context (heap_base : Z) (debug_layout : Layout → string) (Hbase : 0 < heap_base).
Context (runner : option TaskPrivilege).

(** The panic of the allocation error handler: one of the layouts [ls] did not fit
    above some offset not below [lo]. *)
Definition no_room (ls : list Layout) (lo : Z) (why : string) : Prop :=
  ∃ l o, l ∈ ls ∧ lo ≤ o ≤ HEAP_SIZE ∧ heap_base + HEAP_SIZE < round_up (align l) (heap_base + o) + size l ∧
    why = out_of_memory (debug_layout l).

Lemma no_room_mono ls ls' lo lo' why : no_room ls lo why → ls ⊆ ls' → lo' ≤ lo → no_room ls' lo' why.
Proof. intros (l & o & Hl & Ho & H) Hsub Hlo. exists l, o. split_and!; [by apply Hsub|lia|lia|apply H..]. Qed.

Lemma box_new_spec offset l :
  0 ≤ offset ≤ HEAP_SIZE → layout_ok heap_base l →
  (∃ p o, box_new heap_base debug_layout offset l = Ret (p, o) ∧ offset ≤ o ≤ HEAP_SIZE) ∨
  ∃ why, box_new heap_base debug_layout offset l = Panic why ∧ no_room [l] offset why.
Proof.
  intros Ho Hl. unfold box_new. rewrite alloc_eq by done. destruct Hl as (Ha & Hs & _).
  destruct (round_up_spec (align l) (heap_base + offset)) as [Hr _]; [lia|].
  cbn [mbind outcome_bind]. case_decide.
  - left. rewrite (proj2 (Z.eqb_neq _ _)) by (unfold null_mut; lia). do 2 eexists. split; [done|]. lia.
  - right. eexists. split; [done|]. exists l, offset. split_and!; [by left|lia|lia|lia|done].
Qed.

Definition heap_ok (w : World) : Prop := 0 ≤ heap_offset w ≤ HEAP_SIZE.

Definition safe_or_full (ls : list Layout) {A} (m : shell A) : Prop :=
  ∀ w, world_wf runner w → heap_ok w →
  (∃ a out w', m w = Ret (a, out, w') ∧ world_wf runner w' ∧ heap_offset w ≤ heap_offset w' ≤ HEAP_SIZE) ∨
  ∃ why, m w = Panic why ∧ no_room ls (heap_offset w) why.

Lemma safe_or_full_pure ls {A} (m : shell A) : safe runner m → keeps_heap m → safe_or_full ls m.
Proof.
  intros Hs Hk w Hw Ho. left. destruct (Hs w Hw) as (a & out & w' & H & Hw').
  exists a, out, w'. pose proof (Hk _ _ _ _ H) as Heq. unfold same_heap in Heq. unfold heap_ok in Ho.
  split_and!; [done|done|lia|lia].
Qed.

Lemma safe_or_full_bind ls {A B} (m : shell A) (f : A → shell B) :
  safe_or_full ls m → (∀ a, safe_or_full ls (f a)) → safe_or_full ls (m ≫= f).
Proof.
  intros Hm Hf w Hw Ho. unfold mbind, shell_bind.
  destruct (Hm w Hw Ho) as [(a & out & w1 & -> & Hw1 & Ho1)|(why & -> & H)]; [|right; by exists why].
  assert (heap_ok w1) as Hok1 by (unfold heap_ok in *; lia).
  destruct (Hf a w1 Hw1 Hok1) as [(b & out' & w2 & -> & Hw2 & Ho2)|(why & -> & H)].
  - left. do 3 eexists. split; [done|]. split; [done|lia].
  - right. exists why. split; [done|]. eapply no_room_mono; [exact H|done|lia].
Qed.

Lemma safe_or_full_weaken ls ls' {A} (m : shell A) : ls ⊆ ls' → safe_or_full ls m → safe_or_full ls' m.
Proof.
  intros Hsub Hm w Hw Ho. destruct (Hm w Hw Ho) as [?|(why & ? & H)]; [by left|right].
  exists why. split; [done|]. eapply no_room_mono; [exact H|done|lia].
Qed.

Lemma set_heap_wf o w : world_wf runner w → world_wf runner (set_heap o w).
Proof. intros []. by split. Qed.

Lemma safe_or_full_request l : layout_ok heap_base l → safe_or_full [l] (request heap_base debug_layout l).
Proof.
  intros Hl w Hw Ho. unfold request, mbind, shell_bind, get, lift, modify, mret, shell_ret.
  destruct (box_new_spec (heap_offset w) l Ho Hl) as [(p & o & -> & Ho1)|(why & -> & H)].
  - left. do 3 eexists. split; [reflexivity|]. split; [by apply set_heap_wf|exact Ho1].
  - right. by exists why.
Qed.

Lemma safe_or_full_requests ls :
  Forall (layout_ok heap_base) ls → safe_or_full ls (requests heap_base debug_layout ls).
Proof.
  intros Hls. unfold requests. induction Hls as [|l ls Hl _ IH].
  - apply safe_or_full_pure; [apply safe_ret|apply respects_ret, _].
  - cbn [for_all foldr]. apply safe_or_full_bind; [|intros _; eapply safe_or_full_weaken; [|exact IH]; set_solver].
    apply safe_or_full_bind; [eapply safe_or_full_weaken; [|by apply safe_or_full_request]; set_solver|intros _].
    apply safe_or_full_pure; [apply safe_ret|apply respects_ret, _].
Qed.

Lemma safe_or_full_process_scancode d scancode :
  Forall (layout_ok heap_base) (d.1 ++ d.2) →
  safe_or_full (d.1 ++ d.2) (process_scancode heap_base debug_layout d scancode).
Proof.
  intros [H1 H2]%Forall_app. unfold process_scancode.
  assert (safe_or_full (d.1 ++ d.2) (Shell.process_scancode scancode)) as Hp.
  { apply safe_or_full_pure; [apply safe_process_scancode|apply keeps_heap_process_scancode]. }
  apply safe_or_full_bind; [apply safe_or_full_pure; [apply safe_get|apply respects_get, _]|intros k].
  destruct (decode_scancode scancode k).2 as [action|]; [|done]. destruct (may_allocate action); [|done].
  apply safe_or_full_bind; [|intros _; apply safe_or_full_bind; [done|intros _]];
    (eapply safe_or_full_weaken; [|by apply safe_or_full_requests]); set_solver.
Qed.

(** One iteration of the polling loop. *)
Lemma poll_iteration n ds w s q :
  pop (queue w) = Ret (s, q) →
  poll_loop heap_base debug_layout (S n) ds w =
    match s with
    | None => Ret (tt, [], set_queue q w)
    | Some s => (process_scancode heap_base debug_layout (hd ([], []) ds) s ;; poll_loop heap_base debug_layout n (tl ds))
                  (set_queue q w)
    end.
Proof.
  intros Hq. cbn [poll_loop]. unfold mbind, shell_bind, get, lift, modify. rewrite Hq. cbn [mbind outcome_bind].
  destruct s; [|done]. cbn. destruct (process_scancode _ _ _ _ _) as [[[? ?] ?]| |]; [|done..].
  by destruct (poll_loop _ _ n _ _) as [[[? ?] ?]| |].
Qed.

Lemma safe_or_full_poll_loop n : ∀ ds,
  Forall (layout_ok heap_base) (demanded ds) → safe_or_full (demanded ds) (poll_loop heap_base debug_layout n ds).
Proof.
  induction n as [|n IH]; intros ds Hds.
  { apply safe_or_full_pure; [apply safe_ret|apply respects_ret, _]. }
  assert (demanded ds = ((hd ([], []) ds).1 ++ (hd ([], []) ds).2) ++ demanded (tl ds)) as Hsplit by (by destruct ds).
  intros w Hw Ho. destruct (pop_spec (queue w) (ww_queue Hw)) as (q & Hq & Hqw & _).
  rewrite (poll_iteration _ _ _ _ _ Hq). pose proof (set_queue_wf _ _ _ Hw Hqw) as Hw1.
  destruct (list.head _) as [s|]; [|left; do 3 eexists; split; [done|]; split; [done|]; unfold heap_ok in Ho; cbn; lia].
  rewrite Hsplit in Hds |- *. apply Forall_app in Hds as [Hd Hds].
  assert (safe_or_full (((hd ([], []) ds).1 ++ (hd ([], []) ds).2) ++ demanded (tl ds))
    (process_scancode heap_base debug_layout (hd ([], []) ds) s ;; poll_loop heap_base debug_layout n (tl ds))) as Hs.
  { apply safe_or_full_bind; [|intros _].
    - eapply safe_or_full_weaken; [|by apply safe_or_full_process_scancode]. set_solver.
    - eapply safe_or_full_weaken; [|by apply IH]. set_solver. }
  by apply (Hs _ Hw1).
Qed.

Lemma safe_or_full_poll_input ds :
  Forall (layout_ok heap_base) (demanded ds) → safe_or_full (demanded ds) (poll_input heap_base debug_layout ds).
Proof. apply safe_or_full_poll_loop. Qed.

End Safe.

(** Without requests it is the allocation-free [poll_input]. *)
Lemma no_demands base dl w : poll_input base dl [] w = Shell.poll_input w.
Proof.
  unfold poll_input, Shell.poll_input. generalize SCANCODE_QUEUE_CAPACITY. intros n. revert w.
  assert (∀ s w, process_scancode base dl ([], []) s w = Shell.process_scancode s w) as Hp.
  { intros s w. unfold process_scancode, requests. cbn [for_all foldr fst snd].
    unfold mbind at 1, shell_bind at 1, get. destruct (decode_scancode s (keyboard w)).2 as [action|];
      [destruct (may_allocate action)|]; unfold mbind, shell_bind, skip, mret, shell_ret;
      destruct (Shell.process_scancode s w) as [[[[] o] w1]| |]; try done. cbn. by rewrite app_nil_r. }
  induction n as [|n IH]; intros w; [done|]. cbn [poll_loop Shell.poll_loop hd tl].
  unfold mbind, shell_bind, get, lift, modify. destruct (pop (queue w)) as [[c q]| |]; [|done..]. cbn [mbind outcome_bind].
  destruct c as [c|]; [|done]. rewrite Hp. destruct (Shell.process_scancode c _) as [[[[] o] w1]| |]; [|done..].
  by rewrite IH.
Qed.
