(* ===== verification/ShellFiles.v ===== *)
(** * Files through the command line

    How the shell splits a command line, and that a text written to a file with
    [write] is the text [cat] shows. *)

From S2P Require Import Prelude Machine Text Task TaskProps Fs Heap Calc Devices Input InputProps Shell ShellProps.

(** ** Splitting and trimming *)

Lemma string_rev_app s acc : string_rev s acc = string_rev s "" +:+ acc.
Proof.
  revert acc. induction s as [|c s IH]; intros acc; [done|]. cbn [string_rev].
  rewrite IH, (IH (String.String c "")), <- string_app_assoc. done.
Qed.

Lemma string_rev_concat a b : string_rev (a +:+ b) "" = string_rev b "" +:+ string_rev a "".
Proof.
  induction a as [|c a IH]; [by rewrite string_app_nil|].
  rewrite string_app_cons. cbn [string_rev]. rewrite (string_rev_app (a +:+ b)), (string_rev_app a), IH.
  by rewrite string_app_assoc.
Qed.

Lemma string_rev_involutive s : string_rev (string_rev s "") "" = s.
Proof.
  induction s as [|c s IH]; [done|]. cbn [string_rev]. rewrite (string_rev_app s), string_rev_concat, IH. done.
Qed.

(** A text without white space, and one that [trim] leaves alone. *)
Definition solid : string → bool := all_bytes (λ c, negb (is_whitespace c)).
Definition trimmed (s : string) : Prop := trim_start s = s ∧ trim_end s = s.

Lemma split_solid s : ∀ word rest,
  solid s = true → split_words word (s +:+ rest) = split_words (string_rev s word) rest.
Proof.
  induction s as [|c s IH]; intros word rest Hs; [done|]. rewrite string_app_cons. cbn [split_words string_rev].
  cbn in Hs. apply andb_true_iff in Hs as [Hc Hs]. apply negb_true_iff in Hc. rewrite Hc. by apply IH.
Qed.

Lemma solid_rev_nonempty s : s ≠ "" → string_rev s "" ≠ "".
Proof. intros Hs H. apply Hs. by rewrite <- (string_rev_involutive s), H. Qed.

(** The first word of a line, and the words after it. *)
Lemma split_first_word s rest :
  solid s = true → s ≠ "" → split_whitespace (s +:+ " " +:+ rest) = s :: split_whitespace rest.
Proof.
  intros Hs Hne. unfold split_whitespace. rewrite split_solid by done.
  rewrite string_app_cons. cbn [split_words]. change (is_whitespace " ") with true. cbn iota.
  rewrite decide_False by (by apply solid_rev_nonempty). cbn. by rewrite string_rev_involutive.
Qed.

Lemma split_one_word s : solid s = true → s ≠ "" → split_whitespace s = [s].
Proof.
  intros Hs Hne. unfold split_whitespace. rewrite <- (string_app_nil s) at 1. rewrite split_solid by done.
  cbn [split_words]. rewrite decide_False by (by apply solid_rev_nonempty). by rewrite string_rev_involutive.
Qed.

Lemma split_once_solid s rest :
  solid s = true → split_once_space (s +:+ " " +:+ rest) = (s, Some rest).
Proof.
  induction s as [|c s IH]; intros Hs; [done|]. rewrite string_app_cons. cbn [split_once_space].
  cbn in Hs. apply andb_true_iff in Hs as [Hc Hs].
  destruct (Ascii.eqb_spec c " ") as [->|]; [done|]. by rewrite IH.
Qed.

(** A text ending in a solid character is not trimmed at its end. *)
Lemma trim_end_snoc s c : is_whitespace c = false → trim_end (s +:+ char_string c) = s +:+ char_string c.
Proof.
  intros Hc. unfold trim_end. rewrite string_rev_concat. cbn [string_rev char_string]. rewrite string_app_cons.
  cbn [trim_start]. rewrite Hc. change (String.String c ("" +:+ string_rev s "")) with (char_string c +:+ string_rev s "").
  rewrite string_rev_concat, string_rev_involutive. done.
Qed.

Lemma string_snoc s : s ≠ "" → ∃ s' c, s = s' +:+ char_string c.
Proof.
  induction s as [|c s IH]; [done|]. intros _. destruct (decide (s = "")) as [->|Hs]; [by exists "", c|].
  destruct (IH Hs) as (s' & d & ->). by exists (String.String c s'), d.
Qed.

Lemma trimmed_last s : trim_end s = s → s ≠ "" → ∃ s' c, s = s' +:+ char_string c ∧ is_whitespace c = false.
Proof.
  intros Ht Hs. destruct (string_snoc s Hs) as (s' & c & ->). exists s', c. split; [done|].
  destruct (is_whitespace c) eqn:Hc; [|done]. exfalso. unfold trim_end in Ht.
  rewrite string_rev_concat in Ht. cbn [string_rev char_string] in Ht. rewrite string_app_cons in Ht.
  cbn [trim_start] in Ht. rewrite Hc in Ht. apply (f_equal String.length) in Ht.
  assert (∀ s acc, String.length (string_rev s acc) = String.length s + String.length acc) as Hrev.
  { clear. induction s as [|c s IH]; intros acc; [done|]. cbn. rewrite IH. cbn. lia. }
  assert (∀ s, (String.length (trim_start s) ≤ String.length s)%nat) as Htrim.
  { clear. induction s as [|c s IH]; [done|]. cbn. destruct (is_whitespace c); cbn; lia. }
  rewrite Hrev, length_string_app in Ht. cbn in Ht. specialize (Htrim ("" +:+ string_rev s' "")).
  change ("" +:+ string_rev s' "") with (string_rev s' "") in *. rewrite Hrev in Htrim. cbn in Htrim. lia.
Qed.

Lemma trim_prefixed c a s :
  is_whitespace c = false → trim_end s = s → s ≠ "" → trim (String.String c a +:+ s) = String.String c a +:+ s.
Proof.
  intros Hc Ht Hs. destruct (trimmed_last s Ht Hs) as (s' & d & -> & Hd). unfold trim.
  assert (trim_start (String.String c a +:+ (s' +:+ char_string d)) = String.String c a +:+ (s' +:+ char_string d)) as ->.
  { rewrite string_app_cons. cbn [trim_start]. by rewrite Hc. }
  rewrite string_app_assoc. by apply trim_end_snoc.
Qed.

Lemma solid_trimmed s : solid s = true → s ≠ "" → trim_end s = s.
Proof.
  intros Hs Hne. destruct (string_snoc s Hne) as (s' & c & ->). apply trim_end_snoc.
  unfold solid in Hs. rewrite all_bytes_app in Hs. apply andb_true_iff in Hs as [_ Hc]. cbn in Hc.
  rewrite andb_true_r in Hc. by apply negb_true_iff.
Qed.

Lemma valid_name_solid n : is_valid_name n = true → solid n = true ∧ n ≠ "".
Proof.
  unfold is_valid_name. destruct (_ || _) eqn:E; [done|]. intros H. split.
  - clear E. induction n as [|c n IH]; [done|]. cbn in *. apply andb_true_iff in H as [Hc H].
    rewrite IH, andb_true_r by done. apply negb_true_iff.
    unfold name_byte in Hc. unfold is_whitespace. destruct (N_of_ascii c) as [|p]; [done|].
    apply not_true_iff_false. intros Hw.
    rewrite !orb_true_iff, !andb_true_iff, !N.leb_le, !N.eqb_eq in *. lia.
  - intros ->. done.
Qed.

(** ** The file commands *)

(** Entering [line] at the prompt. *)
Definition enter (line : string) : shell unit := modify (set_input line) ;; evaluate_command.

Definition prompt_of (w : World) : output := Vga (user_name (session w) +:+ prompt_suffix (session w) +:+ " ").

(** Entering a trimmed line runs its command between the bookkeeping of the line
    editor and the prompt. *)
Lemma enter_run line command rest w out w' :
  trim line = line → split_whitespace line = command :: rest → history_wf (history w) →
  (∀ h, history_wf h → ∃ h', history_wf h' ∧ run_command command line (set_history h (set_input "" w)) =
     Ret (tt, out, set_history h' w')) →
  session w' = session w →
  ∃ h, history_wf h ∧ enter line w = Ret (tt, (out ++ [prompt_of w])%list, set_history h w').
Proof.
  intros Ht Hs Hh Hrun Hses. destruct (record_spec line (history w) Hh) as (h & Hr & Hhw & _).
  destruct (Hrun h Hhw) as (h' & Hh' & Hcmd). exists h'. split; [done|].
  assert (line ≠ "") as Hne by (intros ->; discriminate Hs).
  unfold enter. refine (bind_run _ _ _ tt [] _ tt _ _ eq_refl _).
  rewrite (evaluate_line (set_input line w) line h Ht Hne Hr), Hs.
  refine (bind_run _ _ _ tt out _ tt _ _ Hcmd _).
  unfold prompt_of. by rewrite <- Hses.
Qed.

Lemma create_ok n fs :
  files_wf fs → is_valid_name n = true → view fs !! n = None → length fs < 64 →
  ∃ fs', create_file n fs = (Ok tt, fs') ∧ files_wf fs' ∧ view fs' = <[n := ""]> (view fs).
Proof.
  intros Hf Hv Hn Hl. destruct (create_implements n fs Hf) as (r & fs' & Hx & Hs & Hf').
  cbn [fs_exec spec_exec] in Hx, Hs. rewrite Hv, Hn, view_size, (proj2 (Nat.leb_gt MAX_FILES _)) in Hs by (done || apply Hf).
  cbn [negb] in Hs. simplify_eq. destruct (create_file n fs) as [[[]|e] l]; cbn in Hx; simplify_eq. by eexists.
Qed.

Lemma write_ok n c fs c0 :
  files_wf fs → String.length c ≤ 2048 → view fs !! n = Some c0 →
  ∃ fs', write_file n c fs = (Ok tt, fs') ∧ files_wf fs' ∧ view fs' = <[n := c]> (view fs).
Proof.
  intros Hf Hc Hn. destruct (write_implements n c fs Hf) as (r & fs' & Hx & Hs & Hf').
  cbn [fs_exec spec_exec] in Hx, Hs. rewrite Hn, (proj2 (Nat.ltb_ge MAX_FILE_SIZE _)) in Hs by done.
  simplify_eq. destruct (write_file n c fs) as [[[]|e] l]; cbn in Hx; simplify_eq. by eexists.
Qed.

Section Roundtrip.
Context (n text : string).
Context (Hvalid : is_valid_name n = true).
Context (Htext : trimmed text) (Hne : text ≠ "") (Hlen : String.length text ≤ 2048).

Lemma name_solid : solid n = true ∧ n ≠ "".
Proof. by apply valid_name_solid. Qed.

Lemma enter_touch w fs' :
  history_wf (history w) → create_file n (files w) = (Ok tt, fs') →
  ∃ h, history_wf h ∧
    enter ("touch " +:+ n) w = Ret (tt, [println ("Created: " +:+ n); prompt_of w], set_history h (set_files fs' (set_input "" w))).
Proof.
  intros Hh Hc. destruct name_solid as [Hs Hn].
  apply (enter_run _ "touch" [n] _ [println ("Created: " +:+ n)]); [| |done| |done].
  - by apply (trim_prefixed "t" "ouch "); [|apply solid_trimmed|].
  - change ("touch " +:+ n) with ("touch" +:+ " " +:+ n). by rewrite split_first_word, split_one_word.
  - intros h Hhw. exists h. split; [done|].
    change (command_touch ("touch" +:+ " " +:+ n) (set_history h (set_input "" w)) =
            Ret (tt, [println ("Created: " +:+ n)], set_history h (set_files fs' (set_input "" w)))).
    unfold command_touch. rewrite split_first_word, split_one_word by done. cbn [lookup list_lookup].
    unfold on_files, mbind, shell_bind, get, modify, mret, shell_ret. cbn [set_history set_input files]. by rewrite Hc.
Qed.

Lemma enter_write w fs' :
  history_wf (history w) → write_file n text (files w) = (Ok tt, fs') →
  ∃ h, history_wf h ∧
    enter ("write " +:+ n +:+ " " +:+ text) w =
      Ret (tt, [println ("Written: " +:+ n); prompt_of w], set_history h (set_files fs' (set_input "" w))).
Proof.
  intros Hh Hc. destruct name_solid as [Hs Hn]. set (line := "write " +:+ n +:+ " " +:+ text).
  apply (enter_run _ "write" (split_whitespace (n +:+ " " +:+ text)) _ [println ("Written: " +:+ n)]); [| |done| |done].
  - unfold line. replace ("write " +:+ n +:+ " " +:+ text) with (("write " +:+ n +:+ " ") +:+ text)
      by by rewrite <- !string_app_assoc.
    by apply (trim_prefixed "w" ("rite " +:+ n +:+ " ")); [|apply Htext|].
  - unfold line. change ("write " +:+ n +:+ " " +:+ text) with ("write" +:+ " " +:+ (n +:+ " " +:+ text)).
    by rewrite split_first_word.
  - intros h Hhw. exists h. split; [done|].
    change (command_write line (set_history h (set_input "" w)) =
            Ret (tt, [println ("Written: " +:+ n)], set_history h (set_files fs' (set_input "" w)))).
    unfold command_write. assert (splitn_space 3 line = ["write"; n; text]) as ->.
    { unfold line. change ("write " +:+ n +:+ " " +:+ text) with ("write" +:+ " " +:+ (n +:+ " " +:+ text)).
      cbn [splitn_space]. rewrite split_once_solid by done. by rewrite split_once_solid. }
    cbn [lookup list_lookup]. destruct n as [|c n'] eqn:En; [done|]. rewrite <- En in *. rewrite (proj1 Htext).
    unfold on_files, mbind, shell_bind, get, modify, mret, shell_ret. cbn [set_history set_input files]. by rewrite Hc.
Qed.

Lemma enter_cat w :
  history_wf (history w) → read_file n (files w) = Ok text →
  ∃ h, history_wf h ∧ enter ("cat " +:+ n) w = Ret (tt, [println text; prompt_of w], set_history h (set_input "" w)).
Proof.
  intros Hh Hc. destruct name_solid as [Hs Hn].
  apply (enter_run _ "cat" [n] _ [println text]); [| |done| |done].
  - by apply (trim_prefixed "c" "at "); [|apply solid_trimmed|].
  - change ("cat " +:+ n) with ("cat" +:+ " " +:+ n). by rewrite split_first_word, split_one_word.
  - intros h Hhw. exists h. split; [done|].
    change (command_cat ("cat" +:+ " " +:+ n) (set_history h (set_input "" w)) =
            Ret (tt, [println text], set_history h (set_input "" w))).
    unfold command_cat. rewrite split_first_word, split_one_word by done. cbn [lookup list_lookup].
    unfold mbind, shell_bind, get. cbn [set_history set_input files]. by rewrite Hc.
Qed.

End Roundtrip.

(** C34. Through the command line, what is written to a file is what is shown:
    with a valid name not yet in use, room in the table and a text of at most
    2048 bytes without white space at its ends, [touch], [write] and [cat]
    report success and print exactly the text. *)
Theorem file_commands_roundtrip w n text :
  history_wf (history w) → files_wf (files w) → length (files w) < 64 →
  is_valid_name n = true → n ∉ (f_name <$> files w) →
  trimmed text → text ≠ "" → String.length text ≤ 2048 →
  ∃ w', (enter ("touch " +:+ n) ;; enter ("write " +:+ n +:+ " " +:+ text) ;; enter ("cat " +:+ n)) w =
    Ret (tt, [println ("Created: " +:+ n); prompt_of w; println ("Written: " +:+ n); prompt_of w;
              println text; prompt_of w], w').
Proof.
  intros Hh Hf Hl Hv Hn Ht Hne Hlen.
  destruct (create_ok n (files w)) as (f1 & Hc & Hf1 & Hv1); [done|done|by apply view_absent|done|].
  destruct (write_ok n text f1 "") as (f2 & Hw & Hf2 & Hv2); [done|done|by rewrite Hv1, lookup_insert_eq|].
  destruct (enter_touch n Hv w f1 Hh Hc) as (h1 & Hh1 & H1). set (w1 := set_history h1 _) in H1.
  destruct (enter_write n text Hv Ht Hne w1 f2 Hh1 Hw) as (h2 & Hh2 & H2). set (w2 := set_history h2 _) in H2.
  destruct (enter_cat n text Hv w2 Hh2) as (h3 & Hh3 & H3).
  { cbn. rewrite read_view by apply Hf2. by rewrite Hv2, lookup_insert_eq. }
  eexists. refine (bind_run _ _ _ tt [_; _] _ tt [_; _; _; _] _ H1 _).
  by refine (bind_run _ _ _ tt [_; _] _ tt [_; _] _ H2 _).
Qed.

Lemma file_commands_roundtrip_witness :
  ∃ w', (enter ("touch " +:+ "notes.txt") ;; enter ("write " +:+ "notes.txt" +:+ " " +:+ "hello  world") ;;
         enter ("cat " +:+ "notes.txt")) (boot_world demo_scheduler) =
    Ret (tt, [println "Created: notes.txt"; Vga "enos# "; println "Written: notes.txt"; Vga "enos# ";
              println "hello  world"; Vga "enos# "], w').
Proof.
  apply (file_commands_roundtrip (boot_world demo_scheduler) "notes.txt" "hello  world").
  - apply new_history_wf.
  - apply empty_wf.
  - cbn. lia.
  - reflexivity.
  - cbn. set_solver.
  - split; reflexivity.
  - discriminate.
  - cbn. lia.
Defined.
