(* ===== verification/Display.v ===== *)
(** * The shell on the screen

    What the kernel prints, given to the text screen of [src/vga_buffer.rs]: the
    [print!] and [println!] calls of [src/shell.rs] end in [Writer::write_string],
    so everything a user sees of the shell is the composition of the two.  A macro
    call may write its text in several pieces; the buffer and the final cursor are
    those of the whole text. *)

From S2P Require Import Prelude Machine Task TaskProps Scheduler Fs Devices Input InputProps Vga VgaProps Text Shell ShellProps.

(** ** Rendering *)

(** Serial output leaves the screen alone. *)
Definition render_one (o : output) (w : Writer) : outcome (Writer * list port_write) :=
  match o with
  | Vga s => write_string (bytes_of_string s) w
  | ClearScreen => clear_screen w
  | Serial _ => Ret (w, [])
  end.

Fixpoint render (out : list output) (w : Writer) : outcome (Writer * list port_write) :=
  match out with
  | [] => Ret (w, [])
  | o :: out =>
    '(w, p) ← render_one o w;
    '(w, ps) ← render out w;
    Ret (w, p ++ ps)
  end.

(** The same on the terminal. *)
Definition terminal_one (t : Terminal) (o : output) : Terminal :=
  match o with
  | Vga s => term_text (bytes_of_string s) t
  | ClearScreen => blank_terminal
  | Serial _ => t
  end.

Definition terminal_of (out : list output) (t : Terminal) : Terminal := foldl terminal_one t out.

(** The screen shows the terminal, with the hardware cursor behind the last
    character. *)
Definition displays (w : Writer) (c : crtc) (t : Terminal) : Prop :=
  shows w t ∧ cursor_position [] c = (1920 + Z.of_nat (length (line t)))%Z.

Definition crtc_run (ps : list port_write) (c : crtc) : crtc := foldl (λ c p, crtc_write p c) c ps.

Lemma cursor_run ps c : cursor_position [] (crtc_run ps c) = cursor_position ps c.
Proof. done. Qed.

Lemma update_displays w c t : shows w t → displays w (crtc_run (update_cursor w) c) t.
Proof.
  intros Hs. split; [done|]. destruct Hs as (_ & Hcol & Hlen & _). unfold BUFFER_WIDTH in Hlen.
  rewrite cursor_run, update_cursor_position by lia. by rewrite Hcol.
Qed.

Lemma render_one_displays o w c t :
  displays w c t → ∃ w' ps, render_one o w = Ret (w', ps) ∧ displays w' (crtc_run ps c) (terminal_one t o).
Proof.
  intros [Hs Hc]. destruct o as [s| |s]; cbn [render_one terminal_one].
  - destruct (text_shows (bytes_of_string s) w t Hs) as (w' & Hw & Hs' & _). unfold write_string. rewrite Hw.
    do 2 eexists. split; [reflexivity|]. by apply update_displays.
  - destruct (clear_screen_shows w (shows_sized _ _ Hs)) as (w' & Hw & Hs' & _). rewrite Hw.
    do 2 eexists. split; [reflexivity|]. by apply update_displays.
  - by exists w, [].
Qed.

(** Whatever is printed, the screen follows the terminal and nothing panics. *)
Lemma render_displays out : ∀ w c t,
  displays w c t → ∃ w' ps, render out w = Ret (w', ps) ∧ displays w' (crtc_run ps c) (terminal_of out t).
Proof.
  induction out as [|o out IH]; intros w c t Hd; [by exists w, []|].
  destruct (render_one_displays o w c t Hd) as (w1 & p & H1 & Hd1).
  destruct (IH w1 _ _ Hd1) as (w2 & ps & H2 & Hd2). exists w2, (p ++ ps). split.
  - cbn [render]. rewrite H1, bind_Ret. cbv beta iota. by rewrite H2.
  - unfold crtc_run in *. by rewrite foldl_app.
Qed.

(** ** What the shell prints *)

Lemma terminal_app out1 out2 t : terminal_of (out1 ++ out2) t = terminal_of out2 (terminal_of out1 t).
Proof. apply foldl_app. Qed.

Lemma bytes_app a b : bytes_of_string (a +:+ b) = bytes_of_string a ++ bytes_of_string b.
Proof.
  unfold bytes_of_string. rewrite <- fmap_app. f_equal.
  induction a as [|c a IH]; [done|]. rewrite string_app_cons. cbn. by rewrite IH.
Qed.

(** A computation that starts and ends at the left margin. *)
Definition whole_lines {A} (m : shell A) : Prop :=
  ∀ w a out w', m w = Ret (a, out, w') → ∀ t, line t = [] → line (terminal_of out t) = [].

Lemma whole_lines_bind {A B} (m : shell A) (f : A → shell B) :
  whole_lines m → (∀ a, whole_lines (f a)) → whole_lines (m ≫= f).
Proof.
  intros Hm Hf w b out w' H t Ht. unfold mbind, shell_bind in H.
  destruct (m w) as [[[a o1] w1]| |] eqn:E1; [|done..].
  destruct (f a w1) as [[[b' o2] w2]| |] eqn:E2; [|done..]. simplify_eq.
  rewrite terminal_app. eapply Hf; [exact E2|]. by eapply Hm.
Qed.

(** Nothing printed. *)
Definition silent {A} (m : shell A) : Prop := ∀ w a out w', m w = Ret (a, out, w') → out = [].

Lemma silent_whole_lines {A} (m : shell A) : silent m → whole_lines m.
Proof. intros Hm w a out w' H t Ht. by rewrite (Hm _ _ _ _ H). Qed.

Lemma silent_ret {A} (a : A) : silent (mret a).
Proof. intros w b out w' H. cbv in H. by simplify_eq. Qed.
Lemma silent_skip : silent skip.
Proof. apply silent_ret. Qed.
Lemma silent_get {A} (f : World → A) : silent (get f).
Proof. intros w b out w' H. cbv in H. by simplify_eq. Qed.
Lemma silent_modify f : silent (modify f).
Proof. intros w b out w' H. cbv in H. by simplify_eq. Qed.
Lemma silent_lift {A} (m : outcome A) : silent (lift m).
Proof. intros w b out w' H. unfold lift in H. destruct m; cbn in H; by simplify_eq. Qed.

Lemma silent_bind {A B} (m : shell A) (f : A → shell B) : silent m → (∀ a, silent (f a)) → silent (m ≫= f).
Proof.
  intros Hm Hf w b out w' H. unfold mbind, shell_bind in H.
  destruct (m w) as [[[a o1] w1]| |] eqn:E1; [|done..].
  destruct (f a w1) as [[[b' o2] w2]| |] eqn:E2; [|done..]. simplify_eq.
  by rewrite (Hm _ _ _ _ E1), (Hf _ _ _ _ _ E2).
Qed.

Lemma silent_on_files {A} (f : list FileEntry → A * list FileEntry) : silent (on_files f).
Proof.
  apply silent_bind; [apply silent_get|]. intros l. destruct (f l) as [a l'].
  apply silent_bind; [apply silent_modify|]. intros. apply silent_ret.
Qed.

Lemma silent_kill_task pid : silent (kill_task pid).
Proof.
  apply silent_bind; [apply silent_get|]. intros tm. apply silent_bind; [apply silent_lift|]. intros [r tm'].
  apply silent_bind; [apply silent_modify|]. intros. apply silent_ret.
Qed.

Lemma whole_lines_say s : whole_lines (say s).
Proof.
  intros w a out w' H t _. cbv [say emit] in H. simplify_eq. unfold terminal_of. cbn [foldl terminal_one println].
  rewrite bytes_app, term_text_app. done.
Qed.

Lemma whole_lines_clear : whole_lines (emit ClearScreen).
Proof. intros w a out w' H t _. cbv [emit] in H. by simplify_eq. Qed.

Lemma whole_lines_for_all {A} (l : list A) body : (∀ x, whole_lines (body x)) → whole_lines (for_all l body).
Proof.
  intros Hb. induction l as [|x l IH]; [apply silent_whole_lines, silent_ret|]. by apply whole_lines_bind.
Qed.

#[export] Hint Resolve silent_whole_lines silent_ret silent_skip silent_get silent_modify silent_lift silent_on_files
  silent_kill_task whole_lines_say whole_lines_clear : screen.

Ltac whole_lines_steps :=
  repeat first
    [ solve [auto with screen]
    | apply whole_lines_bind; [|intros ?]
    | apply whole_lines_for_all; intros ?
    | case_match ].

Lemma whole_lines_run_command command cl : whole_lines (run_command command cl).
Proof.
  unfold run_command, command_echo, command_calc, show_help, command_uptime, command_top, command_tasks,
    command_ps, command_meminfo, command_whoami, command_id, command_login, command_logout, command_kill,
    command_touch, command_rm, command_ls, command_write, command_cat, command_fsinfo, command_about,
    command_ps, require_root, switch_user.
  repeat (case_decide; [solve [whole_lines_steps]|]). whole_lines_steps.
Qed.

(** ** Typing a line *)

Definition bytes_of (l : list ascii) : list Z := byte_of <$> l.

Lemma printable_bytes l : Forall (λ c, printable c = true) l → Forall printable_byte (bytes_of l).
Proof.
  intros H. apply Forall_fmap. eapply Forall_impl; [exact H|]. intros c Hc.
  unfold compose, printable_byte, byte_of. unfold printable in Hc. apply andb_true_iff in Hc as [H1%N.leb_le H2%N.leb_le]. lia.
Qed.

Lemma terminal_echo l t : terminal_of (echo l) t = term_text (bytes_of l) t.
Proof.
  revert t. induction l as [|c l IH]; intros t; [done|].
  unfold terminal_of, echo in *. cbn [fmap list_fmap foldl]. rewrite IH. done.
Qed.

(** The echo of a line that fits completes the row it is typed in. *)
Lemma terminal_typed l t :
  Forall (λ c, printable c = true) l → length (line t) + length l ≤ 80 →
  terminal_of (echo l ++ [Vga newline]) t = mkTerminal (done t ++ [line t ++ bytes_of l]) [].
Proof.
  intros Hl Hlen. rewrite terminal_app, terminal_echo.
  rewrite term_line by (by apply printable_bytes || by (unfold bytes_of; rewrite length_fmap)). done.
Qed.

Definition prompt (u : SessionUser) : string := user_name u +:+ prompt_suffix u +:+ " ".

Lemma print_prompt_run w : print_prompt w = Ret (tt, [Vga (prompt (session w))], w).
Proof. done. Qed.

Lemma terminal_prompt u t :
  line t = [] → line (terminal_one t (Vga (prompt u))) = bytes_of_string (prompt u).
Proof.
  intros Ht. cbn [terminal_one]. rewrite term_line; rewrite ?Ht; [done| |destruct u; vm_compute; lia].
  apply printable_bytes. destruct u; by repeat constructor.
Qed.

(** The shell waits for a line: nothing typed or queued, and the prompt of the
    session at the bottom of the screen. *)
Record at_prompt (w : World) (screen : Writer) (c : crtc) (t : Terminal) : Prop := {
  ap_wf : world_wf (runs_as (scheduler w)) w;
  ap_keyboard : keyboard w = idle_keyboard;
  ap_queue : contents (queue w) = [];
  ap_input : input_buffer w = "";
  ap_screen : displays screen c t;
  ap_line : line t = bytes_of_string (prompt (session w));
}.

(** Evaluating a line prints whole lines, then the prompt. *)
Lemma evaluate_output w out w' :
  evaluate_command w = Ret (tt, out, w') →
  ∀ t, line t = [] → line (terminal_of out t) = bytes_of_string (prompt (session w')).
Proof.
  intros H t Ht. destruct (decide (trim (input_buffer w) = "")) as [E|E].
  { rewrite evaluate_empty in H by done. simplify_eq. by apply terminal_prompt. }
  destruct (record (trim (input_buffer w)) (history w)) as [h| |] eqn:Hr.
  - rewrite (evaluate_line w _ h eq_refl E Hr) in H. unfold mbind, shell_bind in H.
    destruct (run_command _ _ _) as [[[[] o] w1]| |] eqn:Hrun; [|done..].
    rewrite print_prompt_run in H. simplify_eq. rewrite terminal_app. apply terminal_prompt.
    by eapply whole_lines_run_command.
  - unfold evaluate_command, mbind, shell_bind, get, modify, lift in H. rewrite decide_False in H by done.
    cbn [set_input history] in H. by rewrite Hr in H.
  - unfold evaluate_command, mbind, shell_bind, get, modify, lift in H. rewrite decide_False in H by done.
    cbn [set_input history] in H. by rewrite Hr in H.
Qed.

(** The key presses of a line and the enter key, and a poll. *)
Definition type_line (l : list ascii) : shell unit :=
  for_all (l ≫= type_char) keyboard_irq ;; keyboard_irq enter_code ;; poll_input.

(** C18. what is typed is what is run and what is shown.  At the prompt, the key
    presses and releases of a printable text that fits the row and of the enter key,
    delivered by the keyboard interrupt and then polled, do exactly what entering
    that line does; the screen then shows the prompt with the typed text as a
    completed row, below what it showed before, followed by what the command
    printed, and the prompt again at the bottom with the cursor behind it, ready for
    the next line. *)
Theorem typed_line_on_screen w screen c t l :
  at_prompt w screen c t → l ≠ [] → Forall (λ ch, printable ch = true) l →
  length (l ≫= type_char) < 128 → length l ≤ 73 →
  ∃ q out w' all screen' ps,
    evaluate_command (set_queue q (set_input (String.string_of_list_ascii l)
      (set_history (reset_navigation (history w)) w))) = Ret (tt, out, w') ∧
    type_line l w = Ret (tt, all, w') ∧ render all screen = Ret (screen', ps) ∧
    at_prompt w' screen' (crtc_run ps c)
      (terminal_of out (mkTerminal (done t ++ [bytes_of_string (prompt (session w)) ++ bytes_of l]) [])).
Proof.
  intros [Hw Hk Hq Hi Hscr Hline] Hne Hp Hcodes Hlen.
  destruct (typed_line_runs w l Hw Hk Hq Hi Hne Hp Hcodes) as (q & out & w' & Hqw & Hqc & He & Hrun); [lia|].
  destruct (render_displays (echo l ++ Vga newline :: out) screen c t Hscr) as (screen' & ps & Hren & Hd).
  exists q, out, w', (echo l ++ Vga newline :: out)%list, screen', ps.
  split; [done|]. split; [done|]. split; [done|].
  assert (length (line t) + length l ≤ 80) as Hfit.
  { rewrite Hline. assert (length (bytes_of_string (prompt (session w))) ≤ 7) by (destruct (session w); vm_compute; lia). lia. }
  assert (terminal_of (echo l ++ Vga newline :: out) t =
    terminal_of out (mkTerminal (done t ++ [bytes_of_string (prompt (session w)) ++ bytes_of l]) [])) as Hterm.
  { change (Vga newline :: out) with ([Vga newline] ++ out). rewrite app_assoc, terminal_app, terminal_typed by done.
    by rewrite Hline. }
  rewrite Hterm in Hd. destruct (same_input_evaluate _ _ _ _ He) as (Hq' & Hk' & Hi').
  assert (world_wf (runs_as (scheduler w)) (set_queue q (set_input (String.string_of_list_ascii l)
    (set_history (reset_navigation (history w)) w)))) as Hw1.
  { apply set_queue_wf; [|done]. apply set_input_wf; [by apply set_reset_wf|by apply printable_of_list|].
    rewrite length_of_list. unfold MAX_INPUT_LEN. lia. }
  destruct (safe_evaluate_command _ _ Hw1) as ([] & out1 & w1 & He1 & Hw').
  rewrite He in He1. simplify_eq. split.
  - assert (runs_as (scheduler w1) = runs_as (scheduler w)) as -> by apply Hw'. done.
  - by rewrite Hk'.
  - by rewrite Hq'.
  - done.
  - done.
  - by eapply evaluate_output.
Qed.

(** [shell::init] leaves the shell at its prompt. *)
Lemma init_at_prompt w screen c t :
  world_wf (runs_as (scheduler w)) w → keyboard w = idle_keyboard → contents (queue w) = [] → input_buffer w = "" →
  displays screen c t → line t = [] →
  ∃ out screen' ps, Shell.init w = Ret (tt, out, w) ∧ render out screen = Ret (screen', ps) ∧
    at_prompt w screen' (crtc_run ps c) (terminal_of out t).
Proof.
  intros Hw Hk Hq Hi Hd Ht. eexists _.
  destruct (render_displays [println "ENOS shell ready. Type `help` for commands."; Vga (prompt (session w))] screen c t Hd)
    as (screen' & ps & Hr & Hd').
  exists screen', ps. split; [reflexivity|]. split; [exact Hr|]. split; try done.
  unfold terminal_of. cbn [foldl]. apply terminal_prompt.
  exact (whole_lines_say "ENOS shell ready. Type `help` for commands." w tt _ w eq_refl t Ht).
Qed.

(** Text left on the screen, the shell started on it, and the command [id]. *)
Lemma typed_line_on_screen_witness :
  ∃ screen c t all w' screen' ps t',
    at_prompt (boot_world demo_scheduler) screen c t ∧
    type_line ["i"%char; "d"%char] (boot_world demo_scheduler) = Ret (tt, all, w') ∧
    render all screen = Ret (screen', ps) ∧ at_prompt w' screen' (crtc_run ps c) t' ∧
    done t' = bytes_of_string <$> ["ENOS shell ready. Type `help` for commands."; "enos# id";
                                   "uid=0(enos) gid=0(enos) role=root"].
Proof.
  destruct (clear_screen_shows (WRITER (replicate 25 (replicate 80 (mkChar 0 0))))) as (w0 & _ & Hs & _).
  { split; [done|]. by repeat constructor. }
  destruct (init_at_prompt (boot_world demo_scheduler) w0 (crtc_run (update_cursor w0) (mkCrtc 0 0 0)) blank_terminal)
    as (out0 & screen & ps0 & Hinit & _ & Hat);
    [apply boot_world_wf; apply demo_scheduler_wf|reflexivity..|by apply update_displays|reflexivity|].
  destruct (typed_line_on_screen _ _ _ _ ["i"%char; "d"%char] Hat) as (q & out & w' & all & screen' & ps & He & Hrun & Hren & Hat').
  - discriminate.
  - by repeat constructor.
  - vm_compute. lia.
  - cbn. lia.
  - eexists screen, _, _, all, w', screen', ps, _. split; [exact Hat|]. split; [exact Hrun|]. split; [exact Hren|].
    split; [exact Hat'|]. cbn in Hinit. injection Hinit as <-. cbn in He. injection He as <- <-. vm_compute. reflexivity.
Defined.
