(* ===== verification/Console.v ===== *)
(** * Output while the kernel boots: [src/vga_buffer.rs], [src/serial.rs]

    What [print!] and [serial_print!] do to the devices when [kernel_main] runs them:
    the text screen as the firmware left it, the hardware cursor, and the serial
    port, which [SERIAL1] initializes when it is first used.  A text is written in
    one piece: [write_fmt] may pass the pieces of a formatted text to [write_str] one
    by one, and the cursor is then also moved after each of them; the moves in
    between are overwritten by the last. *)

From S2P Require Import Prelude Machine Devices Vga VgaProps Display.

(** ** The console *)

(** Whatever characters the firmware left at 0xb8000. *)
Definition buffer_of (cells : nat → nat → ScreenChar) : Buffer :=
  (λ row, (λ col, cells row col) <$> seq 0 BUFFER_WIDTH) <$> seq 0 BUFFER_HEIGHT.

(** The [WRITER], and whether [SERIAL1] has been initialized. *)
Record Console := mkConsole { writer : Writer; serial_ready : bool }.

Definition SERIAL1_PORT : Z := 0x3F8.

(** One piece of output; a serial byte is written as soon as the transmitter is
    empty ([serial_writes]). *)
Definition emit_output (o : output) (con : Console) : outcome (Console * list port_write) :=
  match o with
  | Serial s =>
    Ret (mkConsole (writer con) true,
         (if serial_ready con then [] else SerialPort.init SERIAL1_PORT) ++
         (SerialPort.outb SERIAL1_PORT 0 <$> crlf (bytes_of_string s)))
  | _ =>
    '(w, ports) ← render_one o (writer con);
    Ret (mkConsole w (serial_ready con), ports)
  end.

Fixpoint emit_all (out : list output) (con : Console) : outcome (Console * list port_write) :=
  match out with
  | [] => Ret (con, [])
  | o :: out =>
    '(con, p) ← emit_output o con;
    '(con, ps) ← emit_all out con;
    Ret (con, p ++ ps)
  end.

(** The bytes of a serial text are those [write_str] sends, on a line that is
    never busy for [fuel] polls in a row. *)
Lemma serial_writes status fuel polls s :
  (∀ n, ∃ k, k < fuel ∧ SerialPort.is_transmit_empty (status (n + k)) = true) →
  ∃ polls', SerialPort.write_str fuel SERIAL1_PORT status polls (bytes_of_string s) =
    Ret (SerialPort.outb SERIAL1_PORT 0 <$> crlf (bytes_of_string s), polls').
Proof. intros H. apply (write_str_sends SERIAL1_PORT status fuel H). Qed.

(** ** The screen as the firmware left it *)

Lemma buffer_of_sized cells : sized (buffer_of cells).
Proof.
  split; [done|]. apply Forall_fmap, Forall_true. intros row. unfold compose. by rewrite length_fmap, length_seq.
Qed.

(** A writer over a buffer of the right size, its column inside the row. *)
Definition writable (w : Writer) : Prop := sized (buffer w) ∧ column_position w ≤ 80.

Lemma write_cell_sized row col c b :
  sized b → row < 25 → col < 80 → ∃ b', write_cell row col c b = Ret b' ∧ sized b'.
Proof.
  intros Hb Hrow Hcol. destruct (sized_row b row Hb Hrow) as (r & Hr & Hlen).
  eexists. split; [apply write_cell_eq; [exact Hr|lia]|]. destruct Hb as [Hl Hf]. split; [by rewrite length_insert|].
  apply Forall_insert; [done|]. by rewrite length_insert.
Qed.

Lemma new_line_writable w : sized (buffer w) → ∃ w', new_line w = Ret w' ∧ writable w' ∧ column_position w' = 0.
Proof.
  intros Hb. rewrite new_line_eq by done. destruct Hb as [Hl Hf]. unfold BUFFER_HEIGHT in Hl.
  eexists. split; [done|]. split; [|done]. split; [|cbn; lia]. split; cbn [buffer].
  - rewrite length_app, length_drop. unfold BUFFER_HEIGHT. cbn. lia.
  - apply Forall_app. split; [by apply Forall_drop|]. constructor; [by apply length_replicate|constructor].
Qed.

Lemma write_byte_writable byte w : writable w → ∃ w', write_byte byte w = Ret w' ∧ writable w'.
Proof.
  intros [Hs Hc]. unfold write_byte. case_bool.
  { destruct (new_line_writable w Hs) as (w' & -> & Hw & _). by exists w'. }
  assert (∃ w1, (if BUFFER_WIDTH <=? column_position w then new_line w else Ret w) = Ret w1 ∧
    sized (buffer w1) ∧ column_position w1 < 80) as (w1 & -> & Hs1 & Hc1).
  { unfold BUFFER_WIDTH. case_bool; [|exists w; split_and!; [done|done|lia]].
    destruct (new_line_writable w Hs) as (w1 & -> & [Hs1 _] & Hc1). exists w1. split_and!; [done|done|lia]. }
  cbn [mbind outcome_bind]. change (BUFFER_HEIGHT - 1) with 24.
  destruct (write_cell_sized 24 (column_position w1) (mkChar byte (color_code w1)) (buffer w1)) as (b & -> & Hb);
    [done|lia|done|].
  cbn [mbind outcome_bind]. eexists. split; [done|]. split; [exact Hb|]. cbn. lia.
Qed.

Lemma text_byte_writable byte w : writable w → ∃ w', write_text_byte byte w = Ret w' ∧ writable w'.
Proof.
  intros Hw. unfold write_text_byte. repeat case_match; [|by apply write_byte_writable..].
  unfold backspace. case_bool; [|by exists w]. destruct Hw as [Hs Hc].
  cbn [set_column column_position color_code buffer]. change (BUFFER_HEIGHT - 1) with 24.
  destruct (write_cell_sized 24 (column_position w - 1) (mkChar 32 (color_code w)) (buffer w)) as (b & -> & Hb);
    [done|lia|lia|].
  cbn [mbind outcome_bind]. eexists. split; [done|]. split; [exact Hb|]. cbn. lia.
Qed.

Lemma text_writable s : ∀ w, writable w →
  ∃ w', foldl (λ m byte, w ← m; write_text_byte byte w) (Ret w) s = Ret w' ∧ writable w'.
Proof.
  induction s as [|b s IH]; intros w Hw; [by exists w|]. cbn [foldl mbind outcome_bind].
  destruct (text_byte_writable b w Hw) as (w1 & -> & Hw1). by apply IH.
Qed.

(** ** What booting relies on *)

(** A write to none of the interrupt controllers' ports. *)
Definition off_pic (p : port_write) : Prop :=
  out_port p ≠ Pic.PIC1_CMD ∧ out_port p ≠ Pic.PIC1_DATA ∧ out_port p ≠ Pic.PIC2_CMD ∧ out_port p ≠ Pic.PIC2_DATA.

Lemma chips_ignore ws cs : Forall off_pic ws → Pic.chips_run ws cs = cs.
Proof.
  intros H. induction H as [|p ws (H1 & H2 & H3 & H4) _ IH]; [done|]. unfold Pic.chips_run in *. cbn [foldl].
  assert (Pic.chips_write p cs = cs) as ->; [|done]. unfold Pic.chips_write. destruct cs.
  by rewrite !(proj2 (Z.eqb_neq _ _)) by done.
Qed.

Lemma cursor_off_pic w : Forall off_pic (update_cursor w).
Proof. unfold update_cursor. repeat constructor; done. Qed.

Lemma emit_output_returns o con :
  writable (writer con) →
  ∃ con' ps, emit_output o con = Ret (con', ps) ∧ writable (writer con') ∧ Forall off_pic ps.
Proof.
  intros Hw. destruct o as [s| |s]; cbn [emit_output render_one].
  - destruct (text_writable (bytes_of_string s) _ Hw) as (w & H & Hw'). unfold write_string. rewrite H.
    cbn [mbind outcome_bind]. do 2 eexists. split; [done|]. split; [done|]. apply cursor_off_pic.
  - destruct (clear_screen_shows (writer con) (proj1 Hw)) as (w & -> & Hs & _).
    cbn [mbind outcome_bind]. do 2 eexists. split; [done|]. split; [|apply cursor_off_pic].
    split; [by eapply shows_sized|]. destruct Hs as (_ & Hc & _). cbn in *. lia.
  - do 2 eexists. split; [done|]. split; [done|]. apply Forall_app. split.
    + destruct (serial_ready con); [constructor|]. repeat constructor; done.
    + apply Forall_fmap, Forall_true. intros b. done.
Qed.

(** Whatever is printed, on whatever screen: it returns, and writes to no port of
    the interrupt controllers. *)
Lemma emit_all_returns out : ∀ con,
  writable (writer con) →
  ∃ con' ps, emit_all out con = Ret (con', ps) ∧ writable (writer con') ∧ Forall off_pic ps.
Proof.
  induction out as [|o out IH]; intros con Hw; [by exists con, []|]. cbn [emit_all].
  destruct (emit_output_returns o con Hw) as (con1 & p & -> & Hw1 & Hp). cbn [mbind outcome_bind].
  destruct (IH con1 Hw1) as (con2 & ps & -> & Hw2 & Hps). cbn [mbind outcome_bind].
  do 2 eexists. split; [done|]. split; [done|]. by apply Forall_app.
Qed.

(** The console at power on. *)
Definition initial_console (cells : nat → nat → ScreenChar) : Console := mkConsole (WRITER (buffer_of cells)) false.

Lemma initial_writable cells : writable (writer (initial_console cells)).
Proof. split; [apply buffer_of_sized|]. cbn. lia. Qed.
