(* ===== verification/Descriptors.v ===== *)
(** * Segments, the task state segment and interrupt gates: [src/gdt.rs],
    [src/idt.rs] and [init_idt] of [src/interrupts.rs]

    The packed structures are records; [bytes_of_*] lays them out as
    [#[repr(C, packed)]] does, and the processor's reading of those bytes (Intel
    SDM vol. 3, chapters 3, 6 and 8) is modelled beside them.  The addresses of
    heap boxes and of the handlers are parameters. *)

From S2P Require Import Prelude Machine.
Local Open Scope Z_scope.

(** ** The global descriptor table *)

Module Gdt.

Record GdtEntry := mkGdt {
  limit_low : Z; base_low : Z; base_middle : Z; access : Z; granularity : Z; base_high : Z;
}.

Definition empty : GdtEntry := mkGdt 0 0 0 0 0 0.

Definition new (base limit access gran : Z) : GdtEntry :=
  mkGdt (as_u16 (Z.land limit 0xFFFF)) (as_u16 (Z.land base 0xFFFF))
    (as_u8 (Z.land (Z.shiftr base 16) 0xFF)) access
    (Z.lor (as_u8 (Z.land (Z.shiftr limit 16) 0x0F)) (Z.land gran 0xF0))
    (as_u8 (Z.land (Z.shiftr base 24) 0xFF)).

Definition bytes_of_u16 (v : Z) : list Z := [v mod 256; v / 256 mod 256].

Definition bytes_of_entry (e : GdtEntry) : list Z :=
  bytes_of_u16 (limit_low e) ++ bytes_of_u16 (base_low e) ++
  [base_middle e; access e; granularity e; base_high e].

(** *** The task state segment *)

Record TaskStateSegment := mkTss {
  link : Z; res0 : Z; esp0 : Z; ss0 : Z; res1 : Z; esp1 : Z; ss1 : Z; res2 : Z; esp2 : Z; ss2 : Z; res3 : Z;
  cr3 : Z; eip : Z; eflags : Z; eax : Z; ecx : Z; edx : Z; ebx : Z; esp : Z; ebp : Z; esi : Z; edi : Z;
  es : Z; res4 : Z; cs : Z; res5 : Z; ss : Z; res6 : Z; ds : Z; res7 : Z; fs : Z; res8 : Z; gs : Z; res9 : Z;
  ldtr : Z; res10 : Z; iopb : Z; pad : Z;
}.

Definition TaskStateSegment_new : TaskStateSegment :=
  mkTss 0 0 0 0x10 0 0 0 0 0 0 0  0 0 0 0 0 0 0 0 0 0 0  0 0 0 0 0 0 0 0 0 0 0 0  0 0 104 0.

Definition set_esp0 (v : Z) (t : TaskStateSegment) : TaskStateSegment :=
  mkTss (link t) (res0 t) v (ss0 t) (res1 t) (esp1 t) (ss1 t) (res2 t) (esp2 t) (ss2 t) (res3 t)
    (cr3 t) (eip t) (eflags t) (eax t) (ecx t) (edx t) (ebx t) (esp t) (ebp t) (esi t) (edi t)
    (es t) (res4 t) (cs t) (res5 t) (ss t) (res6 t) (ds t) (res7 t) (fs t) (res8 t) (gs t) (res9 t)
    (ldtr t) (res10 t) (iopb t) (pad t).

(** The fields in declaration order, without padding. *)
Definition bytes_of_tss (t : TaskStateSegment) : list Z :=
  bytes_of_u16 (link t) ++ bytes_of_u16 (res0 t) ++
  bytes_of_u32 (esp0 t) ++ bytes_of_u16 (ss0 t) ++ bytes_of_u16 (res1 t) ++
  bytes_of_u32 (esp1 t) ++ bytes_of_u16 (ss1 t) ++ bytes_of_u16 (res2 t) ++
  bytes_of_u32 (esp2 t) ++ bytes_of_u16 (ss2 t) ++ bytes_of_u16 (res3 t) ++
  bytes_of_u32 (cr3 t) ++ bytes_of_u32 (eip t) ++ bytes_of_u32 (eflags t) ++
  bytes_of_u32 (eax t) ++ bytes_of_u32 (ecx t) ++ bytes_of_u32 (edx t) ++ bytes_of_u32 (ebx t) ++
  bytes_of_u32 (esp t) ++ bytes_of_u32 (ebp t) ++ bytes_of_u32 (esi t) ++ bytes_of_u32 (edi t) ++
  bytes_of_u16 (es t) ++ bytes_of_u16 (res4 t) ++ bytes_of_u16 (cs t) ++ bytes_of_u16 (res5 t) ++
  bytes_of_u16 (ss t) ++ bytes_of_u16 (res6 t) ++ bytes_of_u16 (ds t) ++ bytes_of_u16 (res7 t) ++
  bytes_of_u16 (fs t) ++ bytes_of_u16 (res8 t) ++ bytes_of_u16 (gs t) ++ bytes_of_u16 (res9 t) ++
  bytes_of_u16 (ldtr t) ++ bytes_of_u16 (res10 t) ++
  bytes_of_u16 (iopb t) ++ bytes_of_u16 (pad t).

(** [size_of::<TaskStateSegment>()]. *)
Definition size_of_tss : Z := Z.of_nat (length (bytes_of_tss TaskStateSegment_new)).

(** *** [gdt::init] *)

(** The registers [init] loads. *)
Record segment_state := mkSegs {
  gdt_limit : Z; gdt_base : Z;
  seg_cs : Z; seg_ds : Z; seg_es : Z; seg_fs : Z; seg_gs : Z; seg_ss : Z;
  task_register : Z;
}.

(** [format!("{:02x}", v)] and [format!("{:#x}", v)]; the latter up to the width
    of a [u32]. *)
Definition lower_digit (d : Z) : ascii :=
  if d <? 10 then ascii_of_N (Z.to_N (48 + d)) else ascii_of_N (Z.to_N (87 + d)).
Fixpoint lower_hex (n : nat) (v : Z) (rest : string) : string :=
  match n with
  | O => rest
  | S n =>
    let rest := String.String (lower_digit (v mod 16)) rest in
    if v <? 16 then rest else lower_hex n (v / 16) rest
  end.
Definition hex (v : Z) : string := "0x" +:+ lower_hex 8 v "".
Definition hex2 (v : Z) : string :=
  String.String (lower_digit (v / 16)) (String.String (lower_digit (v mod 16)) "").

Record Tables := mkTables { entries : list GdtEntry; tss : TaskStateSegment }.

Section Init.
(** The addresses of the boxed TSS and GDT. *)
Context (tss_base gdt_addr : Z).

Definition init : Tables * segment_state * list output :=
  let tss_box := TaskStateSegment_new in
  let es := replicate 6 empty in
  let es := <[1%nat := new 0 0xFFFFF 0x9A 0xCF]> es in
  let es := <[2%nat := new 0 0xFFFFF 0x92 0xCF]> es in
  let es := <[3%nat := new 0 0xFFFFF 0xFA 0xCF]> es in
  let es := <[4%nat := new 0 0xFFFFF 0xF2 0xCF]> es in
  let tss_limit := size_of_tss - 1 in
  let es := <[5%nat := new tss_base tss_limit 0x89 0x40]> es in
  let b := bytes_of_entry (default empty (es !! 2%nat)) in
  let dump := foldr (λ v s, " " +:+ hex2 v +:+ s) ""%string b in
  (mkTables es tss_box,
   mkSegs (as_u16 (6 * 8 - 1)) gdt_addr 0x08 0x10 0x10 0x10 0x10 0x10 0x28,
   [serial_println ("GDT[2] bytes:" +:+ dump);
    serial_println ("GDT base: " +:+ hex gdt_addr +:+ ", TSS base: " +:+ hex tss_base)]).

(** [set_interrupt_stack]: [tss_ptr] is null before [init], and [int_stack] is
    the address of the boxed stack. *)
Definition set_interrupt_stack (tss_ptr : option TaskStateSegment) (int_stack : Z) :
    outcome (TaskStateSegment * list output) :=
  match tss_ptr with
  | None => Panic "gdt::init() must be called before set_interrupt_stack()"
  | Some t =>
    top ← add_u32 int_stack 8192;
    Ret (set_esp0 top t,
         [serial_println ("GDT: TSS.esp0 set to " +:+ hex top +:+ " (Ring 0 interrupt stack top)")])
  end.

End Init.

(** *** The processor's view *)

Record descriptor := mkDesc { d_base : Z; d_limit : Z; d_access : Z; d_flags : Z }.

(** The descriptor in eight bytes of the table. *)
Definition decode (b : list Z) : option descriptor :=
  match b with
  | [b0; b1; b2; b3; b4; b5; b6; b7] =>
    Some (mkDesc (b2 + 256 * b3 + 65536 * b4 + 16777216 * b7) (b0 + 256 * b1 + 65536 * (b6 mod 16)) b5 (b6 / 16))
  | _ => None
  end.

(** The descriptor a selector names: index in bits 3 and up, within the limit. *)
Definition select (t : list GdtEntry) (limit selector : Z) : option descriptor :=
  let off := 8 * (selector / 8) in
  if off + 7 <=? limit then decode (take 8 (drop (Z.to_nat off) (t ≫= bytes_of_entry))) else None.

(** The effective limit: in pages when the granularity flag is set. *)
Definition effective_limit (d : descriptor) : Z :=
  if Z.testbit (d_flags d) 3 then d_limit d * 4096 + 4095 else d_limit d.
Definition present (d : descriptor) : bool := Z.testbit (d_access d) 7.
Definition dpl (d : descriptor) : Z := d_access d / 32 mod 4.
Definition is_code (d : descriptor) : bool := Z.testbit (d_access d) 4 && Z.testbit (d_access d) 3.
Definition is_data (d : descriptor) : bool := Z.testbit (d_access d) 4 && negb (Z.testbit (d_access d) 3).

(** The I/O permission check for a byte access at a privilege level above IOPL:
    the map's offset is the word at byte 102 of the TSS, the two bytes around the
    port's bit must lie within the limit, and the bit must be clear. *)
Definition io_permitted (tss : list Z) (limit port : Z) : bool :=
  let at_byte i := default 0 (tss !! Z.to_nat i) in
  let map := at_byte 102 + 256 * at_byte 103 in
  (map + port / 8 + 1 <=? limit) && negb (Z.testbit (at_byte (map + port / 8)) (port mod 8)).

End Gdt.

(** ** The interrupt descriptor table *)

Module Idt.

Record IdtEntry := mkIdt { offset_low : Z; selector : Z; zero : Z; type_attr : Z; offset_high : Z }.

Definition missing : IdtEntry := mkIdt 0 0 0 0 0.

Section Entries.
(** The value of the [cs] register. *)
Context (cs : Z).

Definition set_handler_raw (pointer : Z) (e : IdtEntry) : IdtEntry :=
  mkIdt (as_u16 pointer) cs 0 0x8E (as_u16 (Z.shiftr pointer 16)).
Definition entry_set_handler_user (pointer : Z) (e : IdtEntry) : IdtEntry :=
  let e := set_handler_raw pointer e in
  mkIdt (offset_low e) (selector e) (zero e) 0xEE (offset_high e).

Abbreviation InterruptDescriptorTable := (list IdtEntry).

Definition new : InterruptDescriptorTable := replicate 256 missing.

(** [self.entries[index].f()]: panics past the end of the table. *)
Definition update (index : nat) (f : IdtEntry → IdtEntry) (t : InterruptDescriptorTable) :
    outcome InterruptDescriptorTable :=
  e ← vec_index t index; vec_set t index (f e).

Definition set_handler (index : nat) (handler : Z) := update index (set_handler_raw handler).
Definition set_handler_ptr (index : nat) (pointer : Z) := update index (set_handler_raw pointer).
Definition set_handler_user (index : nat) (pointer : Z) := update index (entry_set_handler_user pointer).
Definition set_handler_with_code (index : nat) (handler : Z) := update index (set_handler_raw handler).

(** The limit and base [load] gives to [lidt]. *)
Definition load (addr : Z) : Z * Z := (as_u16 (256 * 8 - 1), addr).

(** ** [init_idt] *)

Definition exception_has_error_code (vector : nat) : bool :=
  existsb (Nat.eqb vector) [8; 10; 11; 12; 13; 14; 17; 21; 29; 30]%nat.

(** The addresses of the handlers. *)
Record Handlers := mkHandlers {
  default_exception : Z; default_exception_with_code : Z; breakpoint : Z; timer_wrapper : Z;
  keyboard : Z; page_fault_wrapper : Z; syscall_wrapper : Z; gpf : Z; double_fault : Z;
}.

(** The table at the address of its box, the operand of [lidt] and the output. *)
Definition init_idt (h : Handlers) (idt_addr : Z) :
    outcome (InterruptDescriptorTable * (Z * Z) * list output) :=
  t ← foldl (λ m vector, t ← m;
        if exception_has_error_code vector then set_handler_with_code vector (default_exception_with_code h) t
        else set_handler vector (default_exception h) t) (Ret new) (seq 0 32);
  t ← set_handler 3 (breakpoint h) t;
  t ← set_handler_ptr 32 (timer_wrapper h) t;
  t ← set_handler 33 (keyboard h) t;
  t ← set_handler_ptr 14 (page_fault_wrapper h) t;
  t ← set_handler_user 0x80 (syscall_wrapper h) t;
  t ← set_handler_with_code 13 (gpf h) t;
  t ← set_handler_with_code 8 (double_fault h) t;
  Ret (t, load idt_addr, [serial_println ("IDT init: CS = " +:+ Gdt.hex cs)]).

End Entries.

(** *** The processor's view *)

Record gate := mkGate { g_offset : Z; g_selector : Z; g_dpl : Z; g_type : Z }.

(** The gate of a vector, if it is present. *)
Definition gate_of (t : list IdtEntry) (vector : nat) : option gate :=
  e ← t !! vector;
  if Z.testbit (type_attr e) 7
  then Some (mkGate (offset_low e + 65536 * offset_high e) (selector e) (type_attr e / 32 mod 4) (type_attr e mod 32))
  else None.

(** A software interrupt is allowed when the current privilege level is not
    above the gate's. *)
Definition int_permitted (t : list IdtEntry) (cpl : Z) (vector : nat) : bool :=
  match gate_of t vector with Some g => cpl <=? g_dpl g | None => false end.

End Idt.

(** ** Lemmas *)

Lemma land_low v n : 0 ≤ n → Z.land v (Z.ones n) = v mod 2 ^ n.
Proof. intros Hn. by apply Z.land_ones. Qed.

(** The two halves of the granularity byte. *)
Lemma nibbles l g : 0 ≤ l < 16 → 0 ≤ g < 256 → Z.lor l (Z.land g 0xF0) = l + 16 * (g / 16).
Proof.
  intros Hl Hg.
  assert (forallb (λ '(l, g), Z.lor l (Z.land g 0xF0) =? l + 16 * (g / 16)) (list_prod (seqZ 0 16) (seqZ 0 256)) = true)
    as H by (vm_compute; reflexivity).
  rewrite forallb_forall in H. specialize (H (l, g)). apply Z.eqb_eq, H, in_prod_iff.
  split; apply list_elem_of_In, elem_of_seqZ; lia.
Qed.

(** The processor reads back what [GdtEntry::new] packed. *)
Lemma gdt_entry_decode base limit access gran :
  is_u32 base → 0 ≤ limit < 0x100000 → is_u8 access → is_u8 gran →
  Gdt.decode (Gdt.bytes_of_entry (Gdt.new base limit access gran)) =
    Some (Gdt.mkDesc base limit access (gran / 16)).
Proof.
  intros Hb Hl Ha Hg. unfold is_u32, is_u8, U32_MAX in *. unfold Gdt.new, Gdt.bytes_of_entry, Gdt.bytes_of_u16.
  cbn [Gdt.limit_low Gdt.base_low Gdt.base_middle Gdt.access Gdt.granularity Gdt.base_high app Gdt.decode].
  change 0xFFFF with (Z.ones 16). change 0xFF with (Z.ones 8). change 0x0F with (Z.ones 4).
  rewrite !land_low, !Z.shiftr_div_pow2 by lia. unfold as_u8, as_u16.
  change (2 ^ 16) with 65536. change (2 ^ 8) with 256. change (2 ^ 4) with 16. change (2 ^ 24) with 16777216.
  rewrite nibbles by lia_div. do 2 f_equal; lia_div.
Qed.

(** ** Claims *)

(** C30. After [gdt::init] the selectors the kernel uses name what it means by
    them: 0x08 and 0x10 flat 4 GiB kernel code and data, 0x1B and 0x23 flat user
    code and data (privilege level 3), and 0x28, the task register, a 32-bit TSS
    at the box's address with the limit of its 104 bytes; the null selector and
    everything past the table are not usable.  [set_interrupt_stack] then makes
    the processor enter ring 0 at the top of the new stack with selector 0x10. *)
Theorem gdt_segments tss_base gdt_addr int_stack :
  is_u32 tss_base → is_u32 gdt_addr → 0 ≤ int_stack → int_stack + 8192 ≤ U32_MAX →
  let '(t, regs, _) := Gdt.init tss_base gdt_addr in
  let sel := Gdt.select (Gdt.entries t) (Gdt.gdt_limit regs) in
  Gdt.gdt_base regs = gdt_addr ∧ Gdt.task_register regs = 0x28 ∧
  (∃ c, sel 0x08 = Some c ∧ Gdt.d_base c = 0 ∧ Gdt.effective_limit c = U32_MAX ∧ Gdt.present c = true ∧
     Gdt.dpl c = 0 ∧ Gdt.is_code c = true) ∧
  (∃ c, sel 0x10 = Some c ∧ Gdt.d_base c = 0 ∧ Gdt.effective_limit c = U32_MAX ∧ Gdt.present c = true ∧
     Gdt.dpl c = 0 ∧ Gdt.is_data c = true) ∧
  (∃ c, sel 0x1B = Some c ∧ Gdt.d_base c = 0 ∧ Gdt.effective_limit c = U32_MAX ∧ Gdt.present c = true ∧
     Gdt.dpl c = 3 ∧ Gdt.is_code c = true) ∧
  (∃ c, sel 0x23 = Some c ∧ Gdt.d_base c = 0 ∧ Gdt.effective_limit c = U32_MAX ∧ Gdt.present c = true ∧
     Gdt.dpl c = 3 ∧ Gdt.is_data c = true) ∧
  sel 0x28 = Some (Gdt.mkDesc tss_base 103 0x89 4) ∧
  (∀ c, sel 0 = Some c → Gdt.present c = false) ∧ sel 0x30 = None ∧
  ∃ tss out, Gdt.set_interrupt_stack (Some (Gdt.tss t)) int_stack = Ret (tss, out) ∧
    length (Gdt.bytes_of_tss tss) = 104%nat ∧
    take 6 (drop 4 (Gdt.bytes_of_tss tss)) = bytes_of_u32 (int_stack + 8192) ++ [0x10; 0].
Proof.
  intros Ht Hg Hs Hs'. cbv zeta beta iota delta [Gdt.init].
  split; [reflexivity|]. split; [reflexivity|].
  do 4 (split; [eexists; split; [reflexivity|]; split_and!; reflexivity|]). split.
  - exact (gdt_entry_decode tss_base 103 0x89 0x40 Ht ltac:(lia) ltac:(unfold is_u8; lia) ltac:(unfold is_u8; lia)).
  - split; [intros c [= <-]; reflexivity|]. split; [reflexivity|].
    do 2 eexists. unfold Gdt.set_interrupt_stack. rewrite add_u32_Ret by done. split; [reflexivity|].
    split; reflexivity.
Qed.

Lemma gdt_segments_witness :
  let '(t, regs, _) := Gdt.init 0x150000 0x150068 in
  Gdt.select (Gdt.entries t) (Gdt.gdt_limit regs) 0x28 = Some (Gdt.mkDesc 0x150000 103 0x89 4).
Proof.
  pose proof (gdt_segments 0x150000 0x150068 0x160000) as H.
  destruct H as (_ & _ & _ & _ & _ & _ & H & _); [unfold is_u32, U32_MAX; lia..|lia|unfold U32_MAX; lia|exact H].
Defined.

(** C32. The I/O permission map is not where the kernel means it to be.  The
    [iopb] field of [TaskStateSegment] is declared where the processor keeps the
    trap word, so the map offset the processor reads is 0 and the map is the
    saved-register area of the TSS itself: whatever the interrupt stack, user
    code may access the keyboard controller (0x60 and 0x64, which can reset the
    machine), the timer (0x40 to 0x43) and the secondary interrupt controller
    (0xA0, 0xA1).  With the word two bytes further the same offset of 104 would
    deny every port. *)
Theorem io_permission_open esp0 port :
  is_u32 esp0 → port ∈ [0x60; 0x64; 0x40; 0x41; 0x42; 0x43; 0xA0; 0xA1] →
  Gdt.io_permitted (Gdt.bytes_of_tss (Gdt.set_esp0 esp0 Gdt.TaskStateSegment_new)) (Gdt.size_of_tss - 1) port = true ∧
  Gdt.io_permitted (take 102 (Gdt.bytes_of_tss (Gdt.set_esp0 esp0 Gdt.TaskStateSegment_new)) ++ Gdt.bytes_of_u16 104)
    (Gdt.size_of_tss - 1) port = false.
Proof.
  intros _ Hp. repeat (apply elem_of_cons in Hp as [->|Hp]; [split; reflexivity|]). by apply elem_of_nil in Hp.
Qed.

Lemma io_permission_open_witness :
  Gdt.io_permitted (Gdt.bytes_of_tss (Gdt.set_esp0 0x162000 Gdt.TaskStateSegment_new)) (Gdt.size_of_tss - 1) 0x64 = true.
Proof.
  apply (io_permission_open 0x162000 0x64); [unfold is_u32, U32_MAX; lia|set_solver].
Defined.

(** The exceptions for which the processor pushes an error code (Intel SDM vol. 3,
    table 6-1; 29 and 30 are AMD's). *)
Definition pushes_error_code (vector : nat) : bool :=
  bool_decide (vector ∈ [8; 10; 11; 12; 13; 14; 17; 21; 29; 30]%nat).

(** What each vector is meant to reach: the remaining exceptions by whether the
    processor pushes an error code for them. *)
Definition handler_of (h : Idt.Handlers) (vector : nat) : option Z :=
  if (vector =? 3)%nat then Some (Idt.breakpoint h) else
  if (vector =? 8)%nat then Some (Idt.double_fault h) else
  if (vector =? 13)%nat then Some (Idt.gpf h) else
  if (vector =? 14)%nat then Some (Idt.page_fault_wrapper h) else
  if (vector =? 32)%nat then Some (Idt.timer_wrapper h) else
  if (vector =? 33)%nat then Some (Idt.keyboard h) else
  if (vector =? 128)%nat then Some (Idt.syscall_wrapper h) else
  if (vector <? 32)%nat then
    Some (if pushes_error_code vector then Idt.default_exception_with_code h
          else Idt.default_exception h)
  else None.

Definition handlers_ok (h : Idt.Handlers) : Prop :=
  Forall is_u32 [Idt.default_exception h; Idt.default_exception_with_code h; Idt.breakpoint h; Idt.timer_wrapper h;
    Idt.keyboard h; Idt.page_fault_wrapper h; Idt.syscall_wrapper h; Idt.gpf h; Idt.double_fault h].

Definition entry_for (cs : Z) (h : Idt.Handlers) (vector : nat) : Idt.IdtEntry :=
  match handler_of h vector with
  | Some p => if (vector =? 128)%nat then Idt.entry_set_handler_user cs p Idt.missing
              else Idt.set_handler_raw cs p Idt.missing
  | None => Idt.missing
  end.

Lemma init_idt_table cs h addr :
  Idt.init_idt cs h addr =
    Ret (entry_for cs h <$> seq 0 256, Idt.load addr, [serial_println ("IDT init: CS = " +:+ Gdt.hex cs)]).
Proof. reflexivity. Qed.

Lemma handler_ok h v p : handlers_ok h → handler_of h v = Some p → is_u32 p.
Proof.
  unfold handlers_ok. rewrite !Forall_cons. intros (? & ? & ? & ? & ? & ? & ? & ? & ? & _) Hp.
  unfold handler_of in Hp. repeat case_match; by simplify_eq.
Qed.

Lemma pointer_halves p : is_u32 p → as_u16 p + 65536 * as_u16 (Z.shiftr p 16) = p.
Proof.
  intros Hp. unfold is_u32, U32_MAX, as_u16 in *. rewrite Z.shiftr_div_pow2 by lia.
  change (2 ^ 16) with 65536. lia_div.
Qed.

Lemma gate_of_entry cs h v t :
  handlers_ok h → t = entry_for cs h <$> seq 0 256 → 
  Idt.gate_of t v =
    if (v <? 256)%nat then
      (λ p, Idt.mkGate p cs (if (v =? 128)%nat then 3 else 0) 0xE) <$> handler_of h v
    else None.
Proof.
  intros Hh ->. unfold Idt.gate_of. rewrite list_lookup_fmap. destruct (Nat.ltb_spec v 256).
  - rewrite (proj2 (lookup_seq 0 256 v v)) by lia. cbn [fmap option_fmap option_map mbind option_bind].
    unfold entry_for. destruct (handler_of h v) as [p|] eqn:Hp; [|done].
    pose proof (pointer_halves p (handler_ok h v p Hh Hp)) as Heq.
    destruct (v =? 128)%nat; cbn -[as_u16 Z.shiftr Z.mul Z.add]; by rewrite Heq.
  - by rewrite lookup_seq_ge by lia.
Qed.

Lemma user_raises cs h v :
  handlers_ok h → Idt.int_permitted (entry_for cs h <$> seq 0 256) 3 v = (v =? 128)%nat.
Proof.
  intros Hh. unfold Idt.int_permitted. rewrite (gate_of_entry cs h v _ Hh eq_refl).
  destruct (Nat.ltb_spec v 256); [|by rewrite (proj2 (Nat.eqb_neq _ _)) by lia].
  destruct (Nat.eqb_spec v 128) as [->|]; [done|]. by destruct (handler_of h v).
Qed.

(** C31. [init_idt] returns, and every vector's gate leads where it should: the
    exceptions to their handlers, to the one that takes an error code exactly for
    the vectors the processor's own table gives one, 32 and 33 to the timer and
    keyboard handlers, 0x80 to the system call wrapper; no other vector is present.
    All gates are 32-bit interrupt gates with the kernel's code selector, and the
    only vector user code may raise itself is 0x80. *)
Theorem idt_gates cs h addr :
  handlers_ok h →
  ∃ t out, Idt.init_idt cs h addr = Ret (t, (2047, addr), out) ∧ length t = 256%nat ∧
    (∀ v, (v < 256)%nat → Idt.gate_of t v =
       (λ p, Idt.mkGate p cs (if (v =? 128)%nat then 3 else 0) 0xE) <$> handler_of h v) ∧
    (∀ v, Idt.int_permitted t 3 v = (v =? 128)%nat).
Proof.
  intros Hh. rewrite init_idt_table. do 2 eexists. split; [reflexivity|]. split; [by rewrite length_fmap, length_seq|].
  split.
  - intros v Hv. rewrite (gate_of_entry cs h v _ Hh eq_refl). by rewrite (proj2 (Nat.ltb_lt _ _)).
  - intros v. by apply user_raises.
Qed.

Lemma idt_gates_witness :
  ∃ t out, Idt.init_idt 8 (Idt.mkHandlers 1 2 3 0x101000 5 6 0x102345 8 9) 0x150000 = Ret (t, (2047, 0x150000), out) ∧
    Idt.gate_of t 128 = Some (Idt.mkGate 0x102345 8 3 0xE).
Proof.
  destruct (idt_gates 8 (Idt.mkHandlers 1 2 3 0x101000 5 6 0x102345 8 9) 0x150000) as (t & out & Ht & _ & Hg & _).
  - unfold handlers_ok, is_u32, U32_MAX. repeat constructor; cbn; lia.
  - exists t, out. split; [exact Ht|]. apply (Hg 128%nat). lia.
Defined.
