(* ===== verification/Interrupts.v ===== *)
(** * Interrupt entry and exit: [src/interrupts.rs]

    The assembly wrappers as sequences of the instructions they consist of, over
    the processor's registers and a memory of 32-bit words, with the processor's
    own pushes and pops at a gate (Intel SDM vol. 3, 6.12), the page fault
    dispatcher, the keyboard handler and [without_interrupts].  The theorems relate
    the registers of interrupted code to those the processor continues with. *)

From S2P Require Import Prelude Machine Task TaskProps Scheduler Devices Input InputProps Descriptors.
Local Open Scope Z_scope.

(** ** The processor *)

Record Cpu := mkCpu {
  eax : Z; ecx : Z; edx : Z; ebx : Z; ebp : Z; esi : Z; edi : Z; esp : Z;
  eip : Z; cs : Z; eflags : Z; ss : Z;
}.

Abbreviation words := (gmap Z Z).
Abbreviation machine := (Cpu * words)%type.

Definition word (m : words) (a : Z) : Z := default 0 (m !! a).

Definition set_esp (v : Z) (c : Cpu) : Cpu :=
  mkCpu (eax c) (ecx c) (edx c) (ebx c) (ebp c) (esi c) (edi c) v (eip c) (cs c) (eflags c) (ss c).
Definition set_eax (v : Z) (c : Cpu) : Cpu :=
  mkCpu v (ecx c) (edx c) (ebx c) (ebp c) (esi c) (edi c) (esp c) (eip c) (cs c) (eflags c) (ss c).
Definition set_ebp (v : Z) (c : Cpu) : Cpu :=
  mkCpu (eax c) (ecx c) (edx c) (ebx c) v (esi c) (edi c) (esp c) (eip c) (cs c) (eflags c) (ss c).
Definition set_ebx (v : Z) (c : Cpu) : Cpu :=
  mkCpu (eax c) (ecx c) (edx c) v (ebp c) (esi c) (edi c) (esp c) (eip c) (cs c) (eflags c) (ss c).
Definition set_ecx (v : Z) (c : Cpu) : Cpu :=
  mkCpu (eax c) v (edx c) (ebx c) (ebp c) (esi c) (edi c) (esp c) (eip c) (cs c) (eflags c) (ss c).
Definition set_edx (v : Z) (c : Cpu) : Cpu :=
  mkCpu (eax c) (ecx c) v (ebx c) (ebp c) (esi c) (edi c) (esp c) (eip c) (cs c) (eflags c) (ss c).

(** [push v], on the stack [Task::new] lays frames out for. *)
Definition push (v : Z) (s : machine) : machine :=
  let '(sp, m) := push_word v (esp s.1, s.2) in (set_esp sp s.1, m).

Definition pushad (s : machine) : machine :=
  let c := s.1 in
  push (edi c) (push (esi c) (push (ebp c) (push (esp c) (push (ebx c) (push (edx c) (push (ecx c) (push (eax c) s))))))).

(** [popad] skips the saved stack pointer. *)
Definition popad (s : machine) : machine :=
  let '(c, m) := s in
  let sp := esp c in
  (mkCpu (word m (sp + 28)) (word m (sp + 24)) (word m (sp + 20)) (word m (sp + 16)) (word m (sp + 8))
     (word m (sp + 4)) (word m sp) (sp + 32) (eip c) (cs c) (eflags c) (ss c), m).

(** [iretd]: returning to an outer privilege level also pops the stack. *)
Definition iretd (s : machine) : machine :=
  let '(c, m) := s in
  let sp := esp c in
  let new_cs := word m (sp + 4) in
  let outer := negb (new_cs mod 4 =? cs c mod 4) in
  (mkCpu (eax c) (ecx c) (edx c) (ebx c) (ebp c) (esi c) (edi c)
     (if outer then word m (sp + 12) else sp + 12)
     (word m sp) new_cs (word m (sp + 8)) (if outer then word m (sp + 16) else ss c), m).

(** Taking an interrupt gate into the kernel: from user mode the processor first
    switches to the stack of the task state segment; it clears the interrupt flag. *)
Definition enter_gate (handler kernel_cs kernel_ss esp0 : Z) (s : machine) : machine :=
  let '(c, m) := s in
  let s := if cs c mod 4 =? 3
           then push (esp c) (push (ss c) (set_esp esp0 c, m)) else (c, m) in
  let s := push (eip c) (push (cs c) (push (eflags c) s)) in
  let c' := s.1 in
  (mkCpu (eax c') (ecx c') (edx c') (ebx c') (ebp c') (esi c') (edi c') (esp c') handler kernel_cs
     (Z.land (eflags c) (Z.lnot 0x200)) (if cs c mod 4 =? 3 then kernel_ss else ss c), s.2).

(** [add esp, n] and [mov esp, eax]. *)
Definition add_esp (n : Z) (s : machine) : machine := (set_esp (esp s.1 + n) s.1, s.2).
Definition mov_esp_eax (s : machine) : machine := (set_esp (eax s.1) s.1, s.2).

(** A C function called by a wrapper, given the arguments it finds on the stack
    and the memory: what it leaves in [eax], [ecx] and [edx], the registers the
    calling convention lets it change, and in memory. *)
Abbreviation callee := (list Z → words → outcome (Z * Z * Z * words)).

Definition args (n : nat) (s : machine) : list Z := (λ i, word s.2 (esp s.1 + 4 * Z.of_nat i)) <$> seq 0 n.
Definition call (f : callee) (n : nat) (s : machine) : outcome machine :=
  '(a, c, d, m) ← f (args n s) s.2;
  Ret (set_eax a (set_ecx c (set_edx d s.1)), m).

(** ** The wrappers *)

Definition timer_interrupt_wrapper (scheduler_tick : callee) (s : machine) : outcome machine :=
  let s := pushad s in
  let s := push (esp s.1) s in
  s ← call scheduler_tick 1 s;
  let s := add_esp 4 s in
  let s := mov_esp_eax s in
  Ret (iretd (popad s)).

Definition page_fault_wrapper (cr2 : Z) (page_fault_dispatcher : callee) (s : machine) : outcome machine :=
  let s := pushad s in
  let s := (set_ebx (esp s.1) s.1, s.2) in
  let s := (set_eax cr2 s.1, s.2) in
  let s := (set_ecx (word s.2 (ebx s.1 + 32)) s.1, s.2) in
  let s := push (ecx s.1) s in
  let s := push (eax s.1) s in
  let s := push (ebx s.1) s in
  s ← call page_fault_dispatcher 3 s;
  let s := add_esp 12 s in
  let s := mov_esp_eax s in
  Ret (iretd (popad s)).

Definition syscall_wrapper (syscall_dispatcher : callee) (s : machine) : outcome machine :=
  let s := pushad s in
  let s := (set_ebp (esp s.1) s.1, s.2) in
  let c := s.1 in
  let s := push (eax c) (push (ebx c) (push (ecx c) (push (edx c) (push (esi c) (push (edi c) (push (ebp c) s)))))) in
  s ← call syscall_dispatcher 7 s;
  let s := add_esp 28 s in
  let s := (s.1, <[(esp s.1 + 28)%Z := eax s.1]> s.2) in
  Ret (iretd (popad s)).

(** ** The handlers in Rust *)

Definition page_fault_kind (error_code : Z) : string :=
  if negb (Z.land error_code 0x1 =? 0) then "protection" else "not-present".
Definition page_fault_access (error_code : Z) : string :=
  if negb (Z.land error_code 0x2 =? 0) then "write" else "read".

Definition page_fault_text (who : string) (fault_addr error_code : Z) : string :=
  who +:+ " PAGE FAULT addr=" +:+ Gdt.hex fault_addr +:+ " err=" +:+ Gdt.hex error_code +:+
  " kind=" +:+ page_fault_kind error_code +:+ " access=" +:+ page_fault_access error_code.

Definition page_fault_dispatcher (main_stack : Z) (tm : TaskManager) (current_esp fault_addr error_code : Z) :
    outcome (Z * TaskManager * list output) :=
  let user_fault := negb (Z.land error_code 0x4 =? 0) in
  if user_fault then
    '(sp, tm) ← terminate_current_user_task_from_fault main_stack tm current_esp;
    Ret (sp, tm, [serial_println ("EXCEPTION: " +:+ page_fault_text "USER" fault_addr error_code)])
  else Panic (page_fault_text "KERNEL" fault_addr error_code).

(** [scheduler_tick] of [src/task.rs]: acknowledge, then schedule. *)
Definition scheduler_tick (main_stack : Z) (tm : TaskManager) (esp : Z) :
    outcome (Z * TaskManager * list port_write) :=
  eoi ← Pic.ack 32;
  '(sp, tm) ← schedule_next main_stack tm esp;
  Ret (sp, tm, eoi).

(** [scancode] is the byte the port 0x60 delivers. *)
Definition keyboard_interrupt_handler (scancode : Z) (q : ScancodeQueue) : outcome (ScancodeQueue * list port_write) :=
  q ← enqueue_scancode_from_irq scancode q;
  eoi ← Pic.ack 33;
  Ret (q, eoi).

(** [without_interrupts(f)] on the interrupt flag, bit 9 of EFLAGS; [f] sees the
    flag it runs with and leaves the flag it finds afterwards. *)
Definition without_interrupts {A} (f : bool → A * bool) (interrupt_flag : bool) : A * bool :=
  let flags := if interrupt_flag then 0x0200 else 0 in
  let '(result, interrupt_flag) := f false in
  (result, if negb (Z.land flags 0x0200 =? 0) then true else interrupt_flag).

(** ** Saved contexts *)

(** The words of a trap frame: [pushad] below what the gate pushed, the stack
    pointer and segment last when the interrupted code ran in ring 3. *)
Definition frame_words (c : Cpu) (skipped : Z) : list Z :=
  [edi c; esi c; ebp c; skipped; ebx c; edx c; ecx c; eax c; eip c; cs c; eflags c] ++
  (if cs c mod 4 =? 3 then [esp c; ss c] else []).

(** The frame at [sp] holds the context [c]; a ring 0 context runs on the stack
    its frame is on. *)
Definition frame_at (kernel_ss : Z) (m : words) (sp : Z) (c : Cpu) : Prop :=
  (∃ skipped, ∀ i v, frame_words c skipped !! i = Some v → word m (sp + 4 * Z.of_nat i) = v) ∧
  (cs c mod 4 = 3 ∨ cs c mod 4 = 0 ∧ esp c = sp + 44 ∧ ss c = kernel_ss).

(** A context the processor can interrupt. *)
Definition interruptible (kernel_ss : Z) (c : Cpu) : Prop :=
  cs c mod 4 = 3 ∨ cs c mod 4 = 0 ∧ ss c = kernel_ss.

(** The stack the gate pushes on, and where the frame ends up. *)
Definition trap_stack (esp0 : Z) (c : Cpu) : Z := if cs c mod 4 =? 3 then esp0 - 8 else esp c.
Definition frame_ptr (esp0 : Z) (c : Cpu) : Z := trap_stack esp0 c - 44.

(** ** Lemmas *)

Lemma word_here m a v : word (<[a:=v]> m) a = v.
Proof. unfold word. by rewrite lookup_insert_eq. Qed.

Lemma word_there m a b v : a ≠ b → word (<[a:=v]> m) b = word m b.
Proof. intros. unfold word. by rewrite lookup_insert_ne. Qed.

(** A sequence of pushes, first value first. *)
Definition stack_of (l : list Z) (sm : Z * words) : Z * words := foldl (λ sm v, push_word v sm) sm l.

Lemma stack_of_spec l sp m :
  (stack_of l (sp, m)).1 = sp - 4 * Z.of_nat (length l) ∧
  (∀ i v, reverse l !! i = Some v → word (stack_of l (sp, m)).2 ((stack_of l (sp, m)).1 + 4 * Z.of_nat i) = v) ∧
  (∀ a, a < (stack_of l (sp, m)).1 ∨ sp ≤ a → word (stack_of l (sp, m)).2 a = word m a).
Proof.
  induction l as [|x l IH] using rev_ind; [split_and!; [cbn; lia|by intros []|done]|].
  unfold stack_of in *. rewrite foldl_snoc, length_app, reverse_snoc. cbn [length push_word fst snd].
  destruct IH as (IH1 & IH2 & IH3). cbn [push_word fst snd]. split_and!.
  - lia.
  - intros [|i] v Hi; cbn in Hi; [simplify_eq; rewrite Z.add_0_r; apply word_here|].
    rewrite word_there by lia. rewrite <- (IH2 i v Hi). f_equal. lia.
  - intros a Ha. rewrite word_there by lia. apply IH3. lia.
Qed.

Lemma stack_of_app l l' sm : stack_of (l ++ l') sm = stack_of l' (stack_of l sm).
Proof. apply foldl_app. Qed.

Lemma pushes_eq l c m :
  foldl (λ s v, push v s) (c, m) l = (set_esp (stack_of l (esp c, m)).1 c, (stack_of l (esp c, m)).2).
Proof.
  induction l as [|x l IH] using rev_ind; [by destruct c|].
  rewrite foldl_snoc, IH. unfold stack_of. by rewrite foldl_snoc.
Qed.

Lemma args_pushed l c m n :
  length l = n → args n (foldl (λ s v, push v s) (c, m) l) = reverse l.
Proof.
  intros <-. rewrite pushes_eq. destruct (stack_of_spec l (esp c) m) as (_ & H & _).
  apply list_eq. intros i. unfold args. rewrite list_lookup_fmap.
  destruct (reverse l !! i) as [v|] eqn:Hv.
  - pose proof (lookup_lt_Some _ _ _ Hv) as Hlt. rewrite length_reverse in Hlt.
    rewrite lookup_seq_lt by done. cbn. f_equal. by apply H.
  - apply lookup_ge_None in Hv. rewrite length_reverse in Hv. by rewrite lookup_seq_ge.
Qed.

Lemma call_pushed f l c m n :
  length l = n →
  call f n (foldl (λ s v, push v s) (c, m) l) =
    '(a, x, d, m') ← f (reverse l) (stack_of l (esp c, m)).2;
    Ret (set_eax a (set_ecx x (set_edx d (set_esp (esp c - 4 * Z.of_nat n) c))), m').
Proof.
  intros Hl. unfold call. rewrite (args_pushed l c m n Hl), pushes_eq.
  destruct (stack_of_spec l (esp c) m) as (-> & _). by rewrite Hl.
Qed.

(** What the processor and [pushad] leave: the registers of the handler and the
    memory below [top], where the frame of [c] is. *)
Definition trapped (kernel_ss esp0 : Z) (c : Cpu) (m : words) (s : machine) : Prop :=
  esp s.1 = frame_ptr esp0 c ∧ frame_at kernel_ss s.2 (esp s.1) c ∧ cs s.1 mod 4 = 0 ∧ ss s.1 = kernel_ss ∧
  (eax s.1, ecx s.1, edx s.1, ebx s.1, esi s.1, edi s.1) = (eax c, ecx c, edx c, ebx c, esi c, edi c) ∧
  Z.testbit (eflags s.1) 9 = false ∧
  ∀ a, a < frame_ptr esp0 c ∨ (if cs c mod 4 =? 3 then esp0 else esp c) ≤ a → word s.2 a = word m a.

(** The words of a frame whose lookup lemma is [H], one hypothesis each. *)
Ltac frame_word H i :=
  let Hw := fresh "Hw" in
  let t := eval vm_compute in (4 * Z.of_nat i) in
  assert (Hw := H i%nat _ eq_refl); change (4 * Z.of_nat i) with t in Hw; cbn in Hw.
Ltac frame_words_of H :=
  frame_word H 0%nat; frame_word H 1%nat; frame_word H 2%nat; frame_word H 4%nat; frame_word H 5%nat;
  frame_word H 6%nat; frame_word H 7%nat; frame_word H 8%nat; frame_word H 9%nat; frame_word H 10%nat.

Lemma restore_frame kernel_ss c c0 m :
  frame_at kernel_ss m (esp c0) c → cs c0 mod 4 = 0 → ss c0 = kernel_ss →
  iretd (popad (c0, m)) = (c, m).
Proof.
  intros [(sk & H) Hring] Hcs Hss. unfold frame_words in H.
  frame_words_of H. unfold iretd, popad. cbn [eax ecx edx ebx ebp esi edi esp eip cs eflags ss].
  rewrite <- !Z.add_assoc.
  change (32 + 4) with 36. change (32 + 8) with 40. change (32 + 12) with 44. change (32 + 16) with 48.
  rewrite Z.add_0_r in Hw. destruct c as [cax ccx cdx cbx cbp csi cdi csp cip ccs cfl css].
  cbn [eax ecx edx ebx ebp esi edi esp eip cs eflags ss] in *.
  rewrite Hw, Hw0, Hw1, Hw2, Hw3, Hw4, Hw5, Hw6, Hw7, Hw8, Hcs.
  destruct Hring as [Hr|(Hr & -> & ->)]; rewrite Hr in *; cbn [Z.eqb Pos.eqb negb]; [|by rewrite Hss].
  frame_word H 11%nat. frame_word H 12%nat. by rewrite Hw9, Hw10.
Qed.


(** What the gate pushes, then what [pushad] pushes. *)
Definition gate_values (c : Cpu) : list Z :=
  (if cs c mod 4 =? 3 then [ss c; esp c] else []) ++ [eflags c; cs c; eip c].
Definition pushad_values (c : Cpu) : list Z :=
  [eax c; ecx c; edx c; ebx c; esp c; ebp c; esi c; edi c].

Lemma enter_gate_eq handler kernel_cs kernel_ss esp0 c m :
  enter_gate handler kernel_cs kernel_ss esp0 (c, m) =
    let st := stack_of (gate_values c) (if cs c mod 4 =? 3 then esp0 else esp c, m) in
    (mkCpu (eax c) (ecx c) (edx c) (ebx c) (ebp c) (esi c) (edi c) st.1 handler kernel_cs
       (Z.land (eflags c) (Z.lnot 0x200)) (if cs c mod 4 =? 3 then kernel_ss else ss c), st.2).
Proof. unfold enter_gate, gate_values. by case_bool. Qed.

Lemma pushad_eq c m :
  pushad (c, m) = (set_esp (stack_of (pushad_values c) (esp c, m)).1 c, (stack_of (pushad_values c) (esp c, m)).2).
Proof. done. Qed.

Lemma trap_saves handler kernel_cs kernel_ss esp0 c m :
  interruptible kernel_ss c → kernel_cs mod 4 = 0 →
  trapped kernel_ss esp0 c m (pushad (enter_gate handler kernel_cs kernel_ss esp0 (c, m))).
Proof.
  intros Hc Hk. rewrite enter_gate_eq. cbn zeta. rewrite pushad_eq.
  set (top := if cs c mod 4 =? 3 then esp0 else esp c).
  set (c1 := mkCpu _ _ _ _ _ _ _ _ _ _ _ _).
  change (esp c1, (stack_of (gate_values c) (top, m)).2) with
    ((stack_of (gate_values c) (top, m)).1, (stack_of (gate_values c) (top, m)).2).
  rewrite <- surjective_pairing, <- stack_of_app.
  destruct (stack_of_spec (gate_values c ++ pushad_values c1) top m) as (H1 & H2 & H3).
  assert (frame_ptr esp0 c = (stack_of (gate_values c ++ pushad_values c1) (top, m)).1) as Hp.
  { rewrite H1. unfold frame_ptr, trap_stack, top, gate_values. rewrite !length_app. by case_bool; cbn; lia. }
  unfold trapped. cbn [fst snd set_esp esp]. rewrite Hp.
  assert (reverse (gate_values c ++ pushad_values c1) = frame_words c (esp c1)) as Hrev.
  { unfold gate_values, frame_words. by case_bool. }
  rewrite Hrev in H2. split_and!; try done.
  - split; [by exists (esp c1)|]. destruct Hc as [Hc|[Hc Hss]]; [by left|right].
    split_and!; [done| |done]. rewrite <- Hp. unfold frame_ptr, trap_stack. rewrite Hc. cbn. lia.
  - cbn. unfold c1. cbn. destruct Hc as [Hc|[Hc Hss]]; rewrite Hc; cbn; [done|]. exact Hss.
  - unfold c1. cbn [set_esp eflags]. rewrite Z.land_spec, Z.lnot_spec by lia. cbn. by rewrite andb_false_r.
Qed.

(** ** The timer *)

Definition frame_size (c : Cpu) : Z := if cs c mod 4 =? 3 then 52 else 44.

Lemma frame_at_memory kernel_ss m m' sp c :
  frame_at kernel_ss m sp c → (∀ a, sp ≤ a < sp + frame_size c → word m' a = word m a) →
  frame_at kernel_ss m' sp c.
Proof.
  intros [(sk & H) Hr] Hm. split; [|done]. exists sk. intros i v Hv. rewrite Hm; [by apply H|].
  apply lookup_lt_Some in Hv. unfold frame_words, frame_size in *.
  destruct (cs c mod 4 =? 3); cbn in Hv; lia.
Qed.

Lemma frame_top esp0 c :
  frame_ptr esp0 c + frame_size c = if cs c mod 4 =? 3 then esp0 else esp c.
Proof. unfold frame_ptr, trap_stack, frame_size. case_bool; lia. Qed.

Lemma frame_set_eax kernel_ss m sp c v :
  frame_at kernel_ss m sp c → frame_at kernel_ss (<[(sp + 28)%Z := v]> m) sp (set_eax v c).
Proof.
  intros [(sk & H) Hr]. split; [|done]. exists sk. intros i x Hx.
  destruct (decide (i = 7%nat)) as [->|Hi].
  - cbn in Hx. injection Hx as <-. apply word_here.
  - rewrite word_there by lia. apply H. revert Hx. unfold frame_words. cbn [edi esi ebp ebx edx ecx eax eip cs eflags esp ss set_eax].
    do 8 (destruct i as [|i]; [done|]). done.
Qed.

Lemma new_task_frame kernel_ss tid nm p entry_point sb cs mem :
  0 ≤ sb → sb + STACK_SIZE ≤ U32_MAX → cs mod 4 = 0 →
  let (t, mem') := Task_new tid nm p entry_point sb cs mem in
  stack_ptr t = sb + STACK_SIZE - 44 ∧
  (∀ a, a < stack_ptr t ∨ sb + STACK_SIZE ≤ a → word mem' a = word mem a) ∧
  frame_at kernel_ss mem' (stack_ptr t) (mkCpu 0 0 0 0 0 0 0 (sb + STACK_SIZE) entry_point cs 0x202 kernel_ss).
Proof.
  intros Hlo Hhi Hcs. set (top := sb + STACK_SIZE) in *.
  assert (as_u32 top = top) as Htop.
  { apply Z.mod_small. unfold top, STACK_SIZE, U32_MAX in *. lia. }
  destruct (stack_of_spec ([0x202; cs; entry_point] ++ replicate 8 0) top mem) as (H1 & H2 & H3).
  unfold Task_new. fold top. rewrite Htop.
  change (Nat.iter 8 (push_word 0) _) with (stack_of ([0x202; cs; entry_point] ++ replicate 8 0) (top, mem)).
  set (st := stack_of _ _) in *. cbn [length app replicate] in H1.
  cbn [state stack_ptr]. split_and!; [lia|intros; apply H3; lia|].
  split; [|right; split_and!; [done|cbn; lia|done]].
  exists 0. intros i v Hv. unfold frame_words in Hv. cbn [Interrupts.cs] in Hv. rewrite Hcs in Hv. by apply H2.
Qed.

Section Traps.
(** The gate's handler and segments and the stack of the task state segment. *)
Context (handler kernel_cs kernel_ss esp0 : Z) (kernel_ring : kernel_cs mod 4 = 0).

Definition trap (s : machine) : machine := enter_gate handler kernel_cs kernel_ss esp0 s.

(** The memory the scheduler is called with when the timer interrupts [s]. *)
Definition timer_memory (s : machine) : words :=
  let s := pushad (trap s) in (push (esp s.1) s).2.

(** Where a trap of [c] may write before the kernel's Rust code runs: the frame, and
    below it the error code and the arguments of the handler. *)
Definition trap_area (c : Cpu) (a : Z) : Prop := frame_ptr esp0 c - 32 ≤ a < frame_ptr esp0 c + frame_size c.

Lemma trap_area_outside c (a : Z) :
  ¬ trap_area c a → a < frame_ptr esp0 c - 32 ∨ (if cs c mod 4 =? 3 then esp0 else esp c) ≤ a.
Proof. rewrite <- frame_top. unfold trap_area. lia. Qed.

Lemma timer_trap c m :
  interruptible kernel_ss c →
  frame_at kernel_ss (timer_memory (c, m)) (frame_ptr esp0 c) c ∧
  (∀ a, ¬ trap_area c a → word (timer_memory (c, m)) a = word m a) ∧
  (∀ f why, f [frame_ptr esp0 c] (timer_memory (c, m)) = Panic why →
     timer_interrupt_wrapper f (trap (c, m)) = Panic why) ∧
  (∀ f a d sp m' c', f [frame_ptr esp0 c] (timer_memory (c, m)) = Ret (sp, a, d, m') →
     frame_at kernel_ss m' sp c' → timer_interrupt_wrapper f (trap (c, m)) = Ret (c', m')) ∧
  (∀ f a d sp m', f [frame_ptr esp0 c] (timer_memory (c, m)) = Ret (sp, a, d, m') →
     ∃ c', timer_interrupt_wrapper f (trap (c, m)) = Ret (c', m')) ∧
  (∀ f s', timer_interrupt_wrapper f (trap (c, m)) = Ret s' →
     ∃ sp a d, f [frame_ptr esp0 c] (timer_memory (c, m)) = Ret (sp, a, d, s'.2)).
Proof.
  intros Hc. pose proof (trap_saves handler kernel_cs kernel_ss esp0 c m Hc kernel_ring) as Ht.
  unfold timer_memory, timer_interrupt_wrapper, trap. destruct (pushad _) as [c1 m0].
  destruct Ht as (Hsp & Hf & Hcs & Hss & _ & _ & Hm). cbn [fst snd] in *.
  destruct (stack_of_spec [esp c1] (esp c1) m0) as (H1 & _ & H3). cbn [length] in H1.
  change (push (esp c1) (c1, m0)) with (foldl (λ (s : machine) v, push v s) (c1, m0) [esp c1]).
  rewrite pushes_eq. cbn [snd]. rewrite <- Hsp, <- pushes_eq. split_and!.
  - apply (frame_at_memory _ m0); [done|]. intros a Ha. apply H3. lia.
  - intros a Ha%trap_area_outside. rewrite <- frame_top, <- Hsp in Ha.
    assert (0 < frame_size c) by (unfold frame_size; case_bool; lia).
    rewrite H3 by lia. apply Hm. rewrite <- frame_top, <- Hsp. lia.
  - intros f why Hcall. rewrite (call_pushed f [esp c1] c1 m0 1 eq_refl).
    change (reverse [esp c1]) with [esp c1]. by rewrite Hcall.
  - intros f a d sp m' c' Hcall Hf'. rewrite (call_pushed f [esp c1] c1 m0 1 eq_refl).
    change (reverse [esp c1]) with [esp c1]. rewrite Hcall.
    cbn [mbind outcome_bind]. unfold mov_esp_eax, add_esp. cbn [fst snd]. by rewrite (restore_frame kernel_ss c').
  - intros f a d sp m' Hcall. rewrite (call_pushed f [esp c1] c1 m0 1 eq_refl).
    change (reverse [esp c1]) with [esp c1]. rewrite Hcall. cbn [mbind outcome_bind]. eexists. reflexivity.
  - intros f s'. rewrite (call_pushed f [esp c1] c1 m0 1 eq_refl). change (reverse [esp c1]) with [esp c1].
    destruct (f _ _) as [[[[sp a] d] m']| |]; [|done..]. intros [= <-]. by exists sp, a, d.
Qed.

(** A system call: the dispatcher's arguments and what becomes of its result. *)
Lemma syscall_delivered c m :
  interruptible kernel_ss c →
  ∃ m1, let sp := frame_ptr esp0 c in let arguments := [eax c; ebx c; ecx c; edx c; esi c; edi c; sp] in
    frame_at kernel_ss m1 sp c ∧ (∀ a, ¬ trap_area c a → word m1 a = word m a) ∧
    ∀ f, (∀ why, f arguments m1 = Panic why → syscall_wrapper f (trap (c, m)) = Panic why) ∧
      (∀ s', syscall_wrapper f (trap (c, m)) = Ret s' →
         ∃ r a d m', f arguments m1 = Ret (r, a, d, m') ∧ s'.2 = <[(sp + 28)%Z := r]> m') ∧
      (∀ r a d m', f arguments m1 = Ret (r, a, d, m') →
         (∀ x, sp ≤ x < sp + frame_size c → word m' x = word m1 x) →
         syscall_wrapper f (trap (c, m)) = Ret (set_eax r c, <[(sp + 28)%Z := r]> m')).
Proof.
  intros Hc. pose proof (trap_saves handler kernel_cs kernel_ss esp0 c m Hc kernel_ring) as Ht.
  unfold syscall_wrapper, trap. destruct (pushad _) as [c1 m0].
  destruct Ht as (Hsp & Hf & Hcs & Hss & Hregs & _ & Hm). cbn [fst snd] in *. rewrite <- Hsp.
  set (c2 := set_ebp (esp c1) c1).
  set (l := [ebp c2; edi c2; esi c2; edx c2; ecx c2; ebx c2; eax c2]).
  assert (reverse l = [eax c; ebx c; ecx c; edx c; esi c; edi c; esp c1]) as Hl.
  { unfold l, c2. cbn. injection Hregs as -> -> -> -> -> ->. done. }
  destruct (stack_of_spec l (esp c2) m0) as (_ & _ & H3).
  assert (esp c2 = esp c1) as Hc2 by done. exists (stack_of l (esp c2, m0)).2. split.
  { apply (frame_at_memory _ m0); [done|]. intros a Ha. apply H3. right. apply Ha. }
  split.
  { intros a Ha%trap_area_outside. rewrite <- frame_top, <- Hsp in Ha.
    assert (0 < frame_size c) by (unfold frame_size; case_bool; lia).
    rewrite H3 by (destruct (stack_of_spec l (esp c2) m0) as (-> & _); cbn [length l]; lia).
    apply Hm. rewrite <- frame_top, <- Hsp. lia. }
  change (push (eax c2) _) with (foldl (λ (s : machine) v, push v s) (c2, m0) l).
  assert (esp c2 - 4 * Z.of_nat 7 + 28 = esp c1) as Hpop by lia.
  intros f. split_and!; [intros why Hcall|intros s'|intros r a d m' Hcall Hsame];
    rewrite (call_pushed f l c2 m0 7 eq_refl), Hl; [by rewrite Hcall| |].
  - destruct (f _ _) as [[[[r a] d] m']| |]; [|done..]. unfold add_esp.
    cbn [mbind outcome_bind fst snd set_eax set_ecx set_edx set_esp esp eax]. rewrite Hpop.
    intros [= <-]. by exists r, a, d, m'.
  - rewrite Hcall. cbn [mbind outcome_bind]. unfold add_esp. cbn [fst snd set_eax set_ecx set_edx set_esp esp eax].
    rewrite Hpop, (restore_frame kernel_ss (set_eax r c)); [done| |done|done]. cbn [esp set_esp].
    apply frame_set_eax. eapply frame_at_memory; [|exact Hsame].
    eapply frame_at_memory; [exact Hf|]. intros x Hx. apply H3. right. apply Hx.
Qed.

(** C17. system calls keep the caller's registers.  [int 0x80] calls the
    dispatcher with the caller's [eax, ebx, ecx, edx, esi, edi] as system call
    number and arguments and with the address of its saved frame; unless the
    dispatcher changes that frame, the caller continues after the instruction with
    the result in [eax] and every other register as it was. *)
Theorem syscall_returns c m :
  interruptible kernel_ss c →
  ∃ m1, let sp := frame_ptr esp0 c in
    frame_at kernel_ss m1 sp c ∧
    ∀ f, (∀ why, f [eax c; ebx c; ecx c; edx c; esi c; edi c; sp] m1 = Panic why →
            syscall_wrapper f (trap (c, m)) = Panic why) ∧
      (∀ r a d m', f [eax c; ebx c; ecx c; edx c; esi c; edi c; sp] m1 = Ret (r, a, d, m') →
         (∀ x, sp ≤ x < sp + frame_size c → word m' x = word m1 x) →
         syscall_wrapper f (trap (c, m)) = Ret (set_eax r c, <[(sp + 28)%Z := r]> m')).
Proof.
  intros Hc. destruct (syscall_delivered c m Hc) as (m1 & Hf & _ & H). exists m1. split; [exact Hf|].
  intros f. destruct (H f) as (H1 & _ & H2). by split.
Qed.

(** A page fault: the processor pushes an error code after the gate's words. *)
Definition fault_trap (error_code : Z) (s : machine) : machine := push error_code (trap s).

Lemma pushad_keeps c m a : esp c ≤ a → word (pushad (c, m)).2 a = word m a.
Proof.
  intros Ha. rewrite pushad_eq. destruct (stack_of_spec (pushad_values c) (esp c) m) as (_ & _ & H).
  apply H. by right.
Qed.

Lemma page_fault_wrapper_eq cr2 f c m :
  page_fault_wrapper cr2 f (c, m) =
    let s := pushad (c, m) in
    let code := word s.2 (esp s.1 + 32) in
    s ← call f 3 (foldl (λ s v, push v s) (set_ecx code (set_eax cr2 (set_ebx (esp s.1) s.1)), s.2)
                    [code; cr2; esp s.1]);
    Ret (iretd (popad (mov_esp_eax (add_esp 12 s)))).
Proof. unfold page_fault_wrapper. by destruct (pushad (c, m)) as [[] m1]. Qed.

(** The dispatcher is given the stack pointer [pushad] leaves, below the error code. *)
Lemma fault_delivered c m cr2 error_code :
  interruptible kernel_ss c →
  ∃ m1, let sp := frame_ptr esp0 c - 4 in
    (∀ a, ¬ trap_area c a → word m1 a = word m a) ∧
    ∀ f,
    (∀ why, f [sp; cr2; error_code] m1 = Panic why →
       page_fault_wrapper cr2 f (fault_trap error_code (c, m)) = Panic why) ∧
    (∀ s', page_fault_wrapper cr2 f (fault_trap error_code (c, m)) = Ret s' →
       ∃ sp' a d, f [sp; cr2; error_code] m1 = Ret (sp', a, d, s'.2)) ∧
    (∀ sp' a d m' c', f [sp; cr2; error_code] m1 = Ret (sp', a, d, m') → frame_at kernel_ss m' sp' c' →
       page_fault_wrapper cr2 f (fault_trap error_code (c, m)) = Ret (c', m')).
Proof.
  intros Hc. unfold fault_trap.
  assert (∃ c0 m0, trap (c, m) = (c0, m0) ∧ cs c0 mod 4 = 0 ∧ ss c0 = kernel_ss ∧ esp c0 = frame_ptr esp0 c + 32 ∧
    ∀ a, ¬ trap_area c a → word m0 a = word m a) as (c0 & m0 & -> & Hcs & Hss & Hesp & Hm0).
  { unfold trap. rewrite enter_gate_eq. do 2 eexists. split; [done|]. cbn [esp cs ss fst snd].
    set (top := if cs c mod 4 =? 3 then esp0 else esp c).
    destruct (stack_of_spec (gate_values c) top m) as (H & _ & H3).
    assert ((stack_of (gate_values c) (top, m)).1 = frame_ptr esp0 c + 32) as Hp.
    { rewrite H. unfold top, gate_values, frame_ptr, trap_stack. case_bool; cbn; lia. }
    split_and!; [exact kernel_ring| |exact Hp|].
    - destruct Hc as [Hr|[Hr Hss]]; rewrite Hr; [done|]. exact Hss.
    - intros a Ha%trap_area_outside. apply H3. rewrite Hp. lia. }
  change (push error_code (c0, m0)) with (set_esp (esp c0 - 4) c0, <[(esp c0 - 4)%Z := error_code]> m0).
  set (c1 := set_esp _ c0). set (m1 := <[(esp c0 - 4)%Z := error_code]> m0).
  assert (word (pushad (c1, m1)).2 (esp c1) = error_code) as Hcode.
  { rewrite pushad_keeps by done. apply word_here. }
  destruct (stack_of_spec (pushad_values c1) (esp c1) m1) as (Hsp & _ & Hkept).
  assert (esp (pushad (c1, m1)).1 = frame_ptr esp0 c - 4) as Hsp1.
  { rewrite pushad_eq. cbn [fst set_esp esp]. rewrite Hsp. unfold c1. cbn [length pushad_values esp set_esp]. lia. }
  assert (cs (pushad (c1, m1)).1 mod 4 = 0 ∧ ss (pushad (c1, m1)).1 = kernel_ss) as [Hcs1 Hss1] by done.
  assert (∀ a, ¬ trap_area c a → word (pushad (c1, m1)).2 a = word m a) as Hm2.
  { intros a Ha. rewrite pushad_eq. cbn [snd]. rewrite <- (Hm0 a Ha). apply trap_area_outside in Ha.
    rewrite <- frame_top in Ha. assert (44 ≤ frame_size c) by (unfold frame_size; case_bool; lia).
    rewrite Hkept by (rewrite Hsp; unfold c1; cbn [length pushad_values esp set_esp]; lia).
    unfold m1. apply word_there. lia. }
  setoid_rewrite page_fault_wrapper_eq. cbn zeta.
  replace (esp (pushad (c1, m1)).1 + 32) with (esp c1) by (unfold c1 at 1; cbn [esp set_esp]; lia).
  rewrite Hcode. clear Hcode Hsp Hkept.
  destruct (pushad (c1, m1)) as [c2 m2]. cbn [fst snd] in *. rewrite <- Hsp1.
  set (c3 := set_ecx _ _). destruct (stack_of_spec [error_code; cr2; esp c2] (esp c3) m2) as (Hs3 & _ & H3).
  exists (stack_of [error_code; cr2; esp c2] (esp c3, m2)).2. split.
  { intros a Ha. rewrite <- (Hm2 a Ha). apply trap_area_outside in Ha. rewrite <- frame_top in Ha.
    assert (44 ≤ frame_size c) by (unfold frame_size; case_bool; lia).
    apply H3. rewrite Hs3. unfold c3. cbn [length esp set_ecx set_eax set_ebx]. lia. }
  intros f. rewrite (call_pushed f [error_code; cr2; esp c2] c3 m2 3 eq_refl).
  change (reverse [error_code; cr2; esp c2]) with [esp c2; cr2; error_code].
  split_and!; [by intros why ->|intros s'|].
  - destruct (f _ _) as [[[[sp' a] d] m']| |]; [|done..]. intros [= <-]. by exists sp', a, d.
  - intros sp' a d m' c' -> Hf. cbn [mbind outcome_bind].
    unfold mov_esp_eax, add_esp. cbn [fst snd]. by rewrite (restore_frame kernel_ss c').
Qed.

(** C20. a page fault in the running user program kills that program and no
    other: the fault gate calls the dispatcher with the saved stack pointer, the
    fault address and the error code, the dispatcher removes the current task and
    names a ready kernel task, and the processor continues with the registers saved
    in that task's frame.  A fault with the user bit clear panics. *)
Theorem page_fault_kills_program ms tm c m cr2 error_code :
  sched_wf tm → has_kernel_task tm → interruptible kernel_ss c →
  ∃ sp m1,
    (Z.land error_code 0x4 = 0 →
       page_fault_dispatcher ms tm sp cr2 error_code = Panic (page_fault_text "KERNEL" cr2 error_code)) ∧
    (∀ t, let tm1 := ensure_main_task_tracked ms tm sp in
       Z.land error_code 0x4 ≠ 0 → tasks tm1 !! current_task_idx tm1 = Some t → privilege t = User →
       ∃ t' tm', page_fault_dispatcher ms tm sp cr2 error_code =
           Ret (stack_ptr t', tm', [serial_println ("EXCEPTION: " +:+ page_fault_text "USER" cr2 error_code)]) ∧
         tasks tm' !! current_task_idx tm' = Some t' ∧ privilege t' = Kernel ∧ state t' = Ready ∧
         id <$> tasks tm' = delete (current_task_idx tm1) (id <$> tasks tm1) ∧
         ∀ f a d m' c', f [sp; cr2; error_code] m1 = Ret (stack_ptr t', a, d, m') →
           frame_at kernel_ss m' (stack_ptr t') c' →
           page_fault_wrapper cr2 f (fault_trap error_code (c, m)) = Ret (c', m')).
Proof.
  intros Hwf Hk Hc. destruct (fault_delivered c m cr2 error_code Hc) as (m1 & _ & H).
  set (sp := frame_ptr esp0 c - 4) in *. exists sp, m1. split.
  - intros Hu. unfold page_fault_dispatcher. by rewrite Hu.
  - intros t tm1 Hu Ht Hp.
    destruct (fault_spec ms tm sp t Hwf Hk Ht)
      as [(Hp' & _)|(_ & tm2 & j & t' & Hts & Hj & Hst & Hp' & Hfault & _)]; [congruence|].
    exists t', (set_current j tm2). split_and!; try done.
    + unfold page_fault_dispatcher. rewrite (proj2 (Z.eqb_neq _ _) Hu). cbn [negb].
      by rewrite Hfault.
    + change (tasks (set_current j tm2)) with (tasks tm2).
      rewrite Hts, <- fmap_delete_list, <- list_fmap_compose. apply list_fmap_ext.
      intros i x _. apply wake_identity.
    + intros f a d m' c' Hf Hfr. by eapply H.
Qed.

(** C22. a new task starts at its entry point.  [Task::new] writes only the 44
    bytes at the top of the new stack; they are a frame, so the first time the
    scheduler returns the task's stack pointer the processor continues at
    [entry_point] in ring 0 with interrupts enabled, an empty stack and zero in
    every general register. *)
Theorem new_task_starts tid nm p entry_point sb cs mem :
  0 ≤ sb → sb + STACK_SIZE ≤ U32_MAX → cs mod 4 = 0 →
  let (t, mem') := Task_new tid nm p entry_point sb cs mem in
  let start := mkCpu 0 0 0 0 0 0 0 (sb + STACK_SIZE) entry_point cs 0x202 kernel_ss in
  state t = Ready ∧ stack_ptr t = sb + STACK_SIZE - 44 ∧
  (∀ a, a < stack_ptr t ∨ sb + STACK_SIZE ≤ a → word mem' a = word mem a) ∧
  ∀ c m f a d m', interruptible kernel_ss c →
    f [frame_ptr esp0 c] (timer_memory (c, m)) = Ret (stack_ptr t, a, d, m') →
    (∀ x, stack_ptr t ≤ x < sb + STACK_SIZE → word m' x = word mem' x) →
    timer_interrupt_wrapper f (trap (c, m)) = Ret (start, m').
Proof.
  intros Hlo Hhi Hcs. pose proof (new_task_frame kernel_ss tid nm p entry_point sb cs mem Hlo Hhi Hcs) as H.
  destruct (Task_new _ _ _ _ _ _ _) as [t mem'] eqn:Ht. destruct H as (Hsp & Hout & Hframe).
  split_and!; [by unfold Task_new in Ht; simplify_eq|done|done|].
  intros c m f a d m' Hc Hf Hm. destruct (timer_trap c m Hc) as (_ & _ & _ & H & _). eapply H; [exact Hf|].
  eapply frame_at_memory; [exact Hframe|]. intros x Hx. apply Hm.
  unfold frame_size in Hx. cbn [Interrupts.cs] in Hx. rewrite Hcs in Hx. cbn in Hx. lia.
Qed.

End Traps.

(** ** Witnesses of the traps *)

(** The running program, interrupted in ring 3, and a kernel thread. *)
Definition user_code : Cpu := mkCpu 1 50 3 0x400100 5 6 7 0x407FFC 0x400011 0x1B 0x202 0x23.
Definition kernel_code : Cpu := mkCpu 11 12 13 14 15 16 17 0x21F00 0x100040 0x08 0x202 0x10.

(** A callee that leaves memory alone and returns [v]. *)
Definition returning (v : Z) : callee := λ _ m, Ret (v, 0, 0, m).

Lemma syscall_returns_witness :
  ∃ m1 m', syscall_wrapper (returning 0) (trap 0x100 8 0x10 0x9000 (user_code, ∅)) = Ret (set_eax 0 user_code, m') ∧
    frame_at 0x10 m1 (frame_ptr 0x9000 user_code) user_code.
Proof.
  destruct (syscall_returns 0x100 8 0x10 0x9000 eq_refl user_code ∅) as (m1 & Hf & H); [left; reflexivity|].
  exists m1. eexists. split; [|exact Hf]. eapply H; [reflexivity|]. done.
Defined.

Lemma page_fault_kills_program_witness :
  ∃ sp t' tm', page_fault_dispatcher 0x30000 boot_tm sp 0x500000 4 =
      Ret (stack_ptr t', tm', [serial_println ("EXCEPTION: " +:+ page_fault_text "USER" 0x500000 4)]) ∧
    privilege t' = Kernel.
Proof.
  destruct (booted_wf _ boot_tm_booted) as [Hwf Hk].
  destruct (page_fault_kills_program 0x100 8 0x10 0x9000 eq_refl 0x30000 boot_tm user_code ∅ 0x500000 4 Hwf Hk)
    as (sp & m1 & _ & H); [left; reflexivity|].
  destruct (H (placeholder_main 0x30000 sp)) as (t' & tm' & Hd & _ & Hp & _); [discriminate|reflexivity|reflexivity|].
  exists sp, t', tm'. split; [exact Hd|exact Hp].
Defined.

Lemma new_task_starts_witness :
  let (t, mem') := Task_new 2 "background_thread" Kernel 0x100000 0x20000 8 ∅ in
  timer_interrupt_wrapper (λ _ _, Ret (stack_ptr t, 0, 0, mem')) (trap 0x100 8 0x10 0x9000 (user_code, ∅)) =
    Ret (mkCpu 0 0 0 0 0 0 0 0x22000 0x100000 8 0x202 0x10, mem').
Proof.
  assert (0x20000 + STACK_SIZE ≤ U32_MAX) as H2 by (unfold STACK_SIZE, U32_MAX; lia).
  pose proof (new_task_starts 0x100 8 0x10 0x9000 eq_refl 2 "background_thread" Kernel 0x100000 0x20000 8 ∅
    ltac:(lia) H2 eq_refl) as H.
  cbv beta iota zeta delta [Task_new] in H |- *. destruct H as (_ & _ & _ & H).
  eapply (H user_code); [left; reflexivity|reflexivity|done].
Defined.

(** ** Handlers and critical sections *)

(** the keyboard interrupt queues the scan code behind those waiting, or
    drops it when 128 are waiting, never panics, and acknowledges the interrupt at
    the first controller only; a section under [without_interrupts] that leaves
    interrupts off returns its result with the interrupt flag as it was, also when
    such sections nest. *)
Theorem keyboard_irq_queued q scancode :
  queue_wf q →
  (∃ q', keyboard_interrupt_handler scancode q = Ret (q', [mkOut 0x20 0x20]) ∧ queue_wf q' ∧
     contents q' = if (len q =? 128)%nat then contents q else contents q ++ [scancode]) ∧
  ∀ A (f : bool → A * bool) flag, (f false).2 = false →
    without_interrupts f flag = ((f false).1, flag) ∧
    without_interrupts (without_interrupts f) flag = ((f false).1, flag).
Proof.
  intros Hq. split.
  - destruct (push_spec scancode q Hq) as (q' & Hp & Hwf & Hc). exists q'.
    unfold keyboard_interrupt_handler, enqueue_scancode_from_irq. rewrite Hp. done.
  - intros A f flag Hf. unfold without_interrupts. destruct (f false) as [r b]. cbn in *. subst b.
    by destruct flag.
Qed.

Lemma keyboard_irq_queued_witness :
  ∃ q', keyboard_interrupt_handler 0x1E ScancodeQueue_new = Ret (q', [mkOut 0x20 0x20]) ∧ contents q' = [0x1E].
Proof.
  destruct (keyboard_irq_queued ScancodeQueue_new 0x1E new_queue_wf) as [(q' & H1 & _ & H2) _].
  exists q'. split; [exact H1|exact H2].
Defined.
