(* ===== verification/Exceptions.v ===== *)
(** * The processor exceptions: [src/interrupts.rs], [InterruptStackFrame] of [src/idt.rs]

    The [x86-interrupt] handlers of the exceptions other than the page fault, the
    frame they are given, and the way the processor reaches them through the table
    [init_idt] builds.  What such a handler does besides its Rust body (save and
    restore every register, drop the error code and return with [iretd]) is its
    calling convention; the memory below the frame, where the compiled code keeps
    its own data, is left to the parameter [spill]. *)

From S2P Require Import Prelude Machine Task Descriptors Interrupts.
Local Open Scope Z_scope.

(** ** The frame and the handlers *)

Record InterruptStackFrame := mkStackFrame {
  instruction_pointer : Z;
  code_segment : Z;
  cpu_flags : Z;
  stack_pointer : Z;
  stack_segment : Z;
}.

(** The structure at an address: the words the gate pushed, the last two of them
    meaningful only if it switched stacks. *)
Definition frame_of (m : words) (sp : Z) : InterruptStackFrame :=
  mkStackFrame (word m sp) (word m (sp + 4)) (word m (sp + 8)) (word m (sp + 12)) (word m (sp + 16)).

(** The derived [{:#?}]. *)
Definition debug_field (name : string) (v : Z) : string := "    " +:+ name +:+ ": " +:+ dec v +:+ "," +:+ newline.
Definition debug_frame (f : InterruptStackFrame) : string :=
  "InterruptStackFrame {" +:+ newline +:+
  debug_field "instruction_pointer" (instruction_pointer f) +:+
  debug_field "code_segment" (code_segment f) +:+
  debug_field "cpu_flags" (cpu_flags f) +:+
  debug_field "stack_pointer" (stack_pointer f) +:+
  debug_field "stack_segment" (stack_segment f) +:+ "}".

(** How a handler ends: in [loop {}], or by returning. *)
Inductive ending := Loops | Returns.

Definition default_exception_handler (frame : InterruptStackFrame) : list output * ending :=
  ([serial_println ("EXCEPTION: Unhandled CPU exception" +:+ newline +:+ debug_frame frame)], Loops).

Definition default_exception_with_code_handler (frame : InterruptStackFrame) (error_code : Z) : list output * ending :=
  ([serial_println ("EXCEPTION: Unhandled CPU exception with error code " +:+ Gdt.hex error_code +:+ newline +:+
      debug_frame frame)], Loops).

Definition breakpoint_handler (frame : InterruptStackFrame) : list output * ending :=
  ([serial_println ("EXCEPTION: BREAKPOINT" +:+ newline +:+ debug_frame frame)], Returns).

Definition gpf_handler (frame : InterruptStackFrame) (error_code : Z) : list output * ending :=
  ([serial_println ("EXCEPTION: General Protection Fault! ErrCode=" +:+ Gdt.hex error_code +:+ newline +:+
      debug_frame frame)], Loops).

Definition double_fault_handler (frame : InterruptStackFrame) (error_code : Z) : list output * ending :=
  ([serial_println ("EXCEPTION: Double Fault! ErrCode=" +:+ Gdt.hex error_code +:+ newline +:+
      debug_frame frame)], Loops).

(** The types [HandlerFunc] and [HandlerFuncWithCode]. *)
Inductive exception_handler :=
| HandlerFunc (f : InterruptStackFrame → list output * ending)
| HandlerFuncWithCode (f : InterruptStackFrame → Z → list output * ending).

Definition takes_code (f : exception_handler) : bool :=
  match f with HandlerFunc _ => false | HandlerFuncWithCode _ => true end.

Definition call_handler (f : exception_handler) (frame : InterruptStackFrame) (error_code : Z) : list output * ending :=
  match f with HandlerFunc f => f frame | HandlerFuncWithCode f => f frame error_code end.

(** The function at an address. *)
Definition handler_at (h : Idt.Handlers) (p : Z) : option exception_handler :=
  if p =? Idt.default_exception h then Some (HandlerFunc default_exception_handler) else
  if p =? Idt.default_exception_with_code h then Some (HandlerFuncWithCode default_exception_with_code_handler) else
  if p =? Idt.breakpoint h then Some (HandlerFunc breakpoint_handler) else
  if p =? Idt.gpf h then Some (HandlerFuncWithCode gpf_handler) else
  if p =? Idt.double_fault h then Some (HandlerFuncWithCode double_fault_handler) else None.

(** ** Taking an exception *)

(** The machine goes on, or the processor stays in [loop {}] with interrupts off. *)
Inductive aftermath := Resumed (s : machine) | Stopped.

Section Exceptions.
Context (h : Idt.Handlers) (kernel_ss esp0 : Z).
Context (spill : machine → words).

(** An [x86-interrupt] function on the stack it finds, the error code on top of
    the frame if it takes one. *)
Definition x86_interrupt (f : exception_handler) (s : machine) : list output * aftermath :=
  let '(c, m) := s in
  let s' := if takes_code f then add_esp 4 s else s in
  let '(out, e) := call_handler f (frame_of m (esp s'.1)) (word m (esp c)) in
  (out, match e with Loops => Stopped | Returns => Resumed (iretd (s'.1, spill s')) end).

(** An exception through the gate of its vector, if that leads to one of these
    handlers. *)
Definition take_exception (idt : list Idt.IdtEntry) (vector : nat) (error_code : Z) (s : machine) :
    option (list output * aftermath) :=
  g ← Idt.gate_of idt vector;
  f ← handler_at h (Idt.g_offset g);
  let s := enter_gate (Idt.g_offset g) (Idt.g_selector g) kernel_ss esp0 s in
  let s := if pushes_error_code vector then push error_code s else s in
  Some (x86_interrupt f s).

End Exceptions.

(** ** Lemmas *)

(** What each vector's handler is. *)
Definition exception_of (vector : nat) : exception_handler :=
  if (vector =? 3)%nat then HandlerFunc breakpoint_handler else
  if (vector =? 8)%nat then HandlerFuncWithCode double_fault_handler else
  if (vector =? 13)%nat then HandlerFuncWithCode gpf_handler else
  if pushes_error_code vector then HandlerFuncWithCode default_exception_with_code_handler
  else HandlerFunc default_exception_handler.

Definition handler_addresses (h : Idt.Handlers) : list Z :=
  [Idt.default_exception h; Idt.default_exception_with_code h; Idt.breakpoint h; Idt.gpf h; Idt.double_fault h].

Lemma exception_dispatch h v :
  NoDup (handler_addresses h) → (v < 32)%nat → v ≠ 14%nat →
  ∃ p, handler_of h v = Some p ∧ handler_at h p = Some (exception_of v) ∧
    takes_code (exception_of v) = pushes_error_code v.
Proof.
  intros Hnd Hv H14. unfold handler_addresses in Hnd. repeat setoid_rewrite NoDup_cons in Hnd.
  destruct Hnd as (N1 & N2 & N3 & N4 & _). repeat setoid_rewrite not_elem_of_cons in N1.
  repeat setoid_rewrite not_elem_of_cons in N2. repeat setoid_rewrite not_elem_of_cons in N3.
  repeat setoid_rewrite not_elem_of_cons in N4. destruct_and!.
  assert (v ∈ seq 0 32) as Hin by (apply elem_of_seq; lia).
  cbn [seq] in Hin. clear Hv. unfold handler_at.
  repeat (apply elem_of_cons in Hin as [->|Hin];
    [first [done|eexists; split; [reflexivity|]; split; [|reflexivity];
       rewrite ?Z.eqb_refl, ?(proj2 (Z.eqb_neq _ _)) by done; reflexivity]|]).
  by apply elem_of_nil in Hin.
Qed.

(** The frame a gate leaves. *)
Definition describes (c : Cpu) (f : InterruptStackFrame) : Prop :=
  instruction_pointer f = eip c ∧ code_segment f = cs c ∧ cpu_flags f = eflags c ∧
  (cs c mod 4 = 3 → stack_pointer f = esp c ∧ stack_segment f = ss c).

Lemma gate_frame handler kernel_cs kernel_ss esp0 c m :
  interruptible kernel_ss c → kernel_cs mod 4 = 0 →
  let s := enter_gate handler kernel_cs kernel_ss esp0 (c, m) in
  describes c (frame_of s.2 (esp s.1)) ∧
  ∀ m', (∀ a, esp s.1 ≤ a → word m' a = word s.2 a) → iretd (s.1, m') = (c, m').
Proof.
  unfold interruptible. intros Hc Hk. rewrite enter_gate_eq. cbn zeta. set (top := if cs c mod 4 =? 3 then esp0 else esp c).
  destruct (stack_of_spec (gate_values c) top m) as (Hsp & H & _).
  destruct (stack_of (gate_values c) (top, m)) as [sp m1] eqn:Hst. cbn [fst snd esp] in *. clear Hst.
  assert (reverse (gate_values c) = [eip c; cs c; eflags c] ++ (if cs c mod 4 =? 3 then [esp c; ss c] else [])) as Hrev.
  { unfold gate_values. by case_bool. }
  rewrite Hrev in H. frame_word H 0%nat. frame_word H 1%nat. frame_word H 2%nat. rewrite Z.add_0_r in Hw.
  destruct c as [cax ccx cdx cbx cbp csi cdi csp cip ccs cfl css].
  cbn [eax ecx edx ebx ebp esi edi esp eip cs eflags ss] in *.
  destruct Hc as [Hr|[Hr ->]]; cbn [Interrupts.cs Interrupts.ss] in *; rewrite Hr in *; cbn [Z.eqb Pos.eqb] in *.
  - frame_word H 3%nat. frame_word H 4%nat. split; [by unfold describes, frame_of|].
    intros m' Hm. unfold iretd. cbn [eax ecx edx ebx ebp esi edi esp eip cs eflags ss].
    rewrite !Hm by lia. by rewrite Hw, Hw0, Hw1, Hw2, Hw3, Hr, Hk.
  - split; [unfold describes, frame_of; by cbn [Interrupts.cs]; rewrite Hr|].
    intros m' Hm. unfold iretd. cbn [eax ecx edx ebx ebp esi edi esp eip cs eflags ss].
    rewrite !Hm by lia. rewrite Hw, Hw0, Hw1, Hr, Hk. cbn. do 2 f_equal.
    unfold top in Hsp. cbn in Hsp. unfold gate_values in Hsp. cbn [Interrupts.cs] in Hsp. rewrite Hr in Hsp. cbn in Hsp. lia.
Qed.

(** What is reported about each vector. *)
Definition exception_text (vector : nat) (error_code : Z) : string :=
  if (vector =? 3)%nat then "EXCEPTION: BREAKPOINT" else
  if (vector =? 8)%nat then "EXCEPTION: Double Fault! ErrCode=" +:+ Gdt.hex error_code else
  if (vector =? 13)%nat then "EXCEPTION: General Protection Fault! ErrCode=" +:+ Gdt.hex error_code else
  if pushes_error_code vector
  then "EXCEPTION: Unhandled CPU exception with error code " +:+ Gdt.hex error_code
  else "EXCEPTION: Unhandled CPU exception".

(** The handler of a vector on the stack of its exception. *)
Lemma handler_reports v error_code spill c1 m1 :
  takes_code (exception_of v) = pushes_error_code v →
  x86_interrupt spill (exception_of v) (if pushes_error_code v then push error_code (c1, m1) else (c1, m1)) =
    ([serial_println (exception_text v error_code +:+ newline +:+ debug_frame (frame_of m1 (esp c1)))],
     if (v =? 3)%nat then Resumed (iretd (c1, spill (c1, m1))) else Stopped).
Proof.
  intros Hcode. rewrite <- Hcode.
  assert (∀ e, frame_of (<[(esp c1 - 4)%Z := e]> m1) (esp c1 - 4 + 4) = frame_of m1 (esp c1)) as Hpush.
  { intros e. replace (esp c1 - 4 + 4) with (esp c1) by lia. unfold frame_of. by rewrite !word_there by lia. }
  unfold exception_text. rewrite <- Hcode.
  unfold exception_of. repeat case_match; cbn [takes_code]; unfold x86_interrupt; cbn;
    rewrite ?Hpush, ?word_here, <- ?string_app_assoc; try done.
Qed.

(** ** Claims *)

(** C21. every exception reaches its handler with the stack the handler expects.
    Whatever the processor was executing, in ring 0 or ring 3, an exception other
    than the page fault is reported on the serial port once, with its error code and
    the interrupted instruction pointer, code segment and flags (and the interrupted
    stack, when it comes from ring 3).  After a breakpoint the processor continues
    with exactly the registers it had; after any other exception, also one the
    ring 3 program causes, the kernel stops. *)
Theorem exceptions_reported h kernel_cs kernel_ss esp0 spill idt_addr idt lidt out v error_code c m :
  handlers_ok h → NoDup (handler_addresses h) → kernel_cs mod 4 = 0 →
  (∀ s a, esp s.1 ≤ a → word (spill s) a = word s.2 a) →
  Idt.init_idt kernel_cs h idt_addr = Ret (idt, lidt, out) →
  (v < 32)%nat → v ≠ 14%nat → interruptible kernel_ss c →
  ∃ frame s', describes c frame ∧
    take_exception h kernel_ss esp0 spill idt v error_code (c, m) =
      Some ([serial_println (exception_text v error_code +:+ newline +:+ debug_frame frame)], s') ∧
    if (v =? 3)%nat then ∃ m', s' = Resumed (c, m') else s' = Stopped.
Proof.
  intros Hh Hnd Hk Hspill Hinit Hv H14 Hc. rewrite init_idt_table in Hinit.
  assert (idt = entry_for kernel_cs h <$> seq 0 256) as -> by congruence.
  destruct (exception_dispatch h v Hnd Hv H14) as (p & Hp & Hf & Hcode).
  unfold take_exception. rewrite (gate_of_entry kernel_cs h v _ Hh eq_refl), Hp.
  rewrite (proj2 (Nat.ltb_lt v 256)) by lia. cbn [fmap option_fmap option_map mbind option_bind Idt.g_offset Idt.g_selector].
  rewrite Hf. cbn [mbind option_bind].
  destruct (gate_frame p kernel_cs kernel_ss esp0 c m Hc Hk) as [Hd Hret].
  destruct (enter_gate _ _ _ _ _) as [c1 m1]. cbn [fst snd] in *.
  exists (frame_of m1 (esp c1)). eexists. split; [done|]. split; [by rewrite handler_reports|].
  case_match; [|done]. eexists. f_equal. apply Hret. intros a Ha. by apply (Hspill (c1, m1)).
Qed.

(** [int3] in the kernel, and a privileged instruction in the ring 3 program. *)
Lemma exceptions_reported_witness :
  let h := Idt.mkHandlers 0x101000 0x101100 0x101200 0x101300 0x101400 0x101500 0x101600 0x101700 0x101800 in
  let idt := entry_for 8 h <$> seq 0 256 in
  (∃ frame m', take_exception h 0x10 0x9000 snd idt 3 0 (kernel_code, ∅) =
     Some ([serial_println ("EXCEPTION: BREAKPOINT" +:+ newline +:+ debug_frame frame)], Resumed (kernel_code, m'))) ∧
  ∃ frame, instruction_pointer frame = eip user_code ∧
    take_exception h 0x10 0x9000 snd idt 13 0 (user_code, ∅) =
      Some ([serial_println ("EXCEPTION: General Protection Fault! ErrCode=0x0" +:+ newline +:+ debug_frame frame)], Stopped).
Proof.
  intros h idt.
  assert (handlers_ok h) as Hh by (unfold handlers_ok, is_u32, U32_MAX; cbn; repeat constructor; lia).
  assert (NoDup (handler_addresses h)) as Hnd by (apply (bool_decide_unpack _); reflexivity).
  split.
  - destruct (exceptions_reported h 8 0x10 0x9000 snd 0x150000 idt _ _ 3 0 kernel_code ∅ Hh Hnd eq_refl
      (λ _ _ _, eq_refl) (init_idt_table 8 h 0x150000)) as (f & s' & _ & H & m' & ->);
      [lia|lia|right; split; reflexivity|]. exists f, m'. exact H.
  - destruct (exceptions_reported h 8 0x10 0x9000 snd 0x150000 idt _ _ 13 0 user_code ∅ Hh Hnd eq_refl
      (λ _ _ _, eq_refl) (init_idt_table 8 h 0x150000)) as (f & s' & (Hip & _) & H & ->);
      [lia|lia|left; reflexivity|]. exists f. split; [exact Hip|exact H].
Defined.
