(* ===== verification/UserProg.v ===== *)
(** * The ring 3 program: [install_user_program] of [src/main.rs]

    The program as the bytes the kernel assembles into the user pages, and the
    processor's execution of the three kinds of instruction it consists of (Intel
    SDM vol. 2), with the system calls going to [Syscall.syscall_dispatcher]. *)

From S2P Require Import Prelude Machine Task TaskProps Scheduler Paging Syscall Interrupts.
Local Open Scope Z_scope.

Definition USER_CODE_ADDR : Z := USER_SPACE_START.
Definition USER_MSG_ADDR : Z := USER_SPACE_START + 0x100.

(** ** Assembling the program *)

Definition write_u32_le (buf : list Z) (offset : nat) (value : Z) : outcome (list Z) :=
  buf ← vec_set buf offset (as_u8 (Z.land value 0xFF));
  buf ← vec_set buf (offset + 1) (as_u8 (Z.land (Z.shiftr value 8) 0xFF));
  buf ← vec_set buf (offset + 2) (as_u8 (Z.land (Z.shiftr value 16) 0xFF));
  vec_set buf (offset + 3) (as_u8 (Z.land (Z.shiftr value 24) 0xFF)).

(** [value as i32] of a wider integer. *)
Definition as_i32 (z : Z) : Z := let u := as_u32 z in if u <? 0x80000000 then u else u - 0x100000000.

Definition write_i32_le (buf : list Z) (offset : nat) (value : Z) : outcome (list Z) :=
  write_u32_le buf offset (as_u32 value).

(** The buffer and the cursor after the call. *)
Definition emit_mov_imm32 (code : list Z) (cursor : nat) (opcode imm : Z) : outcome (list Z * nat) :=
  code ← vec_set code cursor opcode;
  let cursor := (cursor + 1)%nat in
  code ← write_u32_le code cursor imm;
  Ret (code, cursor + 4)%nat.

(** [core::ptr::write_bytes] and [core::ptr::copy_nonoverlapping]. *)
Definition write_bytes (a v n : Z) (m : memory) : memory :=
  λ b, if (a <=? b) && (b <? a + n) then v else m b.
Definition copy_bytes (l : list Z) (a : Z) (m : memory) : memory :=
  λ b, if (a <=? b) && (b <? a + Z.of_nat (length l)) then default 0 (l !! Z.to_nat (b - a)) else m b.

Definition msg : string := "Ring 3 online via isolated user pages + sys_sleep.".

(** The code buffer and how much of it is used. *)
Definition assemble : outcome (list Z * nat) :=
  let code := replicate 64 0 in
  '(code, i) ← emit_mov_imm32 code 0 0xB8 1;
  '(code, i) ← emit_mov_imm32 code i 0xBB USER_MSG_ADDR;
  '(code, i) ← emit_mov_imm32 code i 0xB9 (Z.of_nat (String.length msg));
  code ← vec_set code i 0xCD;
  code ← vec_set code (i + 1) 0x80;
  let i := (i + 2)%nat in
  let loop_start := i in
  '(code, i) ← emit_mov_imm32 code i 0xB8 3;
  '(code, i) ← emit_mov_imm32 code i 0xBB 20;
  code ← vec_set code i 0xCD;
  code ← vec_set code (i + 1) 0x80;
  let i := (i + 2)%nat in
  code ← vec_set code i 0xE9;
  let next_ip := USER_CODE_ADDR + Z.of_nat i + 5 in
  let target_ip := USER_CODE_ADDR + Z.of_nat loop_start in
  let rel := as_i32 (target_ip - next_ip) in
  code ← write_i32_le code (i + 1) rel;
  Ret (code, (i + 5)%nat).

Definition install_user_program (m : memory) : outcome (Z * memory) :=
  let m := write_bytes USER_CODE_ADDR 0 512 m in
  let m := write_bytes USER_MSG_ADDR 0 128 m in
  let m := copy_bytes (bytes_of_string msg) USER_MSG_ADDR m in
  '(code, i) ← assemble;
  Ret (USER_CODE_ADDR, copy_bytes (take i code) USER_CODE_ADDR m).

(** ** Execution in ring 3 *)

Definition set_eip (v : Z) (c : Cpu) : Cpu :=
  mkCpu (eax c) (ecx c) (edx c) (ebx c) (ebp c) (esi c) (edi c) (esp c) v (cs c) (eflags c) (ss c).

Inductive event :=
| Step (c : Cpu)
| SoftwareInterrupt (vector : Z) (c : Cpu).

(** One instruction, fetched from the user pages: [mov r32, imm32], [int imm8] or
    [jmp rel32].  Anything else, and any other fetch, faults. *)
Definition execute (m : memory) (c : Cpu) : option event :=
  let op := m (eip c) in
  let imm := read_u32 m (eip c + 1) in
  if (op =? 0xB8) && user_range_contains (eip c) 5 then Some (Step (set_eip (eip c + 5) (set_eax imm c))) else
  if (op =? 0xBB) && user_range_contains (eip c) 5 then Some (Step (set_eip (eip c + 5) (set_ebx imm c))) else
  if (op =? 0xB9) && user_range_contains (eip c) 5 then Some (Step (set_eip (eip c + 5) (set_ecx imm c))) else
  if (op =? 0xE9) && user_range_contains (eip c) 5 then Some (Step (set_eip (as_u32 (eip c + 5 + imm)) c)) else
  if (op =? 0xCD) && user_range_contains (eip c) 2
  then Some (SoftwareInterrupt (m (eip c + 1)) (set_eip (eip c + 2) c)) else
  None.

(** Up to the next software interrupt, at most [fuel] instructions away. *)
Fixpoint to_interrupt (fuel : nat) (m : memory) (c : Cpu) : option (Z * Cpu) :=
  match fuel with
  | O => None
  | S fuel =>
    e ← execute m c;
    match e with
    | Step c => to_interrupt fuel m c
    | SoftwareInterrupt v c => Some (v, c)
    end
  end.

(** ** The program under the kernel

    The states are the processor's registers while the program runs and the
    scheduler's state.  Between two instructions the timer may interrupt, other
    tasks may run and change the scheduler in any way, and the program is resumed
    with its registers ([Preemption.preempted_task_resumes]); a system call goes to
    the dispatcher with the registers as arguments and comes back with the result in
    [eax] ([Interrupts.syscall_returns]). *)

Section Running.
Context (esp0 main_stack : Z) (m : memory).

Inductive user_step : Cpu * TaskManager → list output → Cpu * TaskManager → Prop :=
| us_instruction c tm c' :
    execute m c = Some (Step c') → user_step (c, tm) [] (c', tm)
| us_syscall c tm c' r out tm' :
    execute m c = Some (SoftwareInterrupt 0x80 c') →
    syscall_dispatcher main_stack m tm (eax c') (ebx c') (ecx c') (edx c') (esi c') (edi c')
      (frame_ptr esp0 c') = (r, out, tm') →
    user_step (c, tm) out (set_eax r c', tm')
| us_others c tm tm' :
    user_step (c, tm) [] (c, tm').

(** A run and what it prints. *)
Inductive user_run : Cpu * TaskManager → list output → Cpu * TaskManager → Prop :=
| ur_refl s : user_run s [] s
| ur_step s out s' out' s'' :
    user_run s out s' → user_step s' out' s'' → user_run s (out ++ out') s''.

End Running.

(** ** The assembled bytes *)

Definition program : list Z :=
  [0xB8; 1; 0; 0; 0;  0xBB; 0; 1; 0x40; 0;  0xB9; 50; 0; 0; 0;  0xCD; 0x80;
   0xB8; 3; 0; 0; 0;  0xBB; 20; 0; 0; 0;  0xCD; 0x80;  0xE9; 0xEF; 0xFF; 0xFF; 0xFF].

Lemma assemble_program : ∃ code, assemble = Ret (code, 34%nat) ∧ take 34 code = program.
Proof. eexists. split; reflexivity. Qed.

(** ** The program's progress *)

Section Program.
Context (m0 m : memory) (installed : install_user_program m0 = Ret (USER_CODE_ADDR, m)).

Definition banner : list output :=
  [println ("[Ring 3] " +:+ msg); serial_println ("[Syscall SYS_PRINT] " +:+ msg)].

(** Where the program may be, with the registers it has set up and what it has
    printed by then. *)
Inductive at_point : Cpu → list output → Prop :=
| at_start c : eip c = 0x400000 → at_point c []
| at_5 c : eip c = 0x400005 → eax c = 1 → at_point c []
| at_10 c : eip c = 0x40000A → eax c = 1 → ebx c = USER_MSG_ADDR → at_point c []
| at_print c : eip c = 0x40000F → eax c = 1 → ebx c = USER_MSG_ADDR → ecx c = 50 → at_point c []
| at_loop c : eip c = 0x400011 → at_point c banner
| at_22 c : eip c = 0x400016 → eax c = 3 → at_point c banner
| at_sleep c : eip c = 0x40001B → eax c = 3 → ebx c = 20 → at_point c banner
| at_jump c : eip c = 0x40001D → at_point c banner.

Lemma installed_memory :
  m = copy_bytes program USER_CODE_ADDR
        (copy_bytes (bytes_of_string msg) USER_MSG_ADDR (write_bytes USER_MSG_ADDR 0 128 (write_bytes USER_CODE_ADDR 0 512 m0))).
Proof.
  unfold install_user_program in installed. destruct assemble_program as (code & Ha & Ht). rewrite Ha in installed.
  cbn [mbind outcome_bind] in installed. rewrite Ht in installed. by injection installed as <-.
Qed.

(** The instruction at each point. *)
Lemma execute_at_point c out :
  at_point c out →
  (∃ c', execute m c = Some (Step c') ∧ at_point c' out) ∨
  (∃ c', execute m c = Some (SoftwareInterrupt 0x80 c') ∧
     ((out = [] ∧ eax c' = 1 ∧ ebx c' = USER_MSG_ADDR ∧ ecx c' = 50 ∧ ∀ r, at_point (set_eax r c') banner) ∨
      (out = banner ∧ eax c' = 3 ∧ ebx c' = 20 ∧ ∀ r, at_point (set_eax r c') banner))).
Proof.
  rewrite installed_memory.
  destruct 1 as [c Hip|c Hip Ha|c Hip Ha Hb|c Hip Ha Hb Hc|c Hip|c Hip Ha|c Hip Ha Hb|c Hip];
    unfold execute; rewrite Hip.
  - left. eexists. split; [reflexivity|]. by apply at_5.
  - left. eexists. split; [reflexivity|]. by apply at_10.
  - left. eexists. split; [reflexivity|]. by apply at_print.
  - right. eexists. split; [reflexivity|]. left. split_and!; try done. intros r. by apply at_loop.
  - left. eexists. split; [reflexivity|]. by apply at_22.
  - left. eexists. split; [reflexivity|]. by apply at_sleep.
  - right. eexists. split; [reflexivity|]. right. split_and!; try done. intros r. by apply at_jump.
  - left. eexists. split; [reflexivity|]. by apply at_loop.
Qed.

Lemma print_call ms tm esi edi edx sp :
  syscall_dispatcher ms m tm 1 USER_MSG_ADDR 50 edx esi edi sp = (0, banner, tm).
Proof.
  rewrite installed_memory. unfold syscall_dispatcher.
  change (validate_user_buffer USER_MSG_ADDR 50) with (Ok (T:=Z * Z) (E:=Z) (USER_MSG_ADDR, 50)). cbv iota beta zeta.
  change (1 =? 1) with true. cbv iota.
  match goal with |- context [from_utf8 ?l] => assert (from_utf8 l = Some msg) as -> by reflexivity end.
  done.
Qed.

Lemma run_at_point esp0 ms s out s' :
  user_run esp0 ms m s out s' → ∀ out0, at_point s.1 out0 → at_point s'.1 (out0 ++ out).
Proof.
  induction 1 as [s|s out s' out' s'' _ IH Hstep]; intros out0 Hs; [by rewrite app_nil_r|].
  specialize (IH out0 Hs). rewrite app_assoc. revert IH. generalize (out0 ++ out). clear out0 out Hs s.
  intros out Hp.
  destruct Hstep as [c tm c' He|c tm c' r out' tm' He Hd|c tm tm']; cbn [fst] in *.
  - rewrite app_nil_r. destruct (execute_at_point c out Hp) as [(c1 & He1 & Hp1)|(c1 & He1 & _)]; by simplify_eq.
  - destruct (execute_at_point c out Hp) as [(c1 & He1 & _)|(c1 & He1 & H)]; simplify_eq.
    destruct H as [(-> & Ha & Hb & Hc & H)|(-> & Ha & Hb & H)]; rewrite Ha, Hb in Hd.
    + rewrite Hc, print_call in Hd. injection Hd as <- <- <-. apply H.
    + unfold syscall_dispatcher in Hd. cbn [Z.eqb Pos.eqb] in Hd.
      destruct (sleep_current_task _ _ _ _) as [b tm1]. injection Hd as <- <- <-. rewrite app_nil_r. apply H.
  - by rewrite app_nil_r.
Qed.

(** Every point is at most four instructions from the next system call. *)
Lemma point_calls c out :
  at_point c out →
  ∃ c', to_interrupt 4 m c = Some (0x80, c') ∧
    ((out = [] ∧ eax c' = 1 ∧ ebx c' = USER_MSG_ADDR ∧ ecx c' = 50) ∨ (out = banner ∧ eax c' = 3 ∧ ebx c' = 20)).
Proof.
  rewrite installed_memory.
  destruct 1 as [c Hip|c Hip Ha|c Hip Ha Hb|c Hip Ha Hb Hc|c Hip|c Hip Ha|c Hip Ha Hb|c Hip];
    destruct c as [cax ccx cdx cbx cbp csi cdi csp cip ccs cfl css]; cbn in *; subst;
    (eexists; split; [reflexivity|]); cbn; auto.
Qed.

End Program.

Lemma install_returns m0 :
  ∃ m, install_user_program m0 = Ret (USER_CODE_ADDR, m) ∧
    ∀ a, a < USER_CODE_ADDR ∨ USER_CODE_ADDR + 512 ≤ a → m a = m0 a.
Proof.
  unfold install_user_program. destruct assemble_program as (code & -> & Ht). cbn [mbind outcome_bind].
  rewrite Ht. eexists. split; [done|]. intros a Ha. unfold copy_bytes, write_bytes.
  change (length program) with 34%nat. change (length (bytes_of_string msg)) with 50%nat.
  unfold USER_MSG_ADDR, USER_CODE_ADDR, USER_SPACE_START in *.
  repeat match goal with |- context [(?x <=? ?y) && (?y <? ?z)] =>
    replace ((x <=? y) && (y <? z)) with false by (symmetry; apply andb_false_iff; rewrite Z.leb_gt, Z.ltb_ge; lia)
  end. done.
Qed.

(** C11. the ring 3 program prints its line once and then only sleeps.
    [install_user_program] returns and writes only the first 512 bytes of the user
    pages.  Started at the address it returns, with any registers, and under any
    interleaving with interrupts, other tasks and any scheduler state, the program
    has printed nothing or exactly its line, on the screen and the serial port; it
    never faults, since it is always at most four instructions from a system call,
    which is the print while it has printed nothing and a sleep of 20 ticks ever
    after. *)
Theorem user_program_behaves m0 esp0 ms :
  ∃ m, install_user_program m0 = Ret (USER_CODE_ADDR, m) ∧
    (∀ a, a < USER_CODE_ADDR ∨ USER_CODE_ADDR + 512 ≤ a → m a = m0 a) ∧
    ∀ c0 tm0 out c tm, eip c0 = USER_CODE_ADDR → user_run esp0 ms m (c0, tm0) out (c, tm) →
      ∃ c', to_interrupt 4 m c = Some (0x80, c') ∧
        ((out = [] ∧ eax c' = 1 ∧ ebx c' = USER_MSG_ADDR ∧ ecx c' = Z.of_nat (String.length msg)) ∨
         (out = [println ("[Ring 3] " +:+ msg); serial_println ("[Syscall SYS_PRINT] " +:+ msg)] ∧
          eax c' = 3 ∧ ebx c' = 20)).
Proof.
  destruct (install_returns m0) as (m & Hm & Hout). exists m. split; [done|]. split; [done|].
  intros c0 tm0 out c tm Hip Hrun.
  apply (point_calls m0 m Hm c out), (run_at_point m0 m Hm _ _ _ _ _ Hrun []), at_start, Hip.
Qed.

(** From the first instruction to after the print. *)
Lemma user_program_behaves_witness :
  ∃ m c c', install_user_program (λ _, 0) = Ret (USER_CODE_ADDR, m) ∧
    user_run 0x9000 0x30000 m (mkCpu 0 0 0 0 0 0 0 USER_STACK_TOP USER_CODE_ADDR 0x1B 0x202 0x23, boot_tm) banner (c, boot_tm) ∧
    to_interrupt 4 m c = Some (0x80, c') ∧ eax c' = 3 ∧ ebx c' = 20.
Proof.
  destruct (user_program_behaves (λ _, 0) 0x9000 0x30000) as (m & Hm & _ & H).
  set (c0 := mkCpu 0 0 0 0 0 0 0 USER_STACK_TOP USER_CODE_ADDR 0x1B 0x202 0x23).
  assert (∃ c, user_run 0x9000 0x30000 m (c0, boot_tm) banner (c, boot_tm)) as (c & Hrun).
  { injection Hm as <-. eexists.
    change banner with (((([] ++ []) ++ []) ++ []) ++ banner : list output).
    eapply ur_step.
    - eapply ur_step; [eapply ur_step; [eapply ur_step; [apply ur_refl|apply us_instruction; reflexivity]
        |apply us_instruction; reflexivity]|apply us_instruction; reflexivity].
    - eapply us_syscall; reflexivity. }
  destruct (H c0 boot_tm banner c boot_tm eq_refl Hrun) as (c' & Hc & [(Hb & _)|(_ & Ha & Hb)]); [discriminate Hb|].
  exists m, c, c'. done.
Defined.
