(* ===== verification/Preemption.v ===== *)
(** * Preemption at the level of registers: [src/interrupts.rs], [src/task.rs], [src/syscall.rs]

    The processor, its memory and the scheduler together.  The assembly wrappers
    run on the machine and call the handlers of the scheduler with the arguments
    they find on the stack; the task that has the processor executes its own code
    in between.  The theorem follows one task from the tick that interrupts it to
    the step that gives it the processor back. *)

From S2P Require Import Prelude Machine Task TaskProps Scheduler Paging Syscall Devices Descriptors Interrupts.
Local Open Scope Z_scope.

Record system := mkSystem { cpu : Cpu; mem : words; sched : TaskManager }.

(** The task that has the processor: until the ring 3 program is in the task table
    it is that program, task 1. *)
Definition current_task (tm : TaskManager) : option Z :=
  if main_task_tracked tm then running tm else Some 1.

(** ** The handlers as the wrappers call them *)

Section Handlers.
Context (main_stack : Z).

Definition argument (l : list Z) (n : nat) : Z := default 0 (l !! n).

(** [x], [d] and [w]: what the compiled function leaves in [ecx] and [edx] and does
    to memory. *)
Definition call_scheduler_tick (tm : TaskManager) (x d : Z) (w : words → words) : callee := λ l m,
  '(sp, _, _) ← scheduler_tick main_stack tm (argument l 0);
  Ret (sp, x, d, w m).

Definition call_syscall_dispatcher (user : memory) (tm : TaskManager) (x d : Z) (w : words → words) : callee := λ l m,
  let '(r, _, _) := syscall_dispatcher main_stack user tm (argument l 0) (argument l 1) (argument l 2)
                      (argument l 3) (argument l 4) (argument l 5) (argument l 6) in
  Ret (r, x, d, w m).

Definition call_page_fault_dispatcher (tm : TaskManager) (x d : Z) (w : words → words) : callee := λ l m,
  '(sp, _, _) ← page_fault_dispatcher main_stack tm (argument l 0) (argument l 1) (argument l 2);
  Ret (sp, x, d, w m).

Lemma call_scheduler_tick_eq tm x d w sp tm' out esp m :
  scheduler_tick main_stack tm esp = Ret (sp, tm', out) →
  call_scheduler_tick tm x d w [esp] m = Ret (sp, x, d, w m).
Proof. intros H. unfold call_scheduler_tick. change (argument [esp] 0) with esp. by rewrite H. Qed.

Lemma call_page_fault_dispatcher_eq tm x d w sp tm' out esp cr2 error_code m :
  page_fault_dispatcher main_stack tm esp cr2 error_code = Ret (sp, tm', out) →
  call_page_fault_dispatcher tm x d w [esp; cr2; error_code] m = Ret (sp, x, d, w m).
Proof.
  intros H. unfold call_page_fault_dispatcher. change (argument [esp; cr2; error_code] 0) with esp.
  change (argument [esp; cr2; error_code] 1) with cr2. change (argument [esp; cr2; error_code] 2) with error_code.
  by rewrite H.
Qed.

Lemma call_syscall_dispatcher_memory user tm x d w l m r a d' m' :
  call_syscall_dispatcher user tm x d w l m = Ret (r, a, d', m') → m' = w m.
Proof. unfold call_syscall_dispatcher. destruct (syscall_dispatcher _ _ _ _ _ _ _ _ _ _) as [[]]. congruence. Qed.

End Handlers.

Section Preemption.
Context (kernel_cs kernel_ss esp0 main_stack : Z) (kernel_ring : kernel_cs mod 4 = 0).
(** The addresses of each task's ring 0 stack. *)
Context (owned : Z → Z → Prop) (stacks_apart : ∀ i j a, owned i a → owned j a → i = j).

(** ** Steps *)

(** What task [j] may do to memory: anything but write to another task's ring 0 stack. *)
Definition other_stacks_kept (j : Z) (m m' : words) : Prop :=
  ∀ k a, k ≠ j → owned k a → word m' a = word m a.

(** The handlers' compiled code runs on the interrupted task's ring 0 stack, below
    the frame at [sp]. *)
Definition handler_effect (j sp : Z) (w : words → words) : Prop :=
  ∀ m, other_stacks_kept j m (w m) ∧ ∀ a, owned j a → sp ≤ a → word (w m) a = word m a.

(** Code [c] of task [j] can be interrupted, with room for the trap on its ring 0 stack. *)
Definition ready_for_trap (j : Z) (c : Cpu) : Prop :=
  interruptible kernel_ss c ∧ ∀ a, trap_area esp0 c a → owned j a.

(** A timer interrupt. *)
Inductive tick : system → system → Prop :=
| timer_tick j c m tm handler x d w sp tm' out c' m' :
    current_task tm = Some j → ready_for_trap j c → handler_effect j (frame_ptr esp0 c) w →
    scheduler_tick main_stack tm (frame_ptr esp0 c) = Ret (sp, tm', out) →
    timer_interrupt_wrapper (call_scheduler_tick main_stack tm x d w)
      (trap handler kernel_cs kernel_ss esp0 (c, m)) = Ret (c', m') →
    tick (mkSystem c m tm) (mkSystem c' m' tm').

(** The current task executes; it makes a system call, [SYS_SLEEP] and [SYS_YIELD]
    among them; it is a user task and faults; it is the shell's thread and kills a
    process; or it is interrupted by the timer. *)
Inductive step : system → system → Prop :=
| step_code j c m tm c' m' :
    current_task tm = Some j → other_stacks_kept j m m' →
    step (mkSystem c m tm) (mkSystem c' m' tm)
| step_syscall j c m tm handler user x d w c' m' :
    current_task tm = Some j → ready_for_trap j c → handler_effect j (frame_ptr esp0 c) w →
    syscall_wrapper (call_syscall_dispatcher main_stack user tm x d w)
      (trap handler kernel_cs kernel_ss esp0 (c, m)) = Ret (c', m') →
    step (mkSystem c m tm)
      (mkSystem c' m' (syscall_dispatcher main_stack user tm (eax c) (ebx c) (ecx c) (edx c) (esi c) (edi c)
                         (frame_ptr esp0 c)).2)
| step_fault j c m tm handler cr2 error_code x d w sp tm' out c' m' :
    current_task tm = Some j → ready_for_trap j c → handler_effect j (frame_ptr esp0 c - 4) w →
    page_fault_dispatcher main_stack tm (frame_ptr esp0 c - 4) cr2 error_code = Ret (sp, tm', out) →
    page_fault_wrapper cr2 (call_page_fault_dispatcher main_stack tm x d w)
      (fault_trap handler kernel_cs kernel_ss esp0 error_code (c, m)) = Ret (c', m') →
    step (mkSystem c m tm) (mkSystem c' m' tm')
| step_kill c m tm pid r tm' :
    kill_task_by_pid tm pid = Ret (r, tm') → step (mkSystem c m tm) (mkSystem c m tm')
| step_tick s s' : tick s s' → step s s'.

(** From [s], through states in which other tasks have the processor, to the first
    one in which task [i] has it. *)
Inductive resumption (i : Z) : system → system → Prop :=
| resumed s : current_task (sched s) = Some i → resumption i s s
| elsewhere s s1 s' :
    current_task (sched s) ≠ Some i → step s s1 → resumption i s1 s' → resumption i s s'.

(** ** What a step leaves to the tasks that wait *)

Section Task.
(** Task [i], interrupted in context [c]; [m0] is the memory with its frame. *)
Context (i : Z) (c : Cpu) (m0 : words).
Context (Hframe : frame_at kernel_ss m0 (frame_ptr esp0 c) c) (Hroom : ready_for_trap i c).

Local Abbreviation sp0 := (frame_ptr esp0 c).

Definition stack_kept (m : words) : Prop := ∀ a, owned i a → sp0 ≤ a → word m a = word m0 a.

Record suspended (s : system) : Prop := {
  su_wf : sched_wf (sched s);
  su_kernel : has_kernel_task (sched s);
  su_tracked : main_task_tracked (sched s) = true;
  su_stack : stack_kept (mem s);
  su_task : (current_task (sched s) = Some i ∧ cpu s = c) ∨ waiting i sp0 (sched s);
}.

Lemma suspended_frame m : stack_kept m → frame_at kernel_ss m sp0 c.
Proof.
  intros Hm. eapply frame_at_memory; [exact Hframe|]. intros a Ha. apply Hm; [|lia].
  apply Hroom. unfold trap_area. lia.
Qed.

Lemma kept_by_code j m m' : j ≠ i → other_stacks_kept j m m' → stack_kept m → stack_kept m'.
Proof. intros Hj Ho Hm a Ha Hsp. rewrite (Ho i a) by done. by apply Hm. Qed.

(** A trap of another task's code and the handler's work on that task's stack. *)
Lemma kept_by_trap j c2 m m1 sp w :
  j ≠ i → ready_for_trap j c2 → handler_effect j sp w →
  (∀ a, ¬ trap_area esp0 c2 a → word m1 a = word m a) → stack_kept m → stack_kept (w m1).
Proof.
  intros Hj [_ Hc2] Hw Hm1 Hm. apply (kept_by_code j m1); [done|apply Hw|].
  intros a Ha Hsp. rewrite Hm1; [by apply Hm|]. intros Ht. apply Hj. by eapply stacks_apart; [apply Hc2|].
Qed.

Lemma suspended_waits s : suspended s → current_task (sched s) ≠ Some i → waiting i sp0 (sched s).
Proof. intros Hs Hn. by destruct (su_task s Hs) as [[? _]|?]. Qed.

(** The outcome of a scheduling step: the wrapper continues with the saved context
    if it was the task's turn. *)
Lemma suspended_switch tm' sp c' m' :
  sched_wf tm' → has_kernel_task tm' → main_task_tracked tm' = true → stack_kept m' →
  resumed_or_waiting i sp0 sp tm' → (sp = sp0 → c' = c) → suspended (mkSystem c' m' tm').
Proof.
  intros Hwf Hk Htr Hm Hw Hc'. split; cbn; try done. unfold current_task. rewrite Htr.
  destruct Hw as [[Hr ->]|Hw]; [left; split; [done|by apply Hc']|by right].
Qed.

Lemma scheduler_tick_inv tm esp sp tm' out :
  scheduler_tick main_stack tm esp = Ret (sp, tm', out) → schedule_next main_stack tm esp = Ret (sp, tm').
Proof.
  unfold scheduler_tick. destruct (Pic.ack 32); [|done..]. cbn.
  destruct (schedule_next _ _ _) as [[sp1 tm1]| |]; [|done..]. cbn. congruence.
Qed.

(** Through the timer wrapper. *)
Lemma tick_wrapper c2 m tm handler x d w sp tm' out c' m' :
  interruptible kernel_ss c2 →
  scheduler_tick main_stack tm (frame_ptr esp0 c2) = Ret (sp, tm', out) →
  timer_interrupt_wrapper (call_scheduler_tick main_stack tm x d w)
    (trap handler kernel_cs kernel_ss esp0 (c2, m)) = Ret (c', m') →
  m' = w (timer_memory handler kernel_cs kernel_ss esp0 (c2, m)) ∧
  ∀ c1, frame_at kernel_ss m' sp c1 → c' = c1.
Proof.
  intros Hc2 Hs Hr. destruct (timer_trap handler kernel_cs kernel_ss esp0 kernel_ring c2 m Hc2)
    as (_ & _ & _ & Hback & _ & Hinv).
  destruct (Hinv _ _ Hr) as (sp1 & a & d1 & Hcall). cbn [snd] in Hcall.
  assert (sp1 = sp ∧ m' = w (timer_memory handler kernel_cs kernel_ss esp0 (c2, m))) as [-> ->].
  { rewrite (call_scheduler_tick_eq _ _ _ _ _ _ _ _ _ _ Hs) in Hcall. by injection Hcall. }
  split; [done|]. intros c1 Hf. rewrite (Hback _ _ _ _ _ c1 Hcall Hf) in Hr. by simplify_eq.
Qed.

Lemma tick_suspended s s' :
  suspended s → current_task (sched s) ≠ Some i → tick s s' → suspended s'.
Proof.
  intros Hs Hn Ht. pose proof (suspended_waits s Hs Hn) as Hw. destruct Hs as [Hwf Hk Htr Hm _].
  destruct Ht as [j c2 m tm handler x d w sp tm' out c' m' Hj Hroom2 Hw2 Htick Hrun]. cbn [sched mem cpu] in *.
  destruct (tick_wrapper _ _ _ _ _ _ _ _ _ _ _ _ (proj1 Hroom2) Htick Hrun) as [-> Hback].
  apply scheduler_tick_inv in Htick.
  destruct (schedule_next_returned _ _ _ _ _ Hwf Hk Htick) as (Hwf' & Hk' & Htr' & _).
  assert (stack_kept (w (timer_memory handler kernel_cs kernel_ss esp0 (c2, m)))) as Hkept.
  { apply (kept_by_trap j c2 m _ (frame_ptr esp0 c2) w); [congruence|exact Hroom2|exact Hw2| |exact Hm].
    apply (timer_trap handler kernel_cs kernel_ss esp0 kernel_ring c2 m (proj1 Hroom2)). }
  apply (suspended_switch tm' sp); [done..|by apply (waiting_tick main_stack tm (frame_ptr esp0 c2))|].
  intros ->. by apply Hback, suspended_frame.
Qed.

Lemma syscall_suspended j c2 m tm handler user x d w c' m' :
  suspended (mkSystem c2 m tm) → current_task tm ≠ Some i →
  current_task tm = Some j → ready_for_trap j c2 → handler_effect j (frame_ptr esp0 c2) w →
  syscall_wrapper (call_syscall_dispatcher main_stack user tm x d w)
    (trap handler kernel_cs kernel_ss esp0 (c2, m)) = Ret (c', m') →
  suspended (mkSystem c' m' (syscall_dispatcher main_stack user tm (eax c2) (ebx c2) (ecx c2) (edx c2) (esi c2)
                               (edi c2) (frame_ptr esp0 c2)).2).
Proof.
  intros Hs Hn Hj Hroom2 Hw2 Hrun. pose proof (suspended_waits _ Hs Hn) as Hw. destruct Hs as [Hwf Hk Htr Hm _].
  cbn [sched mem cpu] in *.
  destruct (syscall_delivered handler kernel_cs kernel_ss esp0 kernel_ring c2 m (proj1 Hroom2)) as (m1 & _ & Hm1 & H).
  destruct (H (call_syscall_dispatcher main_stack user tm x d w)) as (_ & Hinv & _).
  destruct (Hinv _ Hrun) as (r & a & d1 & m2 & Hcall & Hm'). cbn [snd] in Hm'.
  apply call_syscall_dispatcher_memory in Hcall as ->.
  assert (stack_kept m') as Hkept.
  { subst m'. intros a' Ha Hsp. rewrite word_there.
    - apply (kept_by_trap j c2 m _ (frame_ptr esp0 c2) w); [congruence|exact Hroom2|exact Hw2|exact Hm1|exact Hm|done|done].
    - intros <-. assert (j = i); [|congruence]. eapply stacks_apart; [|exact Ha]. apply Hroom2.
      unfold trap_area, frame_size. case_bool; lia. }
  assert (∀ n, let tm' := (sleep_current_task main_stack tm (frame_ptr esp0 c2) n).2 in
    sched_wf tm' ∧ has_kernel_task tm' ∧ main_task_tracked tm' = true ∧ waiting i sp0 tm') as Hsleep.
  { intros n tm'. destruct (sleep_wf main_stack tm (frame_ptr esp0 c2) n Hwf Hk).
    by destruct (waiting_sleep main_stack tm (frame_ptr esp0 c2) n _ _ Hwf Hk Htr Hw). }
  assert (let tm' := (syscall_dispatcher main_stack user tm (eax c2) (ebx c2) (ecx c2) (edx c2) (esi c2)
                               (edi c2) (frame_ptr esp0 c2)).2 in
    sched_wf tm' ∧ has_kernel_task tm' ∧ main_task_tracked tm' = true ∧ waiting i sp0 tm') as (Hwf' & Hk' & Htr' & Hw').
  { pose proof (Hsleep 1) as Hyield. specialize (Hsleep (ebx c2)). unfold syscall_dispatcher. cbn zeta in *.
    destruct (sleep_current_task main_stack tm _ 1), (sleep_current_task main_stack tm _ (ebx c2)).
    repeat case_match; done. }
  split; cbn; try done. by right.
Qed.

Lemma fault_suspended j c2 m tm handler cr2 error_code x d w sp tm' out c' m' :
  suspended (mkSystem c2 m tm) → current_task tm ≠ Some i →
  current_task tm = Some j → ready_for_trap j c2 → handler_effect j (frame_ptr esp0 c2 - 4) w →
  page_fault_dispatcher main_stack tm (frame_ptr esp0 c2 - 4) cr2 error_code = Ret (sp, tm', out) →
  page_fault_wrapper cr2 (call_page_fault_dispatcher main_stack tm x d w)
    (fault_trap handler kernel_cs kernel_ss esp0 error_code (c2, m)) = Ret (c', m') →
  suspended (mkSystem c' m' tm').
Proof.
  intros Hs Hn Hj Hroom2 Hw2 Hfault Hrun. pose proof (suspended_waits _ Hs Hn) as Hw. destruct Hs as [Hwf Hk Htr Hm _].
  cbn [sched mem cpu] in *.
  destruct (fault_delivered handler kernel_cs kernel_ss esp0 kernel_ring c2 m cr2 error_code (proj1 Hroom2)) as (m1 & Hm1 & H).
  destruct (H (call_page_fault_dispatcher main_stack tm x d w)) as (_ & Hinv & Hback).
  destruct (Hinv _ Hrun) as (sp1 & a & d1 & Hcall). cbn [snd] in Hcall.
  assert (sp1 = sp ∧ m' = w m1) as [-> ->].
  { rewrite (call_page_fault_dispatcher_eq _ _ _ _ _ _ _ _ _ _ _ _ Hfault) in Hcall. by injection Hcall. }
  assert (stack_kept (w m1)) as Hkept.
  { apply (kept_by_trap j c2 m _ (frame_ptr esp0 c2 - 4) w); [congruence|exact Hroom2|exact Hw2|exact Hm1|exact Hm]. }
  unfold page_fault_dispatcher in Hfault. case_match; [|done].
  destruct (terminate_current_user_task_from_fault _ _ _) as [[sp1 tm1]| |] eqn:Hterm; [|done..].
  cbn in Hfault. simplify_eq.
  destruct (waiting_fault _ _ _ _ _ _ _ Hwf Hk Htr Hw Hterm) as (Hres & Hwf' & Hk' & Htr').
  apply (suspended_switch tm' sp); [done..|].
  intros ->. rewrite (Hback _ _ _ _ c Hcall) in Hrun; [by simplify_eq|by apply suspended_frame].
Qed.

Lemma step_suspended s s' :
  suspended s → current_task (sched s) ≠ Some i → step s s' → suspended s'.
Proof.
  intros Hs Hn Hstep. destruct Hstep as [j c2 m tm c' m' Hj Ho| | |c2 m tm pid r tm' Hkill|s s' Ht];
    [|by eapply syscall_suspended|by eapply fault_suspended| |by eapply tick_suspended].
  - pose proof (suspended_waits _ Hs Hn) as Hw. destruct Hs as [Hwf Hk Htr Hm _]. split; cbn in *; try done.
    + apply (kept_by_code j m); [congruence|exact Ho|exact Hm].
    + by right.
  - pose proof (suspended_waits _ Hs Hn) as Hw. destruct Hs as [Hwf Hk Htr Hm _]. cbn in *.
    destruct (kill_cases tm pid Hwf Hk) as (r' & tm1 & Hkill' & Hwf' & Hk' & _). rewrite Hkill in Hkill'. simplify_eq.
    destruct (waiting_kill _ _ _ _ _ _ Hwf Hk Htr Hw Hkill). split; cbn; try done. by right.
Qed.

Lemma resumption_restores s s' : resumption i s s' → suspended s → cpu s' = c ∧ stack_kept (mem s').
Proof.
  induction 1 as [s Hcur|s s1 s' Hcur Hstep _ IH]; intros Hs.
  - split; [|apply Hs]. destruct (su_task s Hs) as [[_ ?]|Hw]; [done|]. exfalso.
    apply (waiting_not_running _ _ _ (su_wf s Hs) Hw). unfold current_task in Hcur. by rewrite (su_tracked s Hs) in Hcur.
  - by apply IH, (step_suspended s).
Qed.

End Task.

(** The tick that interrupts the task. *)
Lemma tick_suspends s s' i :
  sched_wf (sched s) → has_kernel_task (sched s) → current_task (sched s) = Some i → tick s s' →
  ∃ m0, frame_at kernel_ss m0 (frame_ptr esp0 (cpu s)) (cpu s) ∧ ready_for_trap i (cpu s) ∧
    (∀ a, ¬ trap_area esp0 (cpu s) a → word m0 a = word (mem s) a) ∧ suspended i (cpu s) m0 s'.
Proof.
  intros Hwf Hk Hcur Ht.
  destruct Ht as [j c m tm handler x d w sp tm' out c' m' Hj Hroom Hw Htick Hrun]. cbn [sched mem cpu] in *.
  assert (j = i) as -> by congruence.
  destruct (timer_trap handler kernel_cs kernel_ss esp0 kernel_ring c m (proj1 Hroom)) as (Hframe & Hout & _).
  exists (timer_memory handler kernel_cs kernel_ss esp0 (c, m)). split_and!; [done..|].
  destruct (tick_wrapper _ _ _ _ _ _ _ _ _ _ _ _ (proj1 Hroom) Htick Hrun) as [-> Hback].
  apply scheduler_tick_inv in Htick.
  destruct (schedule_next_returned _ _ _ _ _ Hwf Hk Htick) as (Hwf' & Hk' & Htr' & _).
  rewrite schedule_next_ensure in Htick by (by apply has_kernel_nonempty).
  destruct (fault_current main_stack tm (frame_ptr esp0 c) Hwf Hk) as (t & Ht & _).
  assert (id t = i) as <-.
  { revert Hcur Ht. unfold current_task, ensure_main_task_tracked. case_match; [|by intros [= <-] [= <-]].
    unfold running. intros Hr Ht. rewrite Ht in Hr. by injection Hr. }
  assert (stack_kept (id t) c (timer_memory handler kernel_cs kernel_ss esp0 (c, m))
    (w (timer_memory handler kernel_cs kernel_ss esp0 (c, m)))) as Hkept by (intros a Ha Hsp; by apply Hw).
  apply (suspended_switch (id t) c _ tm' sp); [done..| |].
  - apply (tick_parks main_stack (ensure_main_task_tracked main_stack tm (frame_ptr esp0 c)) (frame_ptr esp0 c));
      [by apply ensure_wf|by apply ensure_kernel|apply ensure_tracked|exact Ht|exact Htick].
  - intros ->. apply Hback. by eapply suspended_frame.
Qed.

(** C2. preemption is transparent, at the level of registers.  A task is
    interrupted by the timer wherever it is, in ring 0 or ring 3, also on the first
    tick of all, and also when it has called [SYS_SLEEP] before.  Then other tasks
    run: they execute their code, make system calls (sleeping and yielding among
    them), fault, are interrupted by the timer, and the shell kills processes.  When
    the task has the processor again, every register is what it was at the
    interruption, and so is its ring 0 stack above the trap.  What is assumed of
    memory is that a task and the handlers that interrupt it do not write to the
    ring 0 stack of another task, and that these stacks have room for the traps. *)
Theorem preempted_task_resumes s s1 s' i :
  sched_wf (sched s) → has_kernel_task (sched s) → current_task (sched s) = Some i →
  tick s s1 → resumption i s1 s' →
  cpu s' = cpu s ∧
  ∀ a, owned i a → frame_ptr esp0 (cpu s) + frame_size (cpu s) ≤ a → word (mem s') a = word (mem s) a.
Proof.
  intros Hwf Hk Hcur Htick Hres.
  destruct (tick_suspends s s1 i Hwf Hk Hcur Htick) as (m0 & Hframe & Hroom & Hout & Hs).
  destruct (resumption_restores i (cpu s) m0 Hframe Hroom s1 s' Hres Hs) as [Hcpu Hkept].
  split; [done|]. intros a Ha Hsp. rewrite Hkept; [|done|].
  - apply Hout. unfold trap_area. lia.
  - assert (0 < frame_size (cpu s)) by (unfold frame_size; case_bool; lia). lia.
Qed.

End Preemption.

(** ** A run *)

(** The ring 0 stack of the ring 3 program and the boxed stack of the thread. *)
Definition demo_stacks (i a : Z) : Prop := i = 1 ∧ 0x7000 ≤ a < 0x9000 ∨ i = 2 ∧ 0x20000 ≤ a < 0x22000.

Lemma demo_stacks_apart i j a : demo_stacks i a → demo_stacks j a → i = j.
Proof. unfold demo_stacks. lia. Qed.

Lemma demo_effect j sp : handler_effect demo_stacks j sp (λ m, m).
Proof. done. Qed.

(** The program about to call [SYS_SLEEP]. *)
Definition sleeping_user : Cpu := set_ebx 20 (set_eax 3 user_code).

Lemma demo_user_ready : ready_for_trap 0x10 0x9000 demo_stacks 1 sleeping_user.
Proof.
  split; [by left|]. intros a. unfold trap_area, demo_stacks.
  change (frame_ptr 0x9000 sleeping_user) with (0x9000 - 52). change (frame_size sleeping_user) with 52. lia.
Qed.

Lemma demo_thread_ready : ready_for_trap 0x10 0x9000 demo_stacks 2 kernel_code.
Proof.
  split; [by right|]. intros a. unfold trap_area, demo_stacks.
  change (frame_ptr 0x9000 kernel_code) with (0x21F00 - 44). change (frame_size kernel_code) with 44. lia.
Qed.

(** The machine after a trap in these runs is given by what the handler returns. *)
Lemma demo_tick j c m tm sp tm' out :
  current_task tm = Some j → ready_for_trap 0x10 0x9000 demo_stacks j c →
  scheduler_tick 0x30000 tm (frame_ptr 0x9000 c) = Ret (sp, tm', out) →
  ∃ c' m', tick 8 0x10 0x9000 0x30000 demo_stacks (mkSystem c m tm) (mkSystem c' m' tm').
Proof.
  intros Hj Hready Htick.
  destruct (timer_trap 0x100 8 0x10 0x9000 eq_refl c m (proj1 Hready)) as (_ & _ & _ & _ & H & _).
  edestruct (H (call_scheduler_tick 0x30000 tm 0 0 (λ m, m))) as (c' & Hrun);
    [by apply (call_scheduler_tick_eq _ _ _ _ _ _ _ _ _ _ Htick)|].
  do 2 eexists. by eapply (timer_tick _ _ _ _ _ j _ _ _ 0x100 0 0 (λ m, m)).
Qed.

Lemma demo_syscall j c m tm :
  current_task tm = Some j → ready_for_trap 0x10 0x9000 demo_stacks j c →
  ∃ c' m', step 8 0x10 0x9000 0x30000 demo_stacks (mkSystem c m tm)
    (mkSystem c' m' (syscall_dispatcher 0x30000 (λ _, 0) tm (eax c) (ebx c) (ecx c) (edx c) (esi c) (edi c)
                       (frame_ptr 0x9000 c)).2).
Proof.
  intros Hj Hready.
  destruct (syscall_delivered 0x200 8 0x10 0x9000 eq_refl c m (proj1 Hready)) as (m1 & _ & _ & H).
  set (f := call_syscall_dispatcher 0x30000 (λ _, 0) tm 0 0 (λ m, m)).
  destruct (H f) as (_ & _ & Hret).
  assert (∃ r, f [eax c; ebx c; ecx c; edx c; esi c; edi c; frame_ptr 0x9000 c] m1 = Ret (r, 0, 0, m1)) as (r & Hr).
  { unfold f, call_syscall_dispatcher. destruct (syscall_dispatcher _ _ _ _ _ _ _ _ _ _) as [[r out] tm']. by exists r. }
  do 2 eexists. apply (step_syscall _ _ _ _ _ j _ _ _ 0x200 (λ _, 0) 0 0 (λ m, m));
    [done|done|apply demo_effect|]. by apply (Hret r 0 0 m1 Hr).
Qed.

(** The task table: [two_tasks] after the tick, after the system call and after the
    second tick. *)
Definition demo_table (st : TaskState) (sp ticks1 : Z) (current : nat) (ticks : Z) : TaskManager :=
  mkTM [mkTask 1 "user_main" User st 0x30000 sp ticks1;
        mkTask 2 "background_thread" Kernel Ready 0x20000 0x21ED4 1] current 3 ticks true.

(** The thread is interrupted; the program runs, calls [SYS_SLEEP] and is
    interrupted in turn; the thread goes on where it was. *)
Lemma preempted_task_resumes_witness :
  ∃ s1 s', tick 8 0x10 0x9000 0x30000 demo_stacks (mkSystem kernel_code ∅ two_tasks) s1 ∧
    resumption 8 0x10 0x9000 0x30000 demo_stacks 2 s1 s' ∧
    state <$> tasks (sched s') = [Sleeping 22; Ready] ∧ cpu s' = kernel_code.
Proof.
  destruct (demo_tick 2 kernel_code ∅ two_tasks 100 (demo_table Ready 100 1 0 2) [mkOut 0x20 0x20])
    as (c1 & m1 & H1); [reflexivity|exact demo_thread_ready|reflexivity|].
  destruct (demo_syscall 1 sleeping_user m1 (demo_table Ready 100 1 0 2)) as (c2 & m2 & H2);
    [reflexivity|exact demo_user_ready|].
  change (syscall_dispatcher _ _ _ _ _ _ _ _ _ _).2 with (demo_table (Sleeping 22) 0x8FCC 1 0 2) in H2.
  destruct (demo_tick 1 sleeping_user m2 (demo_table (Sleeping 22) 0x8FCC 1 0 2) 0x21ED4
    (demo_table (Sleeping 22) 0x8FCC 2 1 3) [mkOut 0x20 0x20]) as (c3 & m3 & H3);
    [reflexivity|exact demo_user_ready|reflexivity|].
  assert (resumption 8 0x10 0x9000 0x30000 demo_stacks 2 (mkSystem c1 m1 (demo_table Ready 100 1 0 2))
    (mkSystem c3 m3 (demo_table (Sleeping 22) 0x8FCC 2 1 3))) as Hres.
  { eapply elsewhere; [discriminate|by apply (step_code _ _ _ _ _ 1 _ _ _ sleeping_user m1)|].
    eapply elsewhere; [|exact H2|]; [discriminate|].
    eapply elsewhere; [discriminate|by apply (step_code _ _ _ _ _ 1 _ _ _ sleeping_user m2)|].
    eapply elsewhere; [|apply step_tick, H3|by apply resumed]. discriminate. }
  do 2 eexists. split; [exact H1|]. split; [exact Hres|]. split; [reflexivity|].
  apply (preempted_task_resumes 8 0x10 0x9000 0x30000 eq_refl demo_stacks demo_stacks_apart
    (mkSystem kernel_code ∅ two_tasks) _ _ 2 (proj1 two_tasks_wf) (proj2 two_tasks_wf) eq_refl H1 Hres).
Defined.
