(* ===== verification/Kernel.v ===== *)
(** * The kernel's start: [src/main.rs]

    The Multiboot header and entry point, [kernel_main], the switch to ring 3, the
    background thread's loop and the panic handlers, composed from the components
    they call.  The addresses of the boxes, of the static structures and of the
    handlers are parameters here; [BootHeap] takes the boxes from the heap.  Output
    goes through the console of [Console], so the port writes are those of every
    device: the screen's cursor, the serial port with its initialization, the
    interrupt controllers and the timer. *)

From S2P Require Import Prelude Machine Task TaskProps Scheduler Memory Frames Paging Heap Devices Input Shell ShellProps.
From S2P Require Import Allocation Vga Console Descriptors Interrupts UserProg.
Local Open Scope Z_scope.

(** ** The Multiboot header *)

Record MultibootHeader := mkHeader { magic : Z; header_flags : Z; checksum : Z }.

Definition MULTIBOOT_HEADER : MultibootHeader :=
  let magic := 0x1BADB002 in
  let flags := 0x0 in
  mkHeader magic flags (as_u32 (as_u32 (0 - magic) - flags)).

Definition bytes_of_header (h : MultibootHeader) : list Z :=
  bytes_of_u32 (magic h) ++ bytes_of_u32 (header_flags h) ++ bytes_of_u32 (checksum h).

(** ** Panics *)

(** [panic(info)]: what is printed before the endless loop; [info] is the text
    the core library renders. *)
Definition panic (info : string) : list output := [println info; serial_println info].

(** ** The switch to ring 3 *)

Definition set_data_segments (v : Z) (r : Gdt.segment_state) : Gdt.segment_state :=
  Gdt.mkSegs (Gdt.gdt_limit r) (Gdt.gdt_base r) (Gdt.seg_cs r) v v v v (Gdt.seg_ss r) (Gdt.task_register r).

(** [mov ax, v]: the low half of [eax]. *)
Definition set_ax (v : Z) (c : Cpu) : Cpu := set_eax (Z.lor (Z.land (eax c) 0xFFFF0000) v) c.

Definition switch_to_user_mode (s : machine) (regs : Gdt.segment_state) : machine * Gdt.segment_state :=
  let '(c, m) := s in
  let c := mkCpu (eax c) (ecx c) (edx c) (ebx c) (ebp c) (esi c) (edi c) (esp c) (eip c) (cs c)
             (Z.land (eflags c) (Z.lnot 0x200)) (ss c) in
  let c := set_edx (word m (esp c + 4)) c in
  let c := set_ecx (word m (esp c + 8)) c in
  let c := set_ax 0x23 c in
  let regs := set_data_segments 0x23 regs in
  let s := push 0x23 (c, m) in
  let s := push (ecx s.1) s in
  let s := push 0x202 s in
  let s := push 0x1B s in
  let s := push (edx s.1) s in
  (iretd s, regs).

(** The cdecl call [switch_to_user_mode(user_entry, user_stack_top)]. *)
Definition call_switch (return_address user_entry user_stack_top : Z) (s : machine) (regs : Gdt.segment_state) :
    machine * Gdt.segment_state :=
  switch_to_user_mode (push return_address (push user_entry (push user_stack_top s))) regs.

(** ** [kernel_main] *)

(** The machine and the kernel's state when ring 3 is entered, with everything
    printed and written to ports on the way. *)
Record KernelState := mkKernel {
  k_segments : Gdt.segment_state;
  k_tables : Gdt.Tables;
  k_paging : PagingState;
  k_idt : list Idt.IdtEntry;
  k_lidt : Z * Z;
  k_world : World;
  k_machine : machine;
  k_memory : memory;
  k_console : Console;
  k_ports : list port_write;
  k_output : list output;
}.

Section Boot.
Context (kernel_start kernel_end pd_addr pt0_addr pt1_addr : Z).
Context (tss_addr gdt_addr idt_addr int_stack stack_box : Z).
Context (handlers : Idt.Handlers) (background_thread_entry return_address : Z).
(** What the firmware left on the text screen. *)
Context (screen : nat → nat → ScreenChar).

(** [boot_mem] is the memory the boot loader leaves, [tables] the static paging
    structures, [world] the lazily initialized statics of the shell and scheduler
    and [s] the processor and its stack. *)
Definition kernel_main (boot_mem : memory) (tables : PagingState) (world : World) (s : machine)
    (magic info_addr : Z) : outcome KernelState :=
  if negb (magic =? 0x2BADB002) then Panic ("Invalid multiboot magic: " +:+ Gdt.hex magic) else
  let out := [println "Booting ENOS..."] in
  map_lines ← print_memory_map boot_mem info_addr;
  let phys_allocator := BumpAllocator_new boot_mem info_addr in
  '(frame, phys_allocator) ← allocate_frame kernel_start kernel_end boot_mem phys_allocator;
  let out := out ++ map_lines ++
    [serial_println (match frame with
                     | Some frame => "Kernel Boot: Allocator Ready. First frame at " +:+ Gdt.hex (start_address frame) +:+ "."
                     | None => "Kernel Boot: Allocator Ready but no frame available."
                     end)] in
  let '(gdt, regs, gdt_out) := Gdt.init tss_addr gdt_addr in
  let out := out ++ gdt_out ++ [serial_println "Kernel Boot: GDT & TSS Ready."] in
  let paging := Paging.init pd_addr pt0_addr pt1_addr tables in
  let out := out ++ [serial_println "Kernel Boot: Paging Ready."] in
  '(idt, lidt, idt_out) ← Idt.init_idt (Gdt.seg_cs regs) handlers idt_addr;
  let early := out ++ idt_out in
  '(con, early_ports) ← emit_all early (initial_console screen);
  let pic_ports := Pic.initialize Pic.PICS in
  let '(pit_ports, pit_out) := Pit.init_default in
  '(tss, tss_out) ← Gdt.set_interrupt_stack (Some (Gdt.tss gdt)) int_stack;
  let out := pit_out ++ tss_out ++ [serial_println "Kernel Boot: Interrupts Ready."] in
  '(_, shell_out, world) ← Shell.init world;
  '(tm, stack) ← register_named_task (scheduler world) "background_thread" background_thread_entry stack_box
                   (Gdt.seg_cs regs) s.2;
  let out := out ++ shell_out ++
    [serial_println "Kernel Boot: Multitasking Ready. Initiating Ring 3 Jump..."] in
  '(user_entry, user_mem) ← install_user_program boot_mem;
  let out := out ++ [serial_println ("Kernel Boot: User program installed at " +:+ Gdt.hex user_entry +:+ ".")] in
  '(con, late_ports) ← emit_all out con;
  let '(s, regs) := call_switch return_address user_entry USER_STACK_TOP (s.1, stack) regs in
  Ret (mkKernel regs (Gdt.mkTables (Gdt.entries gdt) tss) paging idt lidt (set_scheduler tm world) s user_mem con
         (early_ports ++ pic_ports ++ pit_ports ++ late_ports) (early ++ out)).

(** [_start]: the boot loader's [eax] and [ebx] become the arguments. *)
Definition start (kernel_stack_top : Z) (boot_mem : memory) (tables : PagingState) (world : World) (s : machine) :
    outcome KernelState :=
  let s := (set_esp kernel_stack_top s.1, s.2) in
  let s := push (ebx s.1) s in
  let s := push (eax s.1) s in
  let arg i := default 0 (args 2 s !! i) in
  kernel_main boot_mem tables world s (arg 0%nat) (arg 1%nat).

End Boot.

(** ** The background thread *)

Section BackgroundThread.
Context (heap_base : Z) (debug_layout : Layout → string).

(** One turn of the loop, up to the [hlt], with what its commands demand of the heap. *)
Definition background_turn (ds : list demand) (heartbeat : Z) : shell Z :=
  poll_input heap_base debug_layout ds ;;
  let heartbeat := as_u32 (heartbeat + 1) in
  (if heartbeat mod 400 =? 0 then emit (serial_println "RING 0: Background Thread Alive!") else skip) ;;
  mret heartbeat.

(** Any number of turns, with the scan codes the keyboard interrupt delivers during
    each [hlt]. *)
Fixpoint background_thread (heartbeat : Z) (turns : list (list demand * list Z)) : shell Z :=
  match turns with
  | [] => mret heartbeat
  | (ds, codes) :: turns =>
    heartbeat ← background_turn ds heartbeat;
    for_all codes keyboard_irq ;;
    background_thread heartbeat turns
  end.

End BackgroundThread.

(** ** Booting *)

Lemma header_checksum : (magic MULTIBOOT_HEADER + header_flags MULTIBOOT_HEADER + checksum MULTIBOOT_HEADER) mod 2 ^ 32 = 0.
Proof. reflexivity. Qed.

Lemma booted_runs_as tm : booted tm → runs_as tm = Some User.
Proof.
  intros (entry & sb & cs & mem & mem' & H). unfold register_named_task in H.
  destruct (Task_new _ _ _ _ _ _ _) as [t m]. cbn in H. by injection H as <- <-.
Qed.

(** The machine just entered ring 3 at [entry] with interrupts enabled. *)
Definition in_user_mode (entry : Z) (c : Cpu) : Prop :=
  eip c = entry ∧ esp c = USER_STACK_TOP ∧ cs c = 0x1B ∧ ss c = 0x23 ∧ eflags c = 0x202.

(** [iretd] from ring 0 through a frame for ring 3. *)
Lemma iretd_to_user c m entry top :
  cs c mod 4 = 0 →
  (iretd (foldl (λ s v, push v s) (c, m) [0x23; top; 0x202; 0x1B; entry])).1 =
    mkCpu (eax c) (ecx c) (edx c) (ebx c) (ebp c) (esi c) (edi c) top entry 0x1B 0x202 0x23.
Proof.
  intros Hcs. rewrite pushes_eq.
  destruct (stack_of_spec [0x23; top; 0x202; 0x1B; entry] (esp c) m) as (_ & H & _).
  destruct (stack_of _ _) as [sp m1]. cbn [fst snd] in *.
  frame_word H 0%nat. frame_word H 1%nat. frame_word H 2%nat. frame_word H 3%nat. frame_word H 4%nat.
  rewrite Z.add_0_r in Hw. unfold iretd. cbn [set_esp esp cs eax ecx edx ebx ebp esi edi fst].
  by rewrite Hw, Hw0, Hw1, Hw2, Hw3, Hcs.
Qed.

Lemma switch_enters_user ret entry c m regs :
  cs c mod 4 = 0 →
  in_user_mode entry (call_switch ret entry USER_STACK_TOP (c, m) regs).1.1 ∧
  (call_switch ret entry USER_STACK_TOP (c, m) regs).2 = set_data_segments 0x23 regs.
Proof.
  intros Hcs. split; [|by unfold call_switch, switch_to_user_mode; destruct (push ret _)].
  unfold call_switch. set (top := USER_STACK_TOP).
  change (push ret _) with (foldl (λ (s : machine) v, push v s) (c, m) [top; entry; ret]).
  rewrite pushes_eq. destruct (stack_of_spec [top; entry; ret] (esp c) m) as (_ & H & _).
  destruct (stack_of _ _) as [sp m1]. cbn [fst snd] in *.
  frame_word H 1%nat. frame_word H 2%nat. unfold switch_to_user_mode.
  cbn [eax ecx edx ebx ebp esi edi esp eip cs eflags ss set_esp set_edx set_ecx set_ax set_eax].
  rewrite Hw, Hw0. set (c1 := set_ax _ _).
  change (push (edx _) _) with (foldl (λ (s : machine) v, push v s) (c1, m1) [0x23; top; 0x202; 0x1B; entry]).
  assert (cs c1 mod 4 = 0) as Hcs1 by exact Hcs. clearbody c1.
  rewrite (surjective_pairing (iretd _)). cbn [fst]. rewrite iretd_to_user by done. done.
Qed.

(** What the components leave, as far as booting relies on it. *)
Lemma gdt_result tss_addr gdt_addr : ∃ gdt regs out, Gdt.init tss_addr gdt_addr = (gdt, regs, out) ∧
  Gdt.seg_cs regs = 8 ∧ Gdt.tss gdt = Gdt.TaskStateSegment_new ∧ Gdt.gdt_base regs = gdt_addr.
Proof. do 3 eexists. split; [reflexivity|done]. Qed.

Lemma pit_result : ∃ out, Pit.init_default = ([mkOut 0x43 0x36; mkOut 0x40 155; mkOut 0x40 46], out).
Proof. eexists. reflexivity. Qed.

Lemma wired_lines chips :
  let ws := Pic.initialize Pic.PICS ++ [mkOut 0x43 0x36; mkOut 0x40 155; mkOut 0x40 46] in
  Pic.deliver (Pic.chips_run ws chips) 0 = Some 32 ∧ Pic.deliver (Pic.chips_run ws chips) 1 = Some 33.
Proof. destruct chips. split; reflexivity. Qed.

(** The port writes of booting: only the middle ones reach the controllers. *)
Definition boot_ports (ws : list port_write) : Prop :=
  ∃ early late, Forall off_pic early ∧ Forall off_pic late ∧
    ws = early ++ Pic.initialize Pic.PICS ++ [mkOut 0x43 0x36; mkOut 0x40 155; mkOut 0x40 46] ++ late.

Lemma boot_ports_run ws chips :
  boot_ports ws →
  Pic.chips_run ws chips =
    Pic.chips_run (Pic.initialize Pic.PICS ++ [mkOut 0x43 0x36; mkOut 0x40 155; mkOut 0x40 46]) chips.
Proof.
  intros (early & late & He & Hl & ->). rewrite (app_assoc (Pic.initialize _)).
  pose proof (chips_ignore early chips He) as H1.
  set (ws := Pic.initialize Pic.PICS ++ _) in *. pose proof (chips_ignore late (Pic.chips_run ws chips) Hl) as H2.
  unfold Pic.chips_run in *. by rewrite !foldl_app, H1, H2.
Qed.

Lemma wired_gates h chips ws :
  handlers_ok h → boot_ports ws →
  let wired line := v ← Pic.deliver (Pic.chips_run ws chips) line;
    Idt.gate_of (entry_for 8 h <$> seq 0 256) (Z.to_nat v) in
  wired 0 = Some (Idt.mkGate (Idt.timer_wrapper h) 0x08 0 0xE) ∧
  wired 1 = Some (Idt.mkGate (Idt.keyboard h) 0x08 0 0xE).
Proof.
  intros Hh Hws wired. unfold wired. rewrite (boot_ports_run ws chips Hws). destruct (wired_lines chips) as [-> ->]. cbn [mbind option_bind].
  by rewrite !(gate_of_entry 8 h _ _ Hh eq_refl).
Qed.

Lemma shell_init_result w : ∃ out, Shell.init w = Ret (tt, out, w).
Proof. eexists. reflexivity. Qed.

Section Booting.
Context (ks ke pd pt0 pt1 tss_addr gdt_addr idt_addr int_stack stack_box : Z).
Context (h : Idt.Handlers) (thread_entry ret : Z) (screen : nat → nat → ScreenChar).
Context (mem : memory) (info_addr : Z) (es : list MemoryMapEntry) (tables : PagingState) (s : machine).

(** What the boot loader and the linker guarantee. *)
Record bootable : Prop := {
  bt_kernel : 0 ≤ ks < ke ∧ ke ≤ 0xFFFFF000;
  bt_map : boot_map mem info_addr es;
  bt_total : reported_kb es ≤ U32_MAX;
  bt_paging : paging_boot pd pt0 pt1 tables;
  bt_handlers : handlers_ok h;
  bt_int_stack : 0 ≤ int_stack ∧ int_stack + 8192 ≤ U32_MAX;
  bt_stack : 0 ≤ stack_box ∧ stack_box + STACK_SIZE ≤ U32_MAX;
  bt_ring : cs s.1 mod 4 = 0;
}.

Local Abbreviation boot := (kernel_main ks ke pd pt0 pt1 tss_addr gdt_addr idt_addr int_stack stack_box h thread_entry ret
  screen mem tables (boot_world TaskManager_new) s).

Lemma first_frame_returns : bootable → ∃ frame a,
  allocate_frame ks ke mem (BumpAllocator_new mem info_addr) = Ret (frame, a).
Proof.
  intros [Hk Hmap _ _ _ _ _ _]. destruct (boot_alloc_ok _ _ _ Hmap) as [Hok _].
  pose proof (allocate_frame_delivers ks ke mem (bm_bytes _ _ _ Hmap) Hk _ _ Hok) as H.
  destruct H as (a & es' & H & _). eauto.
Qed.

(** What [kernel_main] computes, component by component. *)
Lemma kernel_main_result :
  bootable →
  ∃ k stack, boot 0x2BADB002 info_addr = Ret k ∧
    in_user_mode USER_CODE_ADDR (k_machine k).1 ∧ Gdt.seg_ds (k_segments k) = 0x23 ∧
    register_named_task TaskManager_new "background_thread" thread_entry stack_box 8 s.2 =
      Ret (scheduler (k_world k), stack) ∧
    k_world k = set_scheduler (scheduler (k_world k)) (boot_world TaskManager_new) ∧
    install_user_program mem = Ret (USER_CODE_ADDR, k_memory k) ∧
    boot_ports (k_ports k) ∧ writable (writer (k_console k)) ∧
    k_idt k = entry_for 8 h <$> seq 0 256 ∧ k_lidt k = Idt.load idt_addr ∧
    Gdt.gdt_base (k_segments k) = gdt_addr ∧
    Gdt.tss (k_tables k) = Gdt.set_esp0 (int_stack + 8192) Gdt.TaskStateSegment_new ∧
    k_paging k = Paging.init pd pt0 pt1 tables.
Proof.
  intros [Hk Hmap Htot Hpg Hh Hint Hst Hring].
  unfold kernel_main. change (negb (0x2BADB002 =? 0x2BADB002)) with false. cbv iota.
  rewrite (memory_map_lines mem info_addr es Hmap Htot). cbn [mbind outcome_bind].
  destruct first_frame_returns as (frame & a & ->); [done|].
  cbn [mbind outcome_bind].
  destruct (gdt_result tss_addr gdt_addr) as (gdt & regs & gdt_out & -> & Hcs & Htss & Hbase).
  rewrite Hcs, init_idt_table. rewrite bind_Ret. cbv beta iota.
  match goal with |- context [emit_all ?out (initial_console screen)] =>
    destruct (emit_all_returns out _ (initial_writable screen)) as (con & early & Hearly & Hcon & He) end.
  rewrite Hearly. rewrite bind_Ret. cbv beta iota. clear Hearly.
  destruct pit_result as (pit_out & ->).
  unfold Gdt.set_interrupt_stack. rewrite add_u32_Ret by lia. cbn [mbind outcome_bind].
  destruct (shell_init_result (boot_world TaskManager_new)) as (shell_out & ->).
  rewrite bind_Ret. cbv beta iota. change (scheduler (boot_world TaskManager_new)) with TaskManager_new.
  destruct (register_named_task TaskManager_new "background_thread" thread_entry stack_box 8 s.2)
    as [[tm stack]| |] eqn:Hreg; [|done..].
  cbn [mbind outcome_bind]. destruct (install_returns mem) as (m & Hm & _). rewrite Hm. cbn [mbind outcome_bind].
  match goal with |- context [emit_all ?out con] =>
    destruct (emit_all_returns out con Hcon) as (con' & late & Hlate & Hcon' & Hl) end.
  rewrite Hlate. rewrite bind_Ret. cbv beta iota. clear Hlate.
  destruct s as [c sm]. cbn [fst snd] in *.
  destruct (switch_enters_user ret USER_CODE_ADDR c stack regs Hring) as [Huser Hregs].
  destruct (call_switch _ _ _ _ _) as [s' regs']. cbn [fst snd] in Huser, Hregs. subst regs'.
  eexists _, stack. split; [reflexivity|].
  cbn [k_machine k_segments k_world k_memory k_console k_ports k_idt k_lidt k_tables k_paging].
  split; [exact Huser|]. split_and!; try done; [by exists early, late|]. cbn [Gdt.tss]. by rewrite Htss.
Qed.

(** C12. the kernel boots.  Called with the Multiboot magic and a valid memory
    map, [kernel_main] returns to ring 3: at the user program, on the user stack,
    with interrupts enabled and user data segments.  By then the scheduler is in its
    boot state and the shell's state is well formed; the timer and the keyboard
    interrupt lines, whatever state the firmware left the controllers in, are
    delivered to vectors whose gates are the kernel's handlers; user code can raise
    only the system call; the processor's ring 0 stack is the new interrupt stack;
    and user code reaches exactly the user pages.  With any other magic it panics. *)
Theorem kernel_boots :
  bootable →
  (∀ magic, magic ≠ 0x2BADB002 → boot magic info_addr = Panic ("Invalid multiboot magic: " +:+ Gdt.hex magic)) ∧
  ∃ k, boot 0x2BADB002 info_addr = Ret k ∧
    in_user_mode USER_CODE_ADDR (k_machine k).1 ∧ Gdt.seg_ds (k_segments k) = 0x23 ∧
    booted (scheduler (k_world k)) ∧ world_wf (Some User) (k_world k) ∧
    install_user_program mem = Ret (USER_CODE_ADDR, k_memory k) ∧
    (∀ chips, let wired line := v ← Pic.deliver (Pic.chips_run (k_ports k) chips) line; Idt.gate_of (k_idt k) (Z.to_nat v) in
       wired 0 = Some (Idt.mkGate (Idt.timer_wrapper h) 0x08 0 0xE) ∧
       wired 1 = Some (Idt.mkGate (Idt.keyboard h) 0x08 0 0xE)) ∧
    (∀ v, Idt.int_permitted (k_idt k) 3 v = (v =? 128)%nat) ∧
    take 6 (drop 4 (Gdt.bytes_of_tss (Gdt.tss (k_tables k)))) = bytes_of_u32 (int_stack + 8192) ++ [0x10; 0] ∧
    ∀ acc va, is_u32 va → translate pd pt0 pt1 (k_paging k) UserMode acc va =
      if (USER_SPACE_START <=? va) && (va <? USER_SPACE_END) then Some va else None.
Proof.
  intros Hb. split.
  { intros magic Hm. unfold kernel_main. by rewrite (proj2 (Z.eqb_neq _ _) Hm). }
  destruct (kernel_main_result Hb)
    as (k & stack & Hk & Huser & Hds & Hreg & Hw & Hm & Hports & _ & Hidt & _ & _ & Htss & Hpaging).
  destruct Hb as [_ _ _ Hpg Hh _ _ _].
  assert (booted (scheduler (k_world k))) as Hbooted by (by exists thread_entry, stack_box, 8, s.2, stack).
  exists k. split; [exact Hk|]. rewrite Hidt, Htss, Hpaging. clear Hk Hidt Htss Hpaging.
  split; [exact Huser|]. split; [done|]. split; [exact Hbooted|]. split.
  { destruct (booted_wf _ Hbooted). rewrite <- (booted_runs_as _ Hbooted), Hw. by apply boot_world_wf. }
  split; [done|]. split_and!.
  - intros chips. by apply (wired_gates h chips _ Hh Hports).
  - intros v. by apply user_raises.
  - done.
  - intros acc va Hva. rewrite translate_space by done. unfold address_space, USER_SPACE_START, USER_SPACE_END.
    destruct (Z.ltb_spec va 0x400000); [by rewrite (proj2 (Z.leb_gt _ _))|].
    by rewrite (proj2 (Z.leb_le _ _)) by done.
Qed.

End Booting.

(** A machine the theorem applies to. *)
Definition demo_handlers : Idt.Handlers :=
  Idt.mkHandlers 0x101000 0x101100 0x101200 0x101300 0x101400 0x101500 0x101600 0x101700 0x101800.
Definition demo_screen : nat → nat → ScreenChar := λ _ _, mkChar 0x20 0x07.
Definition demo_processor : machine := (mkCpu 0 0 0 0 0 0 0 0x10F000 0x100400 0x08 0x2 0x10, ∅).

Lemma demo_bootable :
  bootable 0x100000 0x250000 0x110000 0x111000 0x112000 0x160000 0x180000 demo_handlers
    demo_memory 0x1000 demo_entries demo_paging demo_processor.
Proof.
  split; unfold STACK_SIZE, U32_MAX; try done; try lia.
  - exact demo_boot_map.
  - exact demo_paging_boot.
  - unfold handlers_ok, is_u32, U32_MAX. cbn. repeat constructor; lia.
Qed.

Lemma kernel_boots_witness :
  ∃ k, kernel_main 0x100000 0x250000 0x110000 0x111000 0x112000 0x150000 0x150068 0x151000 0x160000 0x180000
         demo_handlers 0x100040 0x100450 demo_screen demo_memory demo_paging (boot_world TaskManager_new) demo_processor
         0x2BADB002 0x1000 = Ret k ∧
    in_user_mode USER_CODE_ADDR (k_machine k).1 ∧ booted (scheduler (k_world k)).
Proof.
  destruct (kernel_boots 0x100000 0x250000 0x110000 0x111000 0x112000 0x150000 0x150068 0x151000 0x160000 0x180000
    demo_handlers 0x100040 0x100450 demo_screen demo_memory 0x1000 demo_entries demo_paging demo_processor demo_bootable)
    as (_ & k & Hk & Hu & _ & Hb & _).
  exists k. split; [exact Hk|]. split; [exact Hu|exact Hb].
Defined.

(** ** The first context switch *)

Lemma booted_thread tm entry sb cs mem stack :
  register_named_task TaskManager_new "background_thread" entry sb cs mem = Ret (tm, stack) →
  ∃ t, Task_new 2 "background_thread" Task.Kernel entry sb cs mem = (t, stack) ∧ tm = mkTM [t] 0 3 0 false.
Proof.
  unfold register_named_task. cbn [next_task_id TaskManager_new].
  destruct (Task_new _ _ _ _ _ _ _) as [t m]. cbn. intros [= <- <-]. by exists t.
Qed.

(** C23. the first timer tick starts the background thread.  Whatever the program
    was doing when it comes, it is parked as task 1, "user_main", with the address
    of its saved frame, and the processor continues at the thread's entry point in
    ring 0 with interrupts enabled, at the top of the thread's stack. *)
Theorem first_tick_starts_thread handler kernel_cs kernel_ss esp0 ms entry sb cs mem tm stack c m :
  register_named_task TaskManager_new "background_thread" entry sb cs mem = Ret (tm, stack) →
  0 ≤ sb → sb + STACK_SIZE ≤ U32_MAX → cs mod 4 = 0 → kernel_cs mod 4 = 0 → interruptible kernel_ss c →
  let sp := frame_ptr esp0 c in
  ∃ sp' tm' parked, schedule_next ms tm sp = Ret (sp', tm') ∧
    running tm' = Some 2 ∧ runs_as tm' = Some Task.Kernel ∧
    tasks tm' !! 0%nat = Some parked ∧ id parked = 1 ∧ stack_ptr parked = sp ∧ state parked = Ready ∧
    ∀ f a d m', f [sp] (timer_memory handler kernel_cs kernel_ss esp0 (c, m)) = Ret (sp', a, d, m') →
      (∀ x, sb ≤ x < sb + STACK_SIZE → word m' x = word stack x) →
      timer_interrupt_wrapper f (trap handler kernel_cs kernel_ss esp0 (c, m)) =
        Ret (mkCpu 0 0 0 0 0 0 0 (sb + STACK_SIZE) entry cs 0x202 kernel_ss, m').
Proof.
  intros Hreg Hlo Hhi Hcs Hk Hc sp. destruct (booted_thread _ _ _ _ _ _ Hreg) as (t & Ht & ->).
  pose proof (new_task_frame kernel_ss 2 "background_thread" Task.Kernel entry sb cs mem Hlo Hhi Hcs) as Hf.
  rewrite Ht in Hf. destruct Hf as (Hsp & _ & Hframe).
  assert (id t = 2 ∧ privilege t = Task.Kernel ∧ state t = Ready ∧ run_ticks t = 0) as (Hid & Hpr & Hst & Hrt).
  { unfold Task_new in Ht. by simplify_eq. }
  destruct t as [tid tnm tp tst tsb tsp trt]. cbn in Hid, Hpr, Hst, Hrt, Hsp, Hframe. subst.
  eexists _, _, _. split; [reflexivity|]. split_and!; [reflexivity..|].
  intros f a d m' Hcall Hm.
  destruct (timer_trap handler kernel_cs kernel_ss esp0 Hk c m Hc) as (_ & _ & _ & H). eapply H; [exact Hcall|].
  eapply frame_at_memory; [exact Hframe|]. intros x Hx. apply Hm.
  unfold frame_size in Hx. cbn [Interrupts.cs] in Hx. rewrite Hcs in Hx. cbn in Hx. unfold STACK_SIZE in *. lia.
Qed.

Lemma first_tick_starts_thread_witness :
  ∃ tm stack sp' tm', register_named_task TaskManager_new "background_thread" 0x100040 0x20000 8 ∅ = Ret (tm, stack) ∧
    schedule_next 0x30000 tm (frame_ptr 0x9000 user_code) = Ret (sp', tm') ∧ running tm' = Some 2 ∧
    timer_interrupt_wrapper (λ _ _, Ret (sp', 0, 0, stack)) (trap 0x100 8 0x10 0x9000 (user_code, ∅)) =
      Ret (mkCpu 0 0 0 0 0 0 0 0x22000 0x100040 8 0x202 0x10, stack).
Proof.
  destruct (register_named_task TaskManager_new "background_thread" 0x100040 0x20000 8 ∅) as [[tm stack]| |] eqn:E;
    [|discriminate E..].
  destruct (first_tick_starts_thread 0x100 8 0x10 0x9000 0x30000 0x100040 0x20000 8 ∅ tm stack user_code ∅ E)
    as (sp' & tm' & p & Hs & Hr & _ & _ & _ & _ & _ & H);
    [lia|unfold STACK_SIZE, U32_MAX; lia|reflexivity|reflexivity|left; reflexivity|].
  exists tm, stack, sp', tm'. split; [reflexivity|]. split; [exact Hs|]. split; [exact Hr|].
  eapply H; [reflexivity|done].
Defined.
