(* ===== verification/BootHeap.v ===== *)
(** * Booting on the kernel heap

    [kernel_main] with the boxes its components allocate: [gdt::init] boxes the task
    state segment and the descriptor table, [init_idt] the interrupt table,
    [set_interrupt_stack] the ring 0 stack and [register_named_task] the thread's
    stack, in this order, from the bump allocator of [src/allocator.rs].  The
    structures are packed and the stacks byte arrays, so every layout has alignment 1. *)

From S2P Require Import Prelude Machine Task TaskProps Memory Frames Paging Heap Devices Shell ShellProps.
From S2P Require Import Allocation Vga Descriptors Interrupts UserProg Kernel.
Local Open Scope Z_scope.

(** ** Boxes *)

Definition tss_layout : Layout := mkLayout Gdt.size_of_tss 1.
Definition gdt_layout : Layout := mkLayout (6 * 8) 1.
Definition idt_layout : Layout := mkLayout (256 * 8) 1.
Definition interrupt_stack_layout : Layout := mkLayout 8192 1.
Definition task_stack_layout : Layout := mkLayout STACK_SIZE 1.

Lemma layout_sizes :
  size tss_layout = 104 ∧ size gdt_layout = 48 ∧ size idt_layout = 2048 ∧ size interrupt_stack_layout = 8192 ∧
  size task_stack_layout = 8192.
Proof. done. Qed.

(** The boxes in a heap at [base]: one after the other. *)
Definition boxes_at (base : Z) : list (Z * Layout) :=
  [(base + 0, tss_layout); (base + 104, gdt_layout); (base + 152, idt_layout); (base + 2200, interrupt_stack_layout);
   (base + 10392, task_stack_layout)].

Lemma boxes_between base :
  blocks_between base 0 (boxes_at base) 18584 ∧ Forall (λ b, 1 ≤ size b.2) (boxes_at base).
Proof.
  destruct layout_sizes as (S1 & S2 & S3 & S4 & S5). split.
  - unfold boxes_at.
    repeat (apply between_cons; [rewrite ?S1, ?S2, ?S3, ?S4, ?S5; lia|by rewrite Z.mod_1_r|
      rewrite ?S1, ?S2, ?S3, ?S4, ?S5; lia|]).
    apply between_nil. rewrite S5. lia.
  - unfold boxes_at. rewrite !Forall_cons. cbn [snd]. rewrite S1, S2, S3, S4, S5. split_and!; try lia. done.
Qed.

Section BootHeap.
(** The address of the heap array, and the text the core library prints for a
    layout. *)
Context (heap_base : Z) (debug_layout : Layout → string).

Local Abbreviation box_new := (box_new heap_base debug_layout).

Context (ks ke pd pt0 pt1 : Z) (h : Idt.Handlers) (thread_entry ret : Z).
Context (screen : nat → nat → ScreenChar).
Context (mem : memory) (info_addr : Z) (es : list MemoryMapEntry) (tables : PagingState) (s : machine).

(** Nothing else that runs before the switch to ring 3 allocates before the last of
    these boxes, so their addresses do not depend on it. *)
Definition kernel_main_on_heap (magic : Z) : outcome (KernelState * list (Z * Layout) * Z) :=
  '(tss, offset) ← box_new 0 tss_layout;
  '(gdt, offset) ← box_new offset gdt_layout;
  '(idt, offset) ← box_new offset idt_layout;
  '(int_stack, offset) ← box_new offset interrupt_stack_layout;
  '(stack, offset) ← box_new offset task_stack_layout;
  k ← kernel_main ks ke pd pt0 pt1 tss gdt idt int_stack stack h thread_entry ret screen mem tables
        (boot_world TaskManager_new) s magic info_addr;
  Ret (k, [(tss, tss_layout); (gdt, gdt_layout); (idt, idt_layout); (int_stack, interrupt_stack_layout);
           (stack, task_stack_layout)], offset).

(** What the boot loader and the linker guarantee: the heap array is part of the
    kernel image, which ends below the user pages. *)
Record loaded : Prop := {
  ld_image : 0 < ks ≤ heap_base ∧ heap_base + HEAP_SIZE ≤ ke ∧ ke ≤ USER_SPACE_START;
  ld_aligned : heap_base mod 4096 = 0;
  ld_map : boot_map mem info_addr es;
  ld_total : reported_kb es ≤ U32_MAX;
  ld_paging : paging_boot pd pt0 pt1 tables;
  ld_handlers : handlers_ok h;
  ld_ring : cs s.1 mod 4 = 0;
}.

Lemma box_new_Ret offset l :
  loaded → 0 ≤ offset → 0 < size l → offset + size l ≤ HEAP_SIZE → align l = 1 →
  box_new offset l = Ret (heap_base + offset, offset + size l).
Proof.
  intros [(Hks & Hke & Huser) _ _ _ _ _ _] Ho Hs Hfit Ha. unfold USER_SPACE_START in *. unfold HEAP_SIZE in *.
  unfold Allocation.box_new. rewrite alloc_eq; [|lia|unfold HEAP_SIZE; lia|].
  - assert (round_up (align l) (heap_base + offset) = heap_base + offset) as ->.
    { unfold round_up. rewrite Ha, Z.mod_1_r. lia. }
    rewrite decide_True by (unfold HEAP_SIZE; lia). cbn [mbind outcome_bind]. unfold null_mut.
    rewrite (proj2 (Z.eqb_neq _ _)) by lia. do 2 f_equal. lia.
  - unfold layout_ok, HEAP_SIZE, U32_MAX. lia.
Qed.

(** The addresses: [heap_base] and 104, 152, 2200 and 10392 bytes further. *)
Lemma boxes_allocated magic :
  loaded →
  kernel_main_on_heap magic =
    k ← kernel_main ks ke pd pt0 pt1 (heap_base + 0) (heap_base + 104) (heap_base + 152) (heap_base + 2200)
          (heap_base + 10392) h thread_entry ret screen mem tables (boot_world TaskManager_new) s magic info_addr;
    Ret (k, boxes_at heap_base, 18584).
Proof.
  intros Hl. unfold kernel_main_on_heap, HEAP_SIZE.
  rewrite (box_new_Ret 0 tss_layout) by done. rewrite bind_Ret. cbv beta iota.
  rewrite (box_new_Ret _ gdt_layout) by done. rewrite bind_Ret. cbv beta iota.
  rewrite (box_new_Ret _ idt_layout) by done. rewrite bind_Ret. cbv beta iota.
  rewrite (box_new_Ret _ interrupt_stack_layout) by done. rewrite bind_Ret. cbv beta iota.
  rewrite (box_new_Ret _ task_stack_layout) by done. rewrite bind_Ret. reflexivity.
Qed.

Lemma loaded_bootable :
  loaded → bootable ks ke pd pt0 pt1 (heap_base + 2200) (heap_base + 10392) h mem info_addr es tables s.
Proof.
  intros [(Hks & Hke & Huser) Hal Hmap Htot Hpg Hh Hring]. unfold USER_SPACE_START, HEAP_SIZE in *.
  split; unfold STACK_SIZE, U32_MAX; try done; lia.
Qed.

(** C24. the structures the processor trusts are protected.  Booting on the heap
    returns, and the task state segment, the descriptor table, the interrupt table,
    the ring 0 stack and the background thread's stack do not overlap, so nothing
    pushed on a stack within its 8 KiB changes a table; the registers and the task
    state segment point at them; the thread's first frame lies at the top of its own
    stack, on a four-byte boundary; and ring 3 can access none of their bytes. *)
Theorem boot_structures_protected :
  loaded →
  ∃ k tss gdt idt int_stack stack offset t,
    kernel_main_on_heap 0x2BADB002 =
      Ret (k, [(tss, tss_layout); (gdt, gdt_layout); (idt, idt_layout); (int_stack, interrupt_stack_layout);
               (stack, task_stack_layout)], offset) ∧
    (let boxes := [(tss, tss_layout); (gdt, gdt_layout); (idt, idt_layout); (int_stack, interrupt_stack_layout);
                   (stack, task_stack_layout)] in
     (∀ i j p l q m, boxes !! i = Some (p, l) → boxes !! j = Some (q, m) → (i < j)%nat → p + size l ≤ q) ∧
     (∀ i p l acc a, boxes !! i = Some (p, l) → p ≤ a < p + size l →
        heap_base ≤ a < heap_base + HEAP_SIZE ∧ translate pd pt0 pt1 (k_paging k) UserMode acc a = None)) ∧
    Gdt.gdt_base (k_segments k) = gdt ∧ k_lidt k = (2047, idt) ∧
    Gdt.esp0 (Gdt.tss (k_tables k)) = int_stack + 8192 ∧
    tasks (scheduler (k_world k)) = [t] ∧ Task.stack t = stack ∧
    stack_ptr t + 44 = stack + STACK_SIZE ∧ stack_ptr t mod 4 = 0.
Proof.
  intros Hl. pose proof Hl as [(Hks & Hke & Huser) Hal Hmap Htot Hpg Hh Hring].
  unfold USER_SPACE_START, HEAP_SIZE in *.
  destruct (kernel_main_result _ _ _ _ _ (heap_base + 0) (heap_base + 104) (heap_base + 152) _ _ h thread_entry ret
    screen mem info_addr es tables s (loaded_bootable Hl))
    as (k & mem' & Hk & _ & _ & Hreg & _ & _ & _ & _ & _ & Hlidt & Hgdt & Htss & Hpaging).
  destruct (booted_thread _ _ _ _ _ _ Hreg) as (t & Ht & Htm).
  assert (0 ≤ heap_base + 10392 ∧ heap_base + 10392 + STACK_SIZE ≤ U32_MAX) as [H0 H1].
  { unfold STACK_SIZE, U32_MAX. lia. }
  pose proof (new_task_frame 0x10 2 "background_thread" Task.Kernel thread_entry (heap_base + 10392) 8 s.2 H0 H1 eq_refl)
    as Hframe.
  rewrite Ht in Hframe. destruct Hframe as (Hsp & _).
  assert (Task.stack t = heap_base + 10392) as Hst by (unfold Task_new in Ht; by simplify_eq).
  exists k. eexists _, _, _, _, _, _, t.
  split; [rewrite boxes_allocated, Hk by done; reflexivity|]. split; [split|].
  - intros i j p l q m Hi Hj Hij. destruct (boxes_between heap_base) as [Hbl Hs].
    exact (blocks_between_order _ _ _ _ Hbl Hs i j p l q m Hij Hi Hj).
  - intros i p l acc a Hi%list_elem_of_lookup_2 Ha. destruct (boxes_between heap_base) as [Hbl Hs].
    destruct (blocks_between_in _ _ _ _ _ _ Hbl Hs Hi) as (H2 & H3 & _).
    assert (heap_base ≤ a < heap_base + 18584) as Hin by lia.
    split; [unfold HEAP_SIZE; lia|]. rewrite Hpaging, translate_space by (done || unfold is_u32, U32_MAX; lia).
    unfold address_space, USER_SPACE_START. by rewrite (proj2 (Z.ltb_lt _ _)) by lia.
  - rewrite Hlidt, Hgdt, Htss, Htm, Hsp. unfold STACK_SIZE. split_and!; try done; [lia|].
    clear -Hal. lia_div.
Qed.

End BootHeap.

Lemma demo_loaded :
  loaded 0x120000 0x100000 0x250000 0x110000 0x111000 0x112000 demo_handlers demo_memory 0x1000 demo_entries
    demo_paging demo_processor.
Proof.
  destruct demo_bootable. by split.
Qed.

Lemma boot_structures_protected_witness :
  ∃ k boxes offset, kernel_main_on_heap 0x120000 (λ _, "Layout") 0x100000 0x250000 0x110000 0x111000 0x112000
      demo_handlers 0x100040 0x100450 demo_screen demo_memory 0x1000 demo_paging demo_processor 0x2BADB002 = Ret (k, boxes, offset) ∧
    Gdt.gdt_base (k_segments k) = 0x120068.
Proof.
  destruct (boot_structures_protected 0x120000 (λ _, "Layout") 0x100000 0x250000 0x110000 0x111000 0x112000
    demo_handlers 0x100040 0x100450 demo_screen demo_memory 0x1000 demo_entries demo_paging demo_processor demo_loaded)
    as (k & tss & gdt & idt & int_stack & stack & offset & t & Hk & _ & Hg & _).
  eexists k, _, _. split; [exact Hk|]. rewrite Hg.
  rewrite (boxes_allocated 0x120000 (λ _, "Layout") _ _ _ _ _ _ _ _ _ _ _ demo_entries _ _ _ demo_loaded) in Hk.
  destruct (kernel_main _ _ _ _ _ _ _ _ _ _ _ _ _ _ _ _ _ _ _ _) as [k'| |]; [|discriminate Hk..].
  rewrite bind_Ret in Hk. unfold boxes_at in Hk. injection Hk as _ _ <- _ _ _. reflexivity.
Defined.
