(* ===== verification/System.v ===== *)
(** * The running kernel

    The components put together as the machine runs them: the world of the shell
    and the scheduler with the heap, the background thread's counter and the
    privilege of the code on the processor, from the moment [kernel_main] enters
    ring 3, under keyboard interrupts, timer ticks, turns of the background thread,
    and system calls, page faults and other exceptions of the ring 3 program. *)

From S2P Require Import Prelude Machine Task TaskProps Scheduler Devices Paging Syscall Input InputProps Heap Shell ShellProps.
From S2P Require Import Allocation Vga VgaProps Display Memory Frames Descriptors Interrupts Exceptions UserProg Kernel BootHeap.
Local Open Scope Z_scope.

Record System := mkSystem {
  s_world : World;
  s_heartbeat : Z;
  s_mode : TaskPrivilege;
}.

(** A turn comes with what its commands demand of the heap; an event on which the
    scheduler may enter the ring 3 program in the task table, with the requests
    [grow] that [tasks.insert] makes. *)
Inductive system_event :=
| Key (scancode : Z)
| Turn (ds : list demand)
| TimerTick (grow : list Layout) (esp : Z)
| UserCall (grow : list Layout) (mem : memory) (n a1 a2 a3 a4 a5 esp : Z)
| UserPageFault (grow : list Layout) (esp fault_addr error_code : Z)
| UserException (vector : nat) (frame : InterruptStackFrame) (error_code : Z).

(** Only the code on the processor takes turns, makes calls or faults, and the
    error code of a fault taken in ring 3 has the user bit set. *)
Definition permitted (ev : system_event) (mode : TaskPrivilege) : bool :=
  match ev with
  | Key _ | TimerTick _ _ => true
  | Turn _ => bool_decide (mode = Kernel)
  | UserCall _ _ _ _ _ _ _ _ _ => bool_decide (mode = User)
  | UserPageFault _ _ _ error_code => bool_decide (mode = User) && negb (Z.land error_code 0x4 =? 0)
  | UserException vector _ _ => bool_decide (mode = User) && (vector <? 32)%nat && negb (vector =? 14)%nat
  end.

Section System.
(** The address of the heap array, and the text the core library prints for a
    layout. *)
Context (heap_base : Z) (debug_layout : Layout → string).

(** *** The heap in the handlers *)

Definition is_sleep (n : Z) : bool := (n =? 2) || (n =? 3).

(** Whether [ensure_main_task_tracked] is about to box a stack: the tick and the
    sleep calls return earlier when there is no task. *)
Definition untracked (tm : TaskManager) : bool := negb (main_task_tracked tm).
Definition makes_placeholder (ev : system_event) (tm : TaskManager) : bool :=
  match ev with
  | TimerTick _ _ => untracked tm && negb (no_tasks tm)
  | UserCall _ _ n _ _ _ _ _ _ => is_sleep n && untracked tm && negb (no_tasks tm)
  | UserPageFault _ _ _ _ => untracked tm
  | _ => false
  end.

(** [Box::new] for the placeholder's stack and the growth of the task vector; the
    address of the stack, if one is made. *)
Definition placeholder_stack (needed : bool) (grow : list Layout) : shell Z :=
  if needed then
    stack ← request heap_base debug_layout task_stack_layout;
    requests heap_base debug_layout grow ;;
    mret stack
  else mret 0.

(** What an event may ask of the heap. *)
Definition requested (ev : system_event) (s : System) : list Layout :=
  match ev with
  | Turn ds => demanded ds
  | TimerTick grow _ | UserCall grow _ _ _ _ _ _ _ _ | UserPageFault grow _ _ _ =>
    if makes_placeholder ev (scheduler (s_world s)) then task_stack_layout :: grow else []
  | _ => []
  end.

(** *** Events *)

(** After a switch the processor runs the task the scheduler chose. *)
Definition switched (tm : TaskManager) (w : World) (heartbeat : Z) : System :=
  mkSystem (set_scheduler tm w) heartbeat (default Kernel (runs_as tm)).

(** The state after the event is [None] when its handler ends in [loop {}]. *)
Definition system_exec (ev : system_event) (s : System) : outcome (list output * option System) :=
  let w := s_world s in
  let stack grow := placeholder_stack (makes_placeholder ev (scheduler w)) grow w in
  match ev with
  | Key scancode =>
    '(q, _) ← keyboard_interrupt_handler scancode (queue w);
    Ret ([], Some (mkSystem (set_queue q w) (s_heartbeat s) (s_mode s)))
  | Turn ds =>
    '(heartbeat, out, w) ← background_turn heap_base debug_layout ds (s_heartbeat s) w;
    Ret (out, Some (mkSystem w heartbeat (s_mode s)))
  | TimerTick grow esp =>
    '(main_stack, _, w) ← stack grow;
    '(_, tm, _) ← scheduler_tick main_stack (scheduler w) esp;
    Ret ([], Some (switched tm w (s_heartbeat s)))
  | UserCall grow mem n a1 a2 a3 a4 a5 esp =>
    '(main_stack, _, w) ← stack grow;
    let '(_, out, tm) := syscall_dispatcher main_stack mem (scheduler w) n a1 a2 a3 a4 a5 esp in
    Ret (out, Some (mkSystem (set_scheduler tm w) (s_heartbeat s) (s_mode s)))
  | UserPageFault grow esp fault_addr error_code =>
    '(main_stack, _, w) ← stack grow;
    '(_, tm, out) ← page_fault_dispatcher main_stack (scheduler w) esp fault_addr error_code;
    Ret (out, Some (switched tm w (s_heartbeat s)))
  | UserException vector frame error_code =>
    let '(out, e) := call_handler (exception_of vector) frame error_code in
    Ret (out, match e with Returns => Some s | Loops => None end)
  end.

(** The state the shell, the scheduler and the heap have when [kernel_main] enters
    ring 3: behind the boxes, [tasks.push] has made the requests [grow]. *)
Definition booted_world (w : World) : Prop :=
  ∃ ks ke pd pt0 pt1 h thread_entry ret screen mem info_addr es tables s k boxes offset grow,
    loaded heap_base ks ke pd pt0 pt1 h mem info_addr es tables s ∧
    kernel_main_on_heap heap_base debug_layout ks ke pd pt0 pt1 h thread_entry ret screen mem info_addr tables s
      0x2BADB002 = Ret (k, boxes, offset) ∧
    Forall (layout_ok heap_base) grow ∧
    requests heap_base debug_layout grow (set_heap offset (k_world k)) = Ret (tt, [], w).

(** Layouts are those the language produces. *)
Inductive reachable : System → Prop :=
| reach_boot w : booted_world w → reachable (mkSystem w 0 User)
| reach_step s ev out s' :
    reachable s → permitted ev (s_mode s) = true → Forall (layout_ok heap_base) (requested ev s) →
    system_exec ev s = Ret (out, Some s') → reachable s'.

(** ** The invariant *)

Definition system_wf (s : System) : Prop :=
  world_wf (Some (s_mode s)) (s_world s) ∧ is_u32 (s_heartbeat s) ∧ heap_ok (s_world s).

Lemma keeps_heap_beat h : keeps_heap
  ((if h mod 400 =? 0 then emit (serial_println "RING 0: Background Thread Alive!") else skip) ;; mret h : shell Z).
Proof. respects_steps. Qed.

Lemma safe_background_turn (Hbase : 0 < heap_base) runner ds h :
  Forall (layout_ok heap_base) (demanded ds) →
  safe_or_full heap_base debug_layout runner (demanded ds) (background_turn heap_base debug_layout ds h).
Proof.
  intros Hds. unfold background_turn. apply safe_or_full_bind; [by apply safe_or_full_poll_input|intros _].
  apply safe_or_full_pure; [|apply keeps_heap_beat].
  apply safe_bind; [|intros _; apply safe_ret]. case_match; [apply safe_emit|apply safe_ret].
Qed.

Lemma background_turn_heartbeat ds h w h' out w' :
  background_turn heap_base debug_layout ds h w = Ret (h', out, w') → h' = as_u32 (h + 1).
Proof.
  unfold background_turn. set (h1 := as_u32 (h + 1)). unfold mbind, shell_bind.
  destruct (poll_input heap_base debug_layout ds w) as [[[u o] w1]| |]; [|done..].
  destruct (h1 mod 400 =? 0); cbn; by intros [= <- _ _].
Qed.

(** Allocating changes the heap's offset and nothing else. *)
Definition only_heap (w w' : World) : Prop := ∃ o, w' = set_heap o w.
#[local] Instance only_heap_preorder : PreOrder only_heap.
Proof. split; [intros w; exists (heap_offset w); by destruct w|]. intros w1 w2 w3 [o1 ->] [o2 ->]. by exists o2. Qed.

Lemma only_heap_request l : respects only_heap (request heap_base debug_layout l).
Proof. unfold request. respects_steps. apply respects_modify. intros w. by eexists. Qed.
#[local] Hint Resolve only_heap_request : shell.

Lemma only_heap_requests ls : respects only_heap (requests heap_base debug_layout ls).
Proof. unfold requests. respects_steps. Qed.
#[local] Hint Resolve only_heap_requests : shell.

Lemma only_heap_placeholder needed grow : respects only_heap (placeholder_stack needed grow).
Proof. unfold placeholder_stack. respects_steps. Qed.

Lemma silent_request l w : ∀ p out w', request heap_base debug_layout l w = Ret (p, out, w') → out = [].
Proof.
  unfold request, mbind, shell_bind, get, lift, modify, mret, shell_ret. intros p out w'.
  destruct (box_new _ _ _ _) as [[]| |]; cbn; congruence.
Qed.

Section Base.
Context (Hbase : 0 < heap_base).

(** The placeholder's stack, or the panic of the allocation error handler. *)
Lemma placeholder_returns ev s needed grow :
  system_wf s → needed = makes_placeholder ev (scheduler (s_world s)) →
  requested ev s = (if needed then task_stack_layout :: grow else []) →
  Forall (layout_ok heap_base) (requested ev s) →
  (∃ main_stack out o, placeholder_stack needed grow (s_world s) = Ret (main_stack, out, set_heap o (s_world s)) ∧
     heap_offset (s_world s) ≤ o ≤ HEAP_SIZE) ∨
  ∃ why, placeholder_stack needed grow (s_world s) = Panic why ∧
    no_room heap_base debug_layout (requested ev s) (heap_offset (s_world s)) why.
Proof.
  intros (Hw & _ & Ho) _ Hreq Hls. rewrite Hreq in *.
  assert (safe_or_full heap_base debug_layout (Some (s_mode s)) (if needed then task_stack_layout :: grow else [])
    (placeholder_stack needed grow)) as Hs.
  { unfold placeholder_stack. destruct needed.
    - apply Forall_cons in Hls as [Hl Hls].
      apply safe_or_full_bind; [eapply safe_or_full_weaken; [|by apply safe_or_full_request]; set_solver|intros p].
      apply safe_or_full_bind; [eapply safe_or_full_weaken; [|by apply safe_or_full_requests]; set_solver|intros _].
      apply safe_or_full_pure; [apply safe_ret|apply respects_ret, _].
    - apply safe_or_full_pure; [apply safe_ret|apply respects_ret, _]. }
  destruct (Hs _ Hw Ho) as [(p & out & w' & Hrun & _ & Ho')|?]; [left|by right].
  destruct (only_heap_placeholder _ _ _ _ _ _ Hrun) as [o ->]. by exists p, out, o.
Qed.

Lemma dispatcher_wf main_stack mem tm n a1 a2 a3 a4 a5 esp r out tm' :
  sched_wf tm → has_kernel_task tm →
  syscall_dispatcher main_stack mem tm n a1 a2 a3 a4 a5 esp = (r, out, tm') →
  sched_wf tm' ∧ has_kernel_task tm' ∧ runs_as tm' = runs_as tm.
Proof.
  intros Hwf Hk. unfold syscall_dispatcher.
  assert (∀ t, sched_wf (sleep_current_task main_stack tm esp t).2 ∧
    has_kernel_task (sleep_current_task main_stack tm esp t).2 ∧
    runs_as (sleep_current_task main_stack tm esp t).2 = runs_as tm) as Hs.
  { intros t. destruct (sleep_wf main_stack tm esp t Hwf Hk). split_and!; [done..|apply sleep_runs_as]. }
  repeat case_match; intros; simplify_eq; try done.
  all: by match goal with H : sleep_current_task _ _ _ ?t = _ |- _ => specialize (Hs t); rewrite H in Hs end.
Qed.

(** Switching to the task a tick or a fault chose. *)
Lemma switched_wf tm t s o :
  system_wf s → 0 ≤ o ≤ HEAP_SIZE → sched_wf tm → has_kernel_task tm → main_task_tracked tm = true →
  tasks tm !! current_task_idx tm = Some t → system_wf (switched tm (set_heap o (s_world s)) (s_heartbeat s)).
Proof.
  intros (Hw & Hh & _) Ho Hwf Hk Htr Ht. split; [|done]. unfold switched. cbn [s_world s_mode].
  assert (runs_as tm = Some (privilege t)) as Hr by (unfold runs_as; by rewrite Htr, Ht).
  rewrite Hr. destruct Hw. by split.
Qed.

(** A page fault of the running program is handled by switching to another task. *)
Lemma user_fault_handled main_stack s o esp fa code :
  system_wf s → 0 ≤ o ≤ HEAP_SIZE → s_mode s = User → negb (Z.land code 0x4 =? 0) = true →
  ∃ sp tm out, page_fault_dispatcher main_stack (scheduler (s_world s)) esp fa code = Ret (sp, tm, out) ∧
    system_wf (switched tm (set_heap o (s_world s)) (s_heartbeat s)).
Proof.
  intros Hs Ho Hm Hu. pose proof Hs as ([_ _ _ _ _ _ Hwf Hk _ Hr] & _). unfold page_fault_dispatcher. rewrite Hu.
  destruct (fault_current main_stack (scheduler (s_world s)) esp Hwf Hk) as (t & Ht & _).
  assert (privilege t = User) as Hpriv.
  { rewrite Hm in Hr. rewrite <- (ensure_runs_as main_stack _ esp) in Hr. unfold runs_as in Hr.
    rewrite ensure_tracked, Ht in Hr. by injection Hr. }
  destruct (fault_spec main_stack _ esp t Hwf Hk Ht)
    as [(Hp' & _)|(_ & tm2 & j & t' & _ & Hj & _ & _ & Hf & Hwf' & Hk' & Htr)]; [congruence|].
  rewrite Hf. cbn. do 3 eexists. split; [reflexivity|]. by eapply switched_wf.
Qed.

(** A handler that stops the machine. *)
Definition stops (ev : system_event) : bool :=
  match ev with UserException vector _ _ => negb (vector =? 3)%nat | _ => false end.

(** What an event does: it returns, the heap only grows, and the invariant is kept
    unless its handler stops the machine; or the heap is exhausted. *)
Definition event_outcome (ev : system_event) (s : System) : Prop :=
  (∃ out r, system_exec ev s = Ret (out, r) ∧
     if stops ev then r = None ∧ length out = 1%nat
     else ∃ s', r = Some s' ∧ system_wf s' ∧ heap_offset (s_world s) ≤ heap_offset (s_world s')) ∨
  ∃ why, system_exec ev s = Panic why ∧ no_room heap_base debug_layout (requested ev s) (heap_offset (s_world s)) why.

Lemma tick_outcome grow esp s :
  system_wf s → Forall (layout_ok heap_base) (requested (TimerTick grow esp) s) → event_outcome (TimerTick grow esp) s.
Proof.
  intros Hs Hls. pose proof Hs as (Hw & _ & _). pose proof Hw as [_ _ _ _ _ _ Hwf Hk _ _].
  unfold event_outcome. cbn [system_exec stops].
  destruct (placeholder_returns (TimerTick grow esp) s _ grow Hs eq_refl eq_refl Hls)
    as [(ms & out & o & -> & Ho)|(why & -> & H)]; [left|right; by exists why].
  rewrite bind_Ret. cbv beta iota. change (scheduler (set_heap o (s_world s))) with (scheduler (s_world s)).
  unfold scheduler_tick.
  destruct (schedule_next_spec ms (scheduler (s_world s)) esp Hwf Hk)
    as (c & tm2 & j & t & _ & _ & _ & _ & _ & Hn & _).
  destruct (schedule_next_returned _ _ _ _ _ Hwf Hk Hn) as (Hwf' & Hk' & Htr & _ & t' & Ht' & _).
  rewrite Hn. cbn. do 2 eexists. split; [reflexivity|]. eexists. split; [done|]. split; [|cbn; lia].
  eapply switched_wf; try done. destruct Hs as (_ & _ & Ho'). unfold heap_ok in Ho'. lia.
Qed.

Lemma call_outcome grow mem n a1 a2 a3 a4 a5 esp s :
  let ev := UserCall grow mem n a1 a2 a3 a4 a5 esp in
  system_wf s → Forall (layout_ok heap_base) (requested ev s) → event_outcome ev s.
Proof.
  cbv zeta. intros Hs Hls. pose proof Hs as (Hw & Hh & Ho'). pose proof Hw as [_ _ _ _ _ _ Hwf Hk _ Hr].
  unfold event_outcome. cbn [system_exec stops].
  destruct (placeholder_returns (UserCall grow mem n a1 a2 a3 a4 a5 esp) s _ grow Hs eq_refl eq_refl Hls)
    as [(ms & out & o & -> & Ho)|(why & -> & H)]; [left|right; by exists why].
  rewrite bind_Ret. cbv beta iota. change (scheduler (set_heap o (s_world s))) with (scheduler (s_world s)).
  destruct (syscall_dispatcher _ _ _ _ _ _ _ _ _ _) as [[r out'] tm] eqn:Hd.
  destruct (dispatcher_wf _ _ _ _ _ _ _ _ _ _ _ _ _ Hwf Hk Hd) as (Hwf' & Hk' & Hr').
  do 2 eexists. split; [reflexivity|]. eexists. split; [done|]. split; [|cbn; lia].
  split; [|split; [done|unfold heap_ok in *; cbn; lia]]. cbn.
  apply set_scheduler_wf; [by apply set_heap_wf|done..|]. by rewrite Hr'.
Qed.

Lemma fault_outcome grow esp fa code s :
  let ev := UserPageFault grow esp fa code in
  system_wf s → permitted ev (s_mode s) = true → Forall (layout_ok heap_base) (requested ev s) → event_outcome ev s.
Proof.
  cbv zeta. intros Hs [Hm%bool_decide_eq_true Hu]%andb_true_iff Hls. unfold event_outcome. cbn [system_exec stops].
  destruct (placeholder_returns (UserPageFault grow esp fa code) s _ grow Hs eq_refl eq_refl Hls)
    as [(ms & out & o & -> & Ho)|(why & -> & H)]; [left|right; by exists why].
  rewrite bind_Ret. cbv beta iota. change (scheduler (set_heap o (s_world s))) with (scheduler (s_world s)).
  assert (0 ≤ o ≤ HEAP_SIZE) as Ho2 by (destruct Hs as (_ & _ & Ho'); unfold heap_ok in Ho'; lia).
  destruct (user_fault_handled ms s o esp fa code Hs Ho2 Hm Hu) as (sp & tm & out' & -> & Hwf').
  rewrite bind_Ret. cbv beta iota. do 2 eexists. split; [reflexivity|]. eexists. split; [done|]. split; [done|cbn; lia].
Qed.

Lemma system_safe ev s :
  system_wf s → permitted ev (s_mode s) = true → Forall (layout_ok heap_base) (requested ev s) → event_outcome ev s.
Proof.
  intros Hs Hp Hls. pose proof Hs as (Hw & Hh & Ho).
  destruct ev as [scancode|ds|grow esp|grow mem n a1 a2 a3 a4 a5 esp|grow esp fa code|v frame code];
    [| |by apply tick_outcome|by apply call_outcome|by apply fault_outcome|];
    unfold event_outcome; cbn [system_exec permitted stops requested] in *.
  - left. destruct (push_spec scancode (queue (s_world s)) (ww_queue Hw)) as (q' & Hp' & Hqw & _).
    unfold keyboard_interrupt_handler, enqueue_scancode_from_irq. rewrite Hp'. cbn.
    do 2 eexists. split; [reflexivity|]. eexists. split; [done|]. split; [|cbn; lia].
    split; [by apply set_queue_wf|done].
  - destruct (safe_background_turn Hbase (Some (s_mode s)) ds (s_heartbeat s) Hls _ Hw Ho)
      as [(h & out & w & Hrun & Hw' & Ho')|(why & -> & H)]; [left|right; by exists why].
    rewrite Hrun. do 2 eexists. split; [reflexivity|]. eexists. split; [done|]. split; [|cbn; lia].
    split; [done|]. cbn. apply background_turn_heartbeat in Hrun as ->.
    split; [unfold is_u32, as_u32, U32_MAX; lia_div|unfold heap_ok in *; cbn; lia].
  - left. apply andb_true_iff in Hp as [_ H14]. unfold exception_of.
    destruct (v =? 3)%nat; [do 2 eexists; split; [reflexivity|]; by exists s|].
    destruct (v =? 8)%nat, (v =? 13)%nat, (pushes_error_code v); by do 2 eexists.
Qed.

End Base.

(** [kernel_main] leaves the scheduler with the background thread registered, and
    the heap with the boxes. *)
Lemma booted_world_boot w :
  booted_world w → 0 < heap_base ∧ ∃ tm o, booted tm ∧ w = set_heap o (boot_world tm) ∧ 18584 ≤ o ≤ HEAP_SIZE.
Proof.
  intros (ks & ke & pd & pt0 & pt1 & h & entry & ret & screen & mem & info & es & tables & s & k & boxes & offset & grow &
    Hl & Hk & Hgrow & Hw).
  assert (0 < heap_base) as Hbase by (destruct Hl as [(? & ? & ?)]; lia). split; [done|].
  rewrite (boxes_allocated heap_base debug_layout ks ke pd pt0 pt1 h entry ret screen mem info es tables s _ Hl) in Hk.
  destruct (kernel_main_result ks ke pd pt0 pt1 (heap_base + 0) (heap_base + 104) (heap_base + 152) _ _ h entry ret screen
    mem info es tables s (loaded_bootable _ _ _ _ _ _ _ _ _ _ _ _ Hl)) as (k' & stack & Hk' & _ & _ & Hreg & Hworld & _).
  rewrite Hk' in Hk. rewrite bind_Ret in Hk. injection Hk as -> _ <-.
  set (tm := scheduler (k_world k)) in *.
  assert (booted tm) as Htm by (by exists entry, (heap_base + 10392), 8, s.2, stack).
  destruct (booted_wf tm Htm) as [Hwf Hker].
  destruct (safe_or_full_requests heap_base debug_layout Hbase (runs_as tm) grow Hgrow (set_heap 18584 (k_world k)))
    as [(a & out & w' & Hrun & _ & Ho)|(why & Hrun & _)].
  - rewrite Hworld. apply set_heap_wf. by apply boot_world_wf.
  - unfold heap_ok, HEAP_SIZE. cbn. lia.
  - rewrite Hw in Hrun. injection Hrun as _ _ <-. destruct (only_heap_requests _ _ _ _ _ Hw) as [o ->].
    exists tm, o. split; [done|]. split; [by rewrite Hworld|exact Ho].
  - by rewrite Hw in Hrun.
Qed.

Lemma reachable_wf s : reachable s → 0 < heap_base ∧ system_wf s.
Proof.
  induction 1 as [w Hb|s ev out s' _ [Hbase IH] Hp Hls Hs].
  - destruct (booted_world_boot w Hb) as (Hbase & tm & o & Htm & -> & Ho). split; [done|]. destruct (booted_wf tm Htm).
    split; [|split; [cbn; unfold is_u32, U32_MAX; lia|unfold heap_ok; cbn; lia]].
    cbn. apply set_heap_wf. rewrite <- (booted_runs_as tm Htm). by apply boot_world_wf.
  - split; [done|].
    destruct (system_safe Hbase ev s IH Hp Hls) as [(out' & r & Hs' & H)|(why & Hs' & _)]; rewrite Hs in Hs'; [|done].
    injection Hs' as <- <-. case_match; [by destruct H|]. by destruct H as (? & [= <-] & ? & _).
Qed.

(** C1. the kernel panics only when the heap is exhausted.  From the state
    [kernel_main] leaves, under any interleaving of keyboard interrupts, timer
    ticks, turns of the background thread with whatever commands were typed, and
    system calls with any arguments and faults of the ring 3 program, every next
    event the processor can produce is handled and returns, with three
    qualifications.  A turn, and the event that enters the ring 3 program in the
    task table, may ask the heap for memory; whatever layouts the library asks for,
    the event then panics only with the out-of-memory message, about one of these
    layouts, which does not fit behind what is in use; the memory in use never
    shrinks.  An exception of the program other than a page fault is reported and
    stops the machine.  Every state reached satisfies the invariants of the input
    line, the history, the scan code queue, the file table and the scheduler, whose
    current task always has the privilege of the code that is running; and the
    screen can show whatever is printed, as the terminal does. *)
Theorem kernel_panics_only_out_of_memory s :
  reachable s →
  world_wf (Some (s_mode s)) (s_world s) ∧ is_u32 (s_heartbeat s) ∧ 0 ≤ heap_offset (s_world s) ≤ HEAP_SIZE ∧
  ∀ ev, permitted ev (s_mode s) = true → Forall (layout_ok heap_base) (requested ev s) →
    (∃ out r, system_exec ev s = Ret (out, r) ∧ (r = None ↔ stops ev = true) ∧ (r = None → length out = 1%nat) ∧
       (∀ s', r = Some s' → heap_offset (s_world s) ≤ heap_offset (s_world s')) ∧
       ∀ screen c t, displays screen c t →
         ∃ screen' ps, render out screen = Ret (screen', ps) ∧ displays screen' (crtc_run ps c) (terminal_of out t)) ∨
    (∃ l offset, l ∈ requested ev s ∧ heap_offset (s_world s) ≤ offset ≤ HEAP_SIZE ∧
       heap_base + HEAP_SIZE < round_up (Heap.align l) (heap_base + offset) + Heap.size l ∧
       system_exec ev s = Panic ("Out of Memory Exception: " +:+ debug_layout l)).
Proof.
  intros [Hbase Hr]%reachable_wf. pose proof Hr as (Hw & Hh & Ho). split_and!; [done|done|apply Ho|apply Ho|].
  intros ev Hp Hls.
  destruct (system_safe Hbase ev s Hr Hp Hls) as [(out & r & H & Hc)|(why & H & l & o & Hl & Ho' & Hfull & ->)].
  - left. exists out, r. split; [done|]. pose proof (render_displays out) as Hrender.
    case_match; [destruct Hc as [-> ?]; by split_and!|]. destruct Hc as (s' & -> & _ & Hmono).
    split_and!; try done. by intros ? [= <-].
  - right. by exists l, o.
Qed.

End System.

(** A machine booted on the heap of [demo_loaded]; the task vector has grown to
    room for four tasks of 48 bytes. *)
Definition demo_debug (l : Layout) : string := "Layout".
Definition demo_world : World :=
  set_heap 18776 (boot_world (mkTM [mkTask 2 "background_thread" Kernel Ready 0x122898 0x12486C 0] 0 3 0 false)).

Lemma demo_booted : booted_world 0x120000 demo_debug demo_world.
Proof.
  destruct (kernel_main_result 0x100000 0x250000 0x110000 0x111000 0x112000 (0x120000 + 0) (0x120000 + 104)
    (0x120000 + 152) _ _ demo_handlers 0x100040 0x100450 demo_screen demo_memory 0x1000 demo_entries demo_paging
    demo_processor (loaded_bootable _ _ _ _ _ _ _ _ _ _ _ _ demo_loaded)) as (k & stack & Hk & _ & _ & Hreg & Hw & _).
  exists 0x100000, 0x250000, 0x110000, 0x111000, 0x112000, demo_handlers, 0x100040, 0x100450, demo_screen,
    demo_memory, 0x1000, demo_entries, demo_paging, demo_processor, k, (boxes_at 0x120000), 18584, [mkLayout 192 8].
  split; [exact demo_loaded|]. split; [|split].
  - rewrite (boxes_allocated 0x120000 _ _ _ _ _ _ _ _ _ _ _ _ demo_entries _ _ _ demo_loaded), Hk. reflexivity.
  - apply (bool_decide_unpack _). vm_compute. reflexivity.
  - remember (scheduler (k_world k)) as tm eqn:Htm. clear Htm. vm_compute in Hreg. injection Hreg as <- _.
    by rewrite Hw.
Qed.

(** Runs of permitted events, computed. *)
Definition demo_run (evs : list system_event) : outcome (option System) :=
  foldl (λ r ev,
    s ← r;
    match s with
    | Some s =>
      if permitted ev (s_mode s) && bool_decide (Forall (layout_ok 0x120000) (requested ev s))
      then '(_, s) ← system_exec 0x120000 demo_debug ev s; Ret s
      else Panic "not permitted"
    | None => Ret None
    end) (Ret (Some (mkSystem demo_world 0 User))) evs.

Lemma demo_run_reachable evs : ∀ s, demo_run evs = Ret (Some s) → reachable 0x120000 demo_debug s.
Proof.
  induction evs as [|ev evs IH] using rev_ind; intros s H.
  - injection H as <-. apply reach_boot, demo_booted.
  - unfold demo_run in H. rewrite foldl_snoc in H. fold (demo_run evs) in H.
    destruct (demo_run evs) as [[s1|]| |] eqn:E; [|done..]. cbn [mbind outcome_bind] in H.
    destruct (permitted ev (s_mode s1)) eqn:Hp; [|done]. cbn [andb] in H.
    case_bool_decide as Hls; [|done].
    destruct (system_exec 0x120000 demo_debug ev s1) as [[out r]| |] eqn:Hx; [|done..]. cbn in H. injection H as ->.
    eapply reach_step; [by eapply IH|exact Hp|exact Hls|exact Hx].
Qed.

(** The program is interrupted, a key arrives, the thread runs the command typed,
    and the program, on the processor again, faults.  A command that then asks for
    a mebibyte runs out of memory. *)
Lemma kernel_panics_only_out_of_memory_witness :
  ∃ s, reachable 0x120000 demo_debug s ∧ s_mode s = Kernel ∧ world_wf (Some Kernel) (s_world s) ∧
    length (tasks (scheduler (s_world s))) = 1%nat ∧ heap_offset (s_world s) = 26996 ∧
    ∃ l, l ∈ [mkLayout 0x100000 1] ∧
      system_exec 0x120000 demo_debug (Turn [([mkLayout 0x100000 1], [])]) s =
        Panic ("Out of Memory Exception: " +:+ demo_debug l).
Proof.
  destruct (demo_run [Key 0x19; TimerTick [] 0x8FC4; Turn [([mkLayout 8 1], [])]; Key 0x1C;
      Turn [([mkLayout 1 1], [mkLayout 16 4])]; TimerTick [] 0x21F00; UserPageFault [] 0x8FC0 0x500000 6; Key 0x1E])
    as [[s|]| |] eqn:E; [|vm_compute in E; discriminate E..].
  apply demo_run_reachable in E as Hr. exists s.
  destruct (kernel_panics_only_out_of_memory 0x120000 demo_debug s Hr) as (Hw & _ & _ & Hev).
  assert (s_mode s = Kernel ∧ length (tasks (scheduler (s_world s))) = 1%nat ∧ heap_offset (s_world s) = 26996 ∧
    ∀ out r, system_exec 0x120000 demo_debug (Turn [([mkLayout 0x100000 1], [])]) s ≠ Ret (out, r)) as (Hm & Hl & Ho & Hfull).
  { vm_compute in E. injection E as <-. split_and!; [reflexivity..|]. intros out r H. vm_compute in H. discriminate H. }
  split; [exact Hr|]. split; [exact Hm|]. rewrite Hm in Hw, Hev. split; [exact Hw|]. split; [exact Hl|]. split; [exact Ho|].
  destruct (Hev (Turn [([mkLayout 0x100000 1], [])]) eq_refl) as [(out & r & H & _)|(l & o & Hin & _ & _ & H)].
  - apply (bool_decide_unpack _). vm_compute. reflexivity.
  - exfalso. exact (Hfull out r H).
  - exists l. split; [exact Hin|exact H].
Defined.
