(* ===== verification/Locks.v ===== *)
(** * Spin locks and interrupts

    The [spin::Mutex] statics of the kernel on its one processor.  A function is
    the sequence of lock operations it performs ([src/shell.rs], [src/task.rs],
    [src/vga_buffer.rs], [src/serial.rs], [src/pic.rs], [src/fs.rs],
    [src/allocator.rs] and [src/interrupts.rs]); the background thread runs such
    functions one after the other and is interrupted wherever the interrupt flag is
    set.  An acquisition of a lock that is held spins, and with interrupts off
    nothing else can run.

    The heap's lock is the one lock that both sides take and that the thread takes
    with interrupts on.  The handlers allocate only in [ensure_main_task_tracked],
    for the placeholder of the ring 3 program, once; the thread runs for the first
    time when a handler that has done so switches to it.  So the machine starts in
    the ring 3 program, with [tracked] false and the thread not started, and
    remembers whether the placeholder exists.  The one-time initialisation of the
    [lazy_static] locks and the stop of the kernel when the heap is exhausted are
    not part of this machine. *)

From S2P Require Import Prelude.

(** ** Locks and functions *)

Inductive lock :=
| PICS | SCHEDULER | SERIAL1 | WRITER | SCANCODE_QUEUE | KEYBOARD_STATE | INPUT_BUFFER | HISTORY | SESSION | FILES
| ALLOCATOR.

#[global] Instance lock_eq_dec : EqDecision lock.
Proof. solve_decision. Defined.

(** [Track] is [self.main_task_tracked = true]. *)
Inductive action := Acquire (l : lock) | Release (l : lock) | Cli | Restore | Track.

#[global] Instance action_eq_dec : EqDecision action.
Proof. solve_decision. Defined.

Abbreviation program := (list action).

(** [{ let guard = L.lock(); body }]. *)
Definition locked (l : lock) (body : program) : program := Acquire l :: body ++ [Release l].
(** [without_interrupts(|| body)]: save the flag and clear it, and restore it. *)
Definition without_interrupts (body : program) : program := Cli :: body ++ [Restore].

(** [alloc] of [src/allocator.rs], and [n] requests to the heap. *)
Definition alloc : program := locked ALLOCATOR [].
Definition allocations (n : nat) : program := concat (replicate n alloc).

(** *** Called from interrupt handlers, with interrupts off *)

(** [Box::new] for the placeholder's stack, and [tasks.insert], which may have to
    enlarge the vector first. *)
Definition ensure_main_task_tracked (tracked grows : bool) : program :=
  if tracked then [] else alloc ++ allocations (if grows then 1 else 0) ++ [Track].

Definition pic_ack : program := locked PICS [].
Definition enqueue_scancode_from_irq : program := locked SCANCODE_QUEUE [].
Definition serial_print : program := without_interrupts (locked SERIAL1 []).
Definition vga_print : program := without_interrupts (locked WRITER []).
Definition sleep_current_task (tracked grows : bool) : program :=
  locked SCHEDULER (ensure_main_task_tracked tracked grows).
Definition terminate_current_user_task_from_fault (tracked grows : bool) : program :=
  locked SCHEDULER (ensure_main_task_tracked tracked grows).

Definition scheduler_tick (tracked grows : bool) : program :=
  pic_ack ++ locked SCHEDULER (ensure_main_task_tracked tracked grows).
Definition keyboard_interrupt_handler : program := enqueue_scancode_from_irq ++ pic_ack.
Definition page_fault_dispatcher (tracked grows : bool) : program :=
  serial_print ++ terminate_current_user_task_from_fault tracked grows.
Definition syscall_print : program := vga_print ++ serial_print.
Definition syscall_sleep (tracked grows : bool) : program := sleep_current_task tracked grows.
Definition syscall_unknown : program := serial_print.

(** *** Called from the background thread; [n] and [m] count requests to the heap *)

Definition scheduler_stats : program := without_interrupts (locked SCHEDULER []).
Definition scheduler_process_snapshot (n : nat) : program := without_interrupts (locked SCHEDULER (allocations n)).
Definition kill_task : program := without_interrupts (locked SCHEDULER []).
Definition clear_screen : program := locked WRITER [].
(** One round of the loop of [poll_input], up to [process_scancode]. *)
Definition poll_pop : program := locked SCANCODE_QUEUE [].
Definition process_scancode_keyboard : program := locked KEYBOARD_STATE [].
Definition read_session : program := locked SESSION [].
Definition print_prompt : program := read_session ++ vga_print.
Definition reset_navigation : program := locked HISTORY [].
(** [clear_visible_input] prints one backspace per character. *)
Definition replace_input_line (visible n : nat) : program :=
  locked INPUT_BUFFER (concat (replicate visible vga_print) ++ allocations n) ++ vga_print.
Definition history_up (n m : nat) : program := locked INPUT_BUFFER (allocations n) ++ locked HISTORY (allocations m).
Definition history_down (n : nat) : program := locked HISTORY (allocations n).
Definition push_backspace : program := locked HISTORY [] ++ locked INPUT_BUFFER [] ++ vga_print.
Definition push_character (n : nat) : program :=
  locked INPUT_BUFFER [] ++ locked HISTORY [] ++ locked INPUT_BUFFER (allocations n) ++ vga_print.
Definition take_command_line (n m : nat) : program :=
  locked INPUT_BUFFER (allocations n) ++ locked HISTORY (allocations m).
Definition file_operation (n : nat) : program := locked FILES (allocations n).
Definition heap_stats : program := locked ALLOCATOR [].

(** Everything the thread runs, for every length of the visible line and every
    number of requests to the heap; [format_bytes] and the other helpers allocate
    with no lock held. *)
Inductive thread_functions : program → Prop :=
| runs_vga_print : thread_functions vga_print
| runs_serial_print : thread_functions serial_print
| runs_clear_screen : thread_functions clear_screen
| runs_scheduler_stats : thread_functions scheduler_stats
| runs_scheduler_process_snapshot n : thread_functions (scheduler_process_snapshot n)
| runs_kill_task : thread_functions kill_task
| runs_poll_pop : thread_functions poll_pop
| runs_process_scancode : thread_functions process_scancode_keyboard
| runs_read_session : thread_functions read_session
| runs_print_prompt : thread_functions print_prompt
| runs_reset_navigation : thread_functions reset_navigation
| runs_history_up n m : thread_functions (history_up n m)
| runs_history_down n : thread_functions (history_down n)
| runs_push_backspace : thread_functions push_backspace
| runs_push_character n : thread_functions (push_character n)
| runs_take_command_line n m : thread_functions (take_command_line n m)
| runs_file_operation n : thread_functions (file_operation n)
| runs_replace_input_line visible n : thread_functions (replace_input_line visible n)
| runs_heap_stats : thread_functions heap_stats
| runs_allocations n : thread_functions (allocations n).

(** ** The processor *)

(** What runs: the thread, the ring 3 program, or a handler that interrupted one of
    them and, if the scheduler chooses, returns to the other. *)
Inductive runner := InThread | InUser | InHandler (rest : program) (from_thread switches : bool).

Record state := mkState {
  held : lock → bool;
  code : program;
  saved : list bool;
  flag : bool;
  running : runner;
  tracked : bool;
}.

Definition set_lock (l : lock) (b : bool) (h : lock → bool) : lock → bool :=
  λ l', if decide (l' = l) then b else h l'.

Inductive interrupt := Timer | Keyboard.
Definition irq_handler (i : interrupt) (tracked grows : bool) : program :=
  match i with Timer => scheduler_tick tracked grows | Keyboard => keyboard_interrupt_handler end.
Definition irq_switches (i : interrupt) : bool := match i with Timer => true | Keyboard => false end.
(** Each with whether it may switch to another task. *)
Definition trap_handlers (tracked grows : bool) : list (program * bool) :=
  [(syscall_print, false); (syscall_sleep tracked grows, false); (syscall_unknown, false);
   (page_fault_dispatcher tracked grows, true)].

Section Machine.
(** The functions the thread may call. *)
Context (functions : program → Prop).

Inductive step : state → state → Prop :=
| thread_call h f tr :
    functions f → step (mkState h [] [] true InThread tr) (mkState h f [] true InThread tr)
| thread_acquire h l rest sv fl tr :
    h l = false →
    step (mkState h (Acquire l :: rest) sv fl InThread tr) (mkState (set_lock l true h) rest sv fl InThread tr)
| thread_release h l rest sv fl tr :
    step (mkState h (Release l :: rest) sv fl InThread tr) (mkState (set_lock l false h) rest sv fl InThread tr)
| thread_cli h rest sv fl tr :
    step (mkState h (Cli :: rest) sv fl InThread tr) (mkState h rest (fl :: sv) false InThread tr)
| thread_restore h rest b sv fl tr :
    step (mkState h (Restore :: rest) (b :: sv) fl InThread tr) (mkState h rest sv (fl || b) InThread tr)
| irq_thread h c sv tr i grows :
    step (mkState h c sv true InThread tr)
         (mkState h c sv true (InHandler (irq_handler i tr grows) true (irq_switches i)) tr)
| irq_user h c sv fl tr i grows :
    step (mkState h c sv fl InUser tr)
         (mkState h c sv fl (InHandler (irq_handler i tr grows) false (irq_switches i)) tr)
| user_trap h c sv fl tr f sw grows :
    (f, sw) ∈ trap_handlers tr grows →
    step (mkState h c sv fl InUser tr) (mkState h c sv fl (InHandler f false sw) tr)
| handler_acquire h c sv fl l rest from sw tr :
    h l = false →
    step (mkState h c sv fl (InHandler (Acquire l :: rest) from sw) tr)
         (mkState (set_lock l true h) c sv fl (InHandler rest from sw) tr)
| handler_release h c sv fl l rest from sw tr :
    step (mkState h c sv fl (InHandler (Release l :: rest) from sw) tr)
         (mkState (set_lock l false h) c sv fl (InHandler rest from sw) tr)
| handler_flag h c sv fl a rest from sw tr :
    a = Cli ∨ a = Restore →
    step (mkState h c sv fl (InHandler (a :: rest) from sw) tr) (mkState h c sv fl (InHandler rest from sw) tr)
| handler_track h c sv fl rest from sw tr :
    step (mkState h c sv fl (InHandler (Track :: rest) from sw) tr)
         (mkState h c sv fl (InHandler rest from sw) true)
| handler_return h c sv fl from sw to tr :
    to = from ∨ sw = true →
    step (mkState h c sv fl (InHandler [] from sw) tr)
         (mkState h c sv fl (if to : bool then InThread else InUser) tr).

(** The kernel has entered ring 3 and enabled interrupts; the thread has not run. *)
Definition start : state := mkState (λ _, false) [] [] true InUser false.

Definition reachable : state → Prop := rtc step start.

(** Nothing can happen any more. *)
Definition hung (s : state) : Prop := ∀ s', ¬ step s s'.

End Machine.

(** ** The discipline *)

(** The locks a handler may take while the thread runs. *)
Definition irq_lock (l : lock) : bool :=
  match l with PICS | SCHEDULER | SERIAL1 | WRITER | SCANCODE_QUEUE => true | _ => false end.

(** Runs a function on the locks it holds, the saved flags and the flag: a lock the
    handlers take is only taken, and only held, with interrupts off; no lock is
    taken twice; the function ends with nothing held and interrupts on. *)
Fixpoint check (mine : list lock) (sv : list bool) (fl : bool) (c : program) : bool :=
  match c with
  | [] => bool_decide (mine = []) && bool_decide (sv = []) && fl
  | Acquire l :: c => negb (bool_decide (l ∈ mine)) && negb (irq_lock l && fl) && check (l :: mine) sv fl c
  | Release l :: c => bool_decide (l ∈ mine) && check (filter (λ l', l' ≠ l) mine) sv fl c
  | Cli :: c => check mine (fl :: sv) false c
  | Restore :: c =>
    match sv with
    | b :: sv => negb ((fl || b) && existsb irq_lock mine) && check mine sv (fl || b) c
    | [] => false
    end
  | Track :: _ => false
  end.

Definition disciplined (f : program) : bool := check [] [] true f.

(** A handler, one acquisition at a time: the locks it holds; [idle] says that the
    thread has not started, so that any lock may be taken. *)
Fixpoint check_handler (idle : bool) (mine : list lock) (c : program) : bool :=
  match c with
  | [] => bool_decide (mine = [])
  | Acquire l :: c => negb (bool_decide (l ∈ mine)) && (idle || irq_lock l) && check_handler idle (l :: mine) c
  | Release l :: c => bool_decide (l ∈ mine) && check_handler idle (filter (λ l', l' ≠ l) mine) c
  | _ :: c => check_handler idle mine c
  end.

(** ** Lemmas *)

Lemma existsb_irq_false mine l : existsb irq_lock mine = false → irq_lock l = true → l ∉ mine.
Proof.
  intros Hm Hl Hin. assert (existsb irq_lock mine = true); [|congruence].
  apply existsb_exists. exists l. by rewrite <- list_elem_of_In.
Qed.

Lemma set_lock_acquire (mine : list lock) h l :
  (∀ l', h l' = bool_decide (l' ∈ mine)) → ∀ l', set_lock l true h l' = bool_decide (l' ∈ l :: mine).
Proof.
  intros H l'. unfold set_lock. rewrite H. symmetry.
  case_decide; [apply bool_decide_eq_true; subst; by left|apply bool_decide_ext; set_solver].
Qed.

Lemma set_lock_release (mine : list lock) h l :
  (∀ l', h l' = bool_decide (l' ∈ mine)) →
  ∀ l', set_lock l false h l' = bool_decide (l' ∈ filter (λ l', l' ≠ l) mine).
Proof.
  intros H l'. unfold set_lock. rewrite H. symmetry.
  case_decide; [apply bool_decide_eq_false|apply bool_decide_ext]; rewrite list_elem_of_filter; naive_solver.
Qed.

Lemma existsb_filter (P : lock → bool) mine l : existsb P mine = false → existsb P (filter (λ l', l' ≠ l) mine) = false.
Proof.
  intros H. apply not_true_iff_false. intros (x & Hx & Hp)%existsb_exists.
  apply list_elem_of_In, list_elem_of_filter in Hx as [_ Hx].
  apply not_true_iff_false in H. apply H, existsb_exists. exists x. by rewrite <- list_elem_of_In.
Qed.

(** What holds of every handler that starts: it is disciplined, and if it may
    switch while the ring 3 program is not tracked, it tracks it. *)
Definition handler_starts (tr sw : bool) (c : program) : Prop :=
  check_handler (negb tr) [] c = true ∧ (tr = false → sw = true → Track ∈ c).

Lemma irq_starts i tr grows : handler_starts tr (irq_switches i) (irq_handler i tr grows).
Proof.
  split; [by destruct i, tr, grows|]. intros -> Hsw. destruct i; [|done].
  apply list_elem_of_In. destruct grows; cbn; tauto.
Qed.

Lemma trap_starts f sw tr grows : (f, sw) ∈ trap_handlers tr grows → handler_starts tr sw f.
Proof.
  unfold trap_handlers. intros H. repeat (apply elem_of_cons in H as [H|H];
    [injection H as -> ->; split; [by destruct tr, grows|];
     intros -> Hsw; try done; apply list_elem_of_In; destruct grows; cbn; tauto|]).
  by apply elem_of_nil in H.
Qed.

(** ** The invariant *)

(** The thread holds [mine] and is at a point its discipline allows. *)
Definition thread_at (mine : list lock) (s : state) : Prop :=
  check mine (saved s) (flag s) (code s) = true ∧ (flag s = true → existsb irq_lock mine = false) ∧
  (tracked s = false → mine = []).

Definition invariant (s : state) : Prop :=
  ∃ mine, thread_at mine s ∧
  match running s with
  | InThread => tracked s = true ∧ ∀ l, held s l = bool_decide (l ∈ mine)
  | InUser => flag s = true ∧ ∀ l, held s l = bool_decide (l ∈ mine)
  | InHandler rest from sw =>
    flag s = true ∧ (tracked s = true ∨ from = false ∧ (sw = true → Track ∈ rest)) ∧
    ∃ idle theirs, check_handler idle theirs rest = true ∧ (idle = true → mine = []) ∧
      (∀ l, l ∈ theirs → idle = true ∨ irq_lock l = true) ∧
      ∀ l, held s l = bool_decide (l ∈ theirs ++ mine)
  end.

(** A lock of the handler is not one of the thread's. *)
Lemma handler_lock_apart mine (idle : bool) l :
  existsb irq_lock mine = false → (idle = true → mine = []) → idle = true ∨ irq_lock l = true → l ∉ mine.
Proof.
  intros Hm Hidle [Hi|Hl]; [rewrite (Hidle Hi); apply not_elem_of_nil|by apply existsb_irq_false].
Qed.

Lemma handler_invariant mine h c sv tr from sw f :
  thread_at mine (mkState h c sv true InUser tr) → (∀ l, h l = bool_decide (l ∈ mine)) →
  handler_starts tr sw f → (tr = true ∨ from = false) →
  invariant (mkState h c sv true (InHandler f from sw) tr).
Proof.
  intros Hat Hr [Hf Htrack] Hfrom. exists mine. split; [done|]. split; [done|]. split.
  - destruct tr; [by left|]. right. destruct Hfrom as [?|Hfrom]; [done|]. split; [done|]. by apply Htrack.
  - exists (negb tr), []. split_and!; [done| |set_solver|done]. intros Hi. apply Hat. by destruct tr.
Qed.

Section Safe.
Context (functions : program → Prop) (ok : ∀ f, functions f → disciplined f = true).

Lemma step_invariant s s' : step functions s s' → invariant s → invariant s'.
Proof.
  intros Hstep (mine & (Hc & Hf & Ht) & Hr). destruct Hstep;
    cbn [running flag saved code held tracked] in *.
  - cbn in Hc. apply andb_true_iff in Hc as [Hm _]. apply andb_true_iff in Hm as [->%bool_decide_eq_true _].
    exists []. split; [|done]. split; [by apply ok|done].
  - cbn in Hc. rewrite !andb_true_iff, !negb_true_iff in Hc. destruct Hc as [[Hl Hi] Hc]. destruct Hr as [-> Hr].
    exists (l :: mine). split; [|split; [done|by apply set_lock_acquire]]. split; [done|]. split; [|done]. intros Hfl.
    cbn in *. rewrite Hfl, andb_true_r in Hi. by rewrite Hi, Hf.
  - cbn in Hc. apply andb_true_iff in Hc as [_ Hc]. destruct Hr as [-> Hr].
    eexists. split; [|split; [done|by apply set_lock_release]]. split; [done|]. split; [|done].
    intros Hfl. by apply existsb_filter, Hf.
  - exists mine. by split; [split|].
  - cbn in Hc. apply andb_true_iff in Hc as [Hi Hc]. exists mine. split; [split; [done|split; [|done]]|done]. cbn.
    intros Hfl. rewrite Hfl in Hi. by apply negb_true_iff in Hi.
  - destruct Hr as [-> Hr]. by apply (handler_invariant mine); [..|apply irq_starts|left].
  - destruct Hr as [-> Hr]. by apply (handler_invariant mine); [..|apply irq_starts|right].
  - destruct Hr as [-> Hr]. by apply (handler_invariant mine); [..|eapply trap_starts|right].
  - destruct Hr as (-> & Htr & idle & theirs & Hh & Hidle & Hi & Hr). cbn in Hh. rewrite !andb_true_iff, orb_true_iff in Hh.
    destruct Hh as [[_ Hil] Hh]. exists mine. split; [by split|]. split; [done|].
    split; [destruct Htr as [?|[? Htr]]; [by left|right; split; [done|]; intros Hsw; specialize (Htr Hsw); set_solver]|].
    exists idle, (l :: theirs). split_and!; [done|done|set_solver|by apply set_lock_acquire].
  - destruct Hr as (-> & Htr & idle & theirs & Hh & Hidle & Hi & Hr). cbn in Hh.
    rewrite andb_true_iff, bool_decide_eq_true in Hh. destruct Hh as [Hl Hh].
    exists mine. split; [by split|]. split; [done|].
    split; [destruct Htr as [?|[? Htr]]; [by left|right; split; [done|]; intros Hsw; specialize (Htr Hsw); set_solver]|].
    exists idle, (filter (λ l', l' ≠ l) theirs).
    split_and!; [done|done|intros l'; rewrite list_elem_of_filter; naive_solver|].
    intros l'. cbn [held]. rewrite (set_lock_release _ _ _ Hr). apply bool_decide_ext.
    pose proof (handler_lock_apart mine idle l (Hf eq_refl) Hidle (Hi l Hl)).
    rewrite !list_elem_of_filter, !elem_of_app, list_elem_of_filter. destruct (decide (l' = l)); naive_solver.
  - destruct Hr as (-> & Htr & idle & theirs & Hh & Hidle & Hi & Hr).
    exists mine. split; [by split|]. split; [done|].
    split; [destruct Htr as [?|[? Htr]]; [by left|right; split; [done|]; intros Hsw; specialize (Htr Hsw)]|];
      [destruct H as [-> | ->]; set_solver|].
    exists idle, theirs. split_and!; try done. by destruct H as [-> | ->].
  - destruct Hr as (-> & Htr & idle & theirs & Hh & Hidle & Hi & Hr).
    exists mine. split; [by split|]. split; [done|]. split; [by left|]. by exists idle, theirs.
  - destruct Hr as (-> & Htr & idle & theirs & ->%bool_decide_eq_true & Hidle & Hi & Hr).
    exists mine. split; [by split|]. destruct to; [|done]. split; [|done].
    destruct Htr as [Htr|[-> Htr]]; [done|]. destruct H as [?|Hsw]; [done|].
    by apply Htr, elem_of_nil in Hsw.
Qed.

Lemma reachable_invariant s : reachable functions s → invariant s.
Proof.
  intros H. assert (invariant start) as H0 by (exists []; done).
  revert s H. apply (rtc_ind_r invariant start H0). intros s s' _ Hstep. by apply step_invariant.
Qed.

Lemma handler_free s l rest from sw :
  invariant s → running s = InHandler (Acquire l :: rest) from sw → held s l = false.
Proof.
  intros (mine & (_ & Hf & _) & Hr) Hrun. rewrite Hrun in Hr. destruct Hr as (Hfl & _ & idle & theirs & Hh & Hidle & _ & Hr).
  cbn in Hh. rewrite !andb_true_iff, negb_true_iff, bool_decide_eq_false, orb_true_iff in Hh. destruct Hh as [[Hl Hil] _].
  rewrite Hr, bool_decide_eq_false, elem_of_app.
  pose proof (handler_lock_apart mine idle l (Hf Hfl) Hidle Hil). naive_solver.
Qed.

Lemma thread_irq_free s l :
  invariant s → running s = InThread → flag s = true → irq_lock l = true → held s l = false.
Proof.
  intros (mine & (_ & Hf & _) & Hr) Hrun Hfl Hl. rewrite Hrun in Hr. destruct Hr as [_ ->].
  apply bool_decide_eq_false. by apply existsb_irq_false; [apply Hf|].
Qed.

Lemma invariant_moves s : invariant s → ∃ s', step functions s s'.
Proof.
  destruct s as [h c sv fl r tr]. intros Hinv. pose proof Hinv as (mine & (Hc & Hf & Ht) & Hr).
  destruct r as [| |rest from sw]; cbn in Hc, Hr.
  - destruct Hr as [_ Hr]. destruct fl; [eexists; apply (irq_thread _ _ _ _ _ Timer false)|].
    destruct c as [|[l|l| | |] c]; cbn in Hc.
    + by rewrite !andb_false_r in Hc.
    + rewrite !andb_true_iff, negb_true_iff, bool_decide_eq_false in Hc. destruct Hc as [[Hl _] _].
      eexists. apply thread_acquire. by rewrite Hr, bool_decide_eq_false.
    + eexists. apply thread_release.
    + eexists. apply thread_cli.
    + destruct sv; [done|]. eexists. apply thread_restore.
    + done.
  - eexists. apply (irq_user _ _ _ _ _ _ Timer false).
  - destruct rest as [|[l|l| | |] rest].
    + eexists. apply (handler_return _ _ _ _ _ _ _ from). by left.
    + eexists. apply handler_acquire. by apply (handler_free _ l rest from sw Hinv).
    + eexists. apply handler_release.
    + eexists. apply handler_flag. by left.
    + eexists. apply handler_flag. by right.
    + eexists. apply handler_track.
Qed.

Lemma invariant_free s l rest :
  invariant s → running s = InThread → code s = Acquire l :: rest → held s l = false.
Proof.
  intros (mine & [Hc _] & Hr) Hrun Hcode. rewrite Hrun in Hr. rewrite Hcode in Hc. cbn in Hc.
  rewrite !andb_true_iff, negb_true_iff in Hc. destruct Hr as [_ Hr]. rewrite Hr. apply Hc.
Qed.

End Safe.

(** Requests to the heap keep the discipline, whatever else is held. *)
Lemma check_allocations mine sv fl n c :
  ALLOCATOR ∉ mine → check mine sv fl (allocations n ++ c) = check mine sv fl c.
Proof.
  intros Hm. assert (filter (λ l', l' ≠ ALLOCATOR) (ALLOCATOR :: mine) = mine) as Hfil.
  { rewrite filter_cons_False by tauto. clear -Hm. induction mine as [|l mine IH]; [done|].
    apply not_elem_of_cons in Hm as [? ?]. rewrite filter_cons_True by done. by rewrite IH. }
  induction n as [|n IH]; [done|]. unfold allocations. cbn [replicate concat]. rewrite <- app_assoc.
  unfold alloc, locked. cbn [app check]. rewrite Hfil. fold (allocations n).
  rewrite (bool_decide_eq_false_2 (ALLOCATOR ∈ mine)) by done.
  rewrite (bool_decide_eq_true_2 (ALLOCATOR ∈ ALLOCATOR :: mine)) by (by left). cbn [irq_lock andb negb]. apply IH.
Qed.

Lemma check_prints mine sv fl n c :
  WRITER ∉ mine → existsb irq_lock mine = false → check mine sv fl (concat (replicate n vga_print) ++ c) = check mine sv fl c.
Proof.
  intros Hm Hirq. assert (filter (λ l', l' ≠ WRITER) (WRITER :: mine) = mine) as Hfil.
  { rewrite filter_cons_False by tauto. clear -Hm. induction mine as [|l mine IH]; [done|].
    apply not_elem_of_cons in Hm as [? ?]. rewrite filter_cons_True by done. by rewrite IH. }
  induction n as [|n IH]; [done|]. cbn [replicate concat]. rewrite <- app_assoc.
  unfold vga_print at 1, without_interrupts, locked. cbn [app check]. rewrite Hfil, Hirq.
  rewrite (bool_decide_eq_false_2 (WRITER ∈ mine)) by done.
  rewrite (bool_decide_eq_true_2 (WRITER ∈ WRITER :: mine)) by (by left).
  cbn [orb irq_lock andb negb]. rewrite andb_false_r. cbn [negb andb]. apply IH.
Qed.

(** The two functions that break the discipline, and what would mend them. *)
Definition guarded : list program := [without_interrupts poll_pop; without_interrupts clear_screen].

Lemma thread_functions_disciplined f :
  thread_functions f ∨ f ∈ guarded → f ≠ poll_pop → f ≠ clear_screen → disciplined f = true.
Proof.
  intros [Hf|Hf] Hp Hc.
  - unfold disciplined. destruct Hf; try done;
      unfold scheduler_process_snapshot, history_up, history_down, push_character, take_command_line, file_operation,
        replace_input_line, without_interrupts, locked;
      rewrite <- ?app_assoc, <- ?app_comm_cons, <- ?app_assoc; cbn [app check];
      rewrite ?check_prints by (done || set_solver);
      rewrite ?check_allocations by set_solver; try done.
    1,2: cbn [app check]; rewrite check_allocations by set_solver; done.
    rewrite <- (app_nil_r (allocations n)), check_allocations by set_solver. done.
  - unfold guarded in Hf. set_unfold in Hf. by destruct Hf as [->|[->|[]]].
Qed.

(** ** Claims *)

(** C13. apart from two functions the kernel's locks cannot hang it.  While the
    background thread runs any sequence of the kernel's functions other than
    [poll_input]'s pop and [clear_screen] (or these two under
    [without_interrupts]), interrupted anywhere by the timer and the keyboard, with
    system calls and faults of the ring 3 program in between, no reachable state is
    stuck, and whenever the thread or a handler takes a lock the lock is free.  With
    interrupts on the thread holds no lock but those no handler takes any more once
    the thread runs. *)
Theorem locks_never_hang fs s :
  (∀ f, fs f → (thread_functions f ∨ f ∈ guarded) ∧ f ≠ poll_pop ∧ f ≠ clear_screen) →
  reachable fs s →
  (∃ s', step fs s s') ∧
  (∀ l rest, running s = InThread → code s = Acquire l :: rest → held s l = false) ∧
  (∀ l rest from sw, running s = InHandler (Acquire l :: rest) from sw → held s l = false) ∧
  (∀ l, running s = InThread → flag s = true → irq_lock l = true → held s l = false).
Proof.
  intros Hfs Hs. assert (∀ f, fs f → disciplined f = true) as Hok.
  { intros f Hf. destruct (Hfs f Hf) as (H1 & H2 & H3). by apply thread_functions_disciplined. }
  pose proof (reachable_invariant fs Hok s Hs) as Hinv.
  split_and!; [by apply invariant_moves|intros; by eapply invariant_free|intros; by eapply handler_free|].
  intros. by apply thread_irq_free.
Qed.

(** The first tick, on which the handler allocates and switches to the thread. *)
Lemma first_tick_steps fs :
  reachable fs (mkState (set_lock SCHEDULER false (set_lock ALLOCATOR false (set_lock ALLOCATOR true
    (set_lock SCHEDULER true (set_lock PICS false (set_lock PICS true (λ _, false))))))) [] [] true InThread true).
Proof.
  eapply rtc_l; [apply (irq_user _ _ _ _ _ _ Timer false)|].
  eapply rtc_l; [by apply handler_acquire|]. eapply rtc_l; [apply handler_release|].
  eapply rtc_l; [by apply handler_acquire|]. eapply rtc_l; [by apply handler_acquire|].
  eapply rtc_l; [apply handler_release|]. eapply rtc_l; [apply handler_track|].
  eapply rtc_l; [apply handler_release|].
  eapply rtc_l; [apply (handler_return _ _ _ _ _ _ _ true); by right|]. apply rtc_refl.
Qed.

(** The thread is interrupted by a key while it allocates; the handler goes on. *)
Lemma locks_never_hang_witness :
  ∃ s, reachable (λ f, f = kill_task ∨ f = allocations 1) s ∧
    running s = InHandler [Acquire PICS; Release PICS] true false ∧ held s ALLOCATOR = true ∧
    ∃ s', step (λ f, f = kill_task ∨ f = allocations 1) s s'.
Proof.
  set (fs := λ f, f = kill_task ∨ f = allocations 1).
  assert (∃ s, reachable fs s ∧ running s = InHandler [Acquire PICS; Release PICS] true false ∧ held s ALLOCATOR = true)
    as (s & Hs & Hr & Ha).
  { eexists. split.
    - eapply (transitivity (R := rtc (step _))); [apply first_tick_steps|].
      eapply rtc_l; [apply (thread_call _ _ (allocations 1)); by right|].
      eapply rtc_l; [by apply thread_acquire|]. eapply rtc_l; [apply (irq_thread _ _ _ _ _ Keyboard false)|].
      eapply rtc_l; [by apply handler_acquire|]. eapply rtc_l; [apply handler_release|]. apply rtc_refl.
    - split; reflexivity. }
  exists s. split; [exact Hs|]. split; [exact Hr|]. split; [exact Ha|]. apply (locks_never_hang fs); [|exact Hs].
  intros f [->| ->]; (split; [left; constructor|split; discriminate]).
Defined.

(** C14. the two unguarded critical sections hang the kernel.  A keyboard
    interrupt while [poll_input] holds the queue's lock waits for that lock with
    interrupts off; and a timer tick while [clear_screen] holds the writer's lock,
    which switches to the ring 3 program, lets that program's print wait for it
    with interrupts off.  In both states no step is possible any more. *)
Theorem unguarded_locks_hang :
  (∃ s, reachable thread_functions s ∧ running s = InHandler keyboard_interrupt_handler true false ∧ hung thread_functions s) ∧
  (∃ s, reachable thread_functions s ∧
     running s = InHandler (locked WRITER [] ++ [Restore] ++ serial_print) false false ∧ hung thread_functions s).
Proof.
  split.
  - eexists. split; [|split].
    + eapply (transitivity (R := rtc (step _))); [apply first_tick_steps|]. eapply rtc_l; [apply (thread_call _ _ poll_pop); constructor|].
      eapply rtc_l; [by apply thread_acquire|].
      eapply rtc_l; [apply (irq_thread _ _ _ _ _ Keyboard false)|]. apply rtc_refl.
    + reflexivity.
    + intros s' Hs. inversion Hs; subst; naive_solver.
  - eexists. split; [|split].
    + eapply (transitivity (R := rtc (step _))); [apply first_tick_steps|]. eapply rtc_l; [apply (thread_call _ _ clear_screen); constructor|].
      eapply rtc_l; [by apply thread_acquire|]. eapply rtc_l; [apply (irq_thread _ _ _ _ _ Timer false)|].
      eapply rtc_l; [by apply handler_acquire|]. eapply rtc_l; [apply handler_release|].
      eapply rtc_l; [by apply handler_acquire|]. eapply rtc_l; [apply handler_release|].
      eapply rtc_l; [apply (handler_return _ _ _ _ _ _ _ false); by right|].
      eapply rtc_l; [apply (user_trap _ _ _ _ _ _ syscall_print false false); unfold trap_handlers; set_solver|].
      eapply rtc_l; [apply handler_flag; by left|]. apply rtc_refl.
    + reflexivity.
    + intros s' Hs. inversion Hs; subst; naive_solver.
Qed.
